(** * ResearStudio: the client-side virtual file system and tab manager

    A shallow embedding of the path normalisers ([normalizeFilename] of
    frontend/lib/utils.ts, [PathUtils.normalizePath] of
    frontend/lib/path-utils.ts), of the flat [FileSystemManager] of the
    computer-view component and of the [EnhancedFileSystemManager], followed
    by the properties of the specification that concern them.

    Conventions of the embedding.
    - A JavaScript string is a [string]: a sequence of code units, here
      restricted to the 8-bit range (Latin-1).
    - A JavaScript [Map] is an association list in insertion order
      ([JsMap]), because the managers iterate over their maps.
    - Mutation is explicit state passing; the objects held in a map are
      reached through their key only, so a functional map of records has the
      same observable behaviour as the map of aliased objects.
    - [Date.now()] is an argument [now] of every operation that reads the
      clock; an emitted event is appended to a log. *)

From Stdlib Require Import String Ascii List Bool Arith ZArith NArith Lia.
From Stdlib Require Import DecimalString Permutation.
Import ListNotations.
Open Scope string_scope.
Open Scope nat_scope.

Set Implicit Arguments.

(* ================================================================== *)
(** * JavaScript string primitives *)
(* ================================================================== *)

Module JsString.

(** [s.startsWith(p)] *)
Fixpoint startsWith (s p : string) {struct p} : bool :=
  match p with
  | EmptyString => true
  | String b p' =>
      match s with
      | EmptyString => false
      | String a s' => Ascii.eqb a b && startsWith s' p'
      end
  end.

(** [s.substring(n)] for [0 <= n] *)
Fixpoint substringFrom (n : nat) (s : string) : string :=
  match n, s with
  | 0, _ => s
  | S _, EmptyString => EmptyString
  | S n', String _ r => substringFrom n' r
  end.

(** [s.substring(0, n)] *)
Fixpoint substringTo (n : nat) (s : string) : string :=
  match n, s with
  | 0, _ => EmptyString
  | S _, EmptyString => EmptyString
  | S n', String c r => String c (substringTo n' r)
  end.

(** White space of [String.prototype.trim] within the 8-bit range:
    TAB, LF, VT, FF, CR, SP and NBSP. *)
Definition isWhiteSpace (c : ascii) : bool :=
  let n := nat_of_ascii c in
  ((9 <=? n) && (n <=? 13)) || (n =? 32) || (n =? 160).

Fixpoint trimStart (s : string) : string :=
  match s with
  | String c r => if isWhiteSpace c then trimStart r else s
  | EmptyString => EmptyString
  end.

Fixpoint trimEnd (s : string) : string :=
  match s with
  | EmptyString => EmptyString
  | String c r =>
      match trimEnd r with
      | EmptyString =>
          if isWhiteSpace c then EmptyString else String c EmptyString
      | r' => String c r'
      end
  end.

(** [s.trim()] *)
Definition trim (s : string) : string := trimEnd (trimStart s).

(** Lower-casing of one code unit of the 8-bit range: A-Z and the
    Latin-1 capitals other than the multiplication sign. *)
Definition lowerChar (c : ascii) : ascii :=
  let n := nat_of_ascii c in
  if ((65 <=? n) && (n <=? 90))
     || ((192 <=? n) && (n <=? 222) && negb (n =? 215))
  then ascii_of_nat (n + 32) else c.

(** [s.toLowerCase()] *)
Fixpoint toLowerCase (s : string) : string :=
  match s with
  | EmptyString => EmptyString
  | String c r => String (lowerChar c) (toLowerCase r)
  end.

(** [s.lastIndexOf(c)]: [None] stands for -1. *)
Fixpoint lastIndexOf (c : ascii) (s : string) : option nat :=
  match s with
  | EmptyString => None
  | String d r =>
      match lastIndexOf c r with
      | Some i => Some (S i)
      | None => if Ascii.eqb d c then Some 0 else None
      end
  end.

(** [s.endsWith(p)] *)
Definition endsWith (s p : string) : bool :=
  (String.length p <=? String.length s)
  && String.eqb (substringFrom (String.length s - String.length p) s) p.

(** [new Blob([s]).size]: the length of the UTF-8 encoding. *)
Fixpoint blobSize (s : string) : N :=
  match s with
  | EmptyString => 0%N
  | String c r =>
      ((if (nat_of_ascii c <? 128)%nat then 1 else 2) + blobSize r)%N
  end.

(** Decimal rendering of a number inside a template literal. *)
Definition ofNumber (n : N) : string :=
  NilZero.string_of_uint (N.to_uint n).

(** [s.split(c)] for a separator of one code unit: the pieces between
    the occurrences of [c], of which there is always at least one. *)
Fixpoint split (c : ascii) (s : string) : list string :=
  match s with
  | EmptyString => [EmptyString]
  | String d r =>
      if Ascii.eqb d c then EmptyString :: split c r
      else
        match split c r with
        | piece :: pieces => String d piece :: pieces
        | [] => [String d EmptyString]
        end
  end.

End JsString.

Abbreviation slash := ("/"%char) (only parsing).

(* ================================================================== *)
(** * Path normalisation *)
(* ================================================================== *)

(** [normalizeFilename] of frontend/lib/utils.ts. *)
Definition workspacePrefixes : list string :=
  [ "workspace/"; "workspace\" ].

(** The [for ... break] loop over the workspace prefixes. *)
Fixpoint stripWorkspacePrefix (prefixes : list string)
         (lowerNormalized normalized : string) : string :=
  match prefixes with
  | [] => normalized
  | prefix :: rest =>
      if JsString.startsWith lowerNormalized (JsString.toLowerCase prefix)
      then JsString.substringFrom (String.length prefix) normalized
      else stripWorkspacePrefix rest lowerNormalized normalized
  end.

Definition normalizeFilename (filename : string) : string :=
  if String.eqb filename "" then ""
  else
    let normalized := JsString.trim filename in
    let normalized :=
      if JsString.startsWith normalized "/"
      then JsString.substringFrom 1 normalized else normalized in
    let normalized :=
      if JsString.startsWith normalized "./"
      then JsString.substringFrom 2 normalized else normalized in
    let lowerNormalized := JsString.toLowerCase normalized in
    stripWorkspacePrefix workspacePrefixes lowerNormalized normalized.

(** A string on which [normalizeFilename] finds nothing to remove. *)
Definition isCanonical (t : string) : bool :=
  String.eqb (JsString.trim t) t
  && negb (JsString.startsWith t "/")
  && negb (JsString.startsWith t "./")
  && forallb (fun prefix =>
                negb (JsString.startsWith (JsString.toLowerCase t)
                                          (JsString.toLowerCase prefix)))
             workspacePrefixes.

Module PathUtils.

(** The leading alternative of [/^\/+|\/+$/g]: the run of slashes at the
    start of the string. *)
Fixpoint stripLeadingSlashes (s : string) : string :=
  match s with
  | String c r => if Ascii.eqb c slash then stripLeadingSlashes r else s
  | EmptyString => EmptyString
  end.

(** The trailing alternative of [/^\/+|\/+$/g]: the run of slashes at the
    end of the string. *)
Fixpoint stripTrailingSlashes (s : string) : string :=
  match s with
  | EmptyString => EmptyString
  | String c r =>
      match stripTrailingSlashes r with
      | EmptyString => if Ascii.eqb c slash then EmptyString
                       else String c EmptyString
      | r' => String c r'
      end
  end.

(** [replace(/\/+/g, '/')]: every maximal run of slashes becomes one
    slash (a slash followed by a slash is dropped). *)
Fixpoint collapseSlashes (s : string) : string :=
  match s with
  | EmptyString => EmptyString
  | String c r =>
      if Ascii.eqb c slash && JsString.startsWith r "/"
      then collapseSlashes r
      else String c (collapseSlashes r)
  end.

Definition normalizePath (path : string) : string :=
  if String.eqb path "" then ""
  else collapseSlashes (stripTrailingSlashes (stripLeadingSlashes path)).

Definition isSamePath (path1 path2 : string) : bool :=
  String.eqb (normalizePath path1) (normalizePath path2).

(** [fromTreePath(treePath, parentPath = '')] of path-utils.ts *)
Definition fromTreePath (treePath parentPath : string) : string :=
  if String.eqb treePath "" then ""
  else if String.eqb treePath "/" && String.eqb parentPath "" then "/"
  else if negb (String.eqb parentPath "") && negb (String.eqb parentPath "/")
  then parentPath ++ "/" ++ treePath
  else treePath.

(** [getFileName(path)]: the last element of [path.split('/')], which is
    what follows the last slash. *)
Definition getFileName (path : string) : string :=
  if String.eqb path "" then ""
  else
    match JsString.lastIndexOf slash path with
    | Some lastSlash => JsString.substringFrom (S lastSlash) path
    | None => path
    end.

Definition getParentPath (path : string) : string :=
  if String.eqb path "" || String.eqb path "/" then "/"
  else
    match JsString.lastIndexOf slash path with
    | Some (S lastSlash) => JsString.substringTo (S lastSlash) path
    | _ => "/"
    end.

End PathUtils.

(** The class [PathUtils] of the computer view.  Its [normalizePath],
    [isSamePath], [getFileName] and [getParentPath] are those of
    path-utils.ts, word for word; its [fromTreePath] differs. *)
Module ViewPathUtils.

Definition fromTreePath (treePath parentPath : string) : string :=
  if String.eqb treePath "" then ""
  else if String.eqb treePath "/" && String.eqb parentPath "" then "/"
  else if String.eqb parentPath "/" then "/" ++ treePath
  else if negb (String.eqb parentPath "") then parentPath ++ "/" ++ treePath
  else treePath.

End ViewPathUtils.

(* ================================================================== *)
(** * JavaScript [Map] and array primitives *)
(* ================================================================== *)

Module JsMap.
Section WithValue.
Variable V : Type.

(** Entries in insertion order. *)
Definition t := list (string * V).

Definition empty : t := [].

Fixpoint get (k : string) (m : t) : option V :=
  match m with
  | [] => None
  | (k', v) :: r => if String.eqb k' k then Some v else get k r
  end.

Definition has (k : string) (m : t) : bool :=
  match get k m with Some _ => true | None => false end.

(** [m.set(k, v)]: an existing key keeps its position, a new key goes
    to the end. *)
Fixpoint set (k : string) (v : V) (m : t) : t :=
  match m with
  | [] => [(k, v)]
  | (k', v') :: r =>
      if String.eqb k' k then (k, v) :: r else (k', v') :: set k v r
  end.

Definition delete (k : string) (m : t) : t :=
  filter (fun kv => negb (String.eqb (fst kv) k)) m.

Definition values (m : t) : list V := map snd m.
Definition keys (m : t) : list string := map fst m.
End WithValue.
End JsMap.

Module JsArray.

(** [xs.includes(x)] on an array of strings *)
Definition includes (x : string) (xs : list string) : bool :=
  existsb (String.eqb x) xs.

(** [xs.indexOf(x)]: [None] stands for -1. *)
Fixpoint indexOf (x : string) (xs : list string) : option nat :=
  match xs with
  | [] => None
  | y :: r =>
      if String.eqb y x then Some 0
      else match indexOf x r with Some i => Some (S i) | None => None end
  end.

(** [xs.splice(i, 1)] *)
Fixpoint removeAt (A : Type) (i : nat) (xs : list A) : list A :=
  match i, xs with
  | _, [] => []
  | 0, _ :: r => r
  | S i', y :: r => y :: removeAt i' r
  end.

(** [xs[i] = x] for an index inside the array *)
Fixpoint setAt (A : Type) (i : nat) (x : A) (xs : list A) : list A :=
  match i, xs with
  | _, [] => []
  | 0, _ :: r => x :: r
  | S i', y :: r => y :: setAt i' x r
  end.

(** [xs.slice(start, end)] with the relative (negative) indices of
    JavaScript. *)
Definition clampIndex (len i : Z) : Z :=
  if (i <? 0)%Z then Z.max 0 (len + i) else Z.min i len.

Definition slice (A : Type) (start stop : Z) (xs : list A) : list A :=
  let len := Z.of_nat (length xs) in
  let from := clampIndex len start in
  let to := clampIndex len stop in
  firstn (Z.to_nat (to - from)) (skipn (Z.to_nat from) xs).

(** [xs.slice(start)] *)
Definition sliceFrom (A : Type) (start : Z) (xs : list A) : list A :=
  slice start (Z.of_nat (length xs)) xs.

(** [xs[i]] for a numeric index: [None] stands for undefined. *)
Definition at_ (A : Type) (i : Z) (xs : list A) : option A :=
  if (i <? 0)%Z then None else nth_error xs (Z.to_nat i).

(** [xs.sort(compare)].  The sort of JavaScript is stable, so for a
    comparator that orders its arguments consistently its result is the
    one sorted arrangement that keeps equal elements in their order; it is
    computed here by insertion, from the right. *)
Fixpoint insertSorted (A : Type) (compare : A -> A -> Z) (x : A)
         (sorted : list A) : list A :=
  match sorted with
  | [] => [x]
  | y :: r =>
      if (compare x y <=? 0)%Z then x :: y :: r
      else y :: insertSorted compare x r
  end.

Definition sortBy (A : Type) (compare : A -> A -> Z) (xs : list A) : list A :=
  fold_right (insertSorted compare) [] xs.

(** [xs.filter(Boolean)] on an array of possibly undefined objects *)
Fixpoint compact (A : Type) (xs : list (option A)) : list A :=
  match xs with
  | [] => []
  | Some x :: r => x :: compact r
  | None :: r => compact r
  end.

End JsArray.

(* ================================================================== *)
(** * The file tree of the explorer *)
(* ================================================================== *)

(** [interface FileStructureNode] of lib/api.ts *)
Module FileStructure.

Inductive NodeType := File | Directory.

#[local] Set Warnings "-register-all".
Inductive FileStructureNode :=
| mkNode (name : string) (type : NodeType)
         (children : option (list FileStructureNode)) (size : option N).

Definition name (node : FileStructureNode) : string :=
  match node with mkNode n _ _ _ => n end.

Definition type (node : FileStructureNode) : NodeType :=
  match node with mkNode _ t _ _ => t end.

Definition children (node : FileStructureNode)
  : option (list FileStructureNode) :=
  match node with mkNode _ _ cs _ => cs end.

Definition size (node : FileStructureNode) : option N :=
  match node with mkNode _ _ _ sz => sz end.

(** [node.children = cs] *)
Definition setChildren (node : FileStructureNode)
           (cs : option (list FileStructureNode)) : FileStructureNode :=
  match node with mkNode n t _ sz => mkNode n t cs sz end.

End FileStructure.

(* ================================================================== *)
(** * The flat [FileSystemManager] of the computer view *)
(* ================================================================== *)

Module FileSystemManager.

Inductive FileType :=
| Text | Image | Video | Pdf | Markdown | Html | Folder | Audio | Csv
| Spreadsheet | Document | Presentation | Python.

Inductive ContentMode := TextMode | UrlMode.

(** [interface FileState]; an optional property is an [option]. *)
Record FileState := mkFileState {
  id : string;
  filename : string;
  content : string;
  originalContent : string;
  isDirty : bool;
  isLoading : bool;
  lastSaved : N;
  fileType : FileType;
  isUrl : option bool;
  isEditable : option bool;
  contentMode : option ContentMode
}.

(** [Partial<FileState>]: [None] is an absent key.  A key of an optional
    property may be present with the value undefined. *)
Record PartialFileState := mkPartial {
  p_id : option string;
  p_filename : option string;
  p_content : option string;
  p_originalContent : option string;
  p_isDirty : option bool;
  p_isLoading : option bool;
  p_lastSaved : option N;
  p_fileType : option FileType;
  p_isUrl : option (option bool);
  p_isEditable : option (option bool);
  p_contentMode : option (option ContentMode)
}.

Definition orElse (A : Type) (o : option A) (d : A) : A :=
  match o with Some x => x | None => d end.

(** [Object.assign(existingFile, metaData)] *)
Definition assign (f : FileState) (m : PartialFileState) : FileState :=
  {| id := orElse (p_id m) (id f);
     filename := orElse (p_filename m) (filename f);
     content := orElse (p_content m) (content f);
     originalContent := orElse (p_originalContent m) (originalContent f);
     isDirty := orElse (p_isDirty m) (isDirty f);
     isLoading := orElse (p_isLoading m) (isLoading f);
     lastSaved := orElse (p_lastSaved m) (lastSaved f);
     fileType := orElse (p_fileType m) (fileType f);
     isUrl := orElse (p_isUrl m) (isUrl f);
     isEditable := orElse (p_isEditable m) (isEditable f);
     contentMode := orElse (p_contentMode m) (contentMode f) |}.

Definition setContent (f : FileState) (c : string) : FileState :=
  {| id := id f; filename := filename f; content := c;
     originalContent := originalContent f; isDirty := isDirty f;
     isLoading := isLoading f; lastSaved := lastSaved f;
     fileType := fileType f; isUrl := isUrl f;
     isEditable := isEditable f; contentMode := contentMode f |}.

Definition setIsDirty (f : FileState) (d : bool) : FileState :=
  {| id := id f; filename := filename f; content := content f;
     originalContent := originalContent f; isDirty := d;
     isLoading := isLoading f; lastSaved := lastSaved f;
     fileType := fileType f; isUrl := isUrl f;
     isEditable := isEditable f; contentMode := contentMode f |}.

Definition setOriginalContent (f : FileState) (c : string) : FileState :=
  {| id := id f; filename := filename f; content := content f;
     originalContent := c; isDirty := isDirty f;
     isLoading := isLoading f; lastSaved := lastSaved f;
     fileType := fileType f; isUrl := isUrl f;
     isEditable := isEditable f; contentMode := contentMode f |}.

Definition setLastSaved (f : FileState) (t : N) : FileState :=
  {| id := id f; filename := filename f; content := content f;
     originalContent := originalContent f; isDirty := isDirty f;
     isLoading := isLoading f; lastSaved := t;
     fileType := fileType f; isUrl := isUrl f;
     isEditable := isEditable f; contentMode := contentMode f |}.

(** The fields of the class.  The listener set is external: what the
    model keeps of it is how many times it was called. *)
Record State := mkState {
  files : JsMap.t FileState;
  openTabs : list string;
  activeTab : option string;
  silentMode : bool;
  notifications : nat
}.

Definition initial : State :=
  {| files := []; openTabs := []; activeTab := None;
     silentMode := false; notifications := 0 |}.

Definition withFiles (s : State) (m : JsMap.t FileState) : State :=
  {| files := m; openTabs := openTabs s; activeTab := activeTab s;
     silentMode := silentMode s; notifications := notifications s |}.

Definition withOpenTabs (s : State) (l : list string) : State :=
  {| files := files s; openTabs := l; activeTab := activeTab s;
     silentMode := silentMode s; notifications := notifications s |}.

Definition withActiveTab (s : State) (a : option string) : State :=
  {| files := files s; openTabs := openTabs s; activeTab := a;
     silentMode := silentMode s; notifications := notifications s |}.

Definition setSilentMode (silent : bool) (s : State) : State :=
  {| files := files s; openTabs := openTabs s; activeTab := activeTab s;
     silentMode := silent; notifications := notifications s |}.

Definition forceNotify (s : State) : State :=
  {| files := files s; openTabs := openTabs s; activeTab := activeTab s;
     silentMode := silentMode s; notifications := S (notifications s) |}.

Definition notify (s : State) : State :=
  if silentMode s then s else forceNotify s.

(** [filename.split('.').pop()]: what follows the last dot. *)
Definition lastDotSegment (name : string) : string :=
  match JsString.lastIndexOf "."%char name with
  | Some i => JsString.substringFrom (S i) name
  | None => name
  end.

Definition oneOf (x : string) (l : list string) : bool :=
  existsb (String.eqb x) l.

Definition detectFileType (name : string) : FileType :=
  let ext := JsString.toLowerCase (lastDotSegment name) in
  if String.eqb ext "" then Text
  else if oneOf ext ["png"; "jpg"; "jpeg"; "gif"; "bmp"; "webp"; "svg"; "ico"]
  then Image
  else if oneOf ext ["mp4"; "avi"; "mov"; "wmv"; "flv"; "webm"; "mkv"]
  then Video
  else if String.eqb ext "pdf" then Pdf
  else if String.eqb ext "html" then Html
  else if String.eqb ext "md" then Markdown
  else if String.eqb ext "py" then Python
  else if oneOf ext ["mp3"; "wav"; "aac"; "ogg"; "m4a"] then Audio
  else if String.eqb ext "csv" then Csv
  else if oneOf ext ["xls"; "xlsx"] then Spreadsheet
  else if oneOf ext ["doc"; "docx"] then Document
  else if oneOf ext ["ppt"; "pptx"] then Presentation
  else Text.

Definition getFile (rawFilename : string) (s : State) : option FileState :=
  if String.eqb rawFilename "" then None
  else JsMap.get (normalizeFilename rawFilename) (files s).

(** [openFile(rawFilename, content = '', fileType?, metaData?)]; the
    value returned is [getFile] of the normalised name in the new state. *)
Definition openFile (now : N) (rawFilename content : string)
           (fileType : option FileType) (metaData : option PartialFileState)
           (s : State) : State :=
  let filename := normalizeFilename rawFilename in
  let id := "file-" ++ filename ++ "-" ++ JsString.ofNumber now in
  let s1 :=
    match JsMap.get filename (files s) with
    | None =>
        let file :=
          {| id := id; filename := filename; content := content;
             originalContent := content; isDirty := false;
             isLoading := false; lastSaved := now;
             fileType := match fileType with
                         | Some ft => ft
                         | None => detectFileType filename
                         end;
             isUrl := Some match metaData with
                           | Some m => match p_isUrl m with
                                       | Some (Some b) => b
                                       | _ => false
                                       end
                           | None => false
                           end;
             isEditable := Some match metaData with
                                | Some m => match p_isEditable m with
                                            | Some (Some b) => b
                                            | _ => true
                                            end
                                | None => true
                                end;
             contentMode := Some match metaData with
                                 | Some m => match p_contentMode m with
                                             | Some (Some c) => c
                                             | _ => TextMode
                                             end
                                 | None => TextMode
                                 end |} in
        let s' := withFiles s (JsMap.set filename file (files s)) in
        let isSpecialFile :=
          JsString.endsWith filename ".jsonsearch"
          || String.eqb filename "Web.html" in
        if negb isSpecialFile && negb (JsArray.includes filename (openTabs s'))
        then withOpenTabs s' (openTabs s' ++ [filename])
        else s'
    | Some existingFile =>
        let existingFile := setContent existingFile content in
        let existingFile :=
          match metaData with
          | Some m => assign existingFile m
          | None => existingFile
          end in
        withFiles s (JsMap.set filename existingFile (files s))
    end in
  notify s1.

Definition closeFile (rawFilename : string) (s : State) : bool * State :=
  let filename := normalizeFilename rawFilename in
  match JsArray.indexOf filename (openTabs s) with
  | None => (false, s)
  | Some index =>
      let tabs := JsArray.removeAt index (openTabs s) in
      let s1 := withOpenTabs s tabs in
      let s2 :=
        if match activeTab s1 with
           | Some a => String.eqb a filename
           | None => false
           end
        then
          if 0 <? length tabs
          then
            let newIndex := Nat.min index (length tabs - 1) in
            withActiveTab s1 (nth_error tabs newIndex)
          else withActiveTab s1 None
        else s1 in
      (true, notify s2)
  end.

Definition setActiveTab (rawFilename : string) (s : State) : State :=
  let filename := normalizeFilename rawFilename in
  match JsMap.get filename (files s) with
  | Some _ => notify (withActiveTab s (Some filename))
  | None => s
  end.

Definition updateFileContent (rawFilename content : string) (s : State)
  : State :=
  let filename := normalizeFilename rawFilename in
  match JsMap.get filename (files s) with
  | Some file =>
      let file := setContent file content in
      let file :=
        setIsDirty file (negb (String.eqb content (originalContent file))) in
      notify (withFiles s (JsMap.set filename file (files s)))
  | None => s
  end.

(** [saveFile] returns the saved content, or null for an unknown file. *)
Definition saveFile (now : N) (rawFilename : string) (s : State)
  : option string * State :=
  let filename := normalizeFilename rawFilename in
  match JsMap.get filename (files s) with
  | Some file =>
      let file := setOriginalContent file (content file) in
      let file := setIsDirty file false in
      let file := setLastSaved file now in
      (Some (content file),
       notify (withFiles s (JsMap.set filename file (files s))))
  | None => (None, s)
  end.

Definition revertFile (rawFilename : string) (s : State) : bool * State :=
  let filename := normalizeFilename rawFilename in
  match JsMap.get filename (files s) with
  | Some file =>
      match isEditable file with
      | Some true =>
          let file := setContent file (originalContent file) in
          let file := setIsDirty file false in
          (true, forceNotify (withFiles s (JsMap.set filename file (files s))))
      | _ => (false, s)
      end
  | None => (false, s)
  end.

Definition getDirtyFiles (s : State) : list FileState :=
  filter isDirty (JsMap.values (files s)).

(** [getOpenTabs()]: the records of the open tabs, those without a
    record dropped by [filter(Boolean)]. *)
Definition getOpenTabs (s : State) : list FileState :=
  JsArray.compact
    (map (fun filename => JsMap.get filename (files s)) (openTabs s)).

Definition getActiveFile (s : State) : option FileState :=
  match activeTab s with
  | Some a => if String.eqb a "" then None else JsMap.get a (files s)
  | None => None
  end.

Definition clearCache (s : State) : State :=
  notify (withActiveTab (withOpenTabs (withFiles s []) []) None).

(* ---------------- the virtual file structure ---------------- *)

(** The field [virtualFileStructure] is read and written by the two
    methods below and by nothing else in the class; it is carried beside
    [State], as an argument and as a result. *)

(** The test [part.endsWith('.jsonsearch') || part === 'Web.html'] *)
Definition isSpecialFile (part : string) : bool :=
  JsString.endsWith part ".jsonsearch" || String.eqb part "Web.html".

(** [path.split('/').filter(p => p)] *)
Definition pathParts (path : string) : list string :=
  filter (fun p => negb (String.eqb p "")) (JsString.split slash path).

(** The write to the first child called [part], the one that
    [children.find(child => child.name === part)] returns. *)
Fixpoint updateChild (part : string)
         (f : FileStructure.FileStructureNode -> FileStructure.FileStructureNode)
         (cs : list FileStructure.FileStructureNode)
  : list FileStructure.FileStructureNode :=
  match cs with
  | [] => []
  | c :: r =>
      if String.eqb (FileStructure.name c) part then f c :: r
      else c :: updateChild part f r
  end.

Definition findChild (part : string)
           (cs : list FileStructure.FileStructureNode)
  : option FileStructure.FileStructureNode :=
  find (fun child => String.eqb (FileStructure.name child) part) cs.

Definition emptyRoot : FileStructure.FileStructureNode :=
  FileStructure.mkNode "/" FileStructure.Directory (Some []) None.

(** The loop of [insertNode] in [mergeExternalFileStructure], from the
    node [currentNode] on and for the parts still to come.  On a node
    without a children array nothing is found and nothing is pushed: what
    the rest of the loop builds is attached nowhere. *)
Fixpoint insertParts (parts : list string)
         (currentNode : FileStructure.FileStructureNode) {struct parts}
  : FileStructure.FileStructureNode :=
  match parts with
  | [] => currentNode
  | part :: rest =>
      if isSpecialFile part then currentNode
      else
        match FileStructure.children currentNode with
        | None => currentNode
        | Some cs =>
            match findChild part cs with
            | Some _ =>
                FileStructure.setChildren currentNode
                  (Some (updateChild part (insertParts rest) cs))
            | None =>
                let childNode :=
                  match rest with
                  | [] =>
                      FileStructure.mkNode part FileStructure.File None None
                  | _ :: _ =>
                      insertParts rest
                        (FileStructure.mkNode part FileStructure.Directory
                                              (Some []) None)
                  end in
                FileStructure.setChildren currentNode
                  (Some (cs ++ [childNode])%list)
            end
        end
  end.

(** The loop of [insertNode] in [addFileToVirtualStructure]: a node
    without a children array gets one before the push. *)
Fixpoint addParts (isDirectory : bool) (parts : list string)
         (currentNode : FileStructure.FileStructureNode) {struct parts}
  : FileStructure.FileStructureNode :=
  match parts with
  | [] => currentNode
  | part :: rest =>
      if isSpecialFile part then currentNode
      else
        let cs :=
          match FileStructure.children currentNode with
          | Some cs => cs
          | None => []
          end in
        match findChild part cs with
        | Some _ =>
            FileStructure.setChildren currentNode
              (Some (updateChild part (addParts isDirectory rest) cs))
        | None =>
            let childNode :=
              match rest with
              | [] =>
                  if isDirectory
                  then FileStructure.mkNode part FileStructure.Directory
                                            (Some []) None
                  else FileStructure.mkNode part FileStructure.File None None
              | _ :: _ =>
                  addParts isDirectory rest
                    (FileStructure.mkNode part FileStructure.Directory
                                          (Some []) None)
              end in
            FileStructure.setChildren currentNode
              (Some (cs ++ [childNode])%list)
        end
  end.

Section VirtualFileStructure.

(** [a.localeCompare(b)]: the collation of the host, negative, zero or
    positive. *)
Variable localeCompare : string -> string -> Z.

(** The comparator given to [sort]. *)
Definition compareNodes (a b : FileStructure.FileStructureNode) : Z :=
  match FileStructure.type a, FileStructure.type b with
  | FileStructure.Directory, FileStructure.File => (-1)%Z
  | FileStructure.File, FileStructure.Directory => 1%Z
  | _, _ => localeCompare (FileStructure.name a) (FileStructure.name b)
  end.

(** [sortChildren(node)].  The source sorts the array and then sorts
    inside each child; the comparator reads the type and the name of a
    child only, which sorting inside it leaves alone, so that the children
    are here sorted inside first (see [sortChildren_order]). *)
Fixpoint sortChildren (node : FileStructure.FileStructureNode)
  : FileStructure.FileStructureNode :=
  match node with
  | FileStructure.mkNode n t (Some cs) sz =>
      FileStructure.mkNode n t
        (Some (JsArray.sortBy compareNodes (map sortChildren cs))) sz
  | FileStructure.mkNode n t None sz => FileStructure.mkNode n t None sz
  end.

(** [mergeExternalFileStructure(externalFilePaths)]: the new value of
    [virtualFileStructure], and the state after [notify]. *)
Definition mergeExternalFileStructure (externalFilePaths : list string)
           (s : State) : FileStructure.FileStructureNode * State :=
  let root :=
    fold_left (fun root path => insertParts (pathParts path) root)
              externalFilePaths emptyRoot in
  (sortChildren root, notify s).

(** [addFileToVirtualStructure(path, isDirectory = false)] *)
Definition addFileToVirtualStructure (path : string) (isDirectory : bool)
           (virtualFileStructure : FileStructure.FileStructureNode)
           (s : State) : FileStructure.FileStructureNode * State :=
  (sortChildren (addParts isDirectory (pathParts path) virtualFileStructure),
   notify s).

End VirtualFileStructure.

(* ---------------- scripts of calls ---------------- *)

(** A call of the public interface, with the clock value it runs at
    where the method reads the clock. *)
Inductive Call :=
| CallOpenFile (now : N) (rawFilename content : string)
               (fileType : option FileType)
               (metaData : option PartialFileState)
| CallCloseFile (rawFilename : string)
| CallSetActiveTab (rawFilename : string)
| CallUpdateFileContent (rawFilename content : string)
| CallSaveFile (now : N) (rawFilename : string)
| CallRevertFile (rawFilename : string)
| CallSetSilentMode (silent : bool)
| CallNotifyListeners
| CallForceNotify
| CallClearCache.

Definition runCall (c : Call) (s : State) : State :=
  match c with
  | CallOpenFile now raw content fileType metaData =>
      openFile now raw content fileType metaData s
  | CallCloseFile raw => snd (closeFile raw s)
  | CallSetActiveTab raw => setActiveTab raw s
  | CallUpdateFileContent raw content => updateFileContent raw content s
  | CallSaveFile now raw => snd (saveFile now raw s)
  | CallRevertFile raw => snd (revertFile raw s)
  | CallSetSilentMode silent => setSilentMode silent s
  | CallNotifyListeners => notify s
  | CallForceNotify => forceNotify s
  | CallClearCache => clearCache s
  end.

Definition runCalls (cs : list Call) (s : State) : State :=
  fold_left (fun st c => runCall c st) cs s.

End FileSystemManager.

(* ================================================================== *)
(** * The [EnhancedFileSystemManager] *)
(* ================================================================== *)

Module EnhancedFileSystemManager.

Inductive NodeType := File | Directory.

Definition NodeType_eqb (a b : NodeType) : bool :=
  match a, b with
  | File, File | Directory, Directory => true
  | _, _ => false
  end.

(** [interface FileSystemNode].  The [children] array of a stored node is
    never read or filled by the manager (only copies made for the tree
    view carry children), so it is left out. *)
Record FileSystemNode := mkNode {
  path : string;
  name : string;
  type : NodeType;
  content : option string;
  size : option N;
  lastModified : N;
  parent : option string;
  isDirty : bool;
  isNew : bool;
  isLocked : bool;
  isOpen : bool;
  isActive : bool;
  history : option (list string);
  historyIndex : option Z
}.

(** [interface ExternalFileNode] *)
#[local] Set Warnings "-register-all".
Inductive ExternalFileNode :=
| mkExternal (ename : string) (etype : NodeType) (econtent : option string)
             (esize : option N) (echildren : option (list ExternalFileNode)).

(** The events the manager emits, with their payload. *)
Inductive Event :=
| fileOpened (p : string)
| tabActivated (p : string)
| fileClosed (p : string)
| fileCreated (p : string)
| directoryCreated (p : string)
| nodeDeleted (p : string)
| nodeRenamed (oldPath newPath : string)
| fileUpdated (p : string)
| fileSaved (p : string)
| fileReverted (p : string)
| fileUndone (p : string)
| fileRedone (p : string)
| structureMerged
| contentMapUpdated.

(** The errors the manager throws, one constructor per message. *)
Inductive Error :=
| NodeNotFound (p : string)            (* Node not found: p *)
| FileAlreadyExists (n : string)       (* File already exists: n *)
| InvalidFileName (n : string)         (* Invalid file name: n *)
| DirectoryAlreadyExists (n : string)  (* Directory already exists: n *)
| InvalidDirectoryName (n : string)    (* Invalid directory name: n *)
| CannotDeleteRoot                     (* Cannot delete root directory *)
| InvalidNameError (n : string)        (* Invalid name: n *)
| NameAlreadyExists (n : string).      (* Name already exists: n *)

(** The kinds of the specification's error taxonomy. *)
Inductive ErrorKind := InvalidName | NameConflict | NotFound | RootViolation.

Definition kindOf (e : Error) : ErrorKind :=
  match e with
  | NodeNotFound _ => NotFound
  | FileAlreadyExists _ | DirectoryAlreadyExists _ | NameAlreadyExists _ =>
      NameConflict
  | InvalidFileName _ | InvalidDirectoryName _ | InvalidNameError _ =>
      InvalidName
  | CannotDeleteRoot => RootViolation
  end.

(** The fields of the class ([taskId] and the unused [syncTimer] apart)
    and the log of emitted events, oldest first. *)
Record State := mkState {
  fileMap : JsMap.t FileSystemNode;
  openTabs : list string;
  activeTab : option string;
  events : list Event
}.

(** How a method that may throw ends: normally with a result, or with an
    error; either way in the state reached at that point. *)
Inductive Outcome (A : Type) :=
| Ok (a : A) (s : State)
| Throw (e : Error) (s : State).
Arguments Throw {A} e s.

(* ---------------- record updates ---------------- *)

Definition withFileMap (s : State) (m : JsMap.t FileSystemNode) : State :=
  {| fileMap := m; openTabs := openTabs s; activeTab := activeTab s;
     events := events s |}.

Definition withOpenTabs (s : State) (l : list string) : State :=
  {| fileMap := fileMap s; openTabs := l; activeTab := activeTab s;
     events := events s |}.

Definition withActiveTab (s : State) (a : option string) : State :=
  {| fileMap := fileMap s; openTabs := openTabs s; activeTab := a;
     events := events s |}.

Definition emit (e : Event) (s : State) : State :=
  {| fileMap := fileMap s; openTabs := openTabs s; activeTab := activeTab s;
     events := events s ++ [e] |}.

Definition setPath (n : FileSystemNode) (p : string) : FileSystemNode :=
  {| path := p; name := name n; type := type n; content := content n;
     size := size n; lastModified := lastModified n; parent := parent n;
     isDirty := isDirty n; isNew := isNew n; isLocked := isLocked n;
     isOpen := isOpen n; isActive := isActive n; history := history n;
     historyIndex := historyIndex n |}.

Definition setName (n : FileSystemNode) (x : string) : FileSystemNode :=
  {| path := path n; name := x; type := type n; content := content n;
     size := size n; lastModified := lastModified n; parent := parent n;
     isDirty := isDirty n; isNew := isNew n; isLocked := isLocked n;
     isOpen := isOpen n; isActive := isActive n; history := history n;
     historyIndex := historyIndex n |}.

Definition setContent (n : FileSystemNode) (c : option string)
  : FileSystemNode :=
  {| path := path n; name := name n; type := type n; content := c;
     size := size n; lastModified := lastModified n; parent := parent n;
     isDirty := isDirty n; isNew := isNew n; isLocked := isLocked n;
     isOpen := isOpen n; isActive := isActive n; history := history n;
     historyIndex := historyIndex n |}.

Definition setSize (n : FileSystemNode) (x : option N) : FileSystemNode :=
  {| path := path n; name := name n; type := type n; content := content n;
     size := x; lastModified := lastModified n; parent := parent n;
     isDirty := isDirty n; isNew := isNew n; isLocked := isLocked n;
     isOpen := isOpen n; isActive := isActive n; history := history n;
     historyIndex := historyIndex n |}.

Definition setLastModified (n : FileSystemNode) (t : N) : FileSystemNode :=
  {| path := path n; name := name n; type := type n; content := content n;
     size := size n; lastModified := t; parent := parent n;
     isDirty := isDirty n; isNew := isNew n; isLocked := isLocked n;
     isOpen := isOpen n; isActive := isActive n; history := history n;
     historyIndex := historyIndex n |}.

Definition setParent (n : FileSystemNode) (p : option string)
  : FileSystemNode :=
  {| path := path n; name := name n; type := type n; content := content n;
     size := size n; lastModified := lastModified n; parent := p;
     isDirty := isDirty n; isNew := isNew n; isLocked := isLocked n;
     isOpen := isOpen n; isActive := isActive n; history := history n;
     historyIndex := historyIndex n |}.

Definition setIsDirty (n : FileSystemNode) (b : bool) : FileSystemNode :=
  {| path := path n; name := name n; type := type n; content := content n;
     size := size n; lastModified := lastModified n; parent := parent n;
     isDirty := b; isNew := isNew n; isLocked := isLocked n;
     isOpen := isOpen n; isActive := isActive n; history := history n;
     historyIndex := historyIndex n |}.

Definition setIsNew (n : FileSystemNode) (b : bool) : FileSystemNode :=
  {| path := path n; name := name n; type := type n; content := content n;
     size := size n; lastModified := lastModified n; parent := parent n;
     isDirty := isDirty n; isNew := b; isLocked := isLocked n;
     isOpen := isOpen n; isActive := isActive n; history := history n;
     historyIndex := historyIndex n |}.

Definition setIsLocked (n : FileSystemNode) (b : bool) : FileSystemNode :=
  {| path := path n; name := name n; type := type n; content := content n;
     size := size n; lastModified := lastModified n; parent := parent n;
     isDirty := isDirty n; isNew := isNew n; isLocked := b;
     isOpen := isOpen n; isActive := isActive n; history := history n;
     historyIndex := historyIndex n |}.

Definition setIsOpen (n : FileSystemNode) (b : bool) : FileSystemNode :=
  {| path := path n; name := name n; type := type n; content := content n;
     size := size n; lastModified := lastModified n; parent := parent n;
     isDirty := isDirty n; isNew := isNew n; isLocked := isLocked n;
     isOpen := b; isActive := isActive n; history := history n;
     historyIndex := historyIndex n |}.

Definition setIsActive (n : FileSystemNode) (b : bool) : FileSystemNode :=
  {| path := path n; name := name n; type := type n; content := content n;
     size := size n; lastModified := lastModified n; parent := parent n;
     isDirty := isDirty n; isNew := isNew n; isLocked := isLocked n;
     isOpen := isOpen n; isActive := b; history := history n;
     historyIndex := historyIndex n |}.

Definition setHistory (n : FileSystemNode) (h : option (list string))
           (i : option Z) : FileSystemNode :=
  {| path := path n; name := name n; type := type n; content := content n;
     size := size n; lastModified := lastModified n; parent := parent n;
     isDirty := isDirty n; isNew := isNew n; isLocked := isLocked n;
     isOpen := isOpen n; isActive := isActive n; history := h;
     historyIndex := i |}.

(** A write to a field of the node object stored under key [k]; nothing
    happens when no object is stored there. *)
Definition modify (k : string) (f : FileSystemNode -> FileSystemNode)
           (s : State) : State :=
  match JsMap.get k (fileMap s) with
  | Some n => withFileMap s (JsMap.set k (f n) (fileMap s))
  | None => s
  end.

(* ---------------- path utilities ---------------- *)

Definition normalizePath (path : string) : string :=
  if String.eqb path "" then "/"
  else if String.eqb path "/" then "/"
  else if JsString.startsWith path "/" then path else "/" ++ path.

Definition stripLeadingSlash (path : string) : string :=
  if String.eqb path "" || String.eqb path "/" then ""
  else if JsString.startsWith path "/" then JsString.substringFrom 1 path
  else path.

Definition joinPath (parent name : string) : string :=
  let normalizedParent := normalizePath parent in
  if String.eqb normalizedParent "/" then "/" ++ name
  else normalizedParent ++ "/" ++ name.

Definition getParentPath (path : string) : string :=
  let normalizedPath := normalizePath path in
  if String.eqb normalizedPath "/" then "/"
  else
    match JsString.lastIndexOf slash normalizedPath with
    | Some (S lastSlash) =>
        JsString.substringTo (S lastSlash) normalizedPath
    | _ => "/"
    end.

Definition getFileName (path : string) : string :=
  let normalizedPath := normalizePath path in
  if String.eqb normalizedPath "/" then "root"
  else
    match JsString.lastIndexOf slash normalizedPath with
    | Some lastSlash => JsString.substringFrom (S lastSlash) normalizedPath
    | None => normalizedPath
    end.

(** The character class of [/^[a-zA-Z0-9._-]+$/]. *)
Definition isNameChar (c : ascii) : bool :=
  let n := nat_of_ascii c in
  ((97 <=? n) && (n <=? 122)) || ((65 <=? n) && (n <=? 90))
  || ((48 <=? n) && (n <=? 57))
  || (n =? 46) || (n =? 95) || (n =? 45).

Fixpoint allNameChars (s : string) : bool :=
  match s with
  | EmptyString => true
  | String c r => isNameChar c && allNameChars r
  end.

Definition isValidFileName (name : string) : bool :=
  (negb (String.eqb name "") && allNameChars name)
  && (0 <? String.length name) && (String.length name <? 255).

(* ---------------- initialisation ---------------- *)

Definition rootNode (now : N) : FileSystemNode :=
  {| path := "/"; name := "resear-pro-task"; type := Directory;
     content := None; size := None; lastModified := now; parent := None;
     isDirty := false; isNew := false; isLocked := false; isOpen := false;
     isActive := false; history := None; historyIndex := None |}.

(** The state the constructor leaves. *)
Definition initial (now : N) : State :=
  {| fileMap := JsMap.set "/" (rootNode now) []; openTabs := [];
     activeTab := None; events := [] |}.

Definition getNode (path : string) (s : State) : option FileSystemNode :=
  JsMap.get (normalizePath path) (fileMap s).

(* ---------------- node creation ---------------- *)

(** [createFileNode]; the value returned is the object stored under the
    key given back with the state. *)
Definition createFileNode (now : N) (path name parentPath content : string)
           (isNew : bool) (s : State) : string * State :=
  let normalizedPath := normalizePath path in
  let normalizedParentPath := normalizePath parentPath in
  let node :=
    {| path := normalizedPath; name := name; type := File;
       content := Some content; size := Some (JsString.blobSize content);
       parent := Some normalizedParentPath; lastModified := now;
       isDirty := isNew; isNew := isNew; isLocked := isNew;
       isOpen := false; isActive := false;
       history := Some [content]; historyIndex := Some 0%Z |} in
  (normalizedPath, withFileMap s (JsMap.set normalizedPath node (fileMap s))).

Definition directoryNode (now : N) (path name parentPath : string)
           (isNew : bool) : FileSystemNode :=
  {| path := path; name := name; type := Directory; content := None;
     size := None; parent := Some parentPath; lastModified := now;
     isDirty := false; isNew := isNew; isLocked := false; isOpen := false;
     isActive := false; history := None; historyIndex := None |}.

(** [ensureDirectory(path, name?)].  The recursion is on the parent path,
    which is shorter; [fuel] bounds its depth. *)
Fixpoint ensureDirectoryFrom (fuel : nat) (now : N) (path : string)
         (name : option string) (s : State) : State :=
  match fuel with
  | 0 => s
  | S fuel' =>
      let normalizedPath := normalizePath path in
      if String.eqb normalizedPath "/" then s
      else if negb (JsMap.has normalizedPath (fileMap s)) then
        let parentPath := getParentPath normalizedPath in
        let dirName :=
          match name with
          | Some n => if String.eqb n "" then getFileName normalizedPath else n
          | None => getFileName normalizedPath
          end in
        let s1 := ensureDirectoryFrom fuel' now parentPath None s in
        withFileMap s1
          (JsMap.set normalizedPath
             (directoryNode now normalizedPath dirName parentPath false)
             (fileMap s1))
      else s
  end.

Definition ensureDirectory (now : N) (path : string) (name : option string)
           (s : State) : State :=
  ensureDirectoryFrom (S (String.length path)) now path name s.

(* ---------------- tab management ---------------- *)

(** The part of [activateTab] that follows its guard: the tab is open. *)
Definition activateOpenTab (normalizedPath : string) (s : State) : State :=
  let s1 :=
    match activeTab s with
    | Some a =>
        if String.eqb a "" then s
        else modify a (fun prevNode => setIsActive prevNode false) s
    | None => s
    end in
  match JsMap.get normalizedPath (fileMap s1) with
  | Some _ =>
      emit (tabActivated normalizedPath)
        (withActiveTab
           (modify normalizedPath (fun node => setIsActive node true) s1)
           (Some normalizedPath))
  | None => s1
  end.

(** [openFile] up to its call of [activateTab]. *)
Definition openFilePrepare (now : N) (path : string) (s : State) : State :=
  let normalizedPath := normalizePath path in
  let '(key, s1) :=
    match JsMap.get normalizedPath (fileMap s) with
    | Some _ => (normalizedPath, s)
    | None =>
        createFileNode now normalizedPath (getFileName normalizedPath)
                       (getParentPath normalizedPath) "" false s
    end in
  let s2 := modify key (fun node => setIsOpen node true) s1 in
  if negb (JsArray.includes normalizedPath (openTabs s2))
  then withOpenTabs s2 (openTabs s2 ++ [normalizedPath])
  else s2.

(** [openFile(path)].  Its call [this.activateTab(normalizedPath)] finds
    the path among the open tabs, where it has just been put, and so runs
    [activateOpenTab] (see [openFile_activateTab]). *)
Definition openFile (now : N) (path : string) (s : State) : State :=
  let normalizedPath := normalizePath path in
  emit (fileOpened normalizedPath)
    (activateOpenTab normalizedPath (openFilePrepare now path s)).

Definition activateTab (now : N) (path : string) (s : State) : State :=
  let normalizedPath := normalizePath path in
  if negb (JsArray.includes normalizedPath (openTabs s))
  then openFile now normalizedPath s
  else activateOpenTab normalizedPath s.

Definition closeFile (now : N) (path : string) (s : State) : State :=
  let normalizedPath := normalizePath path in
  match JsArray.indexOf normalizedPath (openTabs s) with
  | None => s
  | Some tabIndex =>
      let s1 :=
        modify normalizedPath
          (fun node => setIsActive (setIsOpen node false) false) s in
      let s2 := withOpenTabs s1 (JsArray.removeAt tabIndex (openTabs s1)) in
      let s3 :=
        if match activeTab s2 with
           | Some a => String.eqb a normalizedPath
           | None => false
           end
        then
          if 0 <? length (openTabs s2) then
            let newIndex := Nat.min tabIndex (length (openTabs s2) - 1) in
            match nth_error (openTabs s2) newIndex with
            | Some tab => activateTab now tab s2
            | None => s2
            end
          else withActiveTab s2 None
        else s2 in
      emit (fileClosed normalizedPath) s3
  end.

Definition getActiveTab (s : State) : option string := activeTab s.

(* ---------------- file operations ---------------- *)

(** [createFile(parentPath, name, content = '')]: the key of the created
    node, or the error thrown. *)
Definition createFile (now : N) (parentPath name content : string)
           (s : State) : Outcome string :=
  let normalizedParentPath := normalizePath parentPath in
  let fullPath := joinPath normalizedParentPath name in
  if JsMap.has fullPath (fileMap s) then Throw (FileAlreadyExists name) s
  else if negb (isValidFileName name) then Throw (InvalidFileName name) s
  else
    let s1 := ensureDirectory now normalizedParentPath None s in
    let '(key, s2) :=
      createFileNode now fullPath name normalizedParentPath content true s1 in
    Ok key (emit (fileCreated fullPath) s2).

Definition createDirectory (now : N) (parentPath name : string) (s : State)
  : Outcome string :=
  let normalizedParentPath := normalizePath parentPath in
  let fullPath := joinPath normalizedParentPath name in
  if JsMap.has fullPath (fileMap s) then Throw (DirectoryAlreadyExists name) s
  else if negb (isValidFileName name) then Throw (InvalidDirectoryName name) s
  else
    let s1 := ensureDirectory now normalizedParentPath None s in
    let node := directoryNode now fullPath name normalizedParentPath true in
    Ok fullPath
       (emit (directoryCreated fullPath)
             (withFileMap s1 (JsMap.set fullPath node (fileMap s1)))).

(** [node.path], for use where a parameter is called [path]. *)
Definition pathOf (node : FileSystemNode) : string := path node.

Definition isChildOf (parentPath : string) (child : FileSystemNode) : bool :=
  match parent child with
  | Some p => String.eqb p parentPath
  | None => false
  end.

(** [deleteNode(path)].  The recursion follows the parent links of the
    stored nodes; [fuel] bounds its depth and [None] is an exhausted
    bound. *)
Fixpoint deleteNode (fuel : nat) (now : N) (path : string) (s : State)
  : option (Outcome unit) :=
  match fuel with
  | 0 => None
  | S fuel' =>
      let normalizedPath := normalizePath path in
      if String.eqb normalizedPath "/" then Some (Throw CannotDeleteRoot s)
      else
        match JsMap.get normalizedPath (fileMap s) with
        | None => Some (Ok tt s)
        | Some node =>
            let s1 := if isOpen node then closeFile now normalizedPath s
                      else s in
            let afterChildren :=
              match type node with
              | Directory =>
                  let children :=
                    filter (isChildOf normalizedPath)
                           (JsMap.values (fileMap s1)) in
                  (fix each (cs : list FileSystemNode) (st : State)
                     : option (Outcome unit) :=
                     match cs with
                     | [] => Some (Ok tt st)
                     | child :: rest =>
                         match deleteNode fuel' now (pathOf child) st with
                         | Some (Ok _ st') => each rest st'
                         | other => other
                         end
                     end) children s1
              | File => Some (Ok tt s1)
              end in
            match afterChildren with
            | Some (Ok _ s2) =>
                Some (Ok tt
                        (emit (nodeDeleted normalizedPath)
                              (withFileMap s2
                                 (JsMap.delete normalizedPath (fileMap s2)))))
            | other => other
            end
        end
  end.

(** [updateChildrenPaths(oldParentPath, newParentPath)].  The loop runs
    over the keys present when it starts and reads each node when it
    reaches it; a key deleted in the meantime is skipped.  [fuel] bounds
    the depth of the recursion. *)
Fixpoint updateChildrenPaths (fuel : nat) (oldParentPath newParentPath : string)
         (s : State) : option State :=
  match fuel with
  | 0 => None
  | S fuel' =>
      (fix each (ks : list string) (st : State) : option State :=
         match ks with
         | [] => Some st
         | k :: rest =>
             match JsMap.get k (fileMap st) with
             | Some node =>
                 if isChildOf oldParentPath node then
                   let oldPath := path node in
                   let newPath := joinPath newParentPath (name node) in
                   let node' :=
                     setParent (setPath node newPath) (Some newParentPath) in
                   let st1 :=
                     withFileMap st
                       (JsMap.set newPath node'
                          (JsMap.delete oldPath (fileMap st))) in
                   match type node with
                   | Directory =>
                       match updateChildrenPaths fuel' oldPath newPath st1 with
                       | Some st2 => each rest st2
                       | None => None
                       end
                   | File => each rest st1
                   end
                 else each rest st
             | None => each rest st
             end
         end) (JsMap.keys (fileMap s)) s
  end.

(** [joinPath(node.parent || '/', newName)] *)
Definition renameTarget (node : FileSystemNode) (newName : string) : string :=
  joinPath (match parent node with
            | Some p => if String.eqb p "" then "/" else p
            | None => "/"
            end) newName.

(** [renameNode(path, newName)]: the key of the renamed node, or the
    error thrown. *)
Definition renameNode (fuel : nat) (now : N) (path newName : string)
           (s : State) : option (Outcome string) :=
  let normalizedPath := normalizePath path in
  match JsMap.get normalizedPath (fileMap s) with
  | None => Some (Throw (NodeNotFound normalizedPath) s)
  | Some node =>
      if negb (isValidFileName newName)
      then Some (Throw (InvalidNameError newName) s)
      else
        let newPath := renameTarget node newName in
        if JsMap.has newPath (fileMap s)
        then Some (Throw (NameAlreadyExists newName) s)
        else
          let node' :=
            setLastModified (setName (setPath node newPath) newName) now in
          let s1 :=
            withFileMap s
              (JsMap.set newPath node'
                 (JsMap.delete normalizedPath (fileMap s))) in
          let moved :=
            match type node with
            | Directory => updateChildrenPaths fuel normalizedPath newPath s1
            | File => Some s1
            end in
          match moved with
          | None => None
          | Some s2 =>
              let s3 :=
                match JsArray.indexOf normalizedPath (openTabs s2) with
                | Some tabIndex =>
                    withOpenTabs s2
                      (JsArray.setAt tabIndex newPath (openTabs s2))
                | None => s2
                end in
              let s4 :=
                if match activeTab s3 with
                   | Some a => String.eqb a normalizedPath
                   | None => false
                   end
                then withActiveTab s3 (Some newPath) else s3 in
              Some (Ok newPath (emit (nodeRenamed normalizedPath newPath) s4))
          end
  end.

(* ---------------- undo / redo history ---------------- *)

(** [node.content], for use where a parameter is called [content]. *)
Definition contentOf (node : FileSystemNode) : option string := content node.

(** [x || ''] for an optional string *)
Definition orEmpty (o : option string) : string :=
  match o with Some x => x | None => "" end.

Definition historyCap : nat := 50.

(** [saveToHistory(node, content)] *)
Definition saveToHistory (node : FileSystemNode) (content : string)
  : FileSystemNode :=
  let '(h, i) :=
    match history node with
    | None => ([], (-1)%Z)
    | Some h =>
        (h, match historyIndex node with Some i => i | None => (-1)%Z end)
    end in
  let h :=
    if (i <? Z.of_nat (length h) - 1)%Z
    then JsArray.slice 0%Z (i + 1)%Z h else h in
  let h := (h ++ [content])%list in
  let i := (Z.of_nat (length h) - 1)%Z in
  if historyCap <? length h then
    let h' := JsArray.sliceFrom (- Z.of_nat historyCap)%Z h in
    setHistory node (Some h') (Some (Z.of_nat (length h') - 1)%Z)
  else setHistory node (Some h) (Some i).

(** The tests of [canUndo] and [canRedo] on the node found. *)
Definition nodeCanUndo (node : FileSystemNode) : bool :=
  match history node with
  | Some _ =>
      (0 <? match historyIndex node with Some i => i | None => (-1)%Z end)%Z
  | None => false
  end.

Definition nodeCanRedo (node : FileSystemNode) : bool :=
  match history node with
  | Some h =>
      (match historyIndex node with Some i => i | None => (-1)%Z end
       <? Z.of_nat (length h) - 1)%Z
  | None => false
  end.

Definition canUndo (path : string) (s : State) : bool :=
  match JsMap.get (normalizePath path) (fileMap s) with
  | Some node => nodeCanUndo node
  | None => false
  end.

Definition canRedo (path : string) (s : State) : bool :=
  match JsMap.get (normalizePath path) (fileMap s) with
  | Some node => nodeCanRedo node
  | None => false
  end.

(** The index moves by [delta]; the content is read from the history when
    [inRange] accepts the new index, and is then whatever the array holds
    there (undefined outside its bounds). *)
Definition moveInHistory (now : N) (i : Z) (inRange : bool)
           (node : FileSystemNode) : FileSystemNode :=
  let node := setHistory node (history node) (Some i) in
  let node :=
    match history node with
    | Some h => if inRange then setContent node (JsArray.at_ i h) else node
    | None => node
    end in
  setLastModified node now.

Definition undo (now : N) (path : string) (s : State) : State :=
  let normalizedPath := normalizePath path in
  match JsMap.get normalizedPath (fileMap s) with
  | None => s
  | Some node =>
      if negb (canUndo normalizedPath s) then s
      else
        let i := match historyIndex node with Some i => i | None => 0%Z end in
        let i := (i - 1)%Z in
        emit (fileUndone normalizedPath)
          (modify normalizedPath
             (fun node => moveInHistory now i (0 <=? i)%Z node) s)
  end.

Definition redo (now : N) (path : string) (s : State) : State :=
  let normalizedPath := normalizePath path in
  match JsMap.get normalizedPath (fileMap s) with
  | None => s
  | Some node =>
      if negb (canRedo normalizedPath s) then s
      else
        let i :=
          match historyIndex node with Some i => i | None => (-1)%Z end in
        let i := (i + 1)%Z in
        emit (fileRedone normalizedPath)
          (modify normalizedPath
             (fun node =>
                moveInHistory now i
                  (i <? Z.of_nat (length (match history node with
                                          | Some h => h
                                          | None => []
                                          end)))%Z node) s)
  end.

(* ---------------- content management ---------------- *)

(** [node.history?.[0] || ''] *)
Definition baseline (node : FileSystemNode) : string :=
  match history node with
  | Some h => orEmpty (JsArray.at_ 0%Z h)
  | None => ""
  end.

Definition updateFileContent (now : N) (path content : string) (s : State)
  : State :=
  let normalizedPath := normalizePath path in
  match JsMap.get normalizedPath (fileMap s) with
  | None => s
  | Some node =>
      if negb (NodeType_eqb (type node) File) then s
      else if isLocked node then s
      else
        let node1 := saveToHistory node (orEmpty (contentOf node)) in
        let node2 := setContent node1 (Some content) in
        let node3 := setSize node2 (Some (JsString.blobSize content)) in
        let node4 := setLastModified node3 now in
        let wasDirty := isDirty node4 in
        let node5 :=
          setIsDirty node4 (negb (String.eqb content (baseline node4))) in
        let s1 := withFileMap s (JsMap.set normalizedPath node5 (fileMap s)) in
        if negb (Bool.eqb wasDirty (isDirty node5))
        then emit (fileUpdated normalizedPath) s1 else s1
  end.

Definition saveFile (now : N) (path : string) (s : State) : State :=
  let normalizedPath := normalizePath path in
  match JsMap.get normalizedPath (fileMap s) with
  | None => s
  | Some node =>
      if negb (NodeType_eqb (type node) File) then s
      else
        let node1 :=
          match content node with
          | Some c => setHistory node (Some [c]) (Some 0%Z)
          | None => node
          end in
        let node2 :=
          setLastModified
            (setIsLocked (setIsNew (setIsDirty node1 false) false) false)
            now in
        emit (fileSaved normalizedPath)
          (withFileMap s (JsMap.set normalizedPath node2 (fileMap s)))
  end.

Definition revertFile (path : string) (s : State) : State :=
  let normalizedPath := normalizePath path in
  match JsMap.get normalizedPath (fileMap s) with
  | None => s
  | Some node =>
      if negb (NodeType_eqb (type node) File) then s
      else
        match history node with
        | Some ((saved :: _) as h) =>
            let node1 := setContent node (Some saved) in
            let node2 := setIsDirty node1 false in
            let node3 := setHistory node2 (Some h) (Some 0%Z) in
            emit (fileReverted normalizedPath)
              (withFileMap s (JsMap.set normalizedPath node3 (fileMap s)))
        | _ => s
        end
  end.

(* ---------------- external synchronisation ---------------- *)

(** [a !== b] for an optional string and a string *)
Definition differs (a : option string) (b : string) : bool :=
  match a with
  | Some x => negb (String.eqb x b)
  | None => true
  end.

(** One turn of the loop of [updateFileContentMap]: the state and the
    flag [hasChanges]. *)
Definition updateContentEntry (now : N) (filePath content : string)
           (acc : State * bool) : State * bool :=
  let '(s, hasChanges) := acc in
  let normalizedPath := normalizePath filePath in
  match JsMap.get normalizedPath (fileMap s) with
  | Some node =>
      if NodeType_eqb (type node) File then
        if differs (contentOf node) content then
          let node1 := saveToHistory node (orEmpty (contentOf node)) in
          let node2 := setContent node1 (Some content) in
          let node3 := setSize node2 (Some (JsString.blobSize content)) in
          let node4 := setLastModified node3 now in
          let node5 :=
            if negb (isNew node4) && negb (isLocked node4)
            then setIsDirty node4 false else node4 in
          (withFileMap s (JsMap.set normalizedPath node5 (fileMap s)), true)
        else (s, hasChanges)
      else (s, hasChanges)
  | None => (s, hasChanges)
  end.

(** [updateFileContentMap(contentMap)]; the map is given by its entries
    in iteration order. *)
Definition updateFileContentMap (now : N) (contentMap : JsMap.t string)
           (s : State) : State :=
  let '(s1, hasChanges) :=
    fold_left (fun acc entry =>
                 updateContentEntry now (fst entry) (snd entry) acc)
              contentMap (s, false) in
  if hasChanges then emit contentMapUpdated s1 else s1.

Definition isProtected (node : FileSystemNode) : bool :=
  isNew node || isLocked node.

Definition clearNonUserFiles (s : State) : State :=
  let toRemove :=
    JsMap.keys
      (filter (fun entry =>
                 negb (String.eqb (fst entry) "/")
                 && negb (isNew (snd entry)) && negb (isLocked (snd entry)))
              (fileMap s)) in
  fold_left (fun st p => withFileMap st (JsMap.delete p (fileMap st)))
            toRemove s.

(** The path [processExternalNode] gives an external node. *)
Definition externalPath (parentPath ename : string) : string :=
  if String.eqb parentPath "/" then "/" ++ ename
  else parentPath ++ "/" ++ ename.

Fixpoint processExternalNode (now : N) (external : ExternalFileNode)
         (parentPath : string) (s : State) {struct external} : State :=
  match external with
  | mkExternal ename etype econtent esize echildren =>
      let fullPath := externalPath parentPath ename in
      let existing := JsMap.get fullPath (fileMap s) in
      if match existing with
         | Some e => isProtected e
         | None => false
         end
      then s
      else
        match etype with
        | File =>
            match existing with
            | None =>
                let '(key, s1) :=
                  createFileNode now fullPath ename parentPath
                                 (orEmpty econtent) false s in
                modify key
                  (fun node =>
                     setIsLocked (setIsNew (setIsDirty node false) false)
                                 false) s1
            | Some e =>
                match econtent with
                | Some c =>
                    if differs (content e) c then
                      let e1 := setContent e (Some c) in
                      let e2 :=
                        setSize e1
                          (Some match esize with
                                | Some 0%N | None => JsString.blobSize c
                                | Some n => n
                                end) in
                      let e3 := setLastModified e2 now in
                      let e4 := setIsDirty e3 false in
                      withFileMap s (JsMap.set fullPath e4 (fileMap s))
                    else s
                | None => s
                end
            end
        | Directory =>
            let s1 := ensureDirectory now fullPath (Some ename) s in
            match echildren with
            | Some children =>
                (fix each (cs : list ExternalFileNode) (st : State) : State :=
                   match cs with
                   | [] => st
                   | child :: rest =>
                       each rest (processExternalNode now child fullPath st)
                   end) children s1
            | None => s1
            end
        end
  end.

Definition mergeExternalStructure (now : N)
           (externalStructure : ExternalFileNode) (s : State) : State :=
  let s1 := clearNonUserFiles s in
  let s2 :=
    match externalStructure with
    | mkExternal _ _ _ _ (Some children) =>
        fold_left (fun st child => processExternalNode now child "/" st)
                  children s1
    | mkExternal _ _ _ _ None => s1
    end in
  emit structureMerged s2.

Definition getDirtyFiles (s : State) : list FileSystemNode :=
  filter (fun node => NodeType_eqb (type node) File && isDirty node)
         (JsMap.values (fileMap s)).

(* ---------------- scripts of tab operations ---------------- *)

(** A call of the tab interface, with the clock value it runs at. *)
Inductive TabCall :=
| CallOpen (now : N) (path : string)
| CallActivate (now : N) (path : string)
| CallClose (now : N) (path : string).

Definition runTabCall (c : TabCall) (s : State) : State :=
  match c with
  | CallOpen now p => openFile now p s
  | CallActivate now p => activateTab now p s
  | CallClose now p => closeFile now p s
  end.

Definition runTabCalls (cs : list TabCall) (s : State) : State :=
  fold_left (fun st c => runTabCall c st) cs s.

End EnhancedFileSystemManager.

(* ================================================================== *)
(** * Auxiliary definitions of the statements *)
(* ================================================================== *)

Unset Implicit Arguments.

(* ---------------- path normalisation ---------------- *)

(** The three prefix removals of [normalizeFilename], one by one. *)
Definition dropSlash (t : string) : string :=
  if JsString.startsWith t "/" then JsString.substringFrom 1 t else t.

Definition dropDotSlash (t : string) : string :=
  if JsString.startsWith t "./" then JsString.substringFrom 2 t else t.

Definition dropWorkspace (t : string) : string :=
  stripWorkspacePrefix workspacePrefixes (JsString.toLowerCase t) t.

Definition noWorkspacePrefix (t : string) : bool :=
  forallb (fun prefix =>
             negb (JsString.startsWith (JsString.toLowerCase t)
                                       (JsString.toLowerCase prefix)))
          workspacePrefixes.

(* ---------------- history ---------------- *)

(** [node.historyIndex ?? -1] *)
Definition currentIndex (node : EnhancedFileSystemManager.FileSystemNode) : Z :=
  match EnhancedFileSystemManager.historyIndex node with
  | Some i => i
  | None => (-1)%Z
  end.

(** The number of snapshots a node holds. *)
Definition historyLength (node : EnhancedFileSystemManager.FileSystemNode)
  : nat :=
  match EnhancedFileSystemManager.history node with
  | Some h => length h
  | None => 0
  end.

(** Every stored history is within the cap. *)
Definition historiesBounded (s : EnhancedFileSystemManager.State) : Prop :=
  forall k n,
    JsMap.get k (EnhancedFileSystemManager.fileMap s) = Some n ->
    historyLength n <= EnhancedFileSystemManager.historyCap.

(** The edits [cs] typed one after the other into the file at [p]. *)
Definition typeAll (now : N) (p : string) (cs : list string)
           (s : EnhancedFileSystemManager.State)
  : EnhancedFileSystemManager.State :=
  fold_left (fun st c => EnhancedFileSystemManager.updateFileContent now p c st)
            cs s.

(** [n] successive calls of an operation *)
Definition repeatedly {A : Type} (n : nat) (f : A -> A) (a : A) : A :=
  Nat.iter n f a.

(* ---------------- tabs ---------------- *)

(** The number of stored records whose [isActive] flag is set. *)
Definition activeCount (s : EnhancedFileSystemManager.State) : nat :=
  length (filter EnhancedFileSystemManager.isActive
                 (JsMap.values (EnhancedFileSystemManager.fileMap s))).

(** Every open tab is a normalised path that has a record. *)
Definition tabsWf (s : EnhancedFileSystemManager.State) : bool :=
  forallb (fun t =>
             String.eqb (EnhancedFileSystemManager.normalizePath t) t
             && JsMap.has t (EnhancedFileSystemManager.fileMap s))
          (EnhancedFileSystemManager.openTabs s).

(** The invariant of the tab operations.  The map: keys are distinct and
    each record sits under its path.  The tabs: distinct normalised paths
    of records flagged open.  The active flag: a record that carries it is
    the active tab and is among the open tabs. *)
Definition MapInv (s : EnhancedFileSystemManager.State) : Prop :=
  NoDup (JsMap.keys (EnhancedFileSystemManager.fileMap s))
  /\ forall k n,
      JsMap.get k (EnhancedFileSystemManager.fileMap s) = Some n ->
      EnhancedFileSystemManager.path n = k.

Definition TabsInv (s : EnhancedFileSystemManager.State) : Prop :=
  NoDup (EnhancedFileSystemManager.openTabs s)
  /\ forall t,
      In t (EnhancedFileSystemManager.openTabs s) ->
      EnhancedFileSystemManager.normalizePath t = t
      /\ exists n,
          JsMap.get t (EnhancedFileSystemManager.fileMap s) = Some n
          /\ EnhancedFileSystemManager.isOpen n = true.

Definition ActiveInv (s : EnhancedFileSystemManager.State) : Prop :=
  forall k n,
    JsMap.get k (EnhancedFileSystemManager.fileMap s) = Some n ->
    EnhancedFileSystemManager.isActive n = true ->
    EnhancedFileSystemManager.activeTab s = Some k
    /\ In k (EnhancedFileSystemManager.openTabs s).

Definition TabInv (s : EnhancedFileSystemManager.State) : Prop :=
  MapInv s /\ TabsInv s /\ ActiveInv s.

(** The state in which [closeFile] looks at the active tab: the flags of
    the closed node are cleared and its tab is spliced out. *)
Definition afterSplice (np : string) (tabIndex : nat)
           (s : EnhancedFileSystemManager.State)
  : EnhancedFileSystemManager.State :=
  let s1 :=
    EnhancedFileSystemManager.modify np
      (fun node =>
         EnhancedFileSystemManager.setIsActive
           (EnhancedFileSystemManager.setIsOpen node false) false) s in
  EnhancedFileSystemManager.withOpenTabs s1
    (JsArray.removeAt tabIndex (EnhancedFileSystemManager.openTabs s1)).

(** A record with the two flags of the tab operations cleared: two
    records that agree in this form differ in [isOpen] and [isActive] at
    most. *)
Definition withoutTabFlags (n : EnhancedFileSystemManager.FileSystemNode)
  : EnhancedFileSystemManager.FileSystemNode :=
  EnhancedFileSystemManager.setIsActive
    (EnhancedFileSystemManager.setIsOpen n false) false.

(* ---------------- the tree of records ---------------- *)

(** Every record has the record of its parent path beside it (the root
    is its own parent path). *)
Definition ParentsPresent (s : EnhancedFileSystemManager.State) : Prop :=
  forall k,
    JsMap.has k (EnhancedFileSystemManager.fileMap s) = true ->
    JsMap.has (EnhancedFileSystemManager.getParentPath k)
              (EnhancedFileSystemManager.fileMap s) = true.

(** The same as a test over the keys. *)
Definition parentsPresent (s : EnhancedFileSystemManager.State) : bool :=
  forallb (fun k =>
             JsMap.has (EnhancedFileSystemManager.getParentPath k)
                       (EnhancedFileSystemManager.fileMap s))
          (JsMap.keys (EnhancedFileSystemManager.fileMap s)).

(* ---------------- the flat manager ---------------- *)

(** The invariant of the flat manager: the open tabs are distinct names
    of cached files, none of them a special file, and the active tab is
    the name of a cached file. *)
Definition FlatInv (s : FileSystemManager.State) : Prop :=
  NoDup (FileSystemManager.openTabs s)
  /\ (forall t,
         In t (FileSystemManager.openTabs s) ->
         JsMap.has t (FileSystemManager.files s) = true
         /\ FileSystemManager.isSpecialFile t = false)
  /\ (forall a,
         FileSystemManager.activeTab s = Some a ->
         JsMap.has a (FileSystemManager.files s) = true).

(** The cached data of the flat manager: all of its state but the
    silent flag and the count of notifications. *)
Definition flatData (s : FileSystemManager.State)
  : JsMap.t FileSystemManager.FileState * list string * option string :=
  (FileSystemManager.files s, FileSystemManager.openTabs s,
   FileSystemManager.activeTab s).

(* ---------------- the file tree of the explorer ---------------- *)

(** A test that holds of a node and of every node below it. *)
Fixpoint allNodes (P : FileStructure.FileStructureNode -> bool)
         (t : FileStructure.FileStructureNode) : bool :=
  P t
  && match t with
     | FileStructure.mkNode _ _ (Some cs) _ => forallb (allNodes P) cs
     | FileStructure.mkNode _ _ None _ => true
     end.

(** The children of a node, none for a node without the array. *)
Definition childrenOf (t : FileStructure.FileStructureNode)
  : list FileStructure.FileStructureNode :=
  match FileStructure.children t with
  | Some cs => cs
  | None => []
  end.

(** The name of the node is not the name of a special file. *)
Definition notSpecial (t : FileStructure.FileStructureNode) : bool :=
  negb (FileSystemManager.isSpecialFile (FileStructure.name t)).

(** A directory has a children array and a file has none. *)
Definition typed (t : FileStructure.FileStructureNode) : bool :=
  match FileStructure.type t, FileStructure.children t with
  | FileStructure.Directory, Some _ => true
  | FileStructure.File, None => true
  | _, _ => false
  end.

Fixpoint distinct (l : list string) : bool :=
  match l with
  | [] => true
  | x :: r => negb (existsb (String.eqb x) r) && distinct r
  end.

(** No two children of the node have the same name. *)
Definition distinctNames (t : FileStructure.FileStructureNode) : bool :=
  distinct (map FileStructure.name (childrenOf t)).

Definition isFileNode (t : FileStructure.FileStructureNode) : bool :=
  match FileStructure.type t with
  | FileStructure.File => true
  | FileStructure.Directory => false
  end.

(** No file comes before a directory. *)
Fixpoint directoriesBeforeFiles (cs : list FileStructure.FileStructureNode)
  : bool :=
  match cs with
  | [] => true
  | c :: r =>
      (if isFileNode c then forallb isFileNode r else true)
      && directoriesBeforeFiles r
  end.

Definition directoriesFirst (t : FileStructure.FileStructureNode) : bool :=
  directoriesBeforeFiles (childrenOf t).

(** Each child is in order with the next one for the comparator. *)
Fixpoint inOrder (compare : FileStructure.FileStructureNode ->
                            FileStructure.FileStructureNode -> Z)
         (cs : list FileStructure.FileStructureNode) : bool :=
  match cs with
  | [] => true
  | c :: r =>
      match r with
      | [] => true
      | c' :: _ => (compare c c' <=? 0)%Z
      end
      && inOrder compare r
  end.

(** The path given by its parts is in the tree: following the names from
    the node leads to a node for each part, or to a node without a
    children array, a file, below which the tree records nothing. *)
Fixpoint covers (parts : list string) (t : FileStructure.FileStructureNode)
         {struct parts} : bool :=
  match parts with
  | [] => true
  | part :: rest =>
      match FileStructure.children t with
      | None => true
      | Some cs =>
          existsb (fun c =>
                     String.eqb (FileStructure.name c) part && covers rest c)
                  cs
      end
  end.

(** The comparison of strings by code units, a collation that stands for
    [localeCompare] where a tree is computed. *)
Definition codeUnitCompare (a b : string) : Z :=
  match String.compare a b with
  | Lt => (-1)%Z
  | Eq => 0%Z
  | Gt => 1%Z
  end.

(** Induction on the nodes of a tree, through the lists of children. *)
Fixpoint FileStructureNode_induction
         (P : FileStructure.FileStructureNode -> Prop)
         (step : forall n ty children sz,
             (forall cs, children = Some cs -> Forall P cs) ->
             P (FileStructure.mkNode n ty children sz))
         (t : FileStructure.FileStructureNode) {struct t} : P t :=
  match t with
  | FileStructure.mkNode n ty children sz =>
      step n ty children sz
           (match children as o
                  return forall cs, o = Some cs -> Forall P cs with
            | Some l =>
                fun cs (E : Some l = Some cs) =>
                  match E in _ = o
                        return match o with
                               | Some l' => Forall P l'
                               | None => True
                               end with
                  | eq_refl =>
                      (fix all (l0 : list FileStructure.FileStructureNode)
                         : Forall P l0 :=
                         match l0 with
                         | [] => Forall_nil P
                         | c :: r =>
                             Forall_cons c
                               (FileStructureNode_induction P step c) (all r)
                         end) l
                  end
            | None =>
                fun cs (E : None = Some cs) =>
                  match E in _ = o
                        return match o with
                               | Some l' => Forall P l'
                               | None => True
                               end with
                  | eq_refl => I
                  end
            end)
  end.

(** The records form a tree: every key is a normalised path, the parent
    path a record names is shorter than its own, and a record found under
    that parent path is a directory. *)
Definition StoreWf (s : EnhancedFileSystemManager.State) : Prop :=
  forall k n,
    JsMap.get k (EnhancedFileSystemManager.fileMap s) = Some n ->
    JsString.startsWith k "/" = true
    /\ forall q,
        EnhancedFileSystemManager.parent n = Some q ->
        String.length q < String.length k
        /\ forall m,
            JsMap.get q (EnhancedFileSystemManager.fileMap s) = Some m ->
            EnhancedFileSystemManager.type m
            = EnhancedFileSystemManager.Directory.

(** The same as a test over the entries. *)
Definition storeWf (s : EnhancedFileSystemManager.State) : bool :=
  forallb (fun entry =>
             JsString.startsWith (fst entry) "/"
             && match EnhancedFileSystemManager.parent (snd entry) with
                | Some q =>
                    (String.length q <? String.length (fst entry))
                    && match JsMap.get q (EnhancedFileSystemManager.fileMap s)
                       with
                       | Some m =>
                           EnhancedFileSystemManager.NodeType_eqb
                             (EnhancedFileSystemManager.type m)
                             EnhancedFileSystemManager.Directory
                       | None => true
                       end
                | None => true
                end)
          (EnhancedFileSystemManager.fileMap s).

(** The invariant of the tab operations as a test. *)
Definition tabInv (s : EnhancedFileSystemManager.State) : bool :=
  distinct (JsMap.keys (EnhancedFileSystemManager.fileMap s))
  && forallb (fun entry =>
                String.eqb (EnhancedFileSystemManager.path (snd entry))
                           (fst entry))
             (EnhancedFileSystemManager.fileMap s)
  && distinct (EnhancedFileSystemManager.openTabs s)
  && forallb (fun t =>
                String.eqb (EnhancedFileSystemManager.normalizePath t) t
                && match JsMap.get t (EnhancedFileSystemManager.fileMap s) with
                   | Some n => EnhancedFileSystemManager.isOpen n
                   | None => false
                   end)
             (EnhancedFileSystemManager.openTabs s)
  && forallb (fun entry =>
                negb (EnhancedFileSystemManager.isActive (snd entry))
                || (match EnhancedFileSystemManager.activeTab s with
                    | Some a => String.eqb a (fst entry)
                    | None => false
                    end
                    && JsArray.includes (fst entry)
                         (EnhancedFileSystemManager.openTabs s)))
             (EnhancedFileSystemManager.fileMap s).

(** Every record of the second state is a record of the first, the same
    but for the flags of the tab operations. *)
Definition keptUpToFlags (s s' : EnhancedFileSystemManager.State) : Prop :=
  forall k n',
    JsMap.get k (EnhancedFileSystemManager.fileMap s') = Some n' ->
    exists n,
      JsMap.get k (EnhancedFileSystemManager.fileMap s) = Some n
      /\ withoutTabFlags n' = withoutTabFlags n.

(** No record of the second state has lost the record of its parent
    path. *)
Definition noOrphans (s s' : EnhancedFileSystemManager.State) : Prop :=
  forall k n q,
    JsMap.get k (EnhancedFileSystemManager.fileMap s') = Some n ->
    EnhancedFileSystemManager.parent n = Some q ->
    JsMap.has q (EnhancedFileSystemManager.fileMap s) = true ->
    JsMap.has q (EnhancedFileSystemManager.fileMap s') = true.

(* ---------------- dirty flag and content ---------------- *)

(** The dirty invariant of a record of the flat manager, the saved
    baseline being [originalContent]. *)
Definition dirtyOk (f : FileSystemManager.FileState) : bool :=
  Bool.eqb (FileSystemManager.isDirty f)
           (negb (String.eqb (FileSystemManager.content f)
                             (FileSystemManager.originalContent f))).

Definition allDirtyOk (s : FileSystemManager.State) : Prop :=
  forall k f, JsMap.get k (FileSystemManager.files s) = Some f ->
              dirtyOk f = true.

(** The dirty invariant of a file record of the enhanced manager, the
    saved baseline being the first snapshot of the history. *)
Definition nodeDirtyOk (n : EnhancedFileSystemManager.FileSystemNode) : Prop :=
  EnhancedFileSystemManager.type n = EnhancedFileSystemManager.File ->
  exists c,
    EnhancedFileSystemManager.content n = Some c
    /\ EnhancedFileSystemManager.isDirty n
       = negb (String.eqb c (EnhancedFileSystemManager.baseline n)).

Definition allNodesDirtyOk (s : EnhancedFileSystemManager.State) : Prop :=
  forall k n, JsMap.get k (EnhancedFileSystemManager.fileMap s) = Some n ->
              nodeDirtyOk n.

(** The invariant of a node as a test. *)
Definition nodeDirtyOkb (n : EnhancedFileSystemManager.FileSystemNode) : bool :=
  match EnhancedFileSystemManager.type n with
  | EnhancedFileSystemManager.Directory => true
  | EnhancedFileSystemManager.File =>
      match EnhancedFileSystemManager.content n with
      | Some c =>
          Bool.eqb (EnhancedFileSystemManager.isDirty n)
                   (negb (String.eqb c (EnhancedFileSystemManager.baseline n)))
      | None => false
      end
  end.

(** Every record of the first state is still there in the second, with the
    same content. *)
Definition contentsKept (s s' : EnhancedFileSystemManager.State) : Prop :=
  forall k n,
    JsMap.get k (EnhancedFileSystemManager.fileMap s) = Some n ->
    exists n',
      JsMap.get k (EnhancedFileSystemManager.fileMap s') = Some n'
      /\ EnhancedFileSystemManager.content n'
         = EnhancedFileSystemManager.content n.

(* ---------------- reconciliation ---------------- *)

(** No entry of a content map normalises to the path [np]. *)
Definition othersOnly (np : string) (entries : JsMap.t string) : bool :=
  forallb (fun entry =>
             negb (String.eqb
                     (EnhancedFileSystemManager.normalizePath (fst entry)) np))
          entries.

(** The content map has nothing to tell about a path: there is no
    record of it, or a directory, or a file that holds the content
    given. *)
Definition settled (filePath content : string)
           (s : EnhancedFileSystemManager.State) : bool :=
  match JsMap.get (EnhancedFileSystemManager.normalizePath filePath)
                  (EnhancedFileSystemManager.fileMap s) with
  | Some node =>
      match EnhancedFileSystemManager.type node with
      | EnhancedFileSystemManager.File =>
          negb (EnhancedFileSystemManager.differs
                  (EnhancedFileSystemManager.content node) content)
      | EnhancedFileSystemManager.Directory => true
      end
  | None => true
  end.

(** No two entries of a content map are for the same normalised path. *)
Definition distinctPaths (entries : JsMap.t string) : bool :=
  distinct (map (fun entry =>
                   EnhancedFileSystemManager.normalizePath (fst entry))
                entries).

(** Induction on external nodes, through the lists of children. *)
Fixpoint ExternalFileNode_induction
         (P : EnhancedFileSystemManager.ExternalFileNode -> Prop)
         (step : forall ename etype econtent esize echildren,
             (forall children, echildren = Some children ->
                               Forall P children) ->
             P (EnhancedFileSystemManager.mkExternal
                  ename etype econtent esize echildren))
         (external : EnhancedFileSystemManager.ExternalFileNode)
         {struct external} : P external :=
  match external with
  | EnhancedFileSystemManager.mkExternal ename etype econtent esize echildren =>
      step ename etype econtent esize echildren
           (match echildren as o
                  return forall children, o = Some children ->
                                          Forall P children with
            | Some cs =>
                fun children (E : Some cs = Some children) =>
                  match E in _ = o
                        return match o with
                               | Some l => Forall P l
                               | None => True
                               end with
                  | eq_refl =>
                      (fix all
                           (l : list EnhancedFileSystemManager.ExternalFileNode)
                         : Forall P l :=
                         match l with
                         | [] => Forall_nil P
                         | c :: r =>
                             Forall_cons c
                               (ExternalFileNode_induction P step c) (all r)
                         end) cs
                  end
            | None =>
                fun children (E : None = Some children) =>
                  match E in _ = o
                        return match o with
                               | Some l => Forall P l
                               | None => True
                               end with
                  | eq_refl => I
                  end
            end)
  end.

(* ================================================================== *)
(** * Path normalisation: facts *)
(* ================================================================== *)

Section PathUtilsFacts.
Import PathUtils.

Lemma stripLeadingSlashes_length (s : string) :
  String.length (stripLeadingSlashes s) <= String.length s.
Proof.
  induction s as [|c r IH]; simpl; [lia|].
  destruct (Ascii.eqb c slash); simpl; lia.
Qed.

Lemma stripLeadingSlashes_fixed (c : ascii) (r : string) :
  stripLeadingSlashes (String c r) = String c r -> Ascii.eqb c slash = false.
Proof.
  simpl. destruct (Ascii.eqb c slash); [|reflexivity].
  intros H. pose proof (stripLeadingSlashes_length r) as L.
  rewrite H in L. simpl in L. lia.
Qed.

Lemma stripLeadingSlashes_idem (s : string) :
  stripLeadingSlashes (stripLeadingSlashes s) = stripLeadingSlashes s.
Proof.
  induction s as [|c r IH]; simpl; [reflexivity|].
  destruct (Ascii.eqb c slash) eqn:E; [exact IH|].
  simpl. rewrite E. reflexivity.
Qed.

Lemma stripTrailingSlashes_idem (s : string) :
  stripTrailingSlashes (stripTrailingSlashes s) = stripTrailingSlashes s.
Proof.
  induction s as [|c r IH]; simpl; [reflexivity|].
  destruct (stripTrailingSlashes r) as [|d r'] eqn:E.
  - destruct (Ascii.eqb c slash) eqn:Ec; simpl; [reflexivity|].
    rewrite Ec. reflexivity.
  - change (stripTrailingSlashes (String c (String d r')))
      with (match stripTrailingSlashes (String d r') with
            | EmptyString =>
                if Ascii.eqb c slash then EmptyString else String c EmptyString
            | r'' => String c r''
            end).
    rewrite IH. reflexivity.
Qed.

Lemma stripTrailingSlashes_keeps_head (s : string) :
  stripLeadingSlashes s = s ->
  stripLeadingSlashes (stripTrailingSlashes s) = stripTrailingSlashes s.
Proof.
  destruct s as [|c r]; [reflexivity|].
  intros H. apply stripLeadingSlashes_fixed in H.
  simpl. destruct (stripTrailingSlashes r); rewrite ?H; simpl; rewrite H;
    reflexivity.
Qed.

Lemma collapseSlashes_keeps_head (s : string) :
  stripLeadingSlashes s = s ->
  stripLeadingSlashes (collapseSlashes s) = collapseSlashes s.
Proof.
  destruct s as [|c r]; [reflexivity|].
  intros H. apply stripLeadingSlashes_fixed in H.
  simpl. rewrite H. simpl. rewrite H. reflexivity.
Qed.

Lemma collapseSlashes_empty (s : string) :
  collapseSlashes s = "" -> s = "".
Proof.
  induction s as [|c r IH]; [reflexivity|]. cbn [collapseSlashes].
  destruct (Ascii.eqb c slash && JsString.startsWith r "/") eqn:E;
    [|discriminate].
  intros H. apply IH in H. subst r.
  rewrite andb_true_iff in E. destruct E as [_ E]. discriminate.
Qed.

Lemma startsWith_slash (c : ascii) (r : string) :
  JsString.startsWith (String c r) "/" = Ascii.eqb c slash.
Proof. simpl. destruct r; apply andb_true_r. Qed.

Lemma collapseSlashes_head (s : string) :
  JsString.startsWith (collapseSlashes s) "/" = JsString.startsWith s "/".
Proof.
  induction s as [|c r IH]; [reflexivity|].
  cbn [collapseSlashes].
  destruct (Ascii.eqb c slash) eqn:Ec; cbn [andb].
  - destruct (JsString.startsWith r "/") eqn:Er.
    + rewrite IH, startsWith_slash, Ec. reflexivity.
    + rewrite !startsWith_slash. reflexivity.
  - rewrite !startsWith_slash. reflexivity.
Qed.

Lemma collapseSlashes_idem (s : string) :
  collapseSlashes (collapseSlashes s) = collapseSlashes s.
Proof.
  induction s as [|c r IH]; [reflexivity|].
  cbn [collapseSlashes].
  destruct (Ascii.eqb c slash && JsString.startsWith r "/") eqn:E;
    [exact IH|].
  cbn [collapseSlashes]. rewrite collapseSlashes_head, E, IH. reflexivity.
Qed.

Lemma stripTrailingSlashes_fixed (c : ascii) (r : string) :
  stripTrailingSlashes (String c r) = String c r ->
  (r = "" /\ Ascii.eqb c slash = false)
  \/ (r <> "" /\ stripTrailingSlashes r = r).
Proof.
  simpl. destruct (stripTrailingSlashes r) as [|d r'] eqn:E.
  - destruct (Ascii.eqb c slash); [discriminate|].
    intros H. injection H as H. left. split; [symmetry; exact H|reflexivity].
  - intros H. injection H as H. right. split; [|exact H].
    rewrite <- H. discriminate.
Qed.

Lemma collapseSlashes_keeps_tail (s : string) :
  stripTrailingSlashes s = s ->
  stripTrailingSlashes (collapseSlashes s) = collapseSlashes s.
Proof.
  induction s as [|c r IH]; [reflexivity|].
  intros H. apply stripTrailingSlashes_fixed in H.
  destruct H as [[-> Hc] | [Hr Hs]].
  - simpl. rewrite Hc. simpl. rewrite Hc. reflexivity.
  - specialize (IH Hs). cbn [collapseSlashes].
    destruct (Ascii.eqb c slash && JsString.startsWith r "/"); [exact IH|].
    cbn [stripTrailingSlashes]. rewrite IH.
    destruct (collapseSlashes r) eqn:E; [|reflexivity].
    apply collapseSlashes_empty in E. contradiction.
Qed.

Lemma normalizePath_idempotent (p : string) :
  normalizePath (normalizePath p) = normalizePath p.
Proof.
  destruct (String.eqb p "") eqn:Ep.
  - apply String.eqb_eq in Ep. subst p. reflexivity.
  - assert (Hp : normalizePath p
                 = collapseSlashes
                     (stripTrailingSlashes (stripLeadingSlashes p))).
    { unfold normalizePath. rewrite Ep. reflexivity. }
    rewrite Hp.
    set (u := stripTrailingSlashes (stripLeadingSlashes p)).
    assert (Hl : stripLeadingSlashes u = u).
    { apply stripTrailingSlashes_keeps_head, stripLeadingSlashes_idem. }
    assert (Ht : stripTrailingSlashes u = u).
    { apply stripTrailingSlashes_idem. }
    unfold normalizePath.
    destruct (String.eqb (collapseSlashes u) "") eqn:E.
    + apply String.eqb_eq in E. symmetry. exact E.
    + rewrite (collapseSlashes_keeps_head _ Hl).
      rewrite (collapseSlashes_keeps_tail _ Ht).
      apply collapseSlashes_idem.
Qed.

End PathUtilsFacts.

Section NormalizeFilenameFacts.
Import JsString.

Lemma substringFrom_length (n : nat) (s : string) :
  String.length (substringFrom n s) = String.length s - n.
Proof.
  revert s. induction n as [|n IH]; intros s; simpl; [lia|].
  destruct s as [|c r]; simpl; [reflexivity|apply IH].
Qed.

Lemma startsWith_length (s p : string) :
  startsWith s p = true -> String.length p <= String.length s.
Proof.
  revert s. induction p as [|b p IH]; intros s; simpl; [lia|].
  destruct s as [|a s]; [discriminate|]. simpl.
  rewrite andb_true_iff. intros [_ H]. apply IH in H. lia.
Qed.

Lemma toLowerCase_length (s : string) :
  String.length (toLowerCase s) = String.length s.
Proof. induction s as [|c r IH]; simpl; [reflexivity|now rewrite IH]. Qed.

Lemma trimStart_length (s : string) :
  String.length (trimStart s) <= String.length s.
Proof.
  induction s as [|c r IH]; simpl; [lia|].
  destruct (isWhiteSpace c); simpl; lia.
Qed.

Lemma trimStart_fixed (s : string) :
  String.length (trimStart s) = String.length s -> trimStart s = s.
Proof.
  destruct s as [|c r]; simpl; [reflexivity|].
  destruct (isWhiteSpace c); [|reflexivity].
  pose proof (trimStart_length r). lia.
Qed.

Lemma trimEnd_length (s : string) :
  String.length (trimEnd s) <= String.length s.
Proof.
  induction s as [|c r IH]; simpl; [lia|].
  destruct (trimEnd r); [destruct (isWhiteSpace c)|]; simpl in *; lia.
Qed.

Lemma trimEnd_fixed (s : string) :
  String.length (trimEnd s) = String.length s -> trimEnd s = s.
Proof.
  induction s as [|c r IH]; simpl; [reflexivity|].
  pose proof (trimEnd_length r) as L.
  destruct (trimEnd r) as [|d r'] eqn:E.
  - destruct (isWhiteSpace c); simpl; intros H; [lia|].
    destruct r; [reflexivity|simpl in H; lia].
  - simpl in *. intros H. rewrite IH; [reflexivity|lia].
Qed.

Lemma trim_length (s : string) :
  String.length (trim s) <= String.length s.
Proof.
  unfold trim. pose proof (trimEnd_length (trimStart s)).
  pose proof (trimStart_length s). lia.
Qed.

Lemma trim_fixed (s : string) :
  String.length (trim s) = String.length s -> trim s = s.
Proof.
  unfold trim. intros H.
  pose proof (trimEnd_length (trimStart s)).
  pose proof (trimStart_length s).
  assert (E : trimStart s = s) by (apply trimStart_fixed; lia).
  rewrite E in *. apply trimEnd_fixed. exact H.
Qed.

Lemma normalizeFilename_steps (f : string) :
  f <> "" ->
  normalizeFilename f = dropWorkspace (dropDotSlash (dropSlash (trim f))).
Proof.
  intros H. unfold normalizeFilename.
  destruct (String.eqb f "") eqn:E; [apply String.eqb_eq in E; contradiction|].
  reflexivity.
Qed.

Lemma dropSlash_length (t : string) :
  String.length (dropSlash t) <= String.length t
  /\ (String.length (dropSlash t) = String.length t ->
      startsWith t "/" = false /\ dropSlash t = t).
Proof.
  unfold dropSlash. destruct (startsWith t "/") eqn:E.
  - apply startsWith_length in E. rewrite substringFrom_length.
    simpl in E. split; [lia|]. intros H. lia.
  - split; [lia|]. intros _. split; reflexivity.
Qed.

Lemma dropDotSlash_length (t : string) :
  String.length (dropDotSlash t) <= String.length t
  /\ (String.length (dropDotSlash t) = String.length t ->
      startsWith t "./" = false /\ dropDotSlash t = t).
Proof.
  unfold dropDotSlash. destruct (startsWith t "./") eqn:E.
  - apply startsWith_length in E. rewrite substringFrom_length.
    simpl in E. split; [lia|]. intros H. lia.
  - split; [lia|]. intros _. split; reflexivity.
Qed.

Lemma dropWorkspace_length (t : string) :
  String.length (dropWorkspace t) <= String.length t
  /\ (String.length (dropWorkspace t) = String.length t ->
      noWorkspacePrefix t = true /\ dropWorkspace t = t).
Proof.
  unfold dropWorkspace, noWorkspacePrefix, workspacePrefixes.
  cbn [stripWorkspacePrefix forallb].
  set (p1 := toLowerCase "workspace/").
  set (p2 := toLowerCase "workspace\").
  destruct (startsWith (toLowerCase t) p1) eqn:E1.
  { apply startsWith_length in E1. rewrite toLowerCase_length in E1.
    rewrite substringFrom_length. subst p1. simpl in *. lia. }
  destruct (startsWith (toLowerCase t) p2) eqn:E2.
  { apply startsWith_length in E2. rewrite toLowerCase_length in E2.
    rewrite substringFrom_length. subst p2. simpl in *. lia. }
  split; [lia|]. intros _. split; reflexivity.
Qed.

Lemma isCanonical_spec (t : string) :
  isCanonical t = true <->
  trim t = t /\ startsWith t "/" = false /\ startsWith t "./" = false
  /\ noWorkspacePrefix t = true.
Proof.
  unfold isCanonical. fold (noWorkspacePrefix t).
  rewrite !andb_true_iff, !negb_true_iff, String.eqb_eq. tauto.
Qed.

(** The fixed points of [normalizeFilename] are the canonical strings. *)
Lemma normalizeFilename_fixed_iff (t : string) :
  normalizeFilename t = t <-> isCanonical t = true.
Proof.
  destruct (string_dec t "") as [->|Hne]; [split; reflexivity|].
  rewrite normalizeFilename_steps by exact Hne.
  rewrite isCanonical_spec. split.
  - intros H.
    pose proof (trim_length t) as L0.
    destruct (dropSlash_length (trim t)) as [L1 F1].
    destruct (dropDotSlash_length (dropSlash (trim t))) as [L2 F2].
    destruct (dropWorkspace_length (dropDotSlash (dropSlash (trim t))))
      as [L3 F3].
    assert (E : String.length
                  (dropWorkspace (dropDotSlash (dropSlash (trim t))))
                = String.length t) by (rewrite H; reflexivity).
    destruct F3 as [W _]; [lia|].
    destruct F2 as [D E2]; [lia|]. rewrite E2 in W.
    destruct F1 as [S E1]; [lia|]. rewrite E1 in W, D.
    rewrite (trim_fixed t) in * by lia. tauto.
  - intros (T & S & D & W). rewrite T.
    unfold dropSlash. rewrite S. unfold dropDotSlash. rewrite D.
    destruct (dropWorkspace_length t) as [_ F]. 
    unfold dropWorkspace, noWorkspacePrefix, workspacePrefixes in *.
    cbn [stripWorkspacePrefix forallb] in *.
    rewrite !andb_true_iff, !negb_true_iff in W.
    destruct W as (W1 & W2 & _). rewrite W1, W2. reflexivity.
Qed.

End NormalizeFilenameFacts.

(** C4 (counterexample).  [normalizeFilename] removes one leading slash
    only: on the raw path [//a] a second application removes another. *)
Lemma C4_normalizeFilename_not_idempotent :
  normalizeFilename (normalizeFilename "//a") <> normalizeFilename "//a".
Proof. vm_compute. discriminate. Qed.

(** C4 (amended).  [PathUtils.normalizePath] is idempotent on every raw
    path.  [normalizeFilename] removes each kind of prefix once, and a second
    application changes nothing exactly when the first result is
    canonical: trimmed and starting with no slash, no [./] and no workspace
    prefix. *)
Theorem C4_normalization_idempotence :
  (forall p : string,
      PathUtils.normalizePath (PathUtils.normalizePath p)
      = PathUtils.normalizePath p)
  /\ (forall p : string,
         normalizeFilename (normalizeFilename p) = normalizeFilename p
         <-> isCanonical (normalizeFilename p) = true).
Proof.
  split.
  - exact normalizePath_idempotent.
  - intros p. apply normalizeFilename_fixed_iff.
Qed.

(* ================================================================== *)
(** * Maps and arrays: facts *)
(* ================================================================== *)

Section JsMapFacts.
Context {V : Type}.
Implicit Types (m : JsMap.t V) (k : string) (v : V).

Lemma get_set_same m k v : JsMap.get k (JsMap.set k v m) = Some v.
Proof.
  induction m as [|[k' v'] r IH]; simpl.
  - now rewrite String.eqb_refl.
  - destruct (String.eqb k' k) eqn:E; simpl.
    + now rewrite String.eqb_refl.
    + now rewrite E.
Qed.

Lemma get_set_other m k k' v :
  k <> k' -> JsMap.get k' (JsMap.set k v m) = JsMap.get k' m.
Proof.
  intros Hne. induction m as [|[k0 v0] r IH]; simpl.
  - apply String.eqb_neq in Hne. now rewrite Hne.
  - destruct (String.eqb k0 k) eqn:E; simpl.
    + apply String.eqb_eq in E. subst k0.
      apply String.eqb_neq in Hne. now rewrite Hne.
    + destruct (String.eqb k0 k'); [reflexivity|exact IH].
Qed.

Lemma get_delete_same m k : JsMap.get k (JsMap.delete k m) = None.
Proof.
  induction m as [|[k0 v0] r IH]; simpl; [reflexivity|].
  destruct (String.eqb k0 k) eqn:E; simpl; [exact IH|].
  now rewrite E.
Qed.

Lemma get_delete_other m k k' :
  k <> k' -> JsMap.get k' (JsMap.delete k m) = JsMap.get k' m.
Proof.
  intros Hne. induction m as [|[k0 v0] r IH]; simpl; [reflexivity|].
  destruct (String.eqb k0 k) eqn:E; simpl.
  - apply String.eqb_eq in E. subst k0.
    apply String.eqb_neq in Hne. now rewrite Hne.
  - destruct (String.eqb k0 k'); [reflexivity|exact IH].
Qed.

Lemma has_get m k : JsMap.has k m = true <-> exists v, JsMap.get k m = Some v.
Proof.
  unfold JsMap.has. destruct (JsMap.get k m) as [v|].
  - split; [eauto|reflexivity].
  - split; [discriminate|intros [v H]; discriminate].
Qed.

Lemma has_false_get m k : JsMap.has k m = false <-> JsMap.get k m = None.
Proof.
  unfold JsMap.has. destruct (JsMap.get k m); split; congruence.
Qed.

Lemma get_In m k v : JsMap.get k m = Some v -> In (k, v) m.
Proof.
  induction m as [|[k0 v0] r IH]; simpl; [discriminate|].
  destruct (String.eqb k0 k) eqn:E.
  - apply String.eqb_eq in E. intros H. injection H as ->. left. congruence.
  - intros H. right. auto.
Qed.

Lemma In_get m k v :
  NoDup (JsMap.keys m) -> In (k, v) m -> JsMap.get k m = Some v.
Proof.
  induction m as [|[k0 v0] r IH]; simpl; [contradiction|].
  intros Hnd [H|H].
  - injection H as -> ->. now rewrite String.eqb_refl.
  - inversion Hnd as [|? ? Hnotin Hnd']; subst.
    destruct (String.eqb k0 k) eqn:E.
    + apply String.eqb_eq in E. subst k0. exfalso. apply Hnotin.
      unfold JsMap.keys. apply in_map_iff. exists (k, v). split; auto.
    + auto.
Qed.

Lemma keys_set_In m k v k' :
  In k' (JsMap.keys (JsMap.set k v m)) <-> k' = k \/ In k' (JsMap.keys m).
Proof.
  induction m as [|[k0 v0] r IH]; simpl.
  - intuition congruence.
  - destruct (String.eqb k0 k) eqn:E; simpl.
    + apply String.eqb_eq in E. subst k0. intuition congruence.
    + rewrite IH. intuition congruence.
Qed.

Lemma keys_set_NoDup m k v :
  NoDup (JsMap.keys m) -> NoDup (JsMap.keys (JsMap.set k v m)).
Proof.
  induction m as [|[k0 v0] r IH]; simpl; intros Hnd.
  - constructor; [intros []|constructor].
  - inversion Hnd as [|? ? Hnotin Hnd']; subst.
    destruct (String.eqb k0 k) eqn:E; simpl.
    + apply String.eqb_eq in E. subst k0. constructor; assumption.
    + constructor; [|auto].
      intros Hin. apply keys_set_In in Hin. destruct Hin as [->|Hin].
      * rewrite String.eqb_refl in E. discriminate.
      * contradiction.
Qed.

Lemma get_keys m k v : JsMap.get k m = Some v -> In k (JsMap.keys m).
Proof.
  intros H. apply get_In in H. unfold JsMap.keys.
  apply in_map_iff. exists (k, v). auto.
Qed.

End JsMapFacts.

Section JsArrayFacts.

Lemma includes_In (x : string) (xs : list string) :
  JsArray.includes x xs = true <-> In x xs.
Proof.
  unfold JsArray.includes. rewrite existsb_exists. split.
  - intros (y & Hin & E). apply String.eqb_eq in E. now subst.
  - intros Hin. exists x. split; [assumption|apply String.eqb_refl].
Qed.

Lemma indexOf_Some (x : string) (xs : list string) (i : nat) :
  JsArray.indexOf x xs = Some i ->
  nth_error xs i = Some x /\ i < length xs.
Proof.
  revert i. induction xs as [|y r IH]; simpl; intros i; [discriminate|].
  destruct (String.eqb y x) eqn:E.
  - apply String.eqb_eq in E. intros H. injection H as <-. subst.
    split; [reflexivity|lia].
  - destruct (JsArray.indexOf x r) as [j|]; [|discriminate].
    intros H. injection H as <-. destruct (IH j eq_refl). simpl.
    split; [assumption|lia].
Qed.

Lemma removeAt_In {A : Type} (i : nat) (xs : list A) (x : A) :
  In x (JsArray.removeAt i xs) -> In x xs.
Proof.
  revert i. induction xs as [|y r IH]; intros [|i]; simpl; auto.
  intros [H|H]; eauto.
Qed.

(** What stays after [splice(i, 1)] of a duplicate-free array is
    everything but the element removed. *)
Lemma removeAt_NoDup_In (x y : string) (xs : list string) (i : nat) :
  NoDup xs -> nth_error xs i = Some y ->
  (In x (JsArray.removeAt i xs) <-> In x xs /\ x <> y).
Proof.
  revert i. induction xs as [|z r IH]; intros i Hnd Hnth.
  - destruct i; discriminate.
  - inversion Hnd as [|? ? Hnotin Hnd']; subst.
    destruct i as [|i]; simpl in *.
    + injection Hnth as ->. split.
      * intros H. split; [auto|]. intros ->. contradiction.
      * intros [[H|H] Hne]; [congruence|assumption].
    + rewrite (IH i Hnd' Hnth). split.
      * intros [->|[H Hne]]; [|tauto]. split; [auto|].
        intros ->. apply Hnotin. eapply nth_error_In; eauto.
      * intros [[H|H] Hne]; tauto.
Qed.

Lemma removeAt_NoDup {A : Type} (i : nat) (xs : list A) :
  NoDup xs -> NoDup (JsArray.removeAt i xs).
Proof.
  revert i. induction xs as [|y r IH]; intros i Hnd; [destruct i; auto|].
  inversion Hnd as [|? ? Hnotin Hnd']; subst.
  destruct i as [|i]; simpl; [assumption|].
  constructor; [|auto]. intros H. apply removeAt_In in H. contradiction.
Qed.

End JsArrayFacts.

(* ================================================================== *)
(** * The enhanced manager: paths, validation, locked files *)
(* ================================================================== *)

Section EnhancedBasics.
Import EnhancedFileSystemManager.

Lemma startsWith_slash_app (p : string) :
  JsString.startsWith ("/" ++ p) "/" = true.
Proof. simpl. destruct p; reflexivity. Qed.

Lemma normalizePath_fixed (p : string) :
  JsString.startsWith p "/" = true -> normalizePath p = p.
Proof.
  intros H. unfold normalizePath.
  destruct (String.eqb p "") eqn:E1.
  - apply String.eqb_eq in E1. subst. discriminate.
  - destruct (String.eqb p "/") eqn:E2.
    + apply String.eqb_eq in E2. now subst.
    + now rewrite H.
Qed.

Lemma normalizePath_startsWith (p : string) :
  JsString.startsWith (normalizePath p) "/" = true.
Proof.
  unfold normalizePath.
  destruct (String.eqb p ""); [reflexivity|].
  destruct (String.eqb p "/"); [reflexivity|].
  destruct (JsString.startsWith p "/") eqn:E; [exact E|].
  apply startsWith_slash_app.
Qed.

Lemma normalizePath_idem (p : string) :
  normalizePath (normalizePath p) = normalizePath p.
Proof. apply normalizePath_fixed, normalizePath_startsWith. Qed.

Lemma normalizePath_nonempty (p : string) : normalizePath p <> "".
Proof.
  intros H. pose proof (normalizePath_startsWith p) as S.
  rewrite H in S. discriminate.
Qed.

(** [openFile] is what its source says: the preparation, then the call of
    [activateTab] on the normalised path. *)
Lemma openFile_activateTab (now : N) (p : string) (s : State) :
  openFile now p s
  = emit (fileOpened (normalizePath p))
         (activateTab now (normalizePath p) (openFilePrepare now p s)).
Proof.
  unfold openFile, activateTab. rewrite normalizePath_idem.
  assert (H : JsArray.includes (normalizePath p)
                (openTabs (openFilePrepare now p s)) = true).
  { unfold openFilePrepare.
    destruct (JsMap.get (normalizePath p) (fileMap s));
      [|destruct (createFileNode _ _ _ _ _ _ _)];
      match goal with
      | |- context [negb (JsArray.includes ?x ?l)] =>
          destruct (JsArray.includes x l) eqn:E; simpl; [exact E|]
      end;
      apply includes_In, in_or_app; right; left; reflexivity. }
  rewrite H. reflexivity.
Qed.

(* ---------------- the recursion of ensureDirectory ---------------- *)

Lemma lastIndexOf_lt (c : ascii) (s : string) (i : nat) :
  JsString.lastIndexOf c s = Some i -> i < String.length s.
Proof.
  revert i. induction s as [|d r IH]; simpl; intros i; [discriminate|].
  destruct (JsString.lastIndexOf c r) as [j|].
  - intros H. injection H as <-. specialize (IH j eq_refl). lia.
  - destruct (Ascii.eqb d c); [|discriminate].
    intros H. injection H as <-. lia.
Qed.

Lemma substringTo_length (n : nat) (s : string) :
  String.length (JsString.substringTo n s) = Nat.min n (String.length s).
Proof.
  revert s. induction n as [|n IH]; intros s; [reflexivity|].
  destruct s as [|c r]; simpl; [reflexivity|now rewrite IH].
Qed.

(** The parent of a normalised path other than the root is a normalised
    path that is shorter. *)
Lemma getParentPath_shorter (np : string) :
  JsString.startsWith np "/" = true -> np <> "/" ->
  JsString.startsWith (getParentPath np) "/" = true
  /\ String.length (getParentPath np) < String.length np.
Proof.
  intros Hs Hne. unfold getParentPath.
  rewrite (normalizePath_fixed np Hs).
  destruct (String.eqb np "/") eqn:E;
    [apply String.eqb_eq in E; contradiction|].
  destruct np as [|c r]; [discriminate|].
  assert (Hr : r <> "").
  { intros ->. simpl in Hs. rewrite andb_true_r in Hs.
    apply Ascii.eqb_eq in Hs. subst c. now apply Hne. }
  destruct (JsString.lastIndexOf slash (String c r)) as [[|i]|] eqn:L.
  - split; [reflexivity|]. destruct r; [contradiction|simpl; lia].
  - apply lastIndexOf_lt in L. split.
    + simpl in Hs |- *. exact Hs.
    + rewrite substringTo_length. lia.
  - split; [reflexivity|]. destruct r; [contradiction|simpl; lia].
Qed.

(** The bound of [ensureDirectory] is never reached: a larger one gives
    the same state. *)
Lemma ensureDirectoryFrom_enough (fuel : nat) :
  forall fuel' now dir name s,
    String.length (normalizePath dir) <= fuel -> fuel <= fuel' ->
    ensureDirectoryFrom fuel' now dir name s
    = ensureDirectoryFrom fuel now dir name s.
Proof.
  induction fuel as [|fuel IH]; intros fuel' now dir name s Hlen Hle.
  - pose proof (normalizePath_startsWith dir) as Hs.
    destruct (normalizePath dir); [discriminate|simpl in Hlen; lia].
  - destruct fuel' as [|fuel']; [lia|]. cbn [ensureDirectoryFrom].
    destruct (String.eqb (normalizePath dir) "/") eqn:E; [reflexivity|].
    destruct (JsMap.has (normalizePath dir) (fileMap s)); [reflexivity|].
    cbn [negb].
    destruct (getParentPath_shorter (normalizePath dir)) as [Hp Hl].
    { apply normalizePath_startsWith. }
    { intros H. rewrite H in E. discriminate. }
    rewrite (IH fuel' now (getParentPath (normalizePath dir)) None s);
      [reflexivity| |lia].
    rewrite (normalizePath_fixed _ Hp). lia.
Qed.

Lemma ensureDirectory_enough (fuel : nat) now dir name s :
  S (String.length dir) <= fuel ->
  ensureDirectoryFrom fuel now dir name s = ensureDirectory now dir name s.
Proof.
  intros H. unfold ensureDirectory.
  apply ensureDirectoryFrom_enough; [|exact H].
  unfold normalizePath.
  destruct (String.eqb dir "") eqn:E1; [simpl; lia|].
  destruct (String.eqb dir "/") eqn:E2; [simpl; lia|].
  destruct (JsString.startsWith dir "/"); simpl; lia.
Qed.

(* ---------------- validation ---------------- *)

Lemma allNameChars_In (name : string) (c : ascii) :
  In c (list_ascii_of_string name) -> isNameChar c = false ->
  allNameChars name = false.
Proof.
  induction name as [|d r IH]; simpl; [contradiction|].
  intros [->|H] Hc.
  - now rewrite Hc.
  - rewrite (IH H Hc). apply andb_false_r.
Qed.

Lemma isNameChar_control (c : ascii) :
  nat_of_ascii c < 32 -> isNameChar c = false.
Proof.
  intros H. unfold isNameChar.
  repeat match goal with
         | |- context [?a <=? ?b] =>
             destruct (Nat.leb_spec a b); try lia
         | |- context [?a =? ?b] =>
             destruct (Nat.eqb_spec a b); try lia
         end; reflexivity.
Qed.

(** The names [isValidFileName] refuses include the empty name, names
    with a path separator or a control character, and names of 255
    characters or more. *)
Lemma isValidFileName_rejects (name : string) :
  name = ""
  \/ 255 <= String.length name
  \/ (exists c, In c (list_ascii_of_string name)
                /\ (c = "/"%char \/ c = "\"%char \/ nat_of_ascii c < 32)) ->
  isValidFileName name = false.
Proof.
  unfold isValidFileName. intros [->|[H|(c & Hin & Hc)]].
  - reflexivity.
  - destruct (Nat.ltb_spec (String.length name) 255); [lia|].
    apply andb_false_r.
  - assert (Hn : isNameChar c = false).
    { destruct Hc as [->|[->|Hc]];
        [reflexivity|reflexivity|now apply isNameChar_control]. }
    rewrite (allNameChars_In name c Hin Hn).
    now rewrite andb_false_r.
Qed.

End EnhancedBasics.

(** C10.  In the enhanced manager a call [updateFileContent(p, c)] on a
    locked record returns the state it was given: content, dirty flag,
    history, [lastModified] and the event log are all as before.  A file
    made by [createFile] is locked (and new) from its creation, and
    [saveFile] clears the lock. *)
Theorem C10_locked_update_is_dropped :
  (forall now p c s node,
      EnhancedFileSystemManager.getNode p s = Some node ->
      EnhancedFileSystemManager.isLocked node = true ->
      EnhancedFileSystemManager.updateFileContent now p c s = s)
  /\ (forall now parentPath name c s key s',
         EnhancedFileSystemManager.createFile now parentPath name c s
         = EnhancedFileSystemManager.Ok key s' ->
         exists node,
           JsMap.get key (EnhancedFileSystemManager.fileMap s') = Some node
           /\ EnhancedFileSystemManager.isLocked node = true
           /\ EnhancedFileSystemManager.isNew node = true
           /\ EnhancedFileSystemManager.content node = Some c)
  /\ (forall now p s node,
         EnhancedFileSystemManager.getNode p s = Some node ->
         EnhancedFileSystemManager.type node = EnhancedFileSystemManager.File ->
         exists node',
           EnhancedFileSystemManager.getNode p
             (EnhancedFileSystemManager.saveFile now p s) = Some node'
           /\ EnhancedFileSystemManager.isLocked node' = false
           /\ EnhancedFileSystemManager.isNew node' = false).
Proof.
  split; [|split].
  - intros now p c s node Hget Hlock.
    unfold EnhancedFileSystemManager.updateFileContent.
    unfold EnhancedFileSystemManager.getNode in Hget. rewrite Hget.
    destruct (EnhancedFileSystemManager.NodeType_eqb _ _); [|reflexivity].
    simpl. rewrite Hlock. reflexivity.
  - intros now parentPath name c s key s'.
    unfold EnhancedFileSystemManager.createFile.
    destruct (JsMap.has _ _); [discriminate|].
    destruct (negb _); [discriminate|].
    unfold EnhancedFileSystemManager.createFileNode.
    intros H. injection H as <- <-. simpl.
    eexists. split; [apply get_set_same|]. simpl. auto.
  - intros now p s node Hget Hty.
    unfold EnhancedFileSystemManager.saveFile.
    unfold EnhancedFileSystemManager.getNode in *. rewrite Hget, Hty. simpl.
    eexists. split; [apply get_set_same|]. simpl. auto.
Qed.

(** A new file, still unsaved: what is typed into it is dropped. *)
Lemma C10_locked_update_witness :
  let s :=
    match EnhancedFileSystemManager.createFile
            1 "/" "draft.txt" "local" (EnhancedFileSystemManager.initial 0)
    with
    | EnhancedFileSystemManager.Ok _ s => s
    | EnhancedFileSystemManager.Throw _ s => s
    end in
  EnhancedFileSystemManager.updateFileContent 2 "draft.txt" "typed" s = s.
Proof.
  intros s.
  refine (proj1 C10_locked_update_is_dropped 2%N "draft.txt" "typed" s
            _ eq_refl eq_refl).
Defined.

(* ================================================================== *)
(** * Validation failures *)
(* ================================================================== *)

(** C9 (counterexample).  [createFile] looks for the joined path before it
    validates the name.  The empty name under the root joins to the root
    path, which always exists: the error is the one of a name conflict, not
    the one of an invalid name. *)
Lemma C9_create_invalid_name_counterexample :
  EnhancedFileSystemManager.isValidFileName "" = false
  /\ exists e,
      EnhancedFileSystemManager.createFile
        1 "/" "" "x" (EnhancedFileSystemManager.initial 0)
      = EnhancedFileSystemManager.Throw e (EnhancedFileSystemManager.initial 0)
      /\ EnhancedFileSystemManager.kindOf e
         = EnhancedFileSystemManager.NameConflict
      /\ EnhancedFileSystemManager.kindOf e
         <> EnhancedFileSystemManager.InvalidName.
Proof.
  split; [reflexivity|].
  exists (EnhancedFileSystemManager.FileAlreadyExists "").
  split; [reflexivity|]. split; [reflexivity|discriminate].
Qed.

(** C9 (amended).  Every validation failure of [deleteNode], [renameNode],
    [createFile] and [createDirectory] is thrown in the state the method
    was called in.  Deleting the root is a root violation.  Renaming an
    existing node to an invalid name is an invalid-name error, and to a valid
    name whose target path exists a name conflict.  Creating at a joined path
    that exists is a name conflict, whatever the name; creating with an
    invalid name at a free path is an invalid-name error.  The empty name,
    names with a separator or a control character and names of 255
    characters or more are invalid. *)
Theorem C9_validation_failures_are_atomic :
  (forall fuel now p s,
      EnhancedFileSystemManager.normalizePath p = "/" ->
      EnhancedFileSystemManager.deleteNode (S fuel) now p s
      = Some (EnhancedFileSystemManager.Throw
                EnhancedFileSystemManager.CannotDeleteRoot s)
      /\ EnhancedFileSystemManager.kindOf
           EnhancedFileSystemManager.CannotDeleteRoot
         = EnhancedFileSystemManager.RootViolation)
  /\ (forall fuel now p newName s node,
         EnhancedFileSystemManager.getNode p s = Some node ->
         EnhancedFileSystemManager.isValidFileName newName = false ->
         EnhancedFileSystemManager.renameNode fuel now p newName s
         = Some (EnhancedFileSystemManager.Throw
                   (EnhancedFileSystemManager.InvalidNameError newName) s)
         /\ EnhancedFileSystemManager.kindOf
              (EnhancedFileSystemManager.InvalidNameError newName)
            = EnhancedFileSystemManager.InvalidName)
  /\ (forall fuel now p newName s node,
         EnhancedFileSystemManager.getNode p s = Some node ->
         EnhancedFileSystemManager.isValidFileName newName = true ->
         JsMap.has (EnhancedFileSystemManager.renameTarget node newName)
                   (EnhancedFileSystemManager.fileMap s) = true ->
         EnhancedFileSystemManager.renameNode fuel now p newName s
         = Some (EnhancedFileSystemManager.Throw
                   (EnhancedFileSystemManager.NameAlreadyExists newName) s)
         /\ EnhancedFileSystemManager.kindOf
              (EnhancedFileSystemManager.NameAlreadyExists newName)
            = EnhancedFileSystemManager.NameConflict)
  /\ (forall now parentPath name c s,
         JsMap.has (EnhancedFileSystemManager.joinPath
                      (EnhancedFileSystemManager.normalizePath parentPath) name)
                   (EnhancedFileSystemManager.fileMap s) = true ->
         EnhancedFileSystemManager.createFile now parentPath name c s
         = EnhancedFileSystemManager.Throw
             (EnhancedFileSystemManager.FileAlreadyExists name) s
         /\ EnhancedFileSystemManager.createDirectory now parentPath name s
            = EnhancedFileSystemManager.Throw
                (EnhancedFileSystemManager.DirectoryAlreadyExists name) s)
  /\ (forall now parentPath name c s,
         JsMap.has (EnhancedFileSystemManager.joinPath
                      (EnhancedFileSystemManager.normalizePath parentPath) name)
                   (EnhancedFileSystemManager.fileMap s) = false ->
         EnhancedFileSystemManager.isValidFileName name = false ->
         EnhancedFileSystemManager.createFile now parentPath name c s
         = EnhancedFileSystemManager.Throw
             (EnhancedFileSystemManager.InvalidFileName name) s
         /\ EnhancedFileSystemManager.createDirectory now parentPath name s
            = EnhancedFileSystemManager.Throw
                (EnhancedFileSystemManager.InvalidDirectoryName name) s)
  /\ (forall name,
         name = ""
         \/ 255 <= String.length name
         \/ (exists ch, In ch (list_ascii_of_string name)
                        /\ (ch = "/"%char \/ ch = "\"%char
                            \/ nat_of_ascii ch < 32)) ->
         EnhancedFileSystemManager.isValidFileName name = false).
Proof.
  repeat split.
  - simpl. rewrite H. reflexivity.
  - unfold EnhancedFileSystemManager.renameNode.
    unfold EnhancedFileSystemManager.getNode in H. rewrite H, H0. reflexivity.
  - unfold EnhancedFileSystemManager.renameNode.
    unfold EnhancedFileSystemManager.getNode in H. rewrite H, H0, H1.
    reflexivity.
  - unfold EnhancedFileSystemManager.createFile. rewrite H. reflexivity.
  - unfold EnhancedFileSystemManager.createDirectory. rewrite H. reflexivity.
  - unfold EnhancedFileSystemManager.createFile. rewrite H, H0. reflexivity.
  - unfold EnhancedFileSystemManager.createDirectory. rewrite H, H0.
    reflexivity.
  - apply isValidFileName_rejects.
Qed.

(** Deleting the root, renaming to a name with a separator, renaming onto a
    sibling, and creating a file twice, in a store with two files. *)
Lemma C9_validation_failures_witness :
  let s :=
    EnhancedFileSystemManager.openFile 2 "b.txt"
      (EnhancedFileSystemManager.openFile 1 "a.txt"
         (EnhancedFileSystemManager.initial 0)) in
  EnhancedFileSystemManager.deleteNode 1 3 "/" s
  = Some (EnhancedFileSystemManager.Throw
            EnhancedFileSystemManager.CannotDeleteRoot s)
  /\ EnhancedFileSystemManager.renameNode 1 3 "a.txt" "x/y" s
     = Some (EnhancedFileSystemManager.Throw
               (EnhancedFileSystemManager.InvalidNameError "x/y") s)
  /\ EnhancedFileSystemManager.renameNode 1 3 "a.txt" "b.txt" s
     = Some (EnhancedFileSystemManager.Throw
               (EnhancedFileSystemManager.NameAlreadyExists "b.txt") s)
  /\ EnhancedFileSystemManager.createFile 3 "/" "a.txt" "" s
     = EnhancedFileSystemManager.Throw
         (EnhancedFileSystemManager.FileAlreadyExists "a.txt") s
  /\ EnhancedFileSystemManager.createFile 3 "/" "x y" "" s
     = EnhancedFileSystemManager.Throw
         (EnhancedFileSystemManager.InvalidFileName "x y") s.
Proof.
  intros s.
  destruct C9_validation_failures_are_atomic
    as (Hdel & Hinv & Hdup & Hexists & Hbad & _).
  split; [exact (proj1 (Hdel 0 3%N "/" s eq_refl))|].
  split; [exact (proj1 (Hinv 1 3%N "a.txt" "x/y" s _ eq_refl eq_refl))|].
  split; [exact (proj1 (Hdup 1 3%N "a.txt" "b.txt" s _ eq_refl eq_refl
                          eq_refl))|].
  split; [exact (proj1 (Hexists 3%N "/" "a.txt" "" s eq_refl))|].
  exact (proj1 (Hbad 3%N "/" "x y" "" s eq_refl eq_refl)).
Defined.

(* ================================================================== *)
(** * Reconciliation of an unlocked record *)
(* ================================================================== *)

Section Reconciliation.
Import EnhancedFileSystemManager.

Lemma differs_true (a : option string) (b : string) :
  a <> Some b -> differs a b = true.
Proof.
  destruct a as [x|]; simpl; [|reflexivity].
  intros H. destruct (String.eqb x b) eqn:E; [|reflexivity].
  apply String.eqb_eq in E. subst. contradiction.
Qed.


(** [saveToHistory] writes the history and its index, nothing else. *)
Lemma saveToHistory_frame node c :
  exists h i, saveToHistory node c = setHistory node h i.
Proof.
  unfold saveToHistory.
  destruct (history node); destruct (_ <? _)%Z;
    match goal with
    | |- context [if ?b then _ else _] => destruct b
    end; eauto.
Qed.

(** A turn of the loop of [updateFileContentMap] for another path leaves
    the record alone. *)
Lemma updateContentEntry_other now filePath content0 acc np :
  normalizePath filePath <> np ->
  JsMap.get np (fileMap (fst (updateContentEntry now filePath content0 acc)))
  = JsMap.get np (fileMap (fst acc)).
Proof.
  intros Hne. destruct acc as [s flag]. unfold updateContentEntry.
  destruct (JsMap.get (normalizePath filePath) (fileMap s)) as [node|];
    [|reflexivity].
  destruct (NodeType_eqb (type node) File); [|reflexivity].
  destruct (differs (contentOf node) content0); [|reflexivity].
  cbn [fst fileMap withFileMap]. now apply get_set_other.
Qed.

Lemma updateContentEntries_other now entries acc np :
  othersOnly np entries = true ->
  JsMap.get np
    (fileMap (fst (fold_left
                     (fun acc entry =>
                        updateContentEntry now (fst entry) (snd entry) acc)
                     entries acc)))
  = JsMap.get np (fileMap (fst acc)).
Proof.
  revert acc. induction entries as [|e r IH]; intros acc H; [reflexivity|].
  unfold othersOnly in H. cbn [forallb] in H. apply andb_true_iff in H.
  destruct H as [He Hr]. cbn [fold_left]. rewrite (IH _ Hr).
  apply updateContentEntry_other.
  apply negb_true_iff, String.eqb_neq in He. exact He.
Qed.

(** The turn for the path itself writes the content of a file record
    whether or not the record is new or locked: the flags [isNew] and
    [isLocked] are only looked at for the dirty flag. *)
Lemma updateContentEntry_overwrites now raw c s flag node :
  getNode raw s = Some node -> type node = File ->
  content node <> Some c ->
  exists node',
    JsMap.get (normalizePath raw)
              (fileMap (fst (updateContentEntry now raw c (s, flag))))
    = Some node'
    /\ content node' = Some c
    /\ isNew node' = isNew node /\ isLocked node' = isLocked node
    /\ isDirty node'
       = (if negb (isNew node) && negb (isLocked node) then false
          else isDirty node).
Proof.
  unfold getNode. intros Hget Hty Hdiff.
  unfold updateContentEntry. rewrite Hget, Hty. cbn [NodeType_eqb].
  unfold contentOf. rewrite (differs_true _ _ Hdiff).
  destruct (saveToHistory_frame node (orEmpty (content node)))
    as (h & i & ->).
  cbn [isNew isLocked setHistory setContent setSize setLastModified].
  cbn [fst fileMap withFileMap]. rewrite get_set_same.
  eexists. split; [reflexivity|].
  destruct (isNew node) eqn:En, (isLocked node) eqn:El; cbn;
    rewrite ?En, ?El; auto.
Qed.

Lemma updateFileContentMap_fileMap now contentMap s :
  fileMap (updateFileContentMap now contentMap s)
  = fileMap (fst (fold_left
                    (fun acc entry =>
                       updateContentEntry now (fst entry) (snd entry) acc)
                    contentMap (s, false))).
Proof.
  unfold updateFileContentMap.
  destruct (fold_left _ contentMap (s, false)) as [s1 [|]]; reflexivity.
Qed.

(** A content map with one entry for the path of a file record. *)
Lemma updateFileContentMap_overwrites now before after raw c s node :
  othersOnly (normalizePath raw) (before ++ after)%list = true ->
  getNode raw s = Some node -> type node = File ->
  content node <> Some c ->
  exists node',
    getNode raw (updateFileContentMap now (before ++ (raw, c) :: after)%list s)
    = Some node'
    /\ content node' = Some c
    /\ isNew node' = isNew node /\ isLocked node' = isLocked node
    /\ isDirty node'
       = (if negb (isNew node) && negb (isLocked node) then false
          else isDirty node).
Proof.
  intros Hothers Hget Hty Hdiff.
  unfold othersOnly in Hothers. rewrite forallb_app in Hothers.
  apply andb_true_iff in Hothers. destruct Hothers as [Hb Ha].
  unfold getNode. rewrite updateFileContentMap_fileMap, fold_left_app.
  cbn [fold_left fst snd].
  rewrite (updateContentEntries_other now after _ _ Ha).
  set (acc := fold_left _ before (s, false)).
  assert (Hacc : JsMap.get (normalizePath raw) (fileMap (fst acc))
                 = Some node).
  { subst acc. rewrite (updateContentEntries_other now before _ _ Hb).
    exact Hget. }
  destruct acc as [s1 flag]. cbn [fst] in Hacc.
  exact (updateContentEntry_overwrites now raw c s1 flag node Hacc Hty Hdiff).
Qed.


End Reconciliation.



(* ================================================================== *)
(** * Undo / redo history *)
(* ================================================================== *)

Section HistoryFacts.
Import EnhancedFileSystemManager.

Lemma sliceFrom_last {A : Type} (n : nat) (xs : list A) :
  0 < n -> n <= length xs ->
  JsArray.sliceFrom (- Z.of_nat n) xs = skipn (length xs - n) xs.
Proof.
  intros Hn Hle. unfold JsArray.sliceFrom, JsArray.slice, JsArray.clampIndex.
  destruct (Z.ltb_spec (- Z.of_nat n) 0); [|lia].
  destruct (Z.ltb_spec (Z.of_nat (length xs)) 0); [lia|].
  replace (Z.to_nat (Z.max 0 (Z.of_nat (length xs) + - Z.of_nat n)))
    with (length xs - n) by lia.
  apply firstn_all2. rewrite length_skipn. lia.
Qed.

(** What [saveToHistory] leaves: the kept snapshots up to the index, then
    the new one, cut down to the last [historyCap]. *)
Lemma saveToHistory_history (node : FileSystemNode) (c : string) :
  exists kept,
    let h := (kept ++ [c])%list in
    let h' := skipn (length h - historyCap) h in
    history (saveToHistory node c) = Some h'
    /\ historyIndex (saveToHistory node c)
       = Some (Z.of_nat (length h') - 1)%Z
    /\ (forall old, history node = Some old ->
        historyIndex node = Some (Z.of_nat (length old) - 1)%Z ->
        kept = old).
Proof.
  unfold saveToHistory.
  destruct (history node) as [old|] eqn:Eh.
  - set (i := match historyIndex node with Some i => i | None => (-1)%Z end).
    set (kept := if (i <? Z.of_nat (length old) - 1)%Z
                 then JsArray.slice 0%Z (i + 1)%Z old else old).
    exists kept. cbn zeta.
    assert (Hk : forall old', Some old = Some old' ->
                 historyIndex node = Some (Z.of_nat (length old') - 1)%Z ->
                 kept = old').
    { intros old' Ho Hi. injection Ho as <-. subst kept i. rewrite Hi.
      now rewrite Z.ltb_irrefl. }
    destruct (historyCap <? length (kept ++ [c])) eqn:E.
    + apply Nat.ltb_lt in E. cbn [history historyIndex setHistory].
      rewrite sliceFrom_last by (unfold historyCap in *; lia).
      auto.
    + apply Nat.ltb_ge in E. cbn [history historyIndex setHistory].
      replace (length (kept ++ [c]) - historyCap) with 0 by lia.
      cbn [skipn]. auto.
  - exists []. cbn zeta. cbn. repeat split. intros old H. discriminate.
Qed.

Lemma saveToHistory_bounds (node : FileSystemNode) (c : string) :
  1 <= historyLength (saveToHistory node c) <= historyCap
  /\ historyIndex (saveToHistory node c)
     = Some (Z.of_nat (historyLength (saveToHistory node c)) - 1)%Z.
Proof.
  destruct (saveToHistory_history node c) as (kept & Hh & Hi & _).
  cbn zeta in *. unfold historyLength. rewrite Hh, Hi.
  rewrite length_skipn, length_app. cbn [length]. unfold historyCap.
  split; [lia|reflexivity].
Qed.

Lemma saveToHistory_many (cs : list string) (node : FileSystemNode) :
  historyLength node <= historyCap ->
  historyLength (fold_left saveToHistory cs node) <= historyCap.
Proof.
  revert node. induction cs as [|c r IH]; intros node H; [exact H|].
  cbn [fold_left]. apply IH. apply saveToHistory_bounds.
Qed.

End HistoryFacts.

Section UndoRedoFacts.
Import EnhancedFileSystemManager.

Lemma undo_noop (now : N) (p : string) (s : State) (node : FileSystemNode) :
  getNode p s = Some node -> (currentIndex node <= 0)%Z ->
  undo now p s = s.
Proof.
  unfold getNode, undo, canUndo, currentIndex. intros Hget Hi.
  rewrite Hget, normalizePath_idem, Hget. unfold nodeCanUndo.
  destruct (history node); [|reflexivity].
  destruct (Z.ltb_spec 0 (match historyIndex node with
                          | Some i => i
                          | None => (-1)%Z
                          end)); [lia|reflexivity].
Qed.

Lemma redo_noop (now : N) (p : string) (s : State) (node : FileSystemNode) :
  getNode p s = Some node ->
  (Z.of_nat (historyLength node) - 1 <= currentIndex node)%Z ->
  redo now p s = s.
Proof.
  unfold getNode, redo, canRedo, currentIndex, historyLength.
  intros Hget Hi.
  rewrite Hget, normalizePath_idem, Hget. unfold nodeCanRedo.
  destruct (history node) as [h|]; [|reflexivity].
  destruct (Z.ltb_spec (match historyIndex node with
                        | Some i => i
                        | None => (-1)%Z
                        end) (Z.of_nat (length h) - 1)); [lia|reflexivity].
Qed.

Lemma undo_step (now : N) (p : string) (s : State) (node : FileSystemNode)
      (h : list string) (i : Z) :
  getNode p s = Some node -> history node = Some h ->
  historyIndex node = Some i -> (0 < i)%Z ->
  exists node',
    getNode p (undo now p s) = Some node'
    /\ history node' = Some h /\ historyIndex node' = Some (i - 1)%Z
    /\ content node' = nth_error h (Z.to_nat (i - 1)).
Proof.
  unfold getNode, undo, canUndo. intros Hget Hh Hi Hpos.
  rewrite Hget, normalizePath_idem, Hget. unfold nodeCanUndo.
  rewrite Hh, Hi. destruct (Z.ltb_spec 0 i); [|lia]. cbn [negb].
  unfold modify. rewrite Hget. cbn [fileMap emit withFileMap].
  rewrite get_set_same. eexists. split; [reflexivity|].
  unfold moveInHistory. cbn [history setHistory]. rewrite Hh.
  destruct (Z.leb_spec 0 (i - 1)); [|lia].
  cbn. unfold JsArray.at_.
  destruct (Z.ltb_spec (i - 1) 0); [lia|]. auto.
Qed.

Lemma redo_step (now : N) (p : string) (s : State) (node : FileSystemNode)
      (h : list string) (i : Z) :
  getNode p s = Some node -> history node = Some h ->
  historyIndex node = Some i -> (0 <= i < Z.of_nat (length h) - 1)%Z ->
  exists node',
    getNode p (redo now p s) = Some node'
    /\ history node' = Some h /\ historyIndex node' = Some (i + 1)%Z
    /\ content node' = nth_error h (Z.to_nat (i + 1)).
Proof.
  unfold getNode, redo, canRedo. intros Hget Hh Hi Hpos.
  rewrite Hget, normalizePath_idem, Hget. unfold nodeCanRedo.
  rewrite Hh, Hi.
  destruct (Z.ltb_spec i (Z.of_nat (length h) - 1)); [|lia]. cbn [negb].
  unfold modify. rewrite Hget. cbn [fileMap emit withFileMap].
  rewrite get_set_same. eexists. split; [reflexivity|].
  unfold moveInHistory. cbn [history setHistory]. rewrite Hh.
  destruct (Z.ltb_spec (i + 1) (Z.of_nat (length h))); [|lia].
  cbn. unfold JsArray.at_.
  destruct (Z.ltb_spec (i + 1) 0); [lia|]. auto.
Qed.

(** [k] calls of [undo] from an index inside the history: the index goes
    down to 0 and stays there, and the content is each time an element of
    the history. *)
Lemma undo_repeated (now : N) (p : string) (h : list string) (i : Z)
      (k : nat) (s : State) (node : FileSystemNode) :
  getNode p s = Some node -> history node = Some h ->
  historyIndex node = Some i -> (0 <= i < Z.of_nat (length h))%Z ->
  exists node' x,
    getNode p (repeatedly k (undo now p) s) = Some node'
    /\ history node' = Some h
    /\ historyIndex node' = Some (Z.max 0 (i - Z.of_nat k))
    /\ nth_error h (Z.to_nat (Z.max 0 (i - Z.of_nat k))) = Some x
    /\ (0 < k -> (0 < i)%Z -> content node' = Some x).
Proof.
  intros Hget Hh Hi Hb. induction k as [|k IH].
  - destruct (nth_error h (Z.to_nat i)) as [x|] eqn:Ex.
    + exists node, x. cbn [repeatedly Nat.iter].
      replace (Z.max 0 (i - Z.of_nat 0)) with i by lia.
      repeat split; auto. lia.
    + apply nth_error_None in Ex. lia.
  - destruct IH as (nk & x & Hgk & Hhk & Hik & Hx & Hc).
    unfold repeatedly in *. rewrite Nat.iter_succ.
    set (sk := Nat.iter k (undo now p) s) in *.
    destruct (Z.le_gt_cases (i - Z.of_nat k) 0) as [Hle|Hgt].
    + rewrite (undo_noop now p sk nk Hgk)
        by (unfold currentIndex; rewrite Hik; lia).
      exists nk, x.
      replace (Z.max 0 (i - Z.of_nat (S k))) with (Z.max 0 (i - Z.of_nat k))
        by lia.
      repeat split; auto. intros _ Hpos. apply Hc; lia.
    + destruct (undo_step now p sk nk h _ Hgk Hhk Hik)
        as (n' & G & H1 & H2 & H3);
        [lia|].
      replace (Z.max 0 (i - Z.of_nat k) - 1)%Z
        with (Z.max 0 (i - Z.of_nat (S k))) in * by lia.
      destruct (nth_error h (Z.to_nat (Z.max 0 (i - Z.of_nat (S k)))))
        as [y|] eqn:Ey.
      * exists n', y. repeat split; auto.
      * apply nth_error_None in Ey. lia.
Qed.

(** The same for [redo]: the index goes up to the last one and stays. *)
Lemma redo_repeated (now : N) (p : string) (h : list string) (i : Z)
      (k : nat) (s : State) (node : FileSystemNode) :
  getNode p s = Some node -> history node = Some h ->
  historyIndex node = Some i -> (0 <= i < Z.of_nat (length h))%Z ->
  exists node' x,
    getNode p (repeatedly k (redo now p) s) = Some node'
    /\ history node' = Some h
    /\ historyIndex node'
       = Some (Z.min (Z.of_nat (length h) - 1) (i + Z.of_nat k))
    /\ nth_error h
         (Z.to_nat (Z.min (Z.of_nat (length h) - 1) (i + Z.of_nat k)))
       = Some x
    /\ (0 < k -> (i < Z.of_nat (length h) - 1)%Z -> content node' = Some x).
Proof.
  intros Hget Hh Hi Hb. induction k as [|k IH].
  - destruct (nth_error h (Z.to_nat i)) as [x|] eqn:Ex.
    + exists node, x. cbn [repeatedly Nat.iter].
      replace (Z.min (Z.of_nat (length h) - 1) (i + Z.of_nat 0)) with i
        by lia.
      repeat split; auto. lia.
    + apply nth_error_None in Ex. lia.
  - destruct IH as (nk & x & Hgk & Hhk & Hik & Hx & Hc).
    unfold repeatedly in *. rewrite Nat.iter_succ.
    set (sk := Nat.iter k (redo now p) s) in *.
    destruct (Z.le_gt_cases (Z.of_nat (length h) - 1) (i + Z.of_nat k))
      as [Hle|Hgt].
    + rewrite (redo_noop now p sk nk Hgk)
        by (unfold currentIndex, historyLength; rewrite Hik, Hhk; lia).
      exists nk, x.
      replace (Z.min (Z.of_nat (length h) - 1) (i + Z.of_nat (S k)))
        with (Z.min (Z.of_nat (length h) - 1) (i + Z.of_nat k)) by lia.
      repeat split; auto. intros _ Hpos. apply Hc; lia.
    + destruct (redo_step now p sk nk h _ Hgk Hhk Hik)
        as (n' & G & H1 & H2 & H3);
        [lia|].
      replace (Z.min (Z.of_nat (length h) - 1) (i + Z.of_nat k) + 1)%Z
        with (Z.min (Z.of_nat (length h) - 1) (i + Z.of_nat (S k))) in *
        by lia.
      destruct (nth_error h
                  (Z.to_nat (Z.min (Z.of_nat (length h) - 1)
                                   (i + Z.of_nat (S k))))) as [y|] eqn:Ey.
      * exists n', y. repeat split; auto.
      * apply nth_error_None in Ey. lia.
Qed.

End UndoRedoFacts.

Section BoundedHistories.
Import EnhancedFileSystemManager.

Lemma historiesBounded_set s k n :
  historiesBounded s -> historyLength n <= historyCap ->
  historiesBounded (withFileMap s (JsMap.set k n (fileMap s))).
Proof.
  intros H Hn k' n'. cbn [fileMap withFileMap].
  destruct (string_dec k k') as [<-|Hne].
  - rewrite get_set_same. intros E. injection E as <-. exact Hn.
  - rewrite get_set_other by exact Hne. apply H.
Qed.

Lemma updateFileContent_bounded now p c s :
  historiesBounded s -> historiesBounded (updateFileContent now p c s).
Proof.
  intros H. unfold updateFileContent.
  destruct (JsMap.get (normalizePath p) (fileMap s)) as [node|]; [|exact H].
  destruct (NodeType_eqb (type node) File); cbn [negb]; [|exact H].
  destruct (isLocked node); [exact H|].
  match goal with
  | |- historiesBounded (if ?b then emit ?e ?x else ?x) =>
      assert (Hx : historiesBounded x); [|destruct b; exact Hx]
  end.
  apply historiesBounded_set; [exact H|].
  apply (saveToHistory_bounds node (orEmpty (contentOf node))).
Qed.

Lemma typeAll_bounded now p cs s :
  historiesBounded s -> historiesBounded (typeAll now p cs s).
Proof.
  revert s. induction cs as [|c r IH]; intros s H; [exact H|].
  unfold typeAll. cbn [fold_left]. apply IH.
  now apply updateFileContent_bounded.
Qed.

Lemma historiesBounded_test s :
  forallb (fun n => historyLength n <=? historyCap)
          (JsMap.values (fileMap s)) = true ->
  historiesBounded s.
Proof.
  intros H k n G. rewrite forallb_forall in H. apply Nat.leb_le, H.
  apply get_In in G. unfold JsMap.values.
  apply in_map_iff. exists (k, n). auto.
Qed.

End BoundedHistories.

(** C8.  The history cap is 50.  Whatever the node, a push leaves between 1
    and 50 snapshots and the index on the last one; any number of pushes
    keeps a history within the cap, and so does any number of calls of
    [updateFileContent] for every history of the store; a push at the tail
    of a history keeps its last snapshots, the oldest being dropped.  [undo]
    returns the state
    unchanged when the index is at most 0 and [redo] when it is at least the
    last index.  From an index inside the history, any number of calls of
    [undo] (of [redo]) leaves the index inside the history, at 0 (at the
    last index) once it is reached, and the content read is each time a
    snapshot of the history. *)
Theorem C8_history_is_bounded :
  EnhancedFileSystemManager.historyCap = 50
  /\ (forall node c,
         1 <= historyLength (EnhancedFileSystemManager.saveToHistory node c)
         <= EnhancedFileSystemManager.historyCap
         /\ EnhancedFileSystemManager.historyIndex
              (EnhancedFileSystemManager.saveToHistory node c)
            = Some (Z.of_nat
                      (historyLength
                         (EnhancedFileSystemManager.saveToHistory node c)) - 1)%Z)
  /\ (forall cs node,
         historyLength node <= EnhancedFileSystemManager.historyCap ->
         historyLength
           (fold_left EnhancedFileSystemManager.saveToHistory cs node)
         <= EnhancedFileSystemManager.historyCap)
  /\ (forall now p cs s,
         historiesBounded s -> historiesBounded (typeAll now p cs s))
  /\ (forall node old c,
         EnhancedFileSystemManager.history node = Some old ->
         EnhancedFileSystemManager.historyIndex node
         = Some (Z.of_nat (length old) - 1)%Z ->
         EnhancedFileSystemManager.history
           (EnhancedFileSystemManager.saveToHistory node c)
         = Some (skipn (length (old ++ [c])
                        - EnhancedFileSystemManager.historyCap)
                       (old ++ [c])))
  /\ (forall now p s node,
         EnhancedFileSystemManager.getNode p s = Some node ->
         (currentIndex node <= 0)%Z ->
         EnhancedFileSystemManager.undo now p s = s)
  /\ (forall now p s node,
         EnhancedFileSystemManager.getNode p s = Some node ->
         (Z.of_nat (historyLength node) - 1 <= currentIndex node)%Z ->
         EnhancedFileSystemManager.redo now p s = s)
  /\ (forall now p h i k s node,
         EnhancedFileSystemManager.getNode p s = Some node ->
         EnhancedFileSystemManager.history node = Some h ->
         EnhancedFileSystemManager.historyIndex node = Some i ->
         (0 <= i < Z.of_nat (length h))%Z ->
         exists node' x,
           EnhancedFileSystemManager.getNode p
             (repeatedly k (EnhancedFileSystemManager.undo now p) s)
           = Some node'
           /\ EnhancedFileSystemManager.history node' = Some h
           /\ EnhancedFileSystemManager.historyIndex node'
              = Some (Z.max 0 (i - Z.of_nat k))
           /\ nth_error h (Z.to_nat (Z.max 0 (i - Z.of_nat k))) = Some x
           /\ (0 < k -> (0 < i)%Z ->
               EnhancedFileSystemManager.content node' = Some x))
  /\ (forall now p h i k s node,
         EnhancedFileSystemManager.getNode p s = Some node ->
         EnhancedFileSystemManager.history node = Some h ->
         EnhancedFileSystemManager.historyIndex node = Some i ->
         (0 <= i < Z.of_nat (length h))%Z ->
         exists node' x,
           EnhancedFileSystemManager.getNode p
             (repeatedly k (EnhancedFileSystemManager.redo now p) s)
           = Some node'
           /\ EnhancedFileSystemManager.history node' = Some h
           /\ EnhancedFileSystemManager.historyIndex node'
              = Some (Z.min (Z.of_nat (length h) - 1) (i + Z.of_nat k))
           /\ nth_error h
                (Z.to_nat (Z.min (Z.of_nat (length h) - 1) (i + Z.of_nat k)))
              = Some x
           /\ (0 < k -> (i < Z.of_nat (length h) - 1)%Z ->
               EnhancedFileSystemManager.content node' = Some x)).
Proof.
  split; [reflexivity|].
  split; [exact saveToHistory_bounds|].
  split; [exact saveToHistory_many|].
  split; [exact typeAll_bounded|].
  split.
  { intros node old c Hh Hi.
    destruct (saveToHistory_history node c) as (kept & Hk & _ & Heq).
    cbn zeta in Hk. rewrite (Heq old Hh Hi) in Hk. exact Hk. }
  split; [exact undo_noop|].
  split; [exact redo_noop|].
  split; [exact undo_repeated|exact redo_repeated].
Qed.

(** A file opened and edited three times, then sixty more snapshots, and
    more calls of [undo] and [redo] than the history is long. *)
Lemma C8_history_witness :
  let s :=
    EnhancedFileSystemManager.updateFileContent 4 "a" "xyz"
      (EnhancedFileSystemManager.updateFileContent 3 "a" "xy"
         (EnhancedFileSystemManager.updateFileContent 2 "a" "x"
            (EnhancedFileSystemManager.openFile 1 "a"
               (EnhancedFileSystemManager.initial 0)))) in
  let h := [""; ""; "x"; "xy"] in
  match EnhancedFileSystemManager.getNode "a" s with
  | Some node =>
      historyLength
        (fold_left EnhancedFileSystemManager.saveToHistory
                   (repeat "w" 60) node) <= 50
  | None => False
  end
  /\ historiesBounded (typeAll 5 "a" (repeat "w" 60) s)
  /\ EnhancedFileSystemManager.redo 5 "a" s = s
  /\ EnhancedFileSystemManager.undo 5 "a"
       (EnhancedFileSystemManager.openFile 1 "a"
          (EnhancedFileSystemManager.initial 0))
     = EnhancedFileSystemManager.openFile 1 "a"
         (EnhancedFileSystemManager.initial 0)
  /\ (exists node' x,
         EnhancedFileSystemManager.getNode "a"
           (repeatedly 7 (EnhancedFileSystemManager.undo 5 "a") s) = Some node'
         /\ EnhancedFileSystemManager.history node' = Some h
         /\ EnhancedFileSystemManager.historyIndex node' = Some 0%Z
         /\ nth_error h 0 = Some x
         /\ (0 < 7 -> (0 < 3)%Z ->
             EnhancedFileSystemManager.content node' = Some x))
  /\ (exists node' x,
         EnhancedFileSystemManager.getNode "a"
           (repeatedly 7 (EnhancedFileSystemManager.redo 5 "a")
              (repeatedly 7 (EnhancedFileSystemManager.undo 5 "a") s))
         = Some node'
         /\ EnhancedFileSystemManager.history node' = Some h
         /\ EnhancedFileSystemManager.historyIndex node' = Some 3%Z
         /\ nth_error h 3 = Some x
         /\ (0 < 7 -> (0 < 3)%Z ->
             EnhancedFileSystemManager.content node' = Some x)).
Proof.
  intros s h.
  destruct C8_history_is_bounded
    as (_ & _ & Hmany & Htype & _ & Hundo & Hredo & Hundos & Hredos).
  split.
  { destruct (EnhancedFileSystemManager.getNode "a" s) as [node|] eqn:G;
      vm_compute in G; [|discriminate G].
    apply Hmany. injection G as <-. vm_compute. repeat constructor. }
  split.
  { apply Htype. apply historiesBounded_test. vm_compute. reflexivity. }
  split.
  { eapply (Hredo 5%N "a" s); [vm_compute; reflexivity|].
    vm_compute. discriminate. }
  split.
  { eapply (Hundo 5%N "a"); [vm_compute; reflexivity|].
    vm_compute. discriminate. }
  split.
  - eapply (Hundos 5%N "a" h 3%Z 7 s);
      [vm_compute; reflexivity|vm_compute; reflexivity
       |vm_compute; reflexivity|simpl; lia].
  - eapply (Hredos 5%N "a" h 0%Z 7
              (repeatedly 7 (EnhancedFileSystemManager.undo 5 "a") s));
      [vm_compute; reflexivity|vm_compute; reflexivity
       |vm_compute; reflexivity|simpl; lia].
Defined.

(* ================================================================== *)
(** * The tab operations of the enhanced manager *)
(* ================================================================== *)

Section TabFacts.
Import EnhancedFileSystemManager.

Lemma keys_set_existing {V : Type} (m : JsMap.t V) (k : string) (v v' : V) :
  JsMap.get k m = Some v -> JsMap.keys (JsMap.set k v' m) = JsMap.keys m.
Proof.
  induction m as [|[k0 v0] r IH]; simpl; [discriminate|].
  destruct (String.eqb k0 k) eqn:E; simpl.
  - apply String.eqb_eq in E. now subst.
  - intros H. now rewrite IH.
Qed.

Lemma modify_get (k k' : string) (f : FileSystemNode -> FileSystemNode)
      (s : State) :
  JsMap.get k' (fileMap (modify k f s))
  = if String.eqb k k' then option_map f (JsMap.get k (fileMap s))
    else JsMap.get k' (fileMap s).
Proof.
  unfold modify. destruct (String.eqb k k') eqn:E.
  - apply String.eqb_eq in E. subst k'.
    destruct (JsMap.get k (fileMap s)) eqn:G; simpl.
    + apply get_set_same.
    + exact G.
  - apply String.eqb_neq in E.
    destruct (JsMap.get k (fileMap s)) eqn:G; simpl; [|reflexivity].
    now apply get_set_other.
Qed.

Lemma modify_keys (k : string) (f : FileSystemNode -> FileSystemNode)
      (s : State) :
  JsMap.keys (fileMap (modify k f s)) = JsMap.keys (fileMap s).
Proof.
  unfold modify. destruct (JsMap.get k (fileMap s)) eqn:G; [|reflexivity].
  simpl. eapply keys_set_existing; eauto.
Qed.

Lemma modify_openTabs k f s : openTabs (modify k f s) = openTabs s.
Proof. unfold modify. destruct (JsMap.get k (fileMap s)); reflexivity. Qed.

Lemma modify_activeTab k f s : activeTab (modify k f s) = activeTab s.
Proof. unfold modify. destruct (JsMap.get k (fileMap s)); reflexivity. Qed.

(** A write that leaves the path of the node alone keeps the map
    invariant. *)
Lemma modify_MapInv k f s :
  (forall n, path (f n) = path n) -> MapInv s -> MapInv (modify k f s).
Proof.
  intros Hf [Hnd Hp]. split.
  - now rewrite modify_keys.
  - intros k' n. rewrite modify_get.
    destruct (String.eqb k k') eqn:E; [|apply Hp].
    apply String.eqb_eq in E. subst k'.
    destruct (JsMap.get k (fileMap s)) as [n0|] eqn:G; simpl; [|discriminate].
    intros H. injection H as <-. rewrite Hf. now apply Hp.
Qed.

(** A write that leaves [isOpen] alone keeps the tabs invariant. *)
Lemma modify_TabsInv k f s :
  (forall n, isOpen (f n) = isOpen n) -> TabsInv s -> TabsInv (modify k f s).
Proof.
  intros Hf [Hnd Ht]. split; rewrite modify_openTabs; [exact Hnd|].
  intros t Hin. destruct (Ht t Hin) as (Hn & n & G & Ho).
  split; [exact Hn|]. rewrite modify_get.
  destruct (String.eqb k t) eqn:E.
  - apply String.eqb_eq in E. subst t. rewrite G. simpl.
    eexists. split; [reflexivity|]. now rewrite Hf.
  - eauto.
Qed.

Lemma TabsInv_nonempty s k : TabsInv s -> In k (openTabs s) -> k <> "".
Proof.
  intros [_ Ht] Hin ->. destruct (Ht "" Hin) as [Hn _]. discriminate.
Qed.

(** [activateOpenTab] on an open tab: the invariant is kept, and the tab
    becomes the active one. *)
Lemma activateOpenTab_TabInv (np : string) (s : State) :
  TabInv s -> In np (openTabs s) ->
  TabInv (activateOpenTab np s) /\ activeTab (activateOpenTab np s) = Some np.
Proof.
  intros (HM & HT & HA) Hin.
  unfold activateOpenTab.
  set (s1 := match activeTab s with
             | Some a =>
                 if String.eqb a "" then s
                 else modify a (fun prevNode => setIsActive prevNode false) s
             | None => s
             end).
  assert (HM1 : MapInv s1).
  { subst s1. destruct (activeTab s) as [a|]; [|exact HM].
    destruct (String.eqb a ""); [exact HM|].
    apply modify_MapInv; [reflexivity|exact HM]. }
  assert (HT1 : TabsInv s1).
  { subst s1. destruct (activeTab s) as [a|]; [|exact HT].
    destruct (String.eqb a ""); [exact HT|].
    apply modify_TabsInv; [reflexivity|exact HT]. }
  assert (Htabs1 : openTabs s1 = openTabs s).
  { subst s1. destruct (activeTab s) as [a|]; [|reflexivity].
    destruct (String.eqb a ""); [reflexivity|apply modify_openTabs]. }
  assert (Hnone : forall k n, JsMap.get k (fileMap s1) = Some n ->
                              isActive n = false).
  { intros k n. subst s1. destruct (activeTab s) as [a|] eqn:Ea.
    - destruct (String.eqb a "") eqn:E.
      + apply String.eqb_eq in E. subst a. intros G.
        destruct (isActive n) eqn:Hact; [|reflexivity].
        destruct (HA k n G Hact) as [Hk Hkin]. rewrite Ea in Hk.
        injection Hk as <-.
        exfalso. exact (TabsInv_nonempty s "" HT Hkin eq_refl).
      + rewrite modify_get. destruct (String.eqb a k) eqn:Ek.
        * destruct (JsMap.get a (fileMap s)); simpl; [|discriminate].
          intros H. injection H as <-. reflexivity.
        * intros G. destruct (isActive n) eqn:Hact; [|reflexivity].
          destruct (HA k n G Hact) as [Hk _]. rewrite Ea in Hk.
          injection Hk as <-.
          rewrite String.eqb_refl in Ek. discriminate.
    - intros G. destruct (isActive n) eqn:Hact; [|reflexivity].
      destruct (HA k n G Hact) as [Hk _]. rewrite Ea in Hk.
      discriminate. }
  destruct HT1 as [Hnd1 Ht1].
  destruct (Ht1 np) as (Hnp & n0 & G0 & Ho0); [now rewrite Htabs1|].
  rewrite G0. split; [|reflexivity].
  split; [|split].
  - destruct (modify_MapInv np (fun node => setIsActive node true) s1)
      as [A B]; [reflexivity|exact HM1|]. split; [exact A|exact B].
  - destruct (modify_TabsInv np (fun node => setIsActive node true) s1)
      as [A B]; [reflexivity|split; assumption|]. split; [exact A|exact B].
  - intros k n. cbn [fileMap emit withActiveTab activeTab openTabs].
    rewrite modify_get, modify_openTabs, Htabs1.
    destruct (String.eqb np k) eqn:E.
    + apply String.eqb_eq in E. subst k. auto.
    + intros G Hact. rewrite (Hnone k n G) in Hact. discriminate.
Qed.

End TabFacts.

Section TabInvariant.
Import EnhancedFileSystemManager.

Lemma emit_TabInv e s : TabInv s -> TabInv (emit e s).
Proof. intros H. exact H. Qed.

Lemma initial_get now k n :
  JsMap.get k (fileMap (initial now)) = Some n -> k = "/" /\ n = rootNode now.
Proof.
  unfold initial. cbn [fileMap JsMap.set JsMap.get].
  destruct (String.eqb "/" k) eqn:E; [|discriminate].
  apply String.eqb_eq in E. intros H. injection H as <-. auto.
Qed.

Lemma initial_TabInv now : TabInv (initial now).
Proof.
  split; [|split].
  - split.
    + simpl. constructor; [intros []|constructor].
    + intros k n H. apply initial_get in H. destruct H as [-> ->].
      reflexivity.
  - split; [constructor|intros t []].
  - intros k n H. apply initial_get in H. destruct H as [-> ->].
    discriminate.
Qed.

(** The state [openFile] hands to [activateTab]. *)
Lemma openFilePrepare_TabInv now p s :
  TabInv s ->
  TabInv (openFilePrepare now p s)
  /\ In (normalizePath p) (openTabs (openFilePrepare now p s)).
Proof.
  intros (HM & HT & HA). unfold openFilePrepare.
  set (np := normalizePath p).
  (* the state after the node is found or created *)
  set (s1 := match JsMap.get np (fileMap s) with
             | Some _ => (np, s)
             | None => createFileNode now np (getFileName np)
                                      (getParentPath np) "" false s
             end).
  assert (Hkey : fst s1 = np).
  { subst s1. destruct (JsMap.get np (fileMap s)); [reflexivity|].
    simpl. apply normalizePath_idem. }
  assert (Hs1 : TabInv (snd s1)
                /\ openTabs (snd s1) = openTabs s
                /\ exists n, JsMap.get np (fileMap (snd s1)) = Some n).
  { subst s1. destruct (JsMap.get np (fileMap s)) as [n0|] eqn:G.
    - cbn [snd]. split; [exact (conj HM (conj HT HA))|].
      split; [reflexivity|eauto].
    - unfold createFileNode. fold np.
      replace (normalizePath np) with np
        by (symmetry; apply normalizePath_idem).
      cbn [snd fileMap withFileMap openTabs activeTab].
      split; [|split; [reflexivity|rewrite get_set_same; eauto]].
      split; [|split].
      + destruct HM as [Hnd Hp]. split.
        * now apply keys_set_NoDup.
        * intros k n. cbn [fileMap withFileMap].
          destruct (string_dec np k) as [<-|Hne].
          -- rewrite get_set_same. intros H. injection H as <-. reflexivity.
          -- rewrite get_set_other by exact Hne. apply Hp.
      + destruct HT as [Hnd Ht]. split; [exact Hnd|].
        intros t Hin. cbn [fileMap withFileMap openTabs] in *.
        destruct (Ht t Hin) as (Hn & n & Gt & Ho). split; [exact Hn|].
        destruct (string_dec np t) as [<-|Hne]; [congruence|].
        rewrite get_set_other by exact Hne. eauto.
      + intros k n. cbn [fileMap withFileMap openTabs activeTab].
        destruct (string_dec np k) as [<-|Hne].
        * rewrite get_set_same. intros H. injection H as <-. discriminate.
        * rewrite get_set_other by exact Hne. apply HA. }
  destruct s1 as [key s1]. cbn [fst snd] in *. subst key.
  destruct Hs1 as ((HM1 & HT1 & HA1) & Htabs & n1 & G1).
  set (s2 := modify np (fun node => setIsOpen node true) s1).
  assert (HM2 : MapInv s2)
    by (apply modify_MapInv; [reflexivity|exact HM1]).
  assert (HA2 : forall k n, JsMap.get k (fileMap s2) = Some n ->
                            isActive n = true ->
                            activeTab s2 = Some k /\ In k (openTabs s1)).
  { intros k n. subst s2. rewrite modify_get, modify_activeTab.
    destruct (String.eqb np k) eqn:E; [|apply HA1].
    apply String.eqb_eq in E. subst k. rewrite G1. simpl.
    intros H. injection H as <-. intros Hact. exact (HA1 np n1 G1 Hact). }
  assert (Hopen2 : forall t, (t = np \/ In t (openTabs s1)) ->
                   (t = np \/ normalizePath t = t)
                   /\ exists n, JsMap.get t (fileMap s2) = Some n
                                /\ isOpen n = true).
  { intros t Ht. subst s2. rewrite modify_get.
    destruct (String.eqb np t) eqn:E.
    - apply String.eqb_eq in E. subst t. rewrite G1. simpl.
      split; [now left|]. eexists. split; reflexivity.
    - apply String.eqb_neq in E. destruct Ht as [->|Hin]; [contradiction|].
      destruct HT1 as [_ Ht1]. destruct (Ht1 t Hin) as (Hn & n & G & Ho).
      split; [now right|]. eauto. }
  assert (Hnorm : forall t, (t = np \/ normalizePath t = t) ->
                            normalizePath t = t).
  { intros t [->|H]; [apply normalizePath_idem|exact H]. }
  assert (Htabs2 : openTabs s2 = openTabs s1) by apply modify_openTabs.
  destruct (JsArray.includes np (openTabs s2)) eqn:Einc; cbn [negb].
  - apply includes_In in Einc. split; [|exact Einc].
    split; [exact HM2|]. split.
    + split; [rewrite Htabs2; apply HT1|].
      intros t Hin. rewrite Htabs2 in Hin.
      destruct (Hopen2 t (or_intror Hin)) as [A B]. split; [auto|exact B].
    + intros k n G Hact. destruct (HA2 k n G Hact). rewrite Htabs2. auto.
  - assert (Hnotin : ~ In np (openTabs s2)).
    { intros H. apply includes_In in H. congruence. }
    split; [|cbn [openTabs withOpenTabs]; apply in_or_app; right; now left].
    split; [exact HM2|]. split.
    + split.
      * cbn [openTabs withOpenTabs]. rewrite Htabs2 in *.
        apply NoDup_app; [apply HT1|constructor; [intros []|constructor]|].
        intros x Hx [<-|[]]. contradiction.
      * intros t Hin. cbn [openTabs withOpenTabs fileMap] in *.
        rewrite Htabs2 in Hin. apply in_app_or in Hin.
        assert (Ht : t = np \/ In t (openTabs s1)).
        { destruct Hin as [H|[H|[]]]; [now right|left; now symmetry]. }
        destruct (Hopen2 t Ht) as [A B]. split; [auto|exact B].
    + intros k n G Hact. cbn [fileMap withOpenTabs activeTab openTabs] in *.
      destruct (HA2 k n G Hact). rewrite Htabs2. split; [assumption|].
      apply in_or_app. now left.
Qed.

Lemma openFile_TabInv now p s :
  TabInv s ->
  TabInv (openFile now p s)
  /\ activeTab (openFile now p s) = Some (normalizePath p).
Proof.
  intros H. destruct (openFilePrepare_TabInv now p s H) as [Hp Hin].
  unfold openFile.
  destruct (activateOpenTab_TabInv (normalizePath p) _ Hp Hin) as [A B].
  split; [apply emit_TabInv; exact A|exact B].
Qed.

Lemma activateTab_TabInv now p s :
  TabInv s -> TabInv (activateTab now p s).
Proof.
  intros H. unfold activateTab.
  destruct (JsArray.includes (normalizePath p) (openTabs s)) eqn:E;
    cbn [negb].
  - apply includes_In in E. now apply activateOpenTab_TabInv.
  - now apply openFile_TabInv.
Qed.

End TabInvariant.

Section CloseFacts.
Import EnhancedFileSystemManager.

Lemma tabsWf_spec s :
  tabsWf s = true <->
  forall t, In t (openTabs s) ->
            normalizePath t = t /\ JsMap.has t (fileMap s) = true.
Proof.
  unfold tabsWf. rewrite forallb_forall. split; intros H t Hin.
  - specialize (H t Hin). apply andb_true_iff in H.
    destruct H as [A B]. apply String.eqb_eq in A. auto.
  - destruct (H t Hin) as [A B]. rewrite A, String.eqb_refl, B. reflexivity.
Qed.

Lemma TabInv_tabsWf s : TabInv s -> tabsWf s = true.
Proof.
  intros (_ & [_ HT] & _). apply tabsWf_spec. intros t Hin.
  destruct (HT t Hin) as (A & n & G & _). split; [exact A|].
  apply has_get. eauto.
Qed.

Lemma modify_has k f s t :
  JsMap.has t (fileMap (modify k f s)) = JsMap.has t (fileMap s).
Proof.
  unfold JsMap.has. rewrite modify_get.
  destruct (String.eqb k t) eqn:E; [|reflexivity].
  apply String.eqb_eq in E. subst t.
  destruct (JsMap.get k (fileMap s)); reflexivity.
Qed.

Lemma closeFile_unfold now p s tabIndex :
  JsArray.indexOf (normalizePath p) (openTabs s) = Some tabIndex ->
  closeFile now p s
  = let np := normalizePath p in
    let s2 := afterSplice np tabIndex s in
    emit (fileClosed np)
      (if match activeTab s2 with
          | Some a => String.eqb a np
          | None => false
          end
       then
         if 0 <? length (openTabs s2) then
           match nth_error (openTabs s2)
                   (Nat.min tabIndex (length (openTabs s2) - 1)) with
           | Some tab => activateTab now tab s2
           | None => s2
           end
         else withActiveTab s2 None
       else s2).
Proof. intros H. unfold closeFile. rewrite H. reflexivity. Qed.

(** Closing the active tab of a well-formed tab list. *)
Lemma closeFile_active now p s tabIndex :
  tabsWf s = true ->
  activeTab s = Some (normalizePath p) ->
  JsArray.indexOf (normalizePath p) (openTabs s) = Some tabIndex ->
  let tabs := JsArray.removeAt tabIndex (openTabs s) in
  openTabs (closeFile now p s) = tabs
  /\ activeTab (closeFile now p s)
     = nth_error tabs (Nat.min tabIndex (length tabs - 1))
  /\ forall tab, activeTab (closeFile now p s) = Some tab ->
                 exists n, JsMap.get tab (fileMap (closeFile now p s)) = Some n
                           /\ isActive n = true.
Proof.
  intros Hwf Hact Hidx tabs.
  rewrite (closeFile_unfold now p s tabIndex Hidx). cbn zeta.
  set (np := normalizePath p) in *.
  set (s2 := afterSplice np tabIndex s).
  assert (Htabs2 : openTabs s2 = tabs).
  { subst s2 tabs. unfold afterSplice. cbn [openTabs withOpenTabs].
    now rewrite modify_openTabs. }
  assert (Hact2 : activeTab s2 = Some np).
  { subst s2. unfold afterSplice. cbn [activeTab withOpenTabs].
    now rewrite modify_activeTab. }
  assert (Hhas2 : forall t, JsMap.has t (fileMap s2) = JsMap.has t (fileMap s)).
  { intros t. subst s2. unfold afterSplice. cbn [fileMap withOpenTabs].
    apply modify_has. }
  rewrite Hact2, String.eqb_refl, Htabs2.
  destruct (0 <? length tabs) eqn:Elen.
  - apply Nat.ltb_lt in Elen.
    destruct (nth_error tabs (Nat.min tabIndex (length tabs - 1)))
      as [tab|] eqn:Enth; [|apply nth_error_None in Enth; lia].
    assert (Hin : In tab tabs) by (eapply nth_error_In; eauto).
    assert (Hin0 : In tab (openTabs s))
      by (eapply removeAt_In; exact Hin).
    destruct (proj1 (tabsWf_spec s) Hwf tab Hin0) as [Hnorm Hhas].
    unfold activateTab. rewrite Hnorm, Htabs2.
    rewrite (proj2 (includes_In tab tabs) Hin). cbn [negb].
    unfold activateOpenTab. rewrite Hact2.
    destruct (String.eqb np "") eqn:Enp.
    { apply String.eqb_eq in Enp. exfalso.
      exact (normalizePath_nonempty p Enp). }
    set (s3 := modify np (fun prevNode => setIsActive prevNode false) s2).
    assert (Hhas3 : JsMap.has tab (fileMap s3) = true).
    { subst s3. now rewrite modify_has, Hhas2. }
    apply has_get in Hhas3. destruct Hhas3 as [n3 G3]. rewrite G3.
    cbn [openTabs activeTab emit withActiveTab fileMap].
    rewrite modify_openTabs. subst s3. rewrite modify_openTabs, Htabs2.
    split; [reflexivity|]. split; [reflexivity|].
    intros tab' H. injection H as <-. rewrite modify_get, String.eqb_refl.
    rewrite G3. simpl. eauto.
  - apply Nat.ltb_ge in Elen.
    cbn [openTabs activeTab emit withActiveTab]. rewrite Htabs2.
    split; [reflexivity|]. split.
    + destruct tabs; [now destruct (Nat.min tabIndex _)|simpl in Elen; lia].
    + intros tab H. discriminate.
Qed.

(** Closing the active tab when the tab that should take over has no
    record: [activateTab] finds the tab among the open tabs, finds no
    record and sets nothing. *)
Lemma closeFile_adjacent_without_record now p s tabIndex tab :
  activeTab s = Some (normalizePath p) ->
  JsArray.indexOf (normalizePath p) (openTabs s) = Some tabIndex ->
  let tabs := JsArray.removeAt tabIndex (openTabs s) in
  nth_error tabs (Nat.min tabIndex (length tabs - 1)) = Some tab ->
  normalizePath tab = tab ->
  JsMap.get tab (fileMap s) = None ->
  openTabs (closeFile now p s) = tabs
  /\ activeTab (closeFile now p s) = Some (normalizePath p)
  /\ (NoDup (openTabs s) ->
      ~ In (normalizePath p) (openTabs (closeFile now p s))).
Proof.
  intros Hact Hidx tabs Hnth Hnorm Hnone.
  rewrite (closeFile_unfold now p s tabIndex Hidx). cbn zeta.
  set (np := normalizePath p) in *.
  set (s2 := afterSplice np tabIndex s).
  assert (Htabs2 : openTabs s2 = tabs).
  { subst s2 tabs. unfold afterSplice. cbn [openTabs withOpenTabs].
    now rewrite modify_openTabs. }
  assert (Hact2 : activeTab s2 = Some np).
  { subst s2. unfold afterSplice. cbn [activeTab withOpenTabs].
    now rewrite modify_activeTab. }
  assert (Hhas2 : forall t, JsMap.has t (fileMap s2) = JsMap.has t (fileMap s)).
  { intros t. subst s2. unfold afterSplice. cbn [fileMap withOpenTabs].
    apply modify_has. }
  assert (Hin : In tab tabs) by (eapply nth_error_In; eauto).
  assert (Elen : (0 <? length tabs) = true).
  { apply Nat.ltb_lt. destruct tabs; [contradiction|simpl; lia]. }
  rewrite Hact2, String.eqb_refl, Htabs2, Elen, Hnth.
  unfold activateTab. rewrite Hnorm, Htabs2.
  rewrite (proj2 (includes_In tab tabs) Hin). cbn [negb].
  unfold activateOpenTab. rewrite Hact2.
  destruct (String.eqb np "") eqn:Enp.
  { apply String.eqb_eq in Enp. exfalso.
    exact (normalizePath_nonempty p Enp). }
  set (s3 := modify np (fun prevNode => setIsActive prevNode false) s2).
  assert (G3 : JsMap.get tab (fileMap s3) = None).
  { apply has_false_get. subst s3. rewrite modify_has, Hhas2.
    now apply has_false_get. }
  rewrite G3. cbn [openTabs activeTab emit].
  subst s3. rewrite modify_openTabs, modify_activeTab, Htabs2, Hact2.
  split; [reflexivity|]. split; [reflexivity|].
  intros Hnd Hclosed.
  destruct (indexOf_Some _ _ _ Hidx) as [Hat _].
  apply (removeAt_NoDup_In np np (openTabs s) tabIndex Hnd Hat) in Hclosed.
  now destruct Hclosed as [_ Hne].
Qed.

Lemma closeFile_TabInv now p s : TabInv s -> TabInv (closeFile now p s).
Proof.
  intros Hinv.
  destruct (JsArray.indexOf (normalizePath p) (openTabs s)) as [tabIndex|]
    eqn:Hidx; [|unfold closeFile; now rewrite Hidx].
  rewrite (closeFile_unfold now p s tabIndex Hidx). cbn zeta.
  set (np := normalizePath p) in *.
  destruct Hinv as (HM & HT & HA).
  destruct (indexOf_Some _ _ _ Hidx) as [Hnth Hlt].
  set (s2 := afterSplice np tabIndex s).
  assert (Hget2 : forall k, JsMap.get k (fileMap s2)
                  = if String.eqb np k
                    then option_map
                           (fun node => setIsActive (setIsOpen node false) false)
                           (JsMap.get np (fileMap s))
                    else JsMap.get k (fileMap s)).
  { intros k. subst s2. unfold afterSplice. cbn [fileMap withOpenTabs].
    apply modify_get. }
  assert (Htabs2 : openTabs s2 = JsArray.removeAt tabIndex (openTabs s)).
  { subst s2. unfold afterSplice. cbn [openTabs withOpenTabs].
    now rewrite modify_openTabs. }
  assert (Hact2 : activeTab s2 = activeTab s).
  { subst s2. unfold afterSplice. cbn [activeTab withOpenTabs].
    now rewrite modify_activeTab. }
  assert (Hin2 : forall t, In t (openTabs s2) <-> In t (openTabs s) /\ t <> np).
  { intros t. rewrite Htabs2.
    apply removeAt_NoDup_In; [apply HT|exact Hnth]. }
  assert (HM2 : MapInv s2).
  { destruct (modify_MapInv np
                (fun node => setIsActive (setIsOpen node false) false) s)
      as [A B]; [reflexivity|exact HM|]. split; [exact A|exact B]. }
  assert (HT2 : TabsInv s2).
  { split.
    - rewrite Htabs2. apply removeAt_NoDup, HT.
    - intros t Hin. apply Hin2 in Hin. destruct Hin as [Hin Hne].
      destruct HT as [_ Ht]. destruct (Ht t Hin) as (A & n & G & Ho).
      split; [exact A|]. rewrite Hget2.
      destruct (String.eqb np t) eqn:E;
        [apply String.eqb_eq in E; congruence|eauto]. }
  assert (HA2 : ActiveInv s2).
  { intros k n. rewrite Hget2, Hact2.
    destruct (String.eqb np k) eqn:E.
    - destruct (JsMap.get np (fileMap s)); simpl; [|discriminate].
      intros H. injection H as <-. discriminate.
    - apply String.eqb_neq in E. intros G Hact.
      destruct (HA k n G Hact) as [A B]. split; [exact A|].
      apply Hin2. split; [exact B|congruence]. }
  assert (Hinv2 : TabInv s2) by (split; [|split]; assumption).
  apply emit_TabInv.
  destruct (match activeTab s2 with
            | Some a => String.eqb a np
            | None => false
            end) eqn:Eact; [|exact Hinv2].
  destruct (0 <? length (openTabs s2)).
  - destruct (nth_error (openTabs s2) _); [|exact Hinv2].
    now apply activateTab_TabInv.
  - split; [exact HM2|]. split; [exact HT2|].
    intros k n G Hact. exfalso.
    destruct (HA2 k n G Hact) as [A B].
    rewrite A in Eact. apply String.eqb_eq in Eact. subst k.
    apply Hin2 in B. destruct B as [_ B]. now apply B.
Qed.

Lemma runTabCall_TabInv c s : TabInv s -> TabInv (runTabCall c s).
Proof.
  destruct c; simpl; intros H.
  - now apply openFile_TabInv.
  - now apply activateTab_TabInv.
  - now apply closeFile_TabInv.
Qed.

Lemma runTabCalls_TabInv cs s : TabInv s -> TabInv (runTabCalls cs s).
Proof.
  revert s. induction cs as [|c r IH]; intros s H; [exact H|].
  unfold runTabCalls. cbn [fold_left]. apply IH. now apply runTabCall_TabInv.
Qed.

End CloseFacts.

Section ActiveCount.
Import EnhancedFileSystemManager.

Lemma active_at_most_one (m : JsMap.t FileSystemNode) :
  NoDup (JsMap.keys m) ->
  (forall k1 k2 n1 n2,
      JsMap.get k1 m = Some n1 -> JsMap.get k2 m = Some n2 ->
      isActive n1 = true -> isActive n2 = true -> k1 = k2) ->
  length (filter isActive (JsMap.values m)) <= 1.
Proof.
  induction m as [|[k n] r IH]; intros Hnd U; [simpl; lia|].
  inversion Hnd as [|? ? Hnotin Hnd']; subst.
  assert (Hget : forall k' n', JsMap.get k' r = Some n' ->
                               JsMap.get k' ((k, n) :: r) = Some n').
  { intros k' n' G. simpl. destruct (String.eqb k k') eqn:E; [|exact G].
    apply String.eqb_eq in E. subst k'. exfalso. apply Hnotin.
    eapply get_keys; eauto. }
  assert (IH' : length (filter isActive (JsMap.values r)) <= 1).
  { apply IH; [exact Hnd'|]. intros k1 k2 n1 n2 G1 G2. apply U; auto. }
  cbn [JsMap.values map snd filter].
  destruct (isActive n) eqn:Hact; [|exact IH'].
  destruct (filter isActive (map snd r)) as [|x l] eqn:F; [simpl; lia|].
  exfalso.
  assert (Hx : In x (filter isActive (map snd r))) by (rewrite F; now left).
  apply filter_In in Hx. destruct Hx as [Hx Hxa].
  apply in_map_iff in Hx. destruct Hx as ([k2 n2] & Hs & Hin2).
  simpl in Hs. subst n2.
  assert (G2 : JsMap.get k2 r = Some x) by (apply In_get; assumption).
  assert (E : k = k2).
  { apply (U k k2 n x); auto. simpl. now rewrite String.eqb_refl. }
  subst k2. apply Hnotin. eapply get_keys; eauto.
Qed.

Lemma TabInv_activeCount s : TabInv s -> activeCount s <= 1.
Proof.
  intros ([Hnd _] & _ & HA). unfold activeCount.
  apply active_at_most_one; [exact Hnd|].
  intros k1 k2 n1 n2 G1 G2 A1 A2.
  destruct (HA k1 n1 G1 A1) as [E1 _]. destruct (HA k2 n2 G2 A2) as [E2 _].
  congruence.
Qed.

Lemma TabInv_active_open s k n :
  TabInv s -> In (k, n) (fileMap s) -> isActive n = true ->
  path n = k /\ activeTab s = Some k /\ In (path n) (openTabs s)
  /\ isOpen n = true.
Proof.
  intros ([Hnd Hp] & [_ HT] & HA) Hin Hact.
  assert (G : JsMap.get k (fileMap s) = Some n) by (apply In_get; assumption).
  destruct (HA k n G Hact) as [A B].
  rewrite (Hp k n G). repeat split; try assumption.
  destruct (HT k B) as (_ & n' & G' & Ho). congruence.
Qed.

End ActiveCount.

(** C5.  After any sequence of [openFile], [activateTab] and [closeFile]
    calls on a new manager, at most one stored record has [isActive] set;
    and a record that has it set is stored under its path, is the active
    tab, has its path among the open tabs and has [isOpen] set. *)
Theorem C5_single_active_tab :
  forall (now : N) (calls : list EnhancedFileSystemManager.TabCall),
    let s :=
      EnhancedFileSystemManager.runTabCalls
        calls (EnhancedFileSystemManager.initial now) in
    activeCount s <= 1
    /\ forall k n,
        In (k, n) (EnhancedFileSystemManager.fileMap s) ->
        EnhancedFileSystemManager.isActive n = true ->
        EnhancedFileSystemManager.path n = k
        /\ EnhancedFileSystemManager.activeTab s = Some k
        /\ In (EnhancedFileSystemManager.path n)
              (EnhancedFileSystemManager.openTabs s)
        /\ EnhancedFileSystemManager.isOpen n = true.
Proof.
  intros now calls s.
  assert (H : TabInv s)
    by (apply runTabCalls_TabInv, initial_TabInv).
  split.
  - now apply TabInv_activeCount.
  - intros k n. now apply TabInv_active_open.
Qed.

(** Three files opened, the second activated and closed, the first opened
    again: the record of [/a] is the one active record. *)
Lemma C5_single_active_tab_witness :
  let s :=
    EnhancedFileSystemManager.runTabCalls
      [EnhancedFileSystemManager.CallOpen 1 "a";
       EnhancedFileSystemManager.CallOpen 2 "b";
       EnhancedFileSystemManager.CallOpen 3 "c";
       EnhancedFileSystemManager.CallActivate 4 "b";
       EnhancedFileSystemManager.CallClose 5 "b";
       EnhancedFileSystemManager.CallOpen 6 "/a"]
      (EnhancedFileSystemManager.initial 0) in
  activeCount s <= 1
  /\ match JsMap.get "/a" (EnhancedFileSystemManager.fileMap s) with
     | Some n =>
         EnhancedFileSystemManager.path n = "/a"
         /\ EnhancedFileSystemManager.activeTab s = Some "/a"
         /\ In (EnhancedFileSystemManager.path n)
               (EnhancedFileSystemManager.openTabs s)
         /\ EnhancedFileSystemManager.isOpen n = true
     | None => False
     end.
Proof.
  intros s.
  destruct (C5_single_active_tab 0
              [EnhancedFileSystemManager.CallOpen 1 "a";
               EnhancedFileSystemManager.CallOpen 2 "b";
               EnhancedFileSystemManager.CallOpen 3 "c";
               EnhancedFileSystemManager.CallActivate 4 "b";
               EnhancedFileSystemManager.CallClose 5 "b";
               EnhancedFileSystemManager.CallOpen 6 "/a"]) as [Hcount Hopen].
  split; [exact Hcount|].
  destruct (JsMap.get "/a" (EnhancedFileSystemManager.fileMap s)) as [n|] eqn:G;
    vm_compute in G; [|discriminate G].
  apply Hopen.
  - injection G as <-. vm_compute. right. left. reflexivity.
  - injection G as <-. reflexivity.
Defined.

Section FlatClose.
Import FileSystemManager.

Lemma notify_openTabs s : openTabs (notify s) = openTabs s.
Proof. unfold notify. destruct (silentMode s); reflexivity. Qed.

Lemma notify_activeTab s : activeTab (notify s) = activeTab s.
Proof. unfold notify. destruct (silentMode s); reflexivity. Qed.

Lemma notify_files s : files (notify s) = files s.
Proof. unfold notify. destruct (silentMode s); reflexivity. Qed.

Lemma flat_closeFile_active raw s index :
  activeTab s = Some (normalizeFilename raw) ->
  JsArray.indexOf (normalizeFilename raw) (openTabs s) = Some index ->
  let tabs := JsArray.removeAt index (openTabs s) in
  fst (closeFile raw s) = true
  /\ openTabs (snd (closeFile raw s)) = tabs
  /\ activeTab (snd (closeFile raw s))
     = nth_error tabs (Nat.min index (length tabs - 1)).
Proof.
  intros Hact Hidx tabs. unfold closeFile. rewrite Hidx. cbn [fst snd].
  rewrite notify_openTabs, notify_activeTab.
  cbn [activeTab withOpenTabs]. rewrite Hact, String.eqb_refl.
  fold tabs. split; [reflexivity|].
  destruct (0 <? length tabs) eqn:E; cbn [openTabs activeTab withActiveTab
                                          withOpenTabs].
  - auto.
  - apply Nat.ltb_ge in E. split; [reflexivity|].
    destruct tabs; [now destruct (Nat.min index _)|simpl in E; lia].
Qed.

End FlatClose.

(** Closing the active tab when every open tab is a normalised path with
    a record, and in the flat manager: the open tabs are left without it,
    and the tab at index [min(closedIndex, newLength - 1)] of what remains
    is made active, which is no tab when nothing remains; in the enhanced
    manager the record of the tab made active has [isActive] set.  Every
    state that [openFile], [activateTab] and [closeFile] reach from a new
    enhanced manager has such open tabs. *)
Lemma closeFile_selects_adjacent_tab :
  (forall now p s tabIndex,
      tabsWf s = true ->
      EnhancedFileSystemManager.activeTab s
      = Some (EnhancedFileSystemManager.normalizePath p) ->
      JsArray.indexOf (EnhancedFileSystemManager.normalizePath p)
                      (EnhancedFileSystemManager.openTabs s) = Some tabIndex ->
      let tabs :=
        JsArray.removeAt tabIndex (EnhancedFileSystemManager.openTabs s) in
      let s' := EnhancedFileSystemManager.closeFile now p s in
      EnhancedFileSystemManager.openTabs s' = tabs
      /\ EnhancedFileSystemManager.activeTab s'
         = nth_error tabs (Nat.min tabIndex (length tabs - 1))
      /\ forall tab,
          EnhancedFileSystemManager.activeTab s' = Some tab ->
          exists n,
            JsMap.get tab (EnhancedFileSystemManager.fileMap s') = Some n
            /\ EnhancedFileSystemManager.isActive n = true)
  /\ (forall raw s index,
         FileSystemManager.activeTab s = Some (normalizeFilename raw) ->
         JsArray.indexOf (normalizeFilename raw) (FileSystemManager.openTabs s)
         = Some index ->
         let tabs := JsArray.removeAt index (FileSystemManager.openTabs s) in
         let s' := snd (FileSystemManager.closeFile raw s) in
         FileSystemManager.openTabs s' = tabs
         /\ FileSystemManager.activeTab s'
            = nth_error tabs (Nat.min index (length tabs - 1)))
  /\ (forall now calls,
         tabsWf (EnhancedFileSystemManager.runTabCalls
                   calls (EnhancedFileSystemManager.initial now)) = true).
Proof.
  split; [|split].
  - intros now p s tabIndex Hwf Hact Hidx. cbn zeta.
    exact (closeFile_active now p s tabIndex Hwf Hact Hidx).
  - intros raw s index Hact Hidx. cbn zeta.
    exact (proj2 (flat_closeFile_active raw s index Hact Hidx)).
  - intros now calls.
    apply TabInv_tabsWf, runTabCalls_TabInv, initial_TabInv.
Qed.

(** Tabs [a, b, c] with [b] active, made by the tab operations alone:
    closing [b] makes [c] active, in both managers. *)
Lemma closeFile_selects_adjacent_tab_example :
  let e :=
    EnhancedFileSystemManager.runTabCalls
      [EnhancedFileSystemManager.CallOpen 1 "a";
       EnhancedFileSystemManager.CallOpen 2 "b";
       EnhancedFileSystemManager.CallOpen 3 "c";
       EnhancedFileSystemManager.CallActivate 4 "b"]
      (EnhancedFileSystemManager.initial 0) in
  let f :=
    FileSystemManager.setActiveTab "b"
      (FileSystemManager.openFile 3 "c" "" None None
         (FileSystemManager.openFile 2 "b" "" None None
            (FileSystemManager.openFile 1 "a" "" None None
               FileSystemManager.initial))) in
  (EnhancedFileSystemManager.openTabs
     (EnhancedFileSystemManager.closeFile 5 "b" e) = ["/a"; "/c"]
   /\ EnhancedFileSystemManager.activeTab
        (EnhancedFileSystemManager.closeFile 5 "b" e) = Some "/c")
  /\ (FileSystemManager.openTabs (snd (FileSystemManager.closeFile "b" f))
      = ["a"; "c"]
      /\ FileSystemManager.activeTab (snd (FileSystemManager.closeFile "b" f))
         = Some "c").
Proof.
  intros e f.
  destruct closeFile_selects_adjacent_tab as (He & Hf & _).
  split.
  - destruct (He 5%N "b" e 1 eq_refl eq_refl eq_refl) as (A & B & _).
    split; [exact A|exact B].
  - destruct (Hf "b" f 1 eq_refl eq_refl) as (A & B).
    split; [exact A|exact B].
Qed.

(** C7.  Closing the active tab of the enhanced manager does not always
    select the adjacent tab.  [closeFile] removes the tab and hands the tab
    at index [min(closedIndex, newLength - 1)] of what remains to
    [activateTab], which sets the active tab only for a path that has a
    record.  When that tab has no record, as after a structure merge that
    swept the record and left the tab, the active tab stays on the path
    just closed: it is not the adjacent tab and, the open tabs being
    distinct, no open tab at all.  [closeFile] of the flat manager assigns
    the active tab itself and selects the adjacent tab in every state. *)
Theorem C7_close_leaves_the_closed_tab_active :
  (forall now p s tabIndex tab,
      EnhancedFileSystemManager.activeTab s
      = Some (EnhancedFileSystemManager.normalizePath p) ->
      JsArray.indexOf (EnhancedFileSystemManager.normalizePath p)
                      (EnhancedFileSystemManager.openTabs s) = Some tabIndex ->
      let tabs :=
        JsArray.removeAt tabIndex (EnhancedFileSystemManager.openTabs s) in
      nth_error tabs (Nat.min tabIndex (length tabs - 1)) = Some tab ->
      EnhancedFileSystemManager.normalizePath tab = tab ->
      JsMap.get tab (EnhancedFileSystemManager.fileMap s) = None ->
      let s' := EnhancedFileSystemManager.closeFile now p s in
      EnhancedFileSystemManager.openTabs s' = tabs
      /\ EnhancedFileSystemManager.activeTab s'
         = Some (EnhancedFileSystemManager.normalizePath p)
      /\ (NoDup (EnhancedFileSystemManager.openTabs s) ->
          ~ In (EnhancedFileSystemManager.normalizePath p)
               (EnhancedFileSystemManager.openTabs s')
          /\ EnhancedFileSystemManager.activeTab s'
             <> nth_error tabs (Nat.min tabIndex (length tabs - 1))))
  /\ (forall raw s index,
         FileSystemManager.activeTab s = Some (normalizeFilename raw) ->
         JsArray.indexOf (normalizeFilename raw) (FileSystemManager.openTabs s)
         = Some index ->
         let tabs := JsArray.removeAt index (FileSystemManager.openTabs s) in
         let s' := snd (FileSystemManager.closeFile raw s) in
         FileSystemManager.openTabs s' = tabs
         /\ FileSystemManager.activeTab s'
            = nth_error tabs (Nat.min index (length tabs - 1))).
Proof.
  split.
  - intros now p s tabIndex tab Hact Hidx tabs Hnth Hnorm Hnone s'.
    destruct (closeFile_adjacent_without_record
                now p s tabIndex tab Hact Hidx Hnth Hnorm Hnone)
      as (Htabs & Hactive & Hclosed).
    split; [exact Htabs|]. split; [exact Hactive|].
    intros Hnd. split; [exact (Hclosed Hnd)|].
    subst s'. rewrite Hactive. fold tabs. rewrite Hnth.
    intros E. injection E as E. apply (Hclosed Hnd).
    rewrite Htabs, E. eapply nth_error_In. exact Hnth.
  - intros raw s index Hact Hidx. cbn zeta.
    exact (proj2 (flat_closeFile_active raw s index Hact Hidx)).
Qed.

(** Two files are opened, a structure merge that lists neither sweeps
    their records and leaves their tabs, and the active tab [/b] is
    closed: the tabs are [/a] and the active tab is still [/b].  The same
    calls on the flat manager leave [a] active. *)
Lemma C7_close_leaves_the_closed_tab_active_witness :
  let e :=
    EnhancedFileSystemManager.mergeExternalStructure 3
      (EnhancedFileSystemManager.mkExternal
         "/" EnhancedFileSystemManager.Directory None None
         (Some [EnhancedFileSystemManager.mkExternal
                  "c" EnhancedFileSystemManager.File (Some "x") None None]))
      (EnhancedFileSystemManager.openFile 2 "b"
         (EnhancedFileSystemManager.openFile 1 "a"
            (EnhancedFileSystemManager.initial 0))) in
  let f :=
    FileSystemManager.setActiveTab "b"
      (FileSystemManager.openFile 2 "b" "" None None
         (FileSystemManager.openFile 1 "a" "" None None
            FileSystemManager.initial)) in
  (EnhancedFileSystemManager.openTabs e = ["/a"; "/b"]
   /\ EnhancedFileSystemManager.activeTab e = Some "/b"
   /\ EnhancedFileSystemManager.openTabs
        (EnhancedFileSystemManager.closeFile 4 "b" e) = ["/a"]
   /\ EnhancedFileSystemManager.activeTab
        (EnhancedFileSystemManager.closeFile 4 "b" e) = Some "/b")
  /\ (FileSystemManager.openTabs (snd (FileSystemManager.closeFile "b" f))
      = ["a"]
      /\ FileSystemManager.activeTab (snd (FileSystemManager.closeFile "b" f))
         = Some "a").
Proof.
  intros e f.
  destruct C7_close_leaves_the_closed_tab_active as (He & Hf).
  split.
  - destruct (He 4%N "b" e 1 "/a") as (A & B & _);
      [vm_compute; reflexivity .. |].
    split; [vm_compute; reflexivity|]. split; [vm_compute; reflexivity|].
    split; [exact A|exact B].
  - destruct (Hf "b" f 1) as (A & B); [vm_compute; reflexivity ..|].
    split; [exact A|exact B].
Defined.

(* ================================================================== *)
(** * Protected records and the two reconciliation paths *)
(* ================================================================== *)

Section ProtectedRecords.
Import EnhancedFileSystemManager.

Lemma startsWith_app (s t p : string) :
  JsString.startsWith s p = true -> JsString.startsWith (s ++ t) p = true.
Proof.
  revert s. induction p as [|b p IH]; intros s; [reflexivity|].
  destruct s as [|a s]; [discriminate|]. simpl.
  rewrite !andb_true_iff. intros [A B]. split; [exact A|now apply IH].
Qed.

Lemma externalPath_startsWith (parentPath ename : string) :
  JsString.startsWith parentPath "/" = true ->
  JsString.startsWith (externalPath parentPath ename) "/" = true.
Proof.
  intros H. unfold externalPath.
  destruct (String.eqb parentPath "/");
    [apply startsWith_slash_app|now apply startsWith_app].
Qed.

(** [ensureDirectory] only adds records. *)
Lemma ensureDirectoryFrom_keeps fuel now dir name s p node :
  JsMap.get p (fileMap s) = Some node ->
  JsMap.get p (fileMap (ensureDirectoryFrom fuel now dir name s)) = Some node.
Proof.
  revert dir name s. induction fuel as [|fuel IH]; intros dir name s G;
    [exact G|].
  cbn [ensureDirectoryFrom].
  destruct (String.eqb (normalizePath dir) "/"); [exact G|].
  destruct (JsMap.has (normalizePath dir) (fileMap s)) eqn:Hhas;
    cbn [negb]; [exact G|].
  cbn [fileMap withFileMap].
  destruct (string_dec (normalizePath dir) p) as [<-|Hne].
  - apply has_false_get in Hhas. congruence.
  - rewrite get_set_other by exact Hne. now apply IH.
Qed.

(** [processExternalNode] leaves a protected record as it is. *)
Lemma processExternalNode_keeps now external :
  forall parentPath s p node,
    JsString.startsWith parentPath "/" = true ->
    JsMap.get p (fileMap s) = Some node -> isProtected node = true ->
    JsMap.get p (fileMap (processExternalNode now external parentPath s))
    = Some node.
Proof.
  induction external as [ename etype econtent esize echildren IH]
    using ExternalFileNode_induction.
  intros parentPath s p node Hpar G Hprot. cbn [processExternalNode].
  set (fullPath := externalPath parentPath ename).
  assert (Hfull : JsString.startsWith fullPath "/" = true)
    by now apply externalPath_startsWith.
  destruct (JsMap.get fullPath (fileMap s)) as [e|] eqn:Ge.
  - destruct (isProtected e) eqn:Pe; [exact G|].
    assert (Hne : fullPath <> p) by (intros ->; congruence).
    destruct etype.
    + destruct econtent as [c|]; [|exact G].
      destruct (differs (content e) c); [|exact G].
      cbn [fileMap withFileMap]. now rewrite get_set_other.
    + set (s1 := ensureDirectory now fullPath (Some ename) s).
      assert (G1 : JsMap.get p (fileMap s1) = Some node)
        by now apply ensureDirectoryFrom_keeps.
      destruct echildren as [children|]; [|exact G1].
      specialize (IH children eq_refl). clearbody s1. revert s1 G1.
      induction IH as [|c r Hc _ IHr]; intros s1 G1; [exact G1|].
      apply IHr. now apply Hc.
  - destruct etype.
    + unfold createFileNode. rewrite (normalizePath_fixed _ Hfull).
      assert (Hne : fullPath <> p) by (intros ->; congruence).
      rewrite modify_get. cbn [fileMap withFileMap].
      destruct (String.eqb fullPath p) eqn:E;
        [apply String.eqb_eq in E; contradiction|].
      now rewrite get_set_other.
    + set (s1 := ensureDirectory now fullPath (Some ename) s).
      assert (G1 : JsMap.get p (fileMap s1) = Some node)
        by now apply ensureDirectoryFrom_keeps.
      destruct echildren as [children|]; [|exact G1].
      specialize (IH children eq_refl). clearbody s1. revert s1 G1.
      induction IH as [|c r Hc _ IHr]; intros s1 G1; [exact G1|].
      apply IHr. now apply Hc.
Qed.

Lemma fold_delete_keeps (toRemove : list string) (s : State) p node :
  ~ In p toRemove ->
  JsMap.get p (fileMap s) = Some node ->
  JsMap.get p
    (fileMap (fold_left (fun st q => withFileMap st (JsMap.delete q (fileMap st)))
                        toRemove s)) = Some node.
Proof.
  revert s. induction toRemove as [|q r IH]; intros s Hnotin G; [exact G|].
  cbn [fold_left]. apply IH.
  - intros H. apply Hnotin. now right.
  - cbn [fileMap withFileMap]. rewrite get_delete_other; [exact G|].
    intros ->. apply Hnotin. now left.
Qed.

(** The sweep of [clearNonUserFiles] spares the protected records. *)
Lemma clearNonUserFiles_keeps s p node :
  NoDup (JsMap.keys (fileMap s)) ->
  JsMap.get p (fileMap s) = Some node -> isProtected node = true ->
  JsMap.get p (fileMap (clearNonUserFiles s)) = Some node.
Proof.
  intros Hnd G Hprot. unfold clearNonUserFiles.
  apply fold_delete_keeps; [|exact G].
  unfold JsMap.keys. intros Hin. apply in_map_iff in Hin.
  destruct Hin as ([q n] & Hq & Hin). simpl in Hq. subst q.
  apply filter_In in Hin. destruct Hin as [Hin Hpred]. simpl in Hpred.
  apply In_get in Hin; [|exact Hnd].
  assert (n = node) by congruence. subst n.
  unfold isProtected in Hprot.
  destruct (isNew node), (isLocked node);
    try discriminate Hprot; rewrite ?andb_false_r in Hpred;
    discriminate Hpred.
Qed.

Lemma mergeExternalStructure_keeps now externalStructure s p node :
  NoDup (JsMap.keys (fileMap s)) ->
  JsMap.get p (fileMap s) = Some node -> isProtected node = true ->
  JsMap.get p (fileMap (mergeExternalStructure now externalStructure s))
  = Some node.
Proof.
  intros Hnd G Hprot. unfold mergeExternalStructure.
  pose proof (clearNonUserFiles_keeps s p node Hnd G Hprot) as G1.
  set (s1 := clearNonUserFiles s) in *. clearbody s1.
  destruct externalStructure as [ename etype econtent esize [children|]];
    cbn [fileMap emit]; [|exact G1].
  revert s1 G1. induction children as [|c r IH]; intros s1 G1; [exact G1|].
  cbn [fold_left]. apply IH.
  now apply processExternalNode_keeps.
Qed.

End ProtectedRecords.

(** C1.  A structure merge leaves every new or locked record exactly as it
    is.  A content-map update does not: it writes the remote content into
    a file record whatever its [isNew] and [isLocked] flags, which it
    consults for the dirty flag only.  So a new, unsaved file created with
    content [local] holds [remote] after a content-map update. *)
Theorem C1_content_map_overwrites_locked_record :
  (forall now externalStructure s p node,
      NoDup (JsMap.keys (EnhancedFileSystemManager.fileMap s)) ->
      JsMap.get p (EnhancedFileSystemManager.fileMap s) = Some node ->
      EnhancedFileSystemManager.isProtected node = true ->
      JsMap.get p
        (EnhancedFileSystemManager.fileMap
           (EnhancedFileSystemManager.mergeExternalStructure
              now externalStructure s)) = Some node)
  /\ (forall now before after raw c s node,
         othersOnly (EnhancedFileSystemManager.normalizePath raw)
                    (before ++ after)%list = true ->
         EnhancedFileSystemManager.getNode raw s = Some node ->
         EnhancedFileSystemManager.type node = EnhancedFileSystemManager.File ->
         EnhancedFileSystemManager.content node <> Some c ->
         exists node',
           EnhancedFileSystemManager.getNode raw
             (EnhancedFileSystemManager.updateFileContentMap
                now (before ++ (raw, c) :: after)%list s) = Some node'
           /\ EnhancedFileSystemManager.content node' = Some c
           /\ EnhancedFileSystemManager.isNew node'
              = EnhancedFileSystemManager.isNew node
           /\ EnhancedFileSystemManager.isLocked node'
              = EnhancedFileSystemManager.isLocked node
           /\ EnhancedFileSystemManager.isDirty node'
              = (if negb (EnhancedFileSystemManager.isNew node)
                    && negb (EnhancedFileSystemManager.isLocked node)
                 then false
                 else EnhancedFileSystemManager.isDirty node))
  /\ (exists s node node',
         EnhancedFileSystemManager.createFile
           1 "/" "p.txt" "local" (EnhancedFileSystemManager.initial 0)
         = EnhancedFileSystemManager.Ok "/p.txt" s
         /\ EnhancedFileSystemManager.getNode "p.txt" s = Some node
         /\ EnhancedFileSystemManager.isNew node = true
         /\ EnhancedFileSystemManager.isLocked node = true
         /\ EnhancedFileSystemManager.content node = Some "local"
         /\ EnhancedFileSystemManager.getNode "p.txt"
              (EnhancedFileSystemManager.updateFileContentMap
                 2 [("p.txt", "remote")] s) = Some node'
         /\ EnhancedFileSystemManager.content node' = Some "remote").
Proof.
  split; [exact mergeExternalStructure_keeps|].
  split; [exact updateFileContentMap_overwrites|].
  do 3 eexists. repeat split; reflexivity.
Qed.

(** The same new file [/p.txt]: a snapshot of the backend that carries it
    with other content leaves it alone, a content map does not. *)
Lemma C1_content_map_overwrites_witness :
  let s :=
    match EnhancedFileSystemManager.createFile
            1 "/" "p.txt" "local" (EnhancedFileSystemManager.initial 0)
    with
    | EnhancedFileSystemManager.Ok _ s => s
    | EnhancedFileSystemManager.Throw _ s => s
    end in
  let snapshot :=
    EnhancedFileSystemManager.mkExternal
      "root" EnhancedFileSystemManager.Directory None None
      (Some [EnhancedFileSystemManager.mkExternal
               "p.txt" EnhancedFileSystemManager.File (Some "remote")
               None None]) in
  (exists node,
      JsMap.get "/p.txt" (EnhancedFileSystemManager.fileMap s) = Some node
      /\ EnhancedFileSystemManager.content node = Some "local"
      /\ JsMap.get "/p.txt"
           (EnhancedFileSystemManager.fileMap
              (EnhancedFileSystemManager.mergeExternalStructure 2 snapshot s))
         = Some node)
  /\ (exists node',
         EnhancedFileSystemManager.getNode "p.txt"
           (EnhancedFileSystemManager.updateFileContentMap
              2 [("p.txt", "remote")] s) = Some node'
         /\ EnhancedFileSystemManager.content node' = Some "remote").
Proof.
  intros s snapshot.
  destruct C1_content_map_overwrites_locked_record as (Hmerge & Hmap & _).
  split.
  - eexists. split; [vm_compute; reflexivity|]. split; [reflexivity|].
    apply Hmerge; [|vm_compute; reflexivity|reflexivity].
    vm_compute. repeat (constructor; [simpl; intuition discriminate|]).
    constructor.
  - edestruct (Hmap 2%N [] [] "p.txt" "remote" s) as (node' & G & C & _);
      [reflexivity|vm_compute; reflexivity|reflexivity|discriminate|].
    exists node'. split; [exact G|exact C].
Defined.

(* ================================================================== *)
(** * The dirty flag and the content of opened files *)
(* ================================================================== *)

Section FlatDirty.
Import FileSystemManager.

Lemma allDirtyOk_set s k f :
  allDirtyOk s -> dirtyOk f = true ->
  allDirtyOk (withFiles s (JsMap.set k f (files s))).
Proof.
  intros H Hf k' f'. cbn [files withFiles].
  destruct (string_dec k k') as [<-|Hne].
  - rewrite get_set_same. intros E. injection E as <-. exact Hf.
  - rewrite get_set_other by exact Hne. apply H.
Qed.

Lemma allDirtyOk_notify s : allDirtyOk s -> allDirtyOk (notify s).
Proof. intros H k f. rewrite notify_files. apply H. Qed.

Lemma allDirtyOk_forceNotify s : allDirtyOk s -> allDirtyOk (forceNotify s).
Proof. intros H. exact H. Qed.

Lemma flat_updateFileContent_dirty raw c s :
  allDirtyOk s -> allDirtyOk (updateFileContent raw c s).
Proof.
  intros H. unfold updateFileContent.
  destruct (JsMap.get (normalizeFilename raw) (files s)) as [f|]; [|exact H].
  apply allDirtyOk_notify, allDirtyOk_set; [exact H|].
  unfold dirtyOk. cbn. apply Bool.eqb_reflx.
Qed.

Lemma flat_saveFile_dirty now raw s :
  allDirtyOk s -> allDirtyOk (snd (saveFile now raw s)).
Proof.
  intros H. unfold saveFile.
  destruct (JsMap.get (normalizeFilename raw) (files s)) as [f|]; [|exact H].
  cbn [snd]. apply allDirtyOk_notify, allDirtyOk_set; [exact H|].
  unfold dirtyOk. cbn. now rewrite String.eqb_refl.
Qed.

Lemma flat_revertFile_dirty raw s :
  allDirtyOk s -> allDirtyOk (snd (revertFile raw s)).
Proof.
  intros H. unfold revertFile.
  destruct (JsMap.get (normalizeFilename raw) (files s)) as [f|]; [|exact H].
  destruct (isEditable f) as [[|]|]; try exact H.
  cbn [snd]. apply allDirtyOk_forceNotify, allDirtyOk_set; [exact H|].
  unfold dirtyOk. cbn. now rewrite String.eqb_refl.
Qed.

Lemma flat_openFile_new_dirty now raw c fileType metaData s :
  JsMap.get (normalizeFilename raw) (files s) = None ->
  allDirtyOk s -> allDirtyOk (openFile now raw c fileType metaData s).
Proof.
  intros G H. unfold openFile. rewrite G. apply allDirtyOk_notify.
  match goal with
  | |- allDirtyOk (if ?b then _ else _) => destruct b
  end.
  - intros k f. cbn [files withOpenTabs]. revert k f.
    apply (allDirtyOk_set s); [exact H|].
    unfold dirtyOk. cbn. now rewrite String.eqb_refl.
  - apply allDirtyOk_set; [exact H|].
    unfold dirtyOk. cbn. now rewrite String.eqb_refl.
Qed.

(** The record operated on, whatever the rest of the store. *)
Lemma flat_touched_dirty now raw c fileType metaData s :
  (forall f, JsMap.get (normalizeFilename raw) (files s) = Some f ->
     (exists f', JsMap.get (normalizeFilename raw)
                   (files (updateFileContent raw c s)) = Some f'
                 /\ dirtyOk f' = true)
     /\ (exists f', JsMap.get (normalizeFilename raw)
                      (files (snd (saveFile now raw s))) = Some f'
                    /\ dirtyOk f' = true)
     /\ (isEditable f = Some true ->
         exists f', JsMap.get (normalizeFilename raw)
                      (files (snd (revertFile raw s))) = Some f'
                    /\ dirtyOk f' = true))
  /\ (JsMap.get (normalizeFilename raw) (files s) = None ->
      exists f', JsMap.get (normalizeFilename raw)
                   (files (openFile now raw c fileType metaData s)) = Some f'
                 /\ dirtyOk f' = true).
Proof.
  split.
  - intros f G. split; [|split].
    + unfold updateFileContent. rewrite G, notify_files.
      cbn [files withFiles]. rewrite get_set_same.
      eexists. split; [reflexivity|].
      unfold dirtyOk. cbn. apply Bool.eqb_reflx.
    + unfold saveFile. rewrite G. cbn [snd]. rewrite notify_files.
      cbn [files withFiles]. rewrite get_set_same.
      eexists. split; [reflexivity|].
      unfold dirtyOk. cbn. now rewrite String.eqb_refl.
    + intros He. unfold revertFile. rewrite G, He. cbn [snd files withFiles
                                                        forceNotify].
      rewrite get_set_same. eexists. split; [reflexivity|].
      unfold dirtyOk. cbn. now rewrite String.eqb_refl.
  - intros G. unfold openFile. rewrite G, notify_files.
    match goal with
    | |- context [if ?b then _ else _] => destruct b
    end; cbn [files withFiles withOpenTabs]; rewrite get_set_same;
      (eexists; split; [reflexivity|]);
      unfold dirtyOk; cbn; now rewrite String.eqb_refl.
Qed.

(** [openFile] on a name that has a record. *)
Lemma flat_openFile_existing now raw c fileType metaData s f :
  JsMap.get (normalizeFilename raw) (files s) = Some f ->
  JsMap.get (normalizeFilename raw)
            (files (openFile now raw c fileType metaData s))
  = Some match metaData with
         | Some m => assign (setContent f c) m
         | None => setContent f c
         end.
Proof.
  intros G. unfold openFile. rewrite G, notify_files.
  cbn [files withFiles]. apply get_set_same.
Qed.

End FlatDirty.

Section EnhancedDirty.
Import EnhancedFileSystemManager.

Lemma allNodesDirtyOk_set s k n :
  allNodesDirtyOk s -> nodeDirtyOk n ->
  allNodesDirtyOk (withFileMap s (JsMap.set k n (fileMap s))).
Proof.
  intros H Hn k' n'. cbn [fileMap withFileMap].
  destruct (string_dec k k') as [<-|Hne].
  - rewrite get_set_same. intros E. injection E as <-. exact Hn.
  - rewrite get_set_other by exact Hne. apply H.
Qed.

Lemma enhanced_updateFileContent_dirty now p c s :
  allNodesDirtyOk s -> allNodesDirtyOk (updateFileContent now p c s).
Proof.
  intros H. unfold updateFileContent.
  destruct (JsMap.get (normalizePath p) (fileMap s)) as [node|]; [|exact H].
  destruct (NodeType_eqb (type node) File); cbn [negb]; [|exact H].
  destruct (isLocked node); [exact H|].
  match goal with
  | |- allNodesDirtyOk (if ?b then emit ?e ?x else ?x) =>
      assert (Hx : allNodesDirtyOk x); [|destruct b; exact Hx]
  end.
  apply allNodesDirtyOk_set; [exact H|].
  intros _. exists c. split; reflexivity.
Qed.

Lemma enhanced_saveFile_dirty now p s :
  allNodesDirtyOk s -> allNodesDirtyOk (saveFile now p s).
Proof.
  intros H. unfold saveFile.
  destruct (JsMap.get (normalizePath p) (fileMap s)) as [node|] eqn:G;
    [|exact H].
  destruct (NodeType_eqb (type node) File) eqn:Ety; cbn [negb]; [|exact H].
  assert (Hty : type node = File)
    by (destruct (type node); [reflexivity|discriminate]).
  destruct (H _ _ G Hty) as (c & Hc & _).
  apply (allNodesDirtyOk_set s); [exact H|].
  rewrite Hc. intros _. exists c. split; [exact Hc|].
  cbn. now rewrite String.eqb_refl.
Qed.

Lemma enhanced_revertFile_dirty p s :
  allNodesDirtyOk s -> allNodesDirtyOk (revertFile p s).
Proof.
  intros H. unfold revertFile.
  destruct (JsMap.get (normalizePath p) (fileMap s)) as [node|]; [|exact H].
  destruct (NodeType_eqb (type node) File); cbn [negb]; [|exact H].
  destruct (history node) as [[|saved h]|]; try exact H.
  apply (allNodesDirtyOk_set s); [exact H|].
  intros _. exists saved. split; [reflexivity|].
  unfold baseline. cbn. now rewrite String.eqb_refl.
Qed.

(** The record operated on, whatever the rest of the store. *)
Lemma enhanced_touched_dirty now p c s node :
  getNode p s = Some node -> type node = File ->
  (isLocked node = false ->
   exists node', getNode p (updateFileContent now p c s) = Some node'
                 /\ nodeDirtyOk node')
  /\ (content node <> None ->
      exists node', getNode p (saveFile now p s) = Some node'
                    /\ nodeDirtyOk node')
  /\ (historyLength node <> 0 ->
      exists node', getNode p (revertFile p s) = Some node'
                    /\ nodeDirtyOk node').
Proof.
  unfold getNode. intros G Hty. split; [|split].
  - intros Hl. unfold updateFileContent. rewrite G, Hty, Hl. cbn [NodeType_eqb negb].
    match goal with
    | |- context [if ?b then emit ?e ?x else ?x] =>
        assert (Hx : fileMap (if b then emit e x else x) = fileMap x)
          by (destruct b; reflexivity);
          rewrite Hx
    end.
    cbn [fileMap withFileMap]. rewrite get_set_same.
    eexists. split; [reflexivity|]. intros _. exists c. split; reflexivity.
  - intros Hc. unfold saveFile. rewrite G, Hty. cbn [NodeType_eqb negb].
    cbn [fileMap withFileMap emit]. rewrite get_set_same.
    destruct (content node) as [c0|] eqn:Ec; [|contradiction].
    eexists. split; [reflexivity|]. intros _. exists c0.
    split; [exact Ec|]. cbn. now rewrite String.eqb_refl.
  - intros Hh. unfold revertFile. rewrite G, Hty. cbn [NodeType_eqb negb].
    unfold historyLength in Hh.
    destruct (history node) as [[|saved h]|]; try (now contradiction Hh).
    cbn [fileMap withFileMap emit]. rewrite get_set_same.
    eexists. split; [reflexivity|]. intros _. exists saved.
    split; [reflexivity|]. unfold baseline. cbn. now rewrite String.eqb_refl.
Qed.

End EnhancedDirty.

Section EnhancedOpen.
Import EnhancedFileSystemManager.

Lemma contentsKept_refl s : contentsKept s s.
Proof. intros k n G. eauto. Qed.

Lemma contentsKept_trans s1 s2 s3 :
  contentsKept s1 s2 -> contentsKept s2 s3 -> contentsKept s1 s3.
Proof.
  intros H12 H23 k n G. destruct (H12 k n G) as (n2 & G2 & C2).
  destruct (H23 k n2 G2) as (n3 & G3 & C3). exists n3. split; congruence.
Qed.

Lemma contentsKept_modify k f s :
  (forall n, content (f n) = content n) -> contentsKept s (modify k f s).
Proof.
  intros Hf k' n G. rewrite modify_get.
  destruct (String.eqb k k') eqn:E; [|eauto].
  apply String.eqb_eq in E. subst k'. rewrite G. simpl. eauto.
Qed.

Lemma contentsKept_activateOpenTab np s :
  contentsKept s (activateOpenTab np s).
Proof.
  unfold activateOpenTab.
  set (s1 := match activeTab s with
             | Some a =>
                 if String.eqb a "" then s
                 else modify a (fun prevNode => setIsActive prevNode false) s
             | None => s
             end).
  assert (H1 : contentsKept s s1).
  { subst s1. destruct (activeTab s) as [a|]; [|apply contentsKept_refl].
    destruct (String.eqb a ""); [apply contentsKept_refl|].
    now apply contentsKept_modify. }
  destruct (JsMap.get np (fileMap s1)); [|exact H1].
  apply (contentsKept_trans _ _ _ H1).
  intros k n G. cbn [fileMap emit withActiveTab].
  now apply contentsKept_modify.
Qed.

Lemma contentsKept_openFilePrepare now p s :
  contentsKept s (openFilePrepare now p s).
Proof.
  unfold openFilePrepare. set (np := normalizePath p).
  destruct (JsMap.get np (fileMap s)) as [n0|] eqn:G0.
  - match goal with
    | |- contentsKept s (if ?b then withOpenTabs ?x _ else ?x) =>
        assert (Hx : contentsKept s x);
          [|destruct b; exact Hx]
    end.
    now apply contentsKept_modify.
  - unfold createFileNode.
    match goal with
    | |- contentsKept s (if ?b then withOpenTabs ?x _ else ?x) =>
        assert (Hx : contentsKept s x);
          [|destruct b; exact Hx]
    end.
    eapply contentsKept_trans; [|now apply contentsKept_modify].
    intros k n G. cbn [fileMap withFileMap].
    replace (normalizePath np) with np
      by (symmetry; apply normalizePath_idem).
    destruct (string_dec np k) as [<-|Hne]; [congruence|].
    rewrite get_set_other by exact Hne. eauto.
Qed.

(** [openFile] of the enhanced manager changes no content. *)
Lemma enhanced_openFile_keeps_contents now p s :
  contentsKept s (openFile now p s).
Proof.
  unfold openFile.
  apply (contentsKept_trans s (openFilePrepare now p s));
    [apply contentsKept_openFilePrepare|].
  intros k n G. cbn [fileMap emit].
  now apply contentsKept_activateOpenTab.
Qed.

End EnhancedOpen.

(** C3 (counterexample).  In the flat manager a file opened with content
    [A] and opened again with content [B] holds [B] over the baseline [A]
    and is not dirty.  In the enhanced manager a backend file [old] that a
    content map updates to [new] holds [new] over the baseline [old] and is
    not dirty; and a new file, dirty from its creation, is still dirty after
    a call of [updateFileContent], which its lock turns down, while its
    content is the baseline. *)
Lemma C3_dirty_invariant_counterexample :
  (exists f,
      FileSystemManager.getFile "p"
        (FileSystemManager.openFile 2 "p" "B" None None
           (FileSystemManager.openFile 1 "p" "A" None None
              FileSystemManager.initial)) = Some f
      /\ FileSystemManager.content f = "B"
      /\ FileSystemManager.originalContent f = "A"
      /\ FileSystemManager.isDirty f = false
      /\ dirtyOk f = false)
  /\ (exists n,
         EnhancedFileSystemManager.getNode "p"
           (EnhancedFileSystemManager.updateFileContentMap 2 [("p", "new")]
              (EnhancedFileSystemManager.processExternalNode 1
                 (EnhancedFileSystemManager.mkExternal
                    "p" EnhancedFileSystemManager.File (Some "old") None None)
                 "/" (EnhancedFileSystemManager.initial 0))) = Some n
         /\ EnhancedFileSystemManager.content n = Some "new"
         /\ EnhancedFileSystemManager.baseline n = "old"
         /\ EnhancedFileSystemManager.isDirty n = false
         /\ ~ nodeDirtyOk n)
  /\ (exists s n,
         EnhancedFileSystemManager.createFile
           1 "/" "n.txt" "x" (EnhancedFileSystemManager.initial 0)
         = EnhancedFileSystemManager.Ok "/n.txt" s
         /\ EnhancedFileSystemManager.getNode "n.txt"
              (EnhancedFileSystemManager.updateFileContent 2 "n.txt" "y" s)
            = Some n
         /\ EnhancedFileSystemManager.content n = Some "x"
         /\ EnhancedFileSystemManager.baseline n = "x"
         /\ EnhancedFileSystemManager.isDirty n = true
         /\ ~ nodeDirtyOk n).
Proof.
  split; [|split].
  - eexists. repeat split; reflexivity.
  - eexists. split; [reflexivity|]. repeat split.
    intros H. destruct (H eq_refl) as (c & Hc & Hd).
    injection Hc as <-. discriminate Hd.
  - do 2 eexists. split; [reflexivity|]. split; [reflexivity|].
    repeat split.
    intros H. destruct (H eq_refl) as (c & Hc & Hd).
    injection Hc as <-. discriminate Hd.
Qed.

(** C3 (amended).  After [updateFileContent], [saveFile] and [revertFile] of
    an editable file, and after the opening of a path that had no record,
    the record operated on has [isDirty] equal to
    [content != originalContent] in the flat manager, and these operations
    keep that invariant over the whole store.  In the enhanced manager,
    after [updateFileContent] on an unlocked file, [saveFile] on a file
    with content and [revertFile] on a file with a history, the record has
    [isDirty] equal to whether its content differs from the first snapshot
    of its history, and the three operations keep that invariant over the
    whole store. *)
Theorem C3_dirty_invariant :
  (forall now raw c fileType metaData s,
      (forall f,
          JsMap.get (normalizeFilename raw) (FileSystemManager.files s)
          = Some f ->
          (exists f',
              JsMap.get (normalizeFilename raw)
                (FileSystemManager.files
                   (FileSystemManager.updateFileContent raw c s)) = Some f'
              /\ dirtyOk f' = true)
          /\ (exists f',
                 JsMap.get (normalizeFilename raw)
                   (FileSystemManager.files
                      (snd (FileSystemManager.saveFile now raw s))) = Some f'
                 /\ dirtyOk f' = true)
          /\ (FileSystemManager.isEditable f = Some true ->
              exists f',
                JsMap.get (normalizeFilename raw)
                  (FileSystemManager.files
                     (snd (FileSystemManager.revertFile raw s))) = Some f'
                /\ dirtyOk f' = true))
      /\ (JsMap.get (normalizeFilename raw) (FileSystemManager.files s)
          = None ->
          exists f',
            JsMap.get (normalizeFilename raw)
              (FileSystemManager.files
                 (FileSystemManager.openFile now raw c fileType metaData s))
            = Some f'
            /\ dirtyOk f' = true))
  /\ (forall s, allDirtyOk s ->
        (forall raw c,
            allDirtyOk (FileSystemManager.updateFileContent raw c s))
        /\ (forall now raw,
               allDirtyOk (snd (FileSystemManager.saveFile now raw s)))
        /\ (forall raw, allDirtyOk (snd (FileSystemManager.revertFile raw s)))
        /\ (forall now raw c fileType metaData,
               JsMap.get (normalizeFilename raw) (FileSystemManager.files s)
               = None ->
               allDirtyOk
                 (FileSystemManager.openFile now raw c fileType metaData s)))
  /\ (forall now p c s node,
         EnhancedFileSystemManager.getNode p s = Some node ->
         EnhancedFileSystemManager.type node = EnhancedFileSystemManager.File ->
         (EnhancedFileSystemManager.isLocked node = false ->
          exists node',
            EnhancedFileSystemManager.getNode p
              (EnhancedFileSystemManager.updateFileContent now p c s)
            = Some node'
            /\ nodeDirtyOk node')
         /\ (EnhancedFileSystemManager.content node <> None ->
             exists node',
               EnhancedFileSystemManager.getNode p
                 (EnhancedFileSystemManager.saveFile now p s) = Some node'
               /\ nodeDirtyOk node')
         /\ (historyLength node <> 0 ->
             exists node',
               EnhancedFileSystemManager.getNode p
                 (EnhancedFileSystemManager.revertFile p s) = Some node'
               /\ nodeDirtyOk node'))
  /\ (forall s, allNodesDirtyOk s ->
        (forall now p c,
            allNodesDirtyOk
              (EnhancedFileSystemManager.updateFileContent now p c s))
        /\ (forall now p,
               allNodesDirtyOk (EnhancedFileSystemManager.saveFile now p s))
        /\ (forall p,
               allNodesDirtyOk (EnhancedFileSystemManager.revertFile p s))).
Proof.
  split; [exact flat_touched_dirty|].
  split.
  { intros s H. split; [|split; [|split]].
    - intros. now apply flat_updateFileContent_dirty.
    - intros. now apply flat_saveFile_dirty.
    - intros. now apply flat_revertFile_dirty.
    - intros. now apply flat_openFile_new_dirty. }
  split; [exact enhanced_touched_dirty|].
  intros s H. split; [|split].
  - intros. now apply enhanced_updateFileContent_dirty.
  - intros. now apply enhanced_saveFile_dirty.
  - intros. now apply enhanced_revertFile_dirty.
Qed.

Section DirtyTests.

Lemma allDirtyOk_test (s : FileSystemManager.State) :
  forallb dirtyOk (JsMap.values (FileSystemManager.files s)) = true ->
  allDirtyOk s.
Proof.
  intros H k f G. rewrite forallb_forall in H. apply H.
  apply get_In in G. unfold JsMap.values.
  apply in_map_iff. exists (k, f). auto.
Qed.

Lemma nodeDirtyOkb_sound n : nodeDirtyOkb n = true -> nodeDirtyOk n.
Proof.
  unfold nodeDirtyOkb, nodeDirtyOk. intros H Hty. rewrite Hty in H.
  destruct (EnhancedFileSystemManager.content n) as [c|]; [|discriminate].
  exists c. split; [reflexivity|]. now apply Bool.eqb_prop.
Qed.

Lemma allNodesDirtyOk_test (s : EnhancedFileSystemManager.State) :
  forallb nodeDirtyOkb
          (JsMap.values (EnhancedFileSystemManager.fileMap s)) = true ->
  allNodesDirtyOk s.
Proof.
  intros H k n G. rewrite forallb_forall in H.
  apply nodeDirtyOkb_sound, H.
  apply get_In in G. unfold JsMap.values.
  apply in_map_iff. exists (k, n). auto.
Qed.

End DirtyTests.

(** A file opened with [A] and edited to [B]; a file opened in the
    enhanced manager next to a new, unsaved one, then edited. *)
Lemma C3_dirty_invariant_witness :
  let s :=
    FileSystemManager.openFile 1 "p" "A" None None FileSystemManager.initial in
  let e :=
    EnhancedFileSystemManager.openFile
      1 "a" (EnhancedFileSystemManager.initial 0) in
  let e2 :=
    match EnhancedFileSystemManager.createFile 2 "/" "n.txt" "x" e with
    | EnhancedFileSystemManager.Ok _ st => st
    | EnhancedFileSystemManager.Throw _ st => st
    end in
  (exists f',
      JsMap.get "p"
        (FileSystemManager.files
           (FileSystemManager.updateFileContent "p" "B" s)) = Some f'
      /\ dirtyOk f' = true)
  /\ allDirtyOk (FileSystemManager.updateFileContent "p" "B" s)
  /\ allDirtyOk (snd (FileSystemManager.saveFile 2 "p" s))
  /\ allDirtyOk (snd (FileSystemManager.revertFile "p" s))
  /\ allDirtyOk (FileSystemManager.openFile 2 "q" "C" None None s)
  /\ (exists node',
         EnhancedFileSystemManager.getNode "a"
           (EnhancedFileSystemManager.updateFileContent 3 "a" "x" e2)
         = Some node'
         /\ nodeDirtyOk node')
  /\ allNodesDirtyOk (EnhancedFileSystemManager.updateFileContent 2 "a" "x" e)
  /\ allNodesDirtyOk (EnhancedFileSystemManager.saveFile 2 "a" e)
  /\ allNodesDirtyOk (EnhancedFileSystemManager.revertFile "a" e).
Proof.
  intros s e e2.
  destruct C3_dirty_invariant as (Hflat1 & Hflat & Henh1 & Henh).
  destruct (Hflat s) as (A & B & C & D);
    [apply allDirtyOk_test; reflexivity|].
  destruct (Henh e) as (E & F & G);
    [apply allNodesDirtyOk_test; reflexivity|].
  split.
  { destruct (Hflat1 2%N "p" "B" None None s) as [H1 _].
    edestruct H1 as [H2 _]; [reflexivity|exact H2]. }
  split; [apply A|]. split; [apply B|]. split; [apply C|].
  split; [apply D; reflexivity|].
  split.
  { edestruct (Henh1 3%N "a" "x" e2) as [H1 _];
      [vm_compute; reflexivity|reflexivity|].
    apply H1. reflexivity. }
  split; [apply E|]. split; [apply F|apply G].
Defined.

(** C6.  A direct [openFile(p, content)] of the flat manager overwrites
    the content of a record that exists.  On a name that has a record the
    call puts the content it is given in the record, then the keys of the
    metadata, whatever the record holds and whoever calls: with metadata
    that carry no content, the record then holds the content given, and its
    [originalContent] and [isDirty] are as they were, so that an edited
    record loses the edit and still counts as edited.  [openFile] of the
    enhanced manager, which takes no content, leaves the content of every
    record as it was. *)
Theorem C6_direct_open_overwrites_existing_content :
  (forall now raw c fileType metaData s f,
      JsMap.get (normalizeFilename raw) (FileSystemManager.files s)
      = Some f ->
      JsMap.get (normalizeFilename raw)
        (FileSystemManager.files
           (FileSystemManager.openFile now raw c fileType metaData s))
      = Some match metaData with
             | Some m =>
                 FileSystemManager.assign
                   (FileSystemManager.setContent f c) m
             | None => FileSystemManager.setContent f c
             end)
  /\ (forall now raw c fileType metaData s f,
         JsMap.get (normalizeFilename raw) (FileSystemManager.files s)
         = Some f ->
         match metaData with
         | Some m =>
             FileSystemManager.p_content m = None
             /\ FileSystemManager.p_originalContent m = None
             /\ FileSystemManager.p_isDirty m = None
         | None => True
         end ->
         exists f',
           JsMap.get (normalizeFilename raw)
             (FileSystemManager.files
                (FileSystemManager.openFile now raw c fileType metaData s))
           = Some f'
           /\ FileSystemManager.content f' = c
           /\ FileSystemManager.originalContent f'
              = FileSystemManager.originalContent f
           /\ FileSystemManager.isDirty f' = FileSystemManager.isDirty f)
  /\ (forall now path s k n,
         JsMap.get k (EnhancedFileSystemManager.fileMap s) = Some n ->
         exists n',
           JsMap.get k
             (EnhancedFileSystemManager.fileMap
                (EnhancedFileSystemManager.openFile now path s)) = Some n'
           /\ EnhancedFileSystemManager.content n'
              = EnhancedFileSystemManager.content n).
Proof.
  split; [|split].
  - intros. now apply flat_openFile_existing.
  - intros now raw c fileType metaData s f G Hkeys.
    rewrite (flat_openFile_existing now raw c fileType metaData s f G).
    eexists. split; [reflexivity|].
    destruct metaData as [m|]; [|repeat split].
    destruct Hkeys as (Hc & Ho & Hd).
    cbn [FileSystemManager.assign FileSystemManager.content
         FileSystemManager.originalContent FileSystemManager.isDirty
         FileSystemManager.setContent].
    rewrite Hc, Ho, Hd. repeat split.
  - intros now path s k n G.
    exact (enhanced_openFile_keeps_contents now path s k n G).
Qed.

(** A file arrives with content [A] and is edited; a second
    [openFile("p", "B")] of the flat manager leaves the record with [B],
    the baseline [A] and the dirty flag set: the edit is gone.  In the
    enhanced manager a file that arrived with content [old] still holds
    [old] after it is opened. *)
Lemma C6_direct_open_overwrites_witness :
  let s :=
    FileSystemManager.updateFileContent "p" "edited locally"
      (FileSystemManager.openFile 1 "p" "A" None None
         FileSystemManager.initial) in
  let e :=
    EnhancedFileSystemManager.processExternalNode 1
      (EnhancedFileSystemManager.mkExternal
         "p" EnhancedFileSystemManager.File (Some "old") None None)
      "/" (EnhancedFileSystemManager.initial 0) in
  (exists f, FileSystemManager.getFile "p" s = Some f
             /\ FileSystemManager.content f = "edited locally"
             /\ FileSystemManager.isDirty f = true)
  /\ (exists f',
         JsMap.get "p"
           (FileSystemManager.files
              (FileSystemManager.openFile 2 "p" "B" None None s)) = Some f'
         /\ FileSystemManager.content f' = "B"
         /\ FileSystemManager.originalContent f' = "A"
         /\ FileSystemManager.isDirty f' = true)
  /\ (exists n',
         JsMap.get "/p"
           (EnhancedFileSystemManager.fileMap
              (EnhancedFileSystemManager.openFile 2 "p" e)) = Some n'
         /\ EnhancedFileSystemManager.content n' = Some "old").
Proof.
  intros s e.
  destruct C6_direct_open_overwrites_existing_content as (_ & Hflat & Henh).
  split; [|split].
  - eexists. split; [reflexivity|]. split; reflexivity.
  - edestruct (Hflat 2%N "p" "B" None None s) as (f' & G & C & O & D);
      [vm_compute; reflexivity|exact I|].
    exists f'. split; [exact G|]. split; [exact C|]. split; [exact O|exact D].
  - edestruct (Henh 2%N "p" e "/p") as (n' & G & C); [reflexivity|].
    exists n'. split; [exact G|exact C].
Defined.

(* ================================================================== *)
(** * Paths: parent, name and join *)
(* ================================================================== *)

Section StringFacts.

Lemma lastIndexOf_split (c : ascii) (s : string) (i : nat) :
  JsString.lastIndexOf c s = Some i ->
  s = JsString.substringTo i s ++ String c (JsString.substringFrom (S i) s)
  /\ JsString.lastIndexOf c (JsString.substringFrom (S i) s) = None.
Proof.
  revert i. induction s as [|d r IH]; intros i; simpl; [discriminate|].
  destruct (JsString.lastIndexOf c r) as [j|] eqn:E.
  - intros H. injection H as <-. destruct (IH j eq_refl) as [H1 H2].
    split; [|exact H2]. simpl. f_equal. exact H1.
  - destruct (Ascii.eqb d c) eqn:Edc; [|discriminate].
    intros H. injection H as <-. apply Ascii.eqb_eq in Edc. subst d.
    split; [|destruct r; exact E]. simpl. now destruct r.
Qed.

Lemma lastIndexOf_app_sep (c : ascii) (a b : string) :
  JsString.lastIndexOf c b = None ->
  JsString.lastIndexOf c (a ++ String c b) = Some (String.length a).
Proof.
  intros Hb. induction a as [|d a IH]; simpl.
  - now rewrite Hb, Ascii.eqb_refl.
  - now rewrite IH.
Qed.

Lemma substringFrom_app (a b : string) :
  JsString.substringFrom (String.length a) (a ++ b) = b.
Proof. induction a as [|d a IH]; simpl; [now destruct b|exact IH]. Qed.

Lemma substringFrom_app_sep (c : ascii) (a b : string) :
  JsString.substringFrom (S (String.length a)) (a ++ String c b) = b.
Proof. induction a as [|d a IH]; simpl; [now destruct b|exact IH]. Qed.

Lemma substringTo_app (a b : string) :
  JsString.substringTo (String.length a) (a ++ b) = a.
Proof. induction a as [|d a IH]; simpl; [now destruct b|now rewrite IH]. Qed.

Lemma lastIndexOf_None_not_sep (c : ascii) (s : string) :
  JsString.lastIndexOf c s = None -> s <> String c "".
Proof.
  intros H ->. simpl in H. now rewrite Ascii.eqb_refl in H.
Qed.

Lemma startsWith_lastIndexOf (s : string) :
  JsString.startsWith s "/" = true ->
  exists i, JsString.lastIndexOf slash s = Some i.
Proof.
  destruct s as [|d r]; simpl; [discriminate|].
  rewrite andb_true_r. intros H.
  destruct (JsString.lastIndexOf slash r) as [j|]; [eauto|].
  rewrite H. eauto.
Qed.

End StringFacts.

Section EnhancedPaths.
Import EnhancedFileSystemManager.

Lemma joinPath_shape (parent name : string) :
  exists a,
    joinPath parent name = a ++ String slash name
    /\ ((a = "" /\ normalizePath parent = "/")
        \/ (a = normalizePath parent /\ normalizePath parent <> "/")).
Proof.
  unfold joinPath. destruct (String.eqb (normalizePath parent) "/") eqn:E.
  - exists "". split; [reflexivity|]. left. split; [reflexivity|].
    now apply String.eqb_eq.
  - exists (normalizePath parent). split; [reflexivity|]. right.
    split; [reflexivity|]. now apply String.eqb_neq.
Qed.

Lemma joinPath_normalized (parent name : string) :
  JsString.startsWith (joinPath parent name) "/" = true.
Proof.
  destruct (joinPath_shape parent name) as (a & -> & [[-> _]|[-> _]]).
  - reflexivity.
  - apply startsWith_app, normalizePath_startsWith.
Qed.

Lemma joinPath_not_root (parent name : string) :
  name <> "" -> joinPath parent name <> "/".
Proof.
  intros Hname. destruct (joinPath_shape parent name) as (a & -> & _).
  destruct a as [|d a]; simpl.
  - intros H. injection H as H. contradiction.
  - intros H. injection H as _ H. now destruct a.
Qed.

Lemma joinPath_splits (parent name : string) :
  name <> "" -> JsString.lastIndexOf slash name = None ->
  getFileName (joinPath parent name) = name
  /\ getParentPath (joinPath parent name) = normalizePath parent.
Proof.
  intros Hname Hslash.
  pose proof (joinPath_normalized parent name) as Hn.
  pose proof (joinPath_not_root parent name Hname) as Hr.
  unfold getFileName, getParentPath.
  rewrite (normalizePath_fixed _ Hn).
  apply String.eqb_neq in Hr. rewrite Hr.
  destruct (joinPath_shape parent name) as (a & -> & Ha).
  rewrite (lastIndexOf_app_sep slash a name Hslash). split.
  - apply substringFrom_app_sep.
  - destruct Ha as [[-> Hroot]|[-> Hnroot]]; [now rewrite Hroot|].
    destruct (String.length (normalizePath parent)) as [|k] eqn:El.
    + destruct (normalizePath parent) eqn:E; [|discriminate].
      now apply normalizePath_nonempty in E.
    + rewrite <- El. apply substringTo_app.
Qed.

(** A valid name holds no slash. *)
Lemma allNameChars_no_slash (name : string) :
  allNameChars name = true -> JsString.lastIndexOf slash name = None.
Proof.
  induction name as [|c r IH]; [reflexivity|]. simpl.
  rewrite andb_true_iff. intros [Hc Hr]. rewrite (IH Hr).
  destruct (Ascii.eqb c slash) eqn:E; [|reflexivity].
  apply Ascii.eqb_eq in E. subst c. discriminate.
Qed.

Lemma isValidFileName_shape (name : string) :
  isValidFileName name = true ->
  name <> "" /\ JsString.lastIndexOf slash name = None.
Proof.
  unfold isValidFileName. rewrite !andb_true_iff.
  intros [[[Hne Hchars] _] _]. split.
  - intros ->. discriminate.
  - now apply allNameChars_no_slash.
Qed.

End EnhancedPaths.

(** X1.  In the enhanced manager, joining and splitting are inverse to
    each other.  For a name that is not empty and holds no slash, the file
    name of [joinPath(parent, name)] is the name and its parent path is the
    normalised parent.  For a path whose normal form is not the root and
    does not start with two slashes, joining its parent path and its file
    name gives back its normal form. *)
Theorem X1_join_and_split_are_inverse :
  (forall parent name,
      name <> "" ->
      JsString.lastIndexOf slash name = None ->
      EnhancedFileSystemManager.getFileName
        (EnhancedFileSystemManager.joinPath parent name) = name
      /\ EnhancedFileSystemManager.getParentPath
           (EnhancedFileSystemManager.joinPath parent name)
         = EnhancedFileSystemManager.normalizePath parent)
  /\ (forall p,
         EnhancedFileSystemManager.normalizePath p <> "/" ->
         JsString.startsWith (EnhancedFileSystemManager.normalizePath p) "//"
         = false ->
         EnhancedFileSystemManager.joinPath
           (EnhancedFileSystemManager.getParentPath p)
           (EnhancedFileSystemManager.getFileName p)
         = EnhancedFileSystemManager.normalizePath p).
Proof.
  split.
  - intros parent name Hname Hslash.
    now apply joinPath_splits.
  - intros p Hr Hd.
    unfold EnhancedFileSystemManager.getFileName,
      EnhancedFileSystemManager.getParentPath.
    set (np := EnhancedFileSystemManager.normalizePath p) in *.
    pose proof (normalizePath_startsWith p) as Hs. fold np in Hs.
    apply String.eqb_neq in Hr. rewrite Hr.
    destruct (startsWith_lastIndexOf np Hs) as [i Hi]. rewrite Hi.
    destruct (lastIndexOf_split slash np i Hi) as [Hsplit _].
    destruct i as [|k].
    + unfold EnhancedFileSystemManager.joinPath. simpl.
      symmetry. exact Hsplit.
    + unfold EnhancedFileSystemManager.joinPath.
      set (a := JsString.substringTo (S k) np) in *.
      assert (Ha : JsString.startsWith a "/" = true).
      { subst a. destruct np as [|d r]; [discriminate|]. simpl in *.
        rewrite andb_true_r in *. now rewrite Hs. }
      rewrite (normalizePath_fixed a Ha).
      destruct (String.eqb a "/") eqn:Ea.
      * exfalso. apply String.eqb_eq in Ea. rewrite Ea in Hsplit.
        rewrite Hsplit in Hd. simpl in Hd. discriminate.
      * symmetry. exact Hsplit.
Qed.

(** A file of a directory, and a nested path. *)
Lemma X1_join_and_split_witness :
  (EnhancedFileSystemManager.getFileName
     (EnhancedFileSystemManager.joinPath "docs" "notes.md") = "notes.md"
   /\ EnhancedFileSystemManager.getParentPath
        (EnhancedFileSystemManager.joinPath "docs" "notes.md")
      = EnhancedFileSystemManager.normalizePath "docs")
  /\ EnhancedFileSystemManager.joinPath
       (EnhancedFileSystemManager.getParentPath "a/b/c.txt")
       (EnhancedFileSystemManager.getFileName "a/b/c.txt")
     = EnhancedFileSystemManager.normalizePath "a/b/c.txt".
Proof.
  split.
  - apply (proj1 X1_join_and_split_are_inverse "docs" "notes.md");
      [discriminate|reflexivity].
  - apply (proj2 X1_join_and_split_are_inverse "a/b/c.txt");
      [discriminate|reflexivity].
Defined.

(** X2.  Building a path from a tree name and a parent path undoes the
    splitting of a path into parent path and file name.  With the
    [fromTreePath] of the computer view this holds for every path that
    holds a slash, does not end with one and does not start with two; with
    the [fromTreePath] of path-utils.ts, which gives the children of the
    root no leading slash, it holds for every path that does not start with
    a slash and does not end with one. *)
Theorem X2_tree_path_round_trip :
  (forall p i,
      JsString.lastIndexOf slash p = Some i ->
      PathUtils.getFileName p <> "" ->
      JsString.startsWith p "//" = false ->
      ViewPathUtils.fromTreePath (PathUtils.getFileName p)
                                 (PathUtils.getParentPath p) = p)
  /\ (forall p,
         JsString.startsWith p "/" = false ->
         PathUtils.getFileName p <> "" ->
         PathUtils.fromTreePath (PathUtils.getFileName p)
                                (PathUtils.getParentPath p) = p).
Proof.
  split.
  - intros p i Hi Hname Hd.
    unfold PathUtils.getFileName, PathUtils.getParentPath in *.
    destruct (String.eqb p "") eqn:E0; [now elim Hname|].
    rewrite Hi in *.
    destruct (lastIndexOf_split slash p i Hi) as [Hsplit Hnone].
    set (name := JsString.substringFrom (S i) p) in *.
    assert (Hn0 : String.eqb name "" = false) by now apply String.eqb_neq.
    destruct (String.eqb p "/") eqn:E1.
    { apply String.eqb_eq in E1. subst p. simpl in Hi. injection Hi as <-.
      now elim Hname. }
    cbn [orb]. unfold ViewPathUtils.fromTreePath. rewrite Hn0.
    destruct i as [|k].
    + simpl. rewrite andb_false_r. symmetry. exact Hsplit.
    + set (a := JsString.substringTo (S k) p) in *.
      assert (Ha0 : String.eqb a "" = false).
      { subst a. destruct p; [discriminate|reflexivity]. }
      rewrite Ha0, andb_false_r.
      destruct (String.eqb a "/") eqn:Ea.
      * exfalso. apply String.eqb_eq in Ea. rewrite Ea in Hsplit.
        rewrite Hsplit in Hd. simpl in Hd. discriminate.
      * simpl. symmetry. exact Hsplit.
  - intros p Hs Hname.
    unfold PathUtils.getFileName, PathUtils.getParentPath in *.
    destruct (String.eqb p "") eqn:E0; [now elim Hname|].
    destruct (String.eqb p "/") eqn:E1.
    { apply String.eqb_eq in E1. subst p. discriminate. }
    cbn [orb]. unfold PathUtils.fromTreePath.
    destruct (JsString.lastIndexOf slash p) as [i|] eqn:Hi.
    + destruct (lastIndexOf_split slash p i Hi) as [Hsplit Hnone].
      set (name := JsString.substringFrom (S i) p) in *.
      assert (Hn0 : String.eqb name "" = false) by now apply String.eqb_neq.
      rewrite Hn0. destruct i as [|k].
      * exfalso. rewrite Hsplit in Hs. simpl in Hs. discriminate.
      * set (a := JsString.substringTo (S k) p) in *.
        assert (Ha0 : String.eqb a "" = false).
        { subst a. destruct p; [discriminate|reflexivity]. }
        assert (Ha1 : String.eqb a "/" = false).
        { apply String.eqb_neq. intros Ea. rewrite Ea in Hsplit.
          rewrite Hsplit in Hs. simpl in Hs. discriminate. }
        rewrite Ha0, Ha1, andb_false_r. simpl. symmetry. exact Hsplit.
    + rewrite E0, E1. reflexivity.
Qed.

(** An absolute path in the computer view, a relative one in
    path-utils.ts. *)
Lemma X2_tree_path_round_trip_witness :
  ViewPathUtils.fromTreePath (PathUtils.getFileName "/src/main.py")
                             (PathUtils.getParentPath "/src/main.py")
  = "/src/main.py"
  /\ PathUtils.fromTreePath (PathUtils.getFileName "src/main.py")
                            (PathUtils.getParentPath "src/main.py")
     = "src/main.py".
Proof.
  split.
  - apply (proj1 X2_tree_path_round_trip "/src/main.py" 4);
      [reflexivity|discriminate|reflexivity].
  - apply (proj2 X2_tree_path_round_trip "src/main.py");
      [reflexivity|discriminate].
Defined.

(* ================================================================== *)
(** * The enhanced manager: opening, saving, reverting, undoing *)
(* ================================================================== *)

Section MapUpdates.
Context {V : Type}.
Implicit Types (m : JsMap.t V) (k : string) (v : V).

Lemma set_get_id m k v : JsMap.get k m = Some v -> JsMap.set k v m = m.
Proof.
  induction m as [|[k0 v0] r IH]; simpl; [discriminate|].
  destruct (String.eqb k0 k) eqn:E.
  - apply String.eqb_eq in E. subst k0. intros H. now injection H as ->.
  - intros H. now rewrite (IH H).
Qed.

Lemma set_set m k v v' : JsMap.set k v' (JsMap.set k v m) = JsMap.set k v' m.
Proof.
  induction m as [|[k0 v0] r IH]; simpl.
  - now rewrite String.eqb_refl.
  - destruct (String.eqb k0 k) eqn:E; simpl.
    + now rewrite String.eqb_refl.
    + now rewrite E, IH.
Qed.

End MapUpdates.

Section EnhancedOpen2.
Import EnhancedFileSystemManager.

Lemma withFileMap_id s : withFileMap s (fileMap s) = s.
Proof. now destruct s. Qed.

Lemma modify_id k f s n :
  JsMap.get k (fileMap s) = Some n -> f n = n -> modify k f s = s.
Proof.
  intros Hg Hf. unfold modify. rewrite Hg, Hf, (set_get_id _ _ _ Hg).
  apply withFileMap_id.
Qed.

Lemma modify_modify k f g s :
  modify k g (modify k f s) = modify k (fun n => g (f n)) s.
Proof.
  unfold modify. destruct (JsMap.get k (fileMap s)) as [n|] eqn:Hg.
  - cbn [fileMap withFileMap]. rewrite get_set_same.
    unfold withFileMap. cbn. now rewrite set_set.
  - now rewrite Hg.
Qed.

(** What [openFile] leaves: the record of the path exists, is flagged open
    and active, and the path is an open tab and the active one. *)
Lemma openFile_post now p s :
  exists n,
    JsMap.get (normalizePath p) (fileMap (openFile now p s)) = Some n
    /\ isOpen n = true /\ isActive n = true
    /\ In (normalizePath p) (openTabs (openFile now p s))
    /\ activeTab (openFile now p s) = Some (normalizePath p).
Proof.
  set (np := normalizePath p).
  assert (Hprep : exists n,
             JsMap.get np (fileMap (openFilePrepare now p s)) = Some n
             /\ isOpen n = true
             /\ In np (openTabs (openFilePrepare now p s))).
  { unfold openFilePrepare. fold np.
    set (ks := match JsMap.get np (fileMap s) with
               | Some _ => (np, s)
               | None => createFileNode now np (getFileName np)
                                        (getParentPath np) "" false s
               end).
    assert (Hks : fst ks = np /\ exists n, JsMap.get np (fileMap (snd ks)) = Some n).
    { subst ks. destruct (JsMap.get np (fileMap s)) as [n|] eqn:E.
      - split; [reflexivity|eauto].
      - unfold createFileNode. subst np. rewrite normalizePath_idem.
        split; [reflexivity|]. cbn [snd fileMap withFileMap].
        rewrite get_set_same. eauto. }
    destruct ks as [key s1]. cbn [fst snd] in Hks.
    destruct Hks as [-> [n Hn]].
    assert (Hm : JsMap.get np (fileMap (modify np (fun node => setIsOpen node true) s1))
                 = Some (setIsOpen n true)).
    { rewrite modify_get, String.eqb_refl, Hn. reflexivity. }
    destruct (JsArray.includes np (openTabs (modify np (fun node => setIsOpen node true) s1)))
      eqn:Einc; cbn [negb].
    - exists (setIsOpen n true). repeat split; [exact Hm|].
      now apply includes_In.
    - exists (setIsOpen n true). repeat split; [exact Hm|].
      cbn [openTabs withOpenTabs]. apply in_or_app. right. now left. }
  destruct Hprep as (n & Hn & Hopen & Htab).
  unfold openFile. fold np. set (s0 := openFilePrepare now p s) in *.
  unfold activateOpenTab.
  set (s1 := match activeTab s0 with
             | Some a => if String.eqb a "" then s0
                         else modify a (fun prevNode => setIsActive prevNode false) s0
             | None => s0
             end).
  assert (H1 : exists n1, JsMap.get np (fileMap s1) = Some n1
                          /\ isOpen n1 = true /\ openTabs s1 = openTabs s0).
  { subst s1. destruct (activeTab s0) as [a|]; [|eauto].
    destruct (String.eqb a ""); [eauto|].
    rewrite modify_get, modify_openTabs.
    destruct (String.eqb a np) eqn:Ea.
    - apply String.eqb_eq in Ea. subst a. rewrite Hn.
      exists (setIsActive n false). auto.
    - eauto. }
  destruct H1 as (n1 & Hn1 & Hopen1 & Htabs1). rewrite Hn1.
  exists (setIsActive n1 true).
  cbn [fileMap openTabs activeTab emit withActiveTab].
  rewrite modify_get, String.eqb_refl, Hn1, modify_openTabs, Htabs1.
  auto.
Qed.

(** The tabs after [openFile]: the path is appended when it is not
    among them. *)
Lemma openFile_openTabs now p s :
  openTabs (openFile now p s)
  = if JsArray.includes (normalizePath p) (openTabs s) then openTabs s
    else (openTabs s ++ [normalizePath p])%list.
Proof.
  unfold openFile. set (np := normalizePath p).
  assert (Hact : forall st, openTabs (activateOpenTab np st) = openTabs st).
  { intros st. unfold activateOpenTab.
    set (s1 := match activeTab st with
               | Some a => if String.eqb a "" then st
                           else modify a (fun prevNode => setIsActive prevNode false) st
               | None => st
               end).
    assert (H1 : openTabs s1 = openTabs st).
    { subst s1. destruct (activeTab st) as [a|]; [|reflexivity].
      destruct (String.eqb a ""); [reflexivity|apply modify_openTabs]. }
    destruct (JsMap.get np (fileMap s1)); [|exact H1].
    cbn [openTabs emit withActiveTab]. now rewrite modify_openTabs. }
  cbn [openTabs emit]. rewrite Hact. unfold openFilePrepare. fold np.
  destruct (match JsMap.get np (fileMap s) with
            | Some _ => (np, s)
            | None => createFileNode now np (getFileName np)
                                     (getParentPath np) "" false s
            end) as [key s1] eqn:E.
  assert (H1 : openTabs s1 = openTabs s).
  { destruct (JsMap.get np (fileMap s)).
    - now injection E as _ <-.
    - unfold createFileNode in E. now injection E as _ <-. }
  rewrite modify_openTabs, H1.
  destruct (JsArray.includes np (openTabs s)); cbn [negb].
  - now rewrite modify_openTabs.
  - reflexivity.
Qed.

End EnhancedOpen2.

(** X3.  Opening a file that was just opened changes nothing but the
    event log: the second [openFile] gives the state of the first with the
    events [tabActivated] and [fileOpened] appended.  No record is made or
    modified, no tab is added, and the clock of the second call is not
    read. *)
Theorem X3_open_twice_only_logs :
  forall now now' p s,
    let s1 := EnhancedFileSystemManager.openFile now p s in
    let np := EnhancedFileSystemManager.normalizePath p in
    EnhancedFileSystemManager.openFile now' p s1
    = EnhancedFileSystemManager.emit
        (EnhancedFileSystemManager.fileOpened np)
        (EnhancedFileSystemManager.emit
           (EnhancedFileSystemManager.tabActivated np) s1).
Proof.
  intros now now' p s s1 np.
  destruct (openFile_post now p s) as (n & Hn & Hopen & Hactive & Htab & Hat).
  fold s1 np in Hn, Htab, Hat.
  unfold EnhancedFileSystemManager.openFile at 1. fold np. f_equal.
  assert (Hprep : EnhancedFileSystemManager.openFilePrepare now' p s1 = s1).
  { unfold EnhancedFileSystemManager.openFilePrepare. fold np. rewrite Hn.
    rewrite (modify_id np _ s1 n Hn)
      by (destruct n; cbn in *; now subst).
    apply includes_In in Htab. now rewrite Htab. }
  rewrite Hprep. unfold EnhancedFileSystemManager.activateOpenTab.
  rewrite Hat.
  destruct (String.eqb np "") eqn:E0.
  { apply String.eqb_eq in E0. now apply normalizePath_nonempty in E0. }
  rewrite modify_get, String.eqb_refl, Hn. cbn [option_map].
  rewrite modify_modify.
  rewrite (modify_id np _ s1 n Hn)
    by (destruct n; cbn in *; now subst).
  f_equal. destruct s1; cbn in *. now subst.
Qed.

Section EnhancedContent2.
Import EnhancedFileSystemManager.

(** While the cap is not reached, a snapshot is put after the first one
    and never in its place. *)
Lemma saveToHistory_keeps_head node c b t i :
  history node = Some (b :: t) -> historyIndex node = Some i ->
  (0 <= i)%Z -> length (b :: t) < historyCap ->
  exists t',
    saveToHistory node c
    = setHistory node (Some (b :: t')) (Some (Z.of_nat (length t')))
    /\ length t' <= S (length t).
Proof.
  intros Hh Hi Hpos Hlen. unfold saveToHistory. rewrite Hh, Hi.
  set (kept := if (i <? Z.of_nat (length (b :: t)) - 1)%Z
               then JsArray.slice 0%Z (i + 1)%Z (b :: t) else b :: t).
  assert (Hk : exists k, kept = b :: k /\ length k <= length t).
  { subst kept. destruct (i <? Z.of_nat (length (b :: t)) - 1)%Z eqn:E.
    - unfold JsArray.slice, JsArray.clampIndex.
      replace (0 <? 0)%Z with false by reflexivity.
      replace (i + 1 <? 0)%Z with false by (symmetry; apply Z.ltb_ge; lia).
      rewrite (Z.min_l 0) by lia. cbn [Z.to_nat skipn].
      destruct (Z.to_nat (Z.min (i + 1) (Z.of_nat (length (b :: t))) - 0))
        as [|n] eqn:En.
      + cbn [length] in En. lia.
      + cbn [firstn]. exists (firstn n t). split; [reflexivity|].
        rewrite length_firstn. lia.
    - exists t. auto. }
  destruct Hk as (k & -> & Hk). cbn [app].
  destruct (historyCap <? length (b :: k ++ [c])) eqn:E.
  - apply Nat.ltb_lt in E. cbn [length] in *. rewrite length_app in E.
    cbn [length] in E. lia.
  - exists (k ++ [c])%list. split.
    + f_equal. f_equal. cbn [length]. lia.
    + rewrite length_app. cbn [length]. lia.
Qed.

Lemma fileMap_if_emit (b : bool) e s :
  fileMap (if b then emit e s else s) = fileMap s.
Proof. now destruct b. Qed.

Lemma updateFileContent_keeps_baseline now p c s node b t i :
  getNode p s = Some node -> type node = File -> isLocked node = false ->
  history node = Some (b :: t) -> historyIndex node = Some i ->
  (0 <= i)%Z -> length (b :: t) < historyCap ->
  exists node' t',
    getNode p (updateFileContent now p c s) = Some node'
    /\ type node' = File /\ isLocked node' = false
    /\ content node' = Some c
    /\ isDirty node' = negb (String.eqb c b)
    /\ history node' = Some (b :: t')
    /\ historyIndex node' = Some (Z.of_nat (length t'))
    /\ length t' <= S (length t).
Proof.
  unfold getNode, updateFileContent. intros Hget Hty Hl Hh Hi Hpos Hlen.
  rewrite Hget, Hty, Hl. cbn [NodeType_eqb negb].
  destruct (saveToHistory_keeps_head node (orEmpty (contentOf node))
              b t i Hh Hi Hpos Hlen) as (t' & -> & Ht').
  rewrite fileMap_if_emit. cbn [fileMap withFileMap].
  rewrite get_set_same. eexists. exists t'.
  split; [reflexivity|]. cbn. unfold baseline. cbn.
  repeat split; auto.
Qed.

(** The same for a run of edits. *)
Lemma typeAll_keeps_baseline now p cs : forall s node b t i,
  getNode p s = Some node -> type node = File -> isLocked node = false ->
  history node = Some (b :: t) -> historyIndex node = Some i ->
  (0 <= i)%Z -> length (b :: t) + length cs <= historyCap ->
  exists node' t' i',
    getNode p (typeAll now p cs s) = Some node'
    /\ type node' = File /\ history node' = Some (b :: t')
    /\ historyIndex node' = Some i'.
Proof.
  induction cs as [|c r IH]; intros s node b t i Hget Hty Hl Hh Hi Hpos Hlen.
  - exists node, t, i. auto.
  - unfold typeAll. cbn [fold_left]. cbn [length] in Hlen.
    destruct (updateFileContent_keeps_baseline now p c s node b t i)
      as (node' & t' & Hget' & Hty' & Hl' & _ & _ & Hh' & Hi' & Ht');
      auto; [cbn [length]; lia|].
    apply (IH _ node' b t' (Z.of_nat (length t'))); auto; [lia|].
    cbn [length] in *. lia.
Qed.

End EnhancedContent2.

Section FlatContent2.
Import FileSystemManager.

(** Edits of the flat manager leave the saved content and the editable
    flag of the record alone. *)
Lemma flat_edits_keep_original raw cs : forall s f,
  JsMap.get (normalizeFilename raw) (files s) = Some f ->
  exists f',
    JsMap.get (normalizeFilename raw)
              (files (fold_left (fun st c => updateFileContent raw c st) cs s))
    = Some f'
    /\ originalContent f' = originalContent f
    /\ isEditable f' = isEditable f.
Proof.
  induction cs as [|c r IH]; intros s f Hget; [eauto|].
  cbn [fold_left].
  assert (H1 : exists f1,
             JsMap.get (normalizeFilename raw)
                       (files (updateFileContent raw c s)) = Some f1
             /\ originalContent f1 = originalContent f
             /\ isEditable f1 = isEditable f).
  { unfold updateFileContent. rewrite Hget, notify_files.
    cbn [files withFiles]. rewrite get_set_same. eexists.
    split; [reflexivity|]. auto. }
  destruct H1 as (f1 & Hget1 & Ho1 & He1).
  destruct (IH _ f1 Hget1) as (f' & Hget' & Ho' & He').
  exists f'. repeat split; congruence.
Qed.

End FlatContent2.

(** X4.  Saving a file of the enhanced manager makes its content the one
    snapshot of its history and clears the dirty, new and locked flags;
    from there nothing can be undone or redone, and reverting changes
    nothing but the event log. *)
Theorem X4_save_leaves_nothing_to_undo_or_revert :
  forall now now' p s node c,
    EnhancedFileSystemManager.getNode p s = Some node ->
    EnhancedFileSystemManager.type node = EnhancedFileSystemManager.File ->
    EnhancedFileSystemManager.content node = Some c ->
    let s1 := EnhancedFileSystemManager.saveFile now p s in
    (exists n1,
        EnhancedFileSystemManager.getNode p s1 = Some n1
        /\ EnhancedFileSystemManager.content n1 = Some c
        /\ EnhancedFileSystemManager.isDirty n1 = false
        /\ EnhancedFileSystemManager.isNew n1 = false
        /\ EnhancedFileSystemManager.isLocked n1 = false
        /\ EnhancedFileSystemManager.history n1 = Some [c]
        /\ EnhancedFileSystemManager.historyIndex n1 = Some 0%Z)
    /\ EnhancedFileSystemManager.canUndo p s1 = false
    /\ EnhancedFileSystemManager.canRedo p s1 = false
    /\ EnhancedFileSystemManager.undo now' p s1 = s1
    /\ EnhancedFileSystemManager.redo now' p s1 = s1
    /\ EnhancedFileSystemManager.revertFile p s1
       = EnhancedFileSystemManager.emit
           (EnhancedFileSystemManager.fileReverted
              (EnhancedFileSystemManager.normalizePath p)) s1.
Proof.
  intros now now' p s node c Hget Hty Hc s1.
  set (n1 := EnhancedFileSystemManager.setLastModified
               (EnhancedFileSystemManager.setIsLocked
                  (EnhancedFileSystemManager.setIsNew
                     (EnhancedFileSystemManager.setIsDirty
                        (EnhancedFileSystemManager.setHistory node (Some [c])
                                                              (Some 0%Z))
                        false) false) false) now).
  assert (H1 : EnhancedFileSystemManager.getNode p s1 = Some n1).
  { subst s1. unfold EnhancedFileSystemManager.getNode,
      EnhancedFileSystemManager.saveFile in *.
    rewrite Hget, Hty, Hc. cbn. now rewrite get_set_same. }
  clearbody s1.
  split; [|split; [|split; [|split; [|split]]]].
  - exists n1. subst n1. cbn. auto 10.
  - unfold EnhancedFileSystemManager.canUndo.
    unfold EnhancedFileSystemManager.getNode in H1. now rewrite H1.
  - unfold EnhancedFileSystemManager.canRedo.
    unfold EnhancedFileSystemManager.getNode in H1. now rewrite H1.
  - apply (undo_noop now' p s1 n1 H1). subst n1. cbn. lia.
  - apply (redo_noop now' p s1 n1 H1). subst n1. cbn. lia.
  - unfold EnhancedFileSystemManager.revertFile.
    unfold EnhancedFileSystemManager.getNode in H1. rewrite H1.
    assert (Hrec : EnhancedFileSystemManager.setHistory
                     (EnhancedFileSystemManager.setIsDirty
                        (EnhancedFileSystemManager.setContent n1 (Some c))
                        false) (Some [c]) (Some 0%Z) = n1).
    { subst n1. destruct node. cbn in *. now subst. }
    replace (EnhancedFileSystemManager.type n1)
      with EnhancedFileSystemManager.File by (now subst n1).
    replace (EnhancedFileSystemManager.history n1) with (Some [c])
      by (now subst n1).
    cbn [EnhancedFileSystemManager.NodeType_eqb negb]. rewrite Hrec.
    now rewrite (set_get_id _ _ _ H1), withFileMap_id.
Qed.

(** A file opened, edited and saved. *)
Lemma X4_save_witness :
  let s :=
    EnhancedFileSystemManager.updateFileContent 2 "a.txt" "text"
      (EnhancedFileSystemManager.openFile 1 "a.txt"
         (EnhancedFileSystemManager.initial 0)) in
  let s1 := EnhancedFileSystemManager.saveFile 3 "a.txt" s in
  EnhancedFileSystemManager.canUndo "a.txt" s1 = false
  /\ EnhancedFileSystemManager.revertFile "a.txt" s1
     = EnhancedFileSystemManager.emit
         (EnhancedFileSystemManager.fileReverted "/a.txt") s1.
Proof.
  intros s s1.
  edestruct (X4_save_leaves_nothing_to_undo_or_revert 3 4 "a.txt" s)
    as (_ & Hu & _ & _ & _ & Hr);
    [vm_compute; reflexivity|reflexivity|reflexivity|].
  split; [exact Hu|exact Hr].
Defined.

(** X5.  Reverting brings back the saved content after any run of
    edits.  In the enhanced manager the saved content is the first
    snapshot, which the edits leave in place as long as the history stays
    within its cap of 50 snapshots; in the flat manager it is
    [originalContent], which no edit touches, whatever their number. *)
Theorem X5_revert_restores_the_saved_content :
  (forall now p cs s node b t i,
      EnhancedFileSystemManager.getNode p s = Some node ->
      EnhancedFileSystemManager.type node = EnhancedFileSystemManager.File ->
      EnhancedFileSystemManager.isLocked node = false ->
      EnhancedFileSystemManager.history node = Some (b :: t) ->
      EnhancedFileSystemManager.historyIndex node = Some i ->
      (0 <= i)%Z ->
      length (b :: t) + length cs <= EnhancedFileSystemManager.historyCap ->
      exists node',
        EnhancedFileSystemManager.getNode p
          (EnhancedFileSystemManager.revertFile p (typeAll now p cs s))
        = Some node'
        /\ EnhancedFileSystemManager.content node' = Some b
        /\ EnhancedFileSystemManager.isDirty node' = false
        /\ EnhancedFileSystemManager.historyIndex node' = Some 0%Z)
  /\ (forall raw cs s f,
         JsMap.get (normalizeFilename raw) (FileSystemManager.files s)
         = Some f ->
         FileSystemManager.isEditable f = Some true ->
         let s' :=
           fold_left
             (fun st c => FileSystemManager.updateFileContent raw c st) cs s in
         fst (FileSystemManager.revertFile raw s') = true
         /\ exists f',
             JsMap.get (normalizeFilename raw)
               (FileSystemManager.files
                  (snd (FileSystemManager.revertFile raw s'))) = Some f'
             /\ FileSystemManager.content f'
                = FileSystemManager.originalContent f
             /\ FileSystemManager.isDirty f' = false).
Proof.
  split.
  - intros now p cs s node b t i Hget Hty Hl Hh Hi Hpos Hlen.
    destruct (typeAll_keeps_baseline now p cs s node b t i)
      as (node' & t' & i' & Hget' & Hty' & Hh' & Hi'); auto.
    unfold EnhancedFileSystemManager.getNode,
      EnhancedFileSystemManager.revertFile in *.
    rewrite Hget', Hty', Hh'.
    cbn [EnhancedFileSystemManager.NodeType_eqb negb
         EnhancedFileSystemManager.fileMap EnhancedFileSystemManager.emit
         EnhancedFileSystemManager.withFileMap].
    rewrite get_set_same. eexists. split; [reflexivity|]. cbn. auto.
  - intros raw cs s f Hget He s'.
    destruct (flat_edits_keep_original raw cs s f Hget)
      as (f' & Hget' & Ho' & He'). fold s' in Hget'.
    unfold FileSystemManager.revertFile. rewrite Hget', He', He.
    cbn [fst snd FileSystemManager.files FileSystemManager.forceNotify
         FileSystemManager.withFiles].
    split; [reflexivity|]. rewrite get_set_same. eexists.
    split; [reflexivity|]. cbn. auto.
Qed.

(** Three edits of a saved file, then a revert, in each manager. *)
Lemma X5_revert_witness :
  (exists node',
      EnhancedFileSystemManager.getNode "a.txt"
        (EnhancedFileSystemManager.revertFile "a.txt"
           (typeAll 2 "a.txt" ["x"; "xy"; "xyz"]
              (EnhancedFileSystemManager.openFile 1 "a.txt"
                 (EnhancedFileSystemManager.initial 0)))) = Some node'
      /\ EnhancedFileSystemManager.content node' = Some ""
      /\ EnhancedFileSystemManager.isDirty node' = false
      /\ EnhancedFileSystemManager.historyIndex node' = Some 0%Z)
  /\ (let s' :=
        fold_left
          (fun st c => FileSystemManager.updateFileContent "a.txt" c st)
          ["x"; "xy"; "xyz"]
          (FileSystemManager.openFile 1 "a.txt" "saved" None None
             FileSystemManager.initial) in
      fst (FileSystemManager.revertFile "a.txt" s') = true
      /\ exists f',
          JsMap.get (normalizeFilename "a.txt")
            (FileSystemManager.files
               (snd (FileSystemManager.revertFile "a.txt" s'))) = Some f'
          /\ FileSystemManager.content f'
             = FileSystemManager.originalContent
                 {| FileSystemManager.id := "file-a.txt-1";
                    FileSystemManager.filename := "a.txt";
                    FileSystemManager.content := "saved";
                    FileSystemManager.originalContent := "saved";
                    FileSystemManager.isDirty := false;
                    FileSystemManager.isLoading := false;
                    FileSystemManager.lastSaved := 1;
                    FileSystemManager.fileType := FileSystemManager.Text;
                    FileSystemManager.isUrl := Some false;
                    FileSystemManager.isEditable := Some true;
                    FileSystemManager.contentMode
                    := Some FileSystemManager.TextMode |}
          /\ FileSystemManager.isDirty f' = false).
Proof.
  split.
  - eapply (proj1 X5_revert_restores_the_saved_content 2%N "a.txt"
              ["x"; "xy"; "xyz"] _ _ "" [] 0%Z);
      [vm_compute; reflexivity|reflexivity|reflexivity|reflexivity
      |reflexivity|lia|vm_compute; lia].
  - eapply (proj2 X5_revert_restores_the_saved_content "a.txt"
              ["x"; "xy"; "xyz"]);
      [vm_compute; reflexivity|reflexivity].
Defined.

(** X6.  An edit is not a snapshot: what [updateFileContent] pushes on
    the history is the content it replaces.  After an edit from [c] to
    [c'], [undo] shows the last snapshot older than [c], the following
    [redo] shows [c], and nothing can be redone from there: the edit [c']
    is in no snapshot and is not brought back. *)
Theorem X6_redo_does_not_bring_back_the_edit :
  forall now p c c' s node h,
    EnhancedFileSystemManager.getNode p s = Some node ->
    EnhancedFileSystemManager.type node = EnhancedFileSystemManager.File ->
    EnhancedFileSystemManager.isLocked node = false ->
    EnhancedFileSystemManager.content node = Some c ->
    EnhancedFileSystemManager.history node = Some h ->
    EnhancedFileSystemManager.historyIndex node
    = Some (Z.of_nat (length h) - 1)%Z ->
    0 < length h < EnhancedFileSystemManager.historyCap ->
    let s1 := EnhancedFileSystemManager.updateFileContent now p c' s in
    let s2 := EnhancedFileSystemManager.undo now p s1 in
    let s3 := EnhancedFileSystemManager.redo now p s2 in
    (exists n1,
        EnhancedFileSystemManager.getNode p s1 = Some n1
        /\ EnhancedFileSystemManager.content n1 = Some c'
        /\ EnhancedFileSystemManager.history n1 = Some (h ++ [c])%list)
    /\ (exists n2,
           EnhancedFileSystemManager.getNode p s2 = Some n2
           /\ EnhancedFileSystemManager.content n2
              = nth_error h (length h - 1))
    /\ (exists n3,
           EnhancedFileSystemManager.getNode p s3 = Some n3
           /\ EnhancedFileSystemManager.content n3 = Some c
           /\ EnhancedFileSystemManager.history n3 = Some (h ++ [c])%list)
    /\ EnhancedFileSystemManager.canRedo p s3 = false.
Proof.
  intros now p c c' s node h Hget Hty Hl Hc Hh Hi Hlen s1 s2 s3.
  assert (H1 : exists n1,
             EnhancedFileSystemManager.getNode p s1 = Some n1
             /\ EnhancedFileSystemManager.content n1 = Some c'
             /\ EnhancedFileSystemManager.history n1 = Some (h ++ [c])%list
             /\ EnhancedFileSystemManager.historyIndex n1
                = Some (Z.of_nat (length h))).
  { subst s1. unfold EnhancedFileSystemManager.getNode,
      EnhancedFileSystemManager.updateFileContent in *.
    rewrite Hget, Hty, Hl.
    cbn [EnhancedFileSystemManager.NodeType_eqb negb].
    rewrite fileMap_if_emit.
    cbn [EnhancedFileSystemManager.fileMap
         EnhancedFileSystemManager.withFileMap].
    rewrite get_set_same. eexists. split; [reflexivity|].
    cbn [EnhancedFileSystemManager.content EnhancedFileSystemManager.history
         EnhancedFileSystemManager.historyIndex
         EnhancedFileSystemManager.setIsDirty
         EnhancedFileSystemManager.setLastModified
         EnhancedFileSystemManager.setSize
         EnhancedFileSystemManager.setContent].
    split; [reflexivity|].
    destruct (saveToHistory_history node
                (EnhancedFileSystemManager.orEmpty
                   (EnhancedFileSystemManager.contentOf node)))
      as (kept & Hk1 & Hk2 & Hk3).
    cbn zeta in *. rewrite (Hk3 h Hh Hi) in *.
    unfold EnhancedFileSystemManager.contentOf in *. rewrite Hc in *.
    cbn [EnhancedFileSystemManager.orEmpty] in *.
    assert (E : length (h ++ [c]) - EnhancedFileSystemManager.historyCap = 0).
    { rewrite length_app. cbn [length]. lia. }
    rewrite E in *. cbn [skipn] in *. rewrite Hk1, Hk2.
    split; [reflexivity|]. f_equal. rewrite length_app. cbn [length]. lia. }
  clearbody s1. destruct H1 as (n1 & Hg1 & Hc1 & Hh1 & Hi1).
  destruct (undo_step now p s1 n1 (h ++ [c])%list (Z.of_nat (length h))
              Hg1 Hh1 Hi1) as (n2 & Hg2 & Hh2 & Hi2 & Hc2); [lia|].
  fold s2 in Hg2. clearbody s2.
  destruct (redo_step now p s2 n2 (h ++ [c])%list (Z.of_nat (length h) - 1)%Z
              Hg2 Hh2 Hi2) as (n3 & Hg3 & Hh3 & Hi3 & Hc3).
  { rewrite length_app. cbn [length]. lia. }
  fold s3 in Hg3. clearbody s3.
  split; [eauto|]. split; [|split].
  - exists n2. split; [exact Hg2|]. rewrite Hc2.
    replace (Z.to_nat (Z.of_nat (length h) - 1)) with (length h - 1) by lia.
    apply nth_error_app1. lia.
  - exists n3. split; [exact Hg3|]. split; [|exact Hh3]. rewrite Hc3.
    replace (Z.to_nat (Z.of_nat (length h) - 1 + 1)) with (length h) by lia.
    rewrite nth_error_app2 by lia. now rewrite Nat.sub_diag.
  - unfold EnhancedFileSystemManager.canRedo,
      EnhancedFileSystemManager.getNode in *.
    rewrite Hg3. unfold EnhancedFileSystemManager.nodeCanRedo.
    rewrite Hh3, Hi3. apply Z.ltb_ge. rewrite length_app. cbn [length]. lia.
Qed.

(** A saved file holding "one" is edited to "two"; undo and redo then
    both show "one". *)
Lemma X6_redo_witness :
  let s :=
    EnhancedFileSystemManager.saveFile 3 "a.txt"
      (EnhancedFileSystemManager.updateFileContent 2 "a.txt" "one"
         (EnhancedFileSystemManager.openFile 1 "a.txt"
            (EnhancedFileSystemManager.initial 0))) in
  let s3 :=
    EnhancedFileSystemManager.redo 4 "a.txt"
      (EnhancedFileSystemManager.undo 4 "a.txt"
         (EnhancedFileSystemManager.updateFileContent 4 "a.txt" "two" s)) in
  (exists n3,
      EnhancedFileSystemManager.getNode "a.txt" s3 = Some n3
      /\ EnhancedFileSystemManager.content n3 = Some "one"
      /\ EnhancedFileSystemManager.history n3 = Some ["one"; "one"])
  /\ EnhancedFileSystemManager.canRedo "a.txt" s3 = false.
Proof.
  intros s s3.
  edestruct (X6_redo_does_not_bring_back_the_edit 4 "a.txt" "one" "two" s)
    as (_ & _ & H3 & Hr);
    [vm_compute; reflexivity|reflexivity|reflexivity|reflexivity
    |reflexivity|reflexivity|vm_compute; lia|].
  split; [exact H3|exact Hr].
Defined.

Section TabFlags.
Import EnhancedFileSystemManager.

Lemma modify_withoutTabFlags k f s k' :
  (forall n, withoutTabFlags (f n) = withoutTabFlags n) ->
  option_map withoutTabFlags (JsMap.get k' (fileMap (modify k f s)))
  = option_map withoutTabFlags (JsMap.get k' (fileMap s)).
Proof.
  intros Hf. rewrite modify_get. destruct (String.eqb k k') eqn:E; [|reflexivity].
  apply String.eqb_eq in E. subst k'.
  destruct (JsMap.get k (fileMap s)); cbn [option_map]; [|reflexivity].
  now rewrite Hf.
Qed.

Lemma activateOpenTab_withoutTabFlags t s k :
  option_map withoutTabFlags (JsMap.get k (fileMap (activateOpenTab t s)))
  = option_map withoutTabFlags (JsMap.get k (fileMap s)).
Proof.
  unfold activateOpenTab.
  set (s1 := match activeTab s with
             | Some a =>
                 if String.eqb a "" then s
                 else modify a (fun prevNode => setIsActive prevNode false) s
             | None => s
             end).
  assert (H1 : option_map withoutTabFlags (JsMap.get k (fileMap s1))
               = option_map withoutTabFlags (JsMap.get k (fileMap s))).
  { subst s1. destruct (activeTab s) as [a|]; [|reflexivity].
    destruct (String.eqb a ""); [reflexivity|].
    apply modify_withoutTabFlags. now intros []. }
  destruct (JsMap.get t (fileMap s1)); [|exact H1].
  cbn [fileMap emit withActiveTab]. rewrite <- H1.
  apply modify_withoutTabFlags. now intros [].
Qed.

Lemma openFile_withoutTabFlags now p s k :
  k <> normalizePath p \/ JsMap.has (normalizePath p) (fileMap s) = true ->
  option_map withoutTabFlags (JsMap.get k (fileMap (openFile now p s)))
  = option_map withoutTabFlags (JsMap.get k (fileMap s)).
Proof.
  intros Hk. unfold openFile. cbn [fileMap emit].
  rewrite activateOpenTab_withoutTabFlags.
  unfold openFilePrepare. set (np := normalizePath p) in *.
  destruct (JsMap.get np (fileMap s)) as [n0|] eqn:G0.
  - match goal with
    | |- context [if ?b then _ else _] => destruct b
    end; cbn [fileMap withOpenTabs];
      apply modify_withoutTabFlags; now intros [].
  - destruct Hk as [Hk|Hk];
      [|apply has_get in Hk; destruct Hk as [v Hv]; congruence].
    unfold createFileNode.
    match goal with
    | |- context [if ?b then _ else _] => destruct b
    end; cbn [fileMap withOpenTabs];
      (rewrite modify_withoutTabFlags by (now intros []));
      cbn [fileMap withFileMap]; subst np; rewrite normalizePath_idem;
      now rewrite get_set_other by congruence.
Qed.

Lemma closeFile_withoutTabFlags now p s k :
  tabsWf s = true ->
  option_map withoutTabFlags (JsMap.get k (fileMap (closeFile now p s)))
  = option_map withoutTabFlags (JsMap.get k (fileMap s)).
Proof.
  intros Hwf.
  destruct (JsArray.indexOf (normalizePath p) (openTabs s)) as [tabIndex|] eqn:E.
  - rewrite (closeFile_unfold now p s tabIndex E). cbn zeta.
    set (np := normalizePath p) in *.
    set (s2 := afterSplice np tabIndex s).
    assert (H2 : option_map withoutTabFlags (JsMap.get k (fileMap s2))
                 = option_map withoutTabFlags (JsMap.get k (fileMap s))).
    { subst s2. unfold afterSplice. cbn [fileMap withOpenTabs].
      apply modify_withoutTabFlags. now intros []. }
    assert (Htabs2 : openTabs s2 = JsArray.removeAt tabIndex (openTabs s)).
    { subst s2. unfold afterSplice. cbn [openTabs withOpenTabs].
      now rewrite modify_openTabs. }
    cbn [fileMap emit]. rewrite <- H2.
    destruct (match activeTab s2 with
              | Some a => String.eqb a np
              | None => false
              end); [|reflexivity].
    destruct (0 <? length (openTabs s2)); [|reflexivity].
    destruct (nth_error (openTabs s2)
                (Nat.min tabIndex (length (openTabs s2) - 1)))
      as [tab|] eqn:En; [|reflexivity].
    assert (Hin : In tab (openTabs s2)) by (eapply nth_error_In; eauto).
    assert (Hnp : normalizePath tab = tab).
    { rewrite Htabs2 in Hin. apply removeAt_In in Hin.
      now apply (proj1 (tabsWf_spec s) Hwf). }
    unfold activateTab. rewrite Hnp.
    apply includes_In in Hin. rewrite Hin. cbn [negb].
    apply activateOpenTab_withoutTabFlags.
  - unfold closeFile. now rewrite E.
Qed.

Lemma activateTab_withoutTabFlags now p s k :
  k <> normalizePath p \/ JsMap.has (normalizePath p) (fileMap s) = true ->
  option_map withoutTabFlags (JsMap.get k (fileMap (activateTab now p s)))
  = option_map withoutTabFlags (JsMap.get k (fileMap s)).
Proof.
  intros Hk. unfold activateTab.
  destruct (JsArray.includes (normalizePath p) (openTabs s)); cbn [negb].
  - apply activateOpenTab_withoutTabFlags.
  - apply openFile_withoutTabFlags. now rewrite normalizePath_idem.
Qed.

Lemma indexOf_app_last (x : string) (l : list string) :
  ~ In x l -> JsArray.indexOf x (l ++ [x]) = Some (length l).
Proof.
  induction l as [|y r IH]; intros Hnin; simpl.
  - now rewrite String.eqb_refl.
  - destruct (String.eqb y x) eqn:E.
    + apply String.eqb_eq in E. subst y. exfalso. apply Hnin. now left.
    + rewrite IH; [reflexivity|]. intros H. apply Hnin. now right.
Qed.

Lemma removeAt_app_last {A : Type} (x : A) (l : list A) :
  JsArray.removeAt (length l) (l ++ [x]) = l.
Proof. induction l as [|y r IH]; simpl; [reflexivity|now rewrite IH]. Qed.

End TabFlags.

(** X7.  The tab operations write the flags [isOpen] and [isActive] and
    nothing else.  Closing a tab, activating a path and opening a path
    leave every record as it was but for these two flags: content, dirty
    flag, lock, history and time stamp are kept, and no record is dropped.
    Opening or activating a path without a record makes the one record of
    that path.  For [closeFile] the open tabs are taken to be normalised
    paths of records, as the tab operations leave them. *)
Theorem X7_tab_operations_write_flags_only :
  (forall now p s k,
      tabsWf s = true ->
      option_map withoutTabFlags
        (JsMap.get k (EnhancedFileSystemManager.fileMap
                        (EnhancedFileSystemManager.closeFile now p s)))
      = option_map withoutTabFlags
          (JsMap.get k (EnhancedFileSystemManager.fileMap s)))
  /\ (forall now p s k,
         k <> EnhancedFileSystemManager.normalizePath p
         \/ JsMap.has (EnhancedFileSystemManager.normalizePath p)
                      (EnhancedFileSystemManager.fileMap s) = true ->
         option_map withoutTabFlags
           (JsMap.get k (EnhancedFileSystemManager.fileMap
                           (EnhancedFileSystemManager.openFile now p s)))
         = option_map withoutTabFlags
             (JsMap.get k (EnhancedFileSystemManager.fileMap s))
         /\ option_map withoutTabFlags
              (JsMap.get k (EnhancedFileSystemManager.fileMap
                              (EnhancedFileSystemManager.activateTab now p s)))
            = option_map withoutTabFlags
                (JsMap.get k (EnhancedFileSystemManager.fileMap s))).
Proof.
  split.
  - intros now p s k Hwf. now apply closeFile_withoutTabFlags.
  - intros now p s k Hk. split.
    + now apply openFile_withoutTabFlags.
    + now apply activateTab_withoutTabFlags.
Qed.

(** A dirty file is closed, then opened again. *)
Lemma X7_tab_operations_witness :
  let s :=
    EnhancedFileSystemManager.updateFileContent 2 "a.txt" "typed"
      (EnhancedFileSystemManager.openFile 1 "a.txt"
         (EnhancedFileSystemManager.initial 0)) in
  option_map withoutTabFlags
    (JsMap.get "/a.txt"
       (EnhancedFileSystemManager.fileMap
          (EnhancedFileSystemManager.closeFile 3 "a.txt" s)))
  = option_map withoutTabFlags
      (JsMap.get "/a.txt" (EnhancedFileSystemManager.fileMap s))
  /\ option_map withoutTabFlags
       (JsMap.get "/a.txt"
          (EnhancedFileSystemManager.fileMap
             (EnhancedFileSystemManager.openFile 4 "a.txt" s)))
     = option_map withoutTabFlags
         (JsMap.get "/a.txt" (EnhancedFileSystemManager.fileMap s)).
Proof.
  intros s. split.
  - refine (proj1 X7_tab_operations_write_flags_only 3%N "a.txt" s "/a.txt" _).
    vm_compute. reflexivity.
  - refine (proj1 (proj2 X7_tab_operations_write_flags_only
                         4%N "a.txt" s "/a.txt" (or_intror _))).
    vm_compute. reflexivity.
Defined.

(** X8.  Opening a path that is not among the tabs and closing it again
    gives back the list of open tabs.  The active tab is not given back:
    after the round trip the active tab is the last tab of the list, or
    none if the list is empty, whichever tab was active before. *)
Theorem X8_open_then_close :
  forall now now' p s,
    TabInv s ->
    JsArray.includes (EnhancedFileSystemManager.normalizePath p)
                     (EnhancedFileSystemManager.openTabs s) = false ->
    let s' :=
      EnhancedFileSystemManager.closeFile now' p
        (EnhancedFileSystemManager.openFile now p s) in
    EnhancedFileSystemManager.openTabs s'
    = EnhancedFileSystemManager.openTabs s
    /\ EnhancedFileSystemManager.activeTab s'
       = nth_error (EnhancedFileSystemManager.openTabs s)
                   (length (EnhancedFileSystemManager.openTabs s) - 1)
    /\ TabInv s'.
Proof.
  intros now now' p s Hinv Hinc s'.
  destruct (openFile_TabInv now p s Hinv) as [Hinv1 Hact1].
  pose proof (openFile_openTabs now p s) as Htabs1. rewrite Hinc in Htabs1.
  assert (Hnin : ~ In (EnhancedFileSystemManager.normalizePath p)
                      (EnhancedFileSystemManager.openTabs s)).
  { intros H. apply includes_In in H. congruence. }
  assert (Hidx : JsArray.indexOf (EnhancedFileSystemManager.normalizePath p)
                   (EnhancedFileSystemManager.openTabs
                      (EnhancedFileSystemManager.openFile now p s))
                 = Some (length (EnhancedFileSystemManager.openTabs s))).
  { rewrite Htabs1. now apply indexOf_app_last. }
  destruct (closeFile_active now' p _ _ (TabInv_tabsWf _ Hinv1) Hact1 Hidx)
    as (Ht & Ha & _).
  rewrite Htabs1, removeAt_app_last in Ht, Ha.
  split; [exact Ht|]. split.
  - subst s'. rewrite Ha. f_equal. lia.
  - now apply closeFile_TabInv.
Qed.

(** Tabs a and b, a active; c is opened and closed: b is active. *)
Lemma X8_open_then_close_witness :
  let s :=
    EnhancedFileSystemManager.runTabCalls
      [EnhancedFileSystemManager.CallOpen 1 "a";
       EnhancedFileSystemManager.CallOpen 2 "b";
       EnhancedFileSystemManager.CallActivate 3 "a"]
      (EnhancedFileSystemManager.initial 0) in
  let s' :=
    EnhancedFileSystemManager.closeFile 5 "c"
      (EnhancedFileSystemManager.openFile 4 "c" s) in
  EnhancedFileSystemManager.activeTab s = Some "/a"
  /\ EnhancedFileSystemManager.openTabs s'
     = EnhancedFileSystemManager.openTabs s
  /\ EnhancedFileSystemManager.activeTab s' = Some "/b".
Proof.
  intros s s'.
  destruct (X8_open_then_close 4 5 "c" s) as (Ht & Ha & _).
  - apply runTabCalls_TabInv, initial_TabInv.
  - vm_compute. reflexivity.
  - split; [vm_compute; reflexivity|]. split; [exact Ht|exact Ha].
Defined.

(* ================================================================== *)
(** * The structure merge: what is swept, what is left *)
(* ================================================================== *)

Section MergeSweep.
Import EnhancedFileSystemManager.

Lemma modify_events k f s : events (modify k f s) = events s.
Proof. unfold modify. now destruct (JsMap.get k (fileMap s)). Qed.

Lemma fold_delete_get (toRemove : list string) : forall (s : State) k,
  JsMap.get k
    (fileMap (fold_left (fun st q => withFileMap st (JsMap.delete q (fileMap st)))
                        toRemove s))
  = if existsb (String.eqb k) toRemove then None else JsMap.get k (fileMap s).
Proof.
  induction toRemove as [|q r IH]; intros s k; [reflexivity|].
  cbn [fold_left existsb]. rewrite IH. cbn [fileMap withFileMap].
  destruct (String.eqb k q) eqn:E; cbn [orb].
  - apply String.eqb_eq in E. subst q. rewrite get_delete_same.
    now destruct (existsb (String.eqb k) r).
  - rewrite get_delete_other; [reflexivity|].
    intros ->. now rewrite String.eqb_refl in E.
Qed.

Lemma fold_delete_tabs (toRemove : list string) : forall (s : State),
  let s' := fold_left (fun st q => withFileMap st (JsMap.delete q (fileMap st)))
                      toRemove s in
  openTabs s' = openTabs s /\ activeTab s' = activeTab s
  /\ events s' = events s.
Proof.
  induction toRemove as [|q r IH]; intros s; cbn zeta; [auto|].
  cbn [fold_left]. now rewrite !(proj1 (IH _)), !(proj1 (proj2 (IH _))),
                     !(proj2 (proj2 (IH _))).
Qed.

(** The sweep, record by record. *)
Lemma clearNonUserFiles_get s k :
  NoDup (JsMap.keys (fileMap s)) ->
  JsMap.get k (fileMap (clearNonUserFiles s))
  = match JsMap.get k (fileMap s) with
    | Some n => if String.eqb k "/" || isProtected n then Some n else None
    | None => None
    end.
Proof.
  intros Hnd. unfold clearNonUserFiles. rewrite fold_delete_get.
  match goal with
  | |- (if existsb _ ?l then _ else _) = _ => set (toRemove := l)
  end.
  destruct (JsMap.get k (fileMap s)) as [n|] eqn:G;
    [|now destruct (existsb (String.eqb k) toRemove)].
  assert (Hiff : existsb (String.eqb k) toRemove = true
                 <-> (String.eqb k "/" || isProtected n) = false).
  { rewrite existsb_exists. subst toRemove. unfold JsMap.keys. split.
    - intros (q & Hin & E). apply String.eqb_eq in E. subst q.
      apply in_map_iff in Hin. destruct Hin as ([q n'] & Hq & Hin).
      simpl in Hq. subst q. apply filter_In in Hin.
      destruct Hin as [Hin Hpred]. simpl in Hpred.
      apply In_get in Hin; [|exact Hnd].
      assert (n' = n) by congruence. subst n'. unfold isProtected.
      destruct (String.eqb k "/"), (isNew n), (isLocked n);
        try discriminate Hpred; reflexivity.
    - intros Hpred. exists k. split; [|apply String.eqb_refl].
      apply in_map_iff. exists (k, n). split; [reflexivity|].
      apply filter_In. split; [now apply get_In|]. simpl.
      unfold isProtected in Hpred.
      destruct (String.eqb k "/"), (isNew n), (isLocked n);
        try discriminate Hpred; reflexivity. }
  destruct (existsb (String.eqb k) toRemove).
  - now rewrite (proj1 Hiff eq_refl).
  - destruct (String.eqb k "/" || isProtected n); [reflexivity|].
    discriminate (proj2 Hiff eq_refl).
Qed.

Lemma ensureDirectoryFrom_tabs fuel now : forall dir name s,
  openTabs (ensureDirectoryFrom fuel now dir name s) = openTabs s
  /\ activeTab (ensureDirectoryFrom fuel now dir name s) = activeTab s
  /\ events (ensureDirectoryFrom fuel now dir name s) = events s.
Proof.
  induction fuel as [|fuel IH]; intros dir name s; [auto|].
  cbn [ensureDirectoryFrom].
  destruct (String.eqb (normalizePath dir) "/"); [auto|].
  destruct (JsMap.has (normalizePath dir) (fileMap s)); cbn [negb]; [auto|].
  cbn [openTabs activeTab events withFileMap]. apply IH.
Qed.

Lemma processExternalNode_tabs now external : forall parentPath s,
  openTabs (processExternalNode now external parentPath s) = openTabs s
  /\ activeTab (processExternalNode now external parentPath s) = activeTab s
  /\ events (processExternalNode now external parentPath s) = events s.
Proof.
  induction external as [ename etype econtent esize echildren IH]
    using ExternalFileNode_induction.
  intros parentPath s. cbn [processExternalNode].
  set (fullPath := externalPath parentPath ename).
  assert (Hdir : forall s0,
             let s1 :=
               match echildren with
               | Some children =>
                   (fix each (cs : list ExternalFileNode) (st : State) : State :=
                      match cs with
                      | [] => st
                      | child :: rest =>
                          each rest (processExternalNode now child fullPath st)
                      end) children
                     (ensureDirectory now fullPath (Some ename) s0)
               | None => ensureDirectory now fullPath (Some ename) s0
               end in
             openTabs s1 = openTabs s0 /\ activeTab s1 = activeTab s0
             /\ events s1 = events s0).
  { intros s0. cbn zeta.
    pose proof (ensureDirectoryFrom_tabs (S (String.length fullPath)) now
                  fullPath (Some ename) s0) as H1.
    fold (ensureDirectory now fullPath (Some ename) s0) in H1.
    set (s1 := ensureDirectory now fullPath (Some ename) s0) in *.
    clearbody s1.
    destruct echildren as [children|]; [|exact H1].
    specialize (IH children eq_refl). revert s1 H1.
    induction IH as [|c r Hc _ IHr]; intros s1 H1; [exact H1|].
    apply IHr. destruct (Hc fullPath s1) as (A & B & C).
    destruct H1 as (A1 & B1 & C1). repeat split; congruence. }
  destruct (JsMap.get fullPath (fileMap s)) as [e|] eqn:Ge.
  - destruct (isProtected e); [auto|].
    destruct etype; [|apply Hdir].
    destruct econtent as [c|]; [|auto].
    destruct (differs (content e) c); auto.
  - destruct etype; [|apply Hdir].
    unfold createFileNode.
    now rewrite modify_openTabs, modify_activeTab, modify_events.
Qed.

Lemma mergeExternalStructure_tabs now externalStructure s :
  openTabs (mergeExternalStructure now externalStructure s) = openTabs s
  /\ activeTab (mergeExternalStructure now externalStructure s) = activeTab s.
Proof.
  unfold mergeExternalStructure.
  pose proof (fold_delete_tabs
                (JsMap.keys
                   (filter (fun entry =>
                              negb (String.eqb (fst entry) "/")
                              && negb (isNew (snd entry))
                              && negb (isLocked (snd entry)))
                           (fileMap s))) s) as H1.
  cbn zeta in H1. fold (clearNonUserFiles s) in H1.
  set (s1 := clearNonUserFiles s) in *. clearbody s1.
  destruct H1 as (A1 & B1 & _).
  destruct externalStructure as [ename etype econtent esize [children|]];
    cbn [openTabs activeTab emit]; [|auto].
  rewrite <- A1, <- B1. clear A1 B1. revert s1.
  induction children as [|c r IH]; intros s1; [auto|].
  cbn [fold_left]. destruct (IH (processExternalNode now c "/" s1)) as [A B].
  destruct (processExternalNode_tabs now c "/" s1) as (A' & B' & _).
  split; congruence.
Qed.

End MergeSweep.

(** X9.  What a structure merge sweeps and what it leaves.  The sweep
    [clearNonUserFiles] keeps the record under the root key and the new or
    locked records, and drops every other record.  The merge itself never
    writes the open tabs nor the active tab.  So a saved file that the
    snapshot does not list loses its record and keeps its tab: after the
    merge of a snapshot without children, no record is left under its path,
    which is still among the open tabs if it was. *)
Theorem X9_merge_sweeps_records_and_leaves_tabs :
  (forall s k,
      NoDup (JsMap.keys (EnhancedFileSystemManager.fileMap s)) ->
      JsMap.get k (EnhancedFileSystemManager.fileMap
                     (EnhancedFileSystemManager.clearNonUserFiles s))
      = match JsMap.get k (EnhancedFileSystemManager.fileMap s) with
        | Some n =>
            if String.eqb k "/" || EnhancedFileSystemManager.isProtected n
            then Some n else None
        | None => None
        end)
  /\ (forall now externalStructure s,
         EnhancedFileSystemManager.openTabs
           (EnhancedFileSystemManager.mergeExternalStructure
              now externalStructure s)
         = EnhancedFileSystemManager.openTabs s
         /\ EnhancedFileSystemManager.activeTab
              (EnhancedFileSystemManager.mergeExternalStructure
                 now externalStructure s)
            = EnhancedFileSystemManager.activeTab s)
  /\ (forall now ename etype econtent esize s p n,
         NoDup (JsMap.keys (EnhancedFileSystemManager.fileMap s)) ->
         JsMap.get p (EnhancedFileSystemManager.fileMap s) = Some n ->
         p <> "/" ->
         EnhancedFileSystemManager.isProtected n = false ->
         let s' :=
           EnhancedFileSystemManager.mergeExternalStructure now
             (EnhancedFileSystemManager.mkExternal
                ename etype econtent esize None) s in
         JsMap.get p (EnhancedFileSystemManager.fileMap s') = None
         /\ (In p (EnhancedFileSystemManager.openTabs s) ->
             In p (EnhancedFileSystemManager.openTabs s'))).
Proof.
  split; [exact clearNonUserFiles_get|].
  split; [exact mergeExternalStructure_tabs|].
  intros now ename etype econtent esize s p n Hnd G Hp Hprot s'. split.
  - subst s'. unfold EnhancedFileSystemManager.mergeExternalStructure.
    cbn [EnhancedFileSystemManager.fileMap EnhancedFileSystemManager.emit].
    rewrite (clearNonUserFiles_get s p Hnd), G, Hprot.
    apply String.eqb_neq in Hp. now rewrite Hp.
  - subst s'. now rewrite (proj1 (mergeExternalStructure_tabs _ _ _)).
Qed.

(** The open, saved file [/a.txt] and a snapshot that lists nothing. *)
Lemma X9_merge_witness :
  let s :=
    EnhancedFileSystemManager.saveFile 2 "a.txt"
      (EnhancedFileSystemManager.openFile 1 "a.txt"
         (EnhancedFileSystemManager.initial 0)) in
  let s' :=
    EnhancedFileSystemManager.mergeExternalStructure 3
      (EnhancedFileSystemManager.mkExternal
         "root" EnhancedFileSystemManager.Directory None None None) s in
  (JsMap.get "/" (EnhancedFileSystemManager.fileMap
                    (EnhancedFileSystemManager.clearNonUserFiles s))
   = match JsMap.get "/" (EnhancedFileSystemManager.fileMap s) with
     | Some n =>
         if String.eqb "/" "/" || EnhancedFileSystemManager.isProtected n
         then Some n else None
     | None => None
     end)
  /\ JsMap.get "/a.txt" (EnhancedFileSystemManager.fileMap s') = None
  /\ In "/a.txt" (EnhancedFileSystemManager.openTabs s').
Proof.
  intros s s'.
  assert (Hnd : NoDup (JsMap.keys (EnhancedFileSystemManager.fileMap s))).
  { vm_compute. repeat (constructor; [simpl; intuition discriminate|]).
    constructor. }
  split.
  - exact (proj1 X9_merge_sweeps_records_and_leaves_tabs s "/" Hnd).
  - edestruct (proj2 (proj2 X9_merge_sweeps_records_and_leaves_tabs)
                 3%N "root" EnhancedFileSystemManager.Directory None None
                 s "/a.txt") as [Hg Ht];
      [exact Hnd|vm_compute; reflexivity|discriminate|reflexivity|].
    split; [exact Hg|]. apply Ht. vm_compute. now left.
Defined.

(* ================================================================== *)
(** * Creating directories and files *)
(* ================================================================== *)

Section Creation.
Import EnhancedFileSystemManager.

Lemma has_set {V : Type} (m : JsMap.t V) (k k' : string) (v : V) :
  JsMap.has k' (JsMap.set k v m) = String.eqb k k' || JsMap.has k' m.
Proof.
  unfold JsMap.has. destruct (String.eqb k k') eqn:E.
  - apply String.eqb_eq in E. subst k'. now rewrite get_set_same.
  - apply String.eqb_neq in E. now rewrite get_set_other.
Qed.

Lemma joinPath_normalizePath (parent name : string) :
  joinPath (normalizePath parent) name = joinPath parent name.
Proof. unfold joinPath. now rewrite normalizePath_idem. Qed.

(** The name [ensureDirectory] gives a directory it makes. *)
Lemma ensureDirectoryFrom_new fuel now dir name s :
  0 < fuel -> normalizePath dir <> "/" ->
  JsMap.get (normalizePath dir) (fileMap s) = None ->
  JsMap.get (normalizePath dir)
            (fileMap (ensureDirectoryFrom fuel now dir name s))
  = Some (directoryNode now (normalizePath dir)
            (match name with
             | Some n => if String.eqb n "" then getFileName (normalizePath dir)
                         else n
             | None => getFileName (normalizePath dir)
             end)
            (getParentPath (normalizePath dir)) false).
Proof.
  intros Hfuel Hroot Hget. destruct fuel as [|fuel]; [lia|].
  cbn [ensureDirectoryFrom]. apply String.eqb_neq in Hroot. rewrite Hroot.
  apply has_false_get in Hget. rewrite Hget. cbn [negb fileMap withFileMap].
  apply get_set_same.
Qed.

Lemma ensureDirectoryFrom_has fuel now dir name s :
  0 < fuel -> normalizePath dir <> "/" ->
  JsMap.has (normalizePath dir)
            (fileMap (ensureDirectoryFrom fuel now dir name s)) = true.
Proof.
  intros Hfuel Hroot. destruct fuel as [|fuel]; [lia|].
  cbn [ensureDirectoryFrom]. apply String.eqb_neq in Hroot. rewrite Hroot.
  destruct (JsMap.has (normalizePath dir) (fileMap s)) eqn:Hhas;
    cbn [negb]; [exact Hhas|].
  cbn [fileMap withFileMap]. now rewrite has_set, String.eqb_refl.
Qed.

Lemma ensureDirectoryFrom_has_keeps fuel now dir name s k :
  JsMap.has k (fileMap s) = true ->
  JsMap.has k (fileMap (ensureDirectoryFrom fuel now dir name s)) = true.
Proof.
  intros H. apply has_get in H. destruct H as [n Hn]. apply has_get.
  exists n. now apply ensureDirectoryFrom_keeps.
Qed.

(** The directories made are made with their parents. *)
Lemma ensureDirectoryFrom_parents fuel now : forall dir name s,
  String.length (normalizePath dir) <= fuel ->
  JsMap.has "/" (fileMap s) = true -> ParentsPresent s ->
  ParentsPresent (ensureDirectoryFrom fuel now dir name s).
Proof.
  induction fuel as [|fuel IH]; intros dir name s Hlen Hroot Hpp;
    [exact Hpp|].
  cbn [ensureDirectoryFrom]. set (np := normalizePath dir) in *.
  destruct (String.eqb np "/") eqn:Enp; [exact Hpp|].
  destruct (JsMap.has np (fileMap s)) eqn:Hhas; cbn [negb]; [exact Hpp|].
  apply String.eqb_neq in Enp.
  destruct (getParentPath_shorter np (normalizePath_startsWith dir) Enp)
    as [Hstart Hshort].
  set (parentPath := getParentPath np) in *.
  assert (Hnpar : normalizePath parentPath = parentPath)
    by now apply normalizePath_fixed.
  set (s1 := ensureDirectoryFrom fuel now parentPath None s).
  assert (Hpp1 : ParentsPresent s1).
  { apply IH; [rewrite Hnpar; lia|exact Hroot|exact Hpp]. }
  assert (Hpar1 : JsMap.has parentPath (fileMap s1) = true).
  { destruct (String.eqb parentPath "/") eqn:Ep.
    - apply String.eqb_eq in Ep. rewrite Ep.
      now apply ensureDirectoryFrom_has_keeps.
    - rewrite <- Hnpar. apply ensureDirectoryFrom_has.
      + destruct parentPath; [discriminate|]. simpl in Hshort. lia.
      + rewrite Hnpar. now apply String.eqb_neq. }
  intros k. cbn [fileMap withFileMap]. rewrite !has_set.
  destruct (String.eqb np k) eqn:Ek; cbn [orb].
  - apply String.eqb_eq in Ek. subst k. intros _. fold parentPath.
    rewrite Hpar1. apply orb_true_r.
  - intros Hk. rewrite (Hpp1 k Hk). apply orb_true_r.
Qed.

(** The state in which [createFile] and [createDirectory] store the node
    they make: the parent has its record, the old records are there. *)
Lemma ensureDirectory_for_create now parentPath name s :
  isValidFileName name = true ->
  let fullPath := joinPath parentPath name in
  let s1 := ensureDirectory now (normalizePath parentPath) None s in
  normalizePath fullPath = fullPath
  /\ joinPath (normalizePath parentPath) name = fullPath
  /\ (forall k n, JsMap.get k (fileMap s) = Some n ->
                  JsMap.get k (fileMap s1) = Some n)
  /\ openTabs s1 = openTabs s /\ activeTab s1 = activeTab s
  /\ events s1 = events s
  /\ (JsMap.has "/" (fileMap s) = true -> ParentsPresent s ->
      forall node,
        ParentsPresent (withFileMap s1 (JsMap.set fullPath node (fileMap s1)))).
Proof.
  intros Hvalid fullPath s1.
  destruct (isValidFileName_shape name Hvalid) as [Hne Hslash].
  destruct (joinPath_splits parentPath name Hne Hslash) as [_ Hpar].
  fold fullPath in Hpar.
  split; [apply normalizePath_fixed, joinPath_normalized|].
  split; [apply joinPath_normalizePath|].
  split; [intros k n Hk; now apply ensureDirectoryFrom_keeps|].
  split; [apply ensureDirectoryFrom_tabs|].
  split; [apply ensureDirectoryFrom_tabs|].
  split; [apply ensureDirectoryFrom_tabs|].
  intros Hroot Hpp node.
  assert (Hpp1 : ParentsPresent s1).
  { apply ensureDirectoryFrom_parents; [|exact Hroot|exact Hpp].
    rewrite normalizePath_idem. lia. }
  assert (Hpar1 : JsMap.has (normalizePath parentPath) (fileMap s1) = true).
  { destruct (String.eqb (normalizePath parentPath) "/") eqn:Ep.
    - apply String.eqb_eq in Ep. rewrite Ep.
      now apply ensureDirectoryFrom_has_keeps.
    - rewrite <- (normalizePath_idem parentPath) at 1.
      apply ensureDirectoryFrom_has; [lia|].
      rewrite normalizePath_idem. now apply String.eqb_neq. }
  intros k. cbn [fileMap withFileMap]. rewrite !has_set.
  destruct (String.eqb fullPath k) eqn:Ek; cbn [orb].
  - apply String.eqb_eq in Ek. subst k. intros _. rewrite Hpar, Hpar1.
    apply orb_true_r.
  - intros Hk. rewrite (Hpp1 k Hk). apply orb_true_r.
Qed.

Lemma parentsPresent_sound s : parentsPresent s = true -> ParentsPresent s.
Proof.
  unfold parentsPresent, ParentsPresent. rewrite forallb_forall.
  intros H k Hk. apply H. apply has_get in Hk. destruct Hk as [n Hn].
  now apply get_keys in Hn.
Qed.

End Creation.

(** X10.  [ensureDirectory] adds the missing directories of a path and
    touches nothing else.  After the call the normalised path has a record
    unless it is the root; where it had none, the record is a directory
    that is neither new nor locked, named as asked and otherwise after its
    last segment.  Every record there was is unchanged, the tabs and the
    event log are unchanged, and if every record had its parent's record
    beside it, this is still so: the directories are made with all their
    missing ancestors. *)
Theorem X10_ensureDirectory_adds_the_missing_chain :
  forall now dir name s,
    let np := EnhancedFileSystemManager.normalizePath dir in
    let s' := EnhancedFileSystemManager.ensureDirectory now dir name s in
    (np <> "/" ->
     JsMap.has np (EnhancedFileSystemManager.fileMap s') = true)
    /\ (np <> "/" ->
        JsMap.get np (EnhancedFileSystemManager.fileMap s) = None ->
        JsMap.get np (EnhancedFileSystemManager.fileMap s')
        = Some (EnhancedFileSystemManager.directoryNode now np
                  (match name with
                   | Some n =>
                       if String.eqb n ""
                       then EnhancedFileSystemManager.getFileName np else n
                   | None => EnhancedFileSystemManager.getFileName np
                   end)
                  (EnhancedFileSystemManager.getParentPath np) false))
    /\ (forall k n,
           JsMap.get k (EnhancedFileSystemManager.fileMap s) = Some n ->
           JsMap.get k (EnhancedFileSystemManager.fileMap s') = Some n)
    /\ EnhancedFileSystemManager.openTabs s'
       = EnhancedFileSystemManager.openTabs s
    /\ EnhancedFileSystemManager.activeTab s'
       = EnhancedFileSystemManager.activeTab s
    /\ EnhancedFileSystemManager.events s'
       = EnhancedFileSystemManager.events s
    /\ (JsMap.has "/" (EnhancedFileSystemManager.fileMap s) = true ->
        ParentsPresent s -> ParentsPresent s').
Proof.
  intros now dir name s np s'. subst s'.
  unfold EnhancedFileSystemManager.ensureDirectory.
  assert (Hlen : String.length np <= S (String.length dir)).
  { subst np. unfold EnhancedFileSystemManager.normalizePath.
    destruct (String.eqb dir "") eqn:E0;
      [apply String.eqb_eq in E0; subst; simpl; lia|].
    destruct (String.eqb dir "/"); [simpl; lia|].
    destruct (JsString.startsWith dir "/"); simpl; lia. }
  split; [|split; [|split; [|split; [|split; [|split]]]]].
  - intros Hroot. apply ensureDirectoryFrom_has; [lia|exact Hroot].
  - intros Hroot Hget. apply ensureDirectoryFrom_new; [lia|exact Hroot|exact Hget].
  - intros k n Hk. now apply ensureDirectoryFrom_keeps.
  - apply ensureDirectoryFrom_tabs.
  - apply ensureDirectoryFrom_tabs.
  - apply ensureDirectoryFrom_tabs.
  - intros Hroot Hpp. now apply ensureDirectoryFrom_parents.
Qed.

(** The chain of [a/b/c] in a new manager. *)
Lemma X10_ensureDirectory_witness :
  let s := EnhancedFileSystemManager.initial 0 in
  let s' := EnhancedFileSystemManager.ensureDirectory 1 "a/b/c" None s in
  JsMap.has "/a/b/c" (EnhancedFileSystemManager.fileMap s') = true
  /\ ParentsPresent s'.
Proof.
  intros s s'.
  destruct (X10_ensureDirectory_adds_the_missing_chain 1 "a/b/c" None s)
    as (Hhas & _ & _ & _ & _ & _ & Hpp).
  split.
  - apply Hhas. discriminate.
  - apply Hpp; [reflexivity|]. apply parentsPresent_sound. reflexivity.
Defined.

(** X11.  What a successful [createFile] or [createDirectory] does.  For
    a valid name whose joined path is free, the call returns the joined
    path and stores under it a record with the name and the normalised
    parent path given: for a file a new, locked and dirty record holding
    the content as its one snapshot, for a directory a new record that is
    neither locked nor dirty.  Every record there was is unchanged, the
    tabs are unchanged (a created file is not opened), one event is
    appended, and if every record had its parent's record beside it, this
    is still so. *)
Theorem X11_create_postcondition :
  (forall now parentPath name content s,
      JsMap.has (EnhancedFileSystemManager.joinPath parentPath name)
                (EnhancedFileSystemManager.fileMap s) = false ->
      EnhancedFileSystemManager.isValidFileName name = true ->
      let fullPath := EnhancedFileSystemManager.joinPath parentPath name in
      exists s',
        EnhancedFileSystemManager.createFile now parentPath name content s
        = EnhancedFileSystemManager.Ok fullPath s'
        /\ JsMap.get fullPath (EnhancedFileSystemManager.fileMap s')
           = Some {| EnhancedFileSystemManager.path := fullPath;
                     EnhancedFileSystemManager.name := name;
                     EnhancedFileSystemManager.type
                     := EnhancedFileSystemManager.File;
                     EnhancedFileSystemManager.content := Some content;
                     EnhancedFileSystemManager.size
                     := Some (JsString.blobSize content);
                     EnhancedFileSystemManager.lastModified := now;
                     EnhancedFileSystemManager.parent
                     := Some (EnhancedFileSystemManager.normalizePath
                                parentPath);
                     EnhancedFileSystemManager.isDirty := true;
                     EnhancedFileSystemManager.isNew := true;
                     EnhancedFileSystemManager.isLocked := true;
                     EnhancedFileSystemManager.isOpen := false;
                     EnhancedFileSystemManager.isActive := false;
                     EnhancedFileSystemManager.history := Some [content];
                     EnhancedFileSystemManager.historyIndex := Some 0%Z |}
        /\ (forall k n,
               JsMap.get k (EnhancedFileSystemManager.fileMap s) = Some n ->
               JsMap.get k (EnhancedFileSystemManager.fileMap s') = Some n)
        /\ EnhancedFileSystemManager.openTabs s'
           = EnhancedFileSystemManager.openTabs s
        /\ EnhancedFileSystemManager.activeTab s'
           = EnhancedFileSystemManager.activeTab s
        /\ EnhancedFileSystemManager.events s'
           = (EnhancedFileSystemManager.events s
              ++ [EnhancedFileSystemManager.fileCreated fullPath])%list
        /\ (JsMap.has "/" (EnhancedFileSystemManager.fileMap s) = true ->
            ParentsPresent s -> ParentsPresent s'))
  /\ (forall now parentPath name s,
         JsMap.has (EnhancedFileSystemManager.joinPath parentPath name)
                   (EnhancedFileSystemManager.fileMap s) = false ->
         EnhancedFileSystemManager.isValidFileName name = true ->
         let fullPath := EnhancedFileSystemManager.joinPath parentPath name in
         exists s',
           EnhancedFileSystemManager.createDirectory now parentPath name s
           = EnhancedFileSystemManager.Ok fullPath s'
           /\ JsMap.get fullPath (EnhancedFileSystemManager.fileMap s')
              = Some (EnhancedFileSystemManager.directoryNode now fullPath name
                        (EnhancedFileSystemManager.normalizePath parentPath)
                        true)
           /\ (forall k n,
                  JsMap.get k (EnhancedFileSystemManager.fileMap s) = Some n ->
                  JsMap.get k (EnhancedFileSystemManager.fileMap s') = Some n)
           /\ EnhancedFileSystemManager.openTabs s'
              = EnhancedFileSystemManager.openTabs s
           /\ EnhancedFileSystemManager.activeTab s'
              = EnhancedFileSystemManager.activeTab s
           /\ EnhancedFileSystemManager.events s'
              = (EnhancedFileSystemManager.events s
                 ++ [EnhancedFileSystemManager.directoryCreated fullPath])%list
           /\ (JsMap.has "/" (EnhancedFileSystemManager.fileMap s) = true ->
               ParentsPresent s -> ParentsPresent s')).
Proof.
  split.
  - intros now parentPath name content s Hfree Hvalid fullPath.
    subst fullPath.
    pose proof (ensureDirectory_for_create now parentPath name s Hvalid) as H.
    cbn zeta in H.
    destruct H as (Hnorm & Hjoin & Hkeep & Htabs & Hact & Hev & Hpp).
    unfold EnhancedFileSystemManager.createFile.
    rewrite Hjoin, Hfree, Hvalid. cbn [negb].
    unfold EnhancedFileSystemManager.createFileNode.
    rewrite Hnorm, normalizePath_idem.
    set (s1 := EnhancedFileSystemManager.ensureDirectory now
                 (EnhancedFileSystemManager.normalizePath parentPath) None s)
      in *.
    eexists. split; [reflexivity|].
    cbn [EnhancedFileSystemManager.fileMap EnhancedFileSystemManager.openTabs
         EnhancedFileSystemManager.activeTab EnhancedFileSystemManager.events
         EnhancedFileSystemManager.emit EnhancedFileSystemManager.withFileMap].
    split; [apply get_set_same|].
    split.
    { intros k n Hk. rewrite get_set_other; [now apply Hkeep|].
      intros E. apply has_false_get in Hfree. congruence. }
    split; [exact Htabs|]. split; [exact Hact|].
    split; [now rewrite Hev|].
    intros Hroot Hp k. apply (Hpp Hroot Hp).
  - intros now parentPath name s Hfree Hvalid fullPath.
    subst fullPath.
    pose proof (ensureDirectory_for_create now parentPath name s Hvalid) as H.
    cbn zeta in H.
    destruct H as (Hnorm & Hjoin & Hkeep & Htabs & Hact & Hev & Hpp).
    unfold EnhancedFileSystemManager.createDirectory.
    rewrite Hjoin, Hfree, Hvalid. cbn [negb].
    set (s1 := EnhancedFileSystemManager.ensureDirectory now
                 (EnhancedFileSystemManager.normalizePath parentPath) None s)
      in *.
    eexists. split; [reflexivity|].
    cbn [EnhancedFileSystemManager.fileMap EnhancedFileSystemManager.openTabs
         EnhancedFileSystemManager.activeTab EnhancedFileSystemManager.events
         EnhancedFileSystemManager.emit EnhancedFileSystemManager.withFileMap].
    split; [apply get_set_same|].
    split.
    { intros k n Hk. rewrite get_set_other; [now apply Hkeep|].
      intros E. apply has_false_get in Hfree. congruence. }
    split; [exact Htabs|]. split; [exact Hact|].
    split; [now rewrite Hev|].
    intros Hroot Hp k. apply (Hpp Hroot Hp).
Qed.

(** A file and a directory made deep in a new manager. *)
Lemma X11_create_witness :
  (exists s',
      EnhancedFileSystemManager.createFile 1 "docs/img" "a.png" "data"
        (EnhancedFileSystemManager.initial 0)
      = EnhancedFileSystemManager.Ok "/docs/img/a.png" s'
      /\ EnhancedFileSystemManager.openTabs s' = []
      /\ ParentsPresent s')
  /\ (exists s',
         EnhancedFileSystemManager.createDirectory 1 "docs" "img"
           (EnhancedFileSystemManager.initial 0)
         = EnhancedFileSystemManager.Ok "/docs/img" s'
         /\ ParentsPresent s').
Proof.
  split.
  - destruct (proj1 X11_create_postcondition 1%N "docs/img" "a.png" "data"
                (EnhancedFileSystemManager.initial 0) eq_refl eq_refl)
      as (s' & Hc & _ & _ & Ht & _ & _ & Hpp).
    exists s'. split; [exact Hc|]. split; [exact Ht|].
    apply Hpp; [reflexivity|]. apply parentsPresent_sound. reflexivity.
  - destruct (proj2 X11_create_postcondition 1%N "docs" "img"
                (EnhancedFileSystemManager.initial 0) eq_refl eq_refl)
      as (s' & Hc & _ & _ & _ & _ & _ & Hpp).
    exists s'. split; [exact Hc|].
    apply Hpp; [reflexivity|]. apply parentsPresent_sound. reflexivity.
Defined.

(* ================================================================== *)
(** * Renaming a file *)
(* ================================================================== *)

Section Rename.
Import EnhancedFileSystemManager.

Lemma keys_delete_In {V : Type} (m : JsMap.t V) (k k' : string) :
  In k' (JsMap.keys (JsMap.delete k m)) <-> k' <> k /\ In k' (JsMap.keys m).
Proof.
  unfold JsMap.keys, JsMap.delete. rewrite !in_map_iff. split.
  - intros ([q v] & Hq & Hin). simpl in Hq. subst q.
    apply filter_In in Hin. destruct Hin as [Hin Hne]. simpl in Hne.
    split.
    + intros ->. now rewrite String.eqb_refl in Hne.
    + exists (k', v). auto.
  - intros [Hne ([q v] & Hq & Hin)]. simpl in Hq. subst q.
    exists (k', v). split; [reflexivity|]. apply filter_In.
    split; [exact Hin|]. simpl. apply String.eqb_neq in Hne. now rewrite Hne.
Qed.

Lemma keys_delete_NoDup {V : Type} (m : JsMap.t V) (k : string) :
  NoDup (JsMap.keys m) -> NoDup (JsMap.keys (JsMap.delete k m)).
Proof.
  induction m as [|[k0 v0] r IH]; simpl; intros Hnd; [constructor|].
  inversion Hnd as [|? ? Hnotin Hnd']; subst.
  destruct (String.eqb k0 k); simpl; [now apply IH|].
  constructor; [|now apply IH].
  intros Hin. apply (keys_delete_In r k k0) in Hin. tauto.
Qed.

(** The tab list after [openTabs[tabIndex] = newPath], for tabs without
    duplicates. *)
Lemma setAt_indexOf (x y : string) (l : list string) :
  NoDup l ->
  match JsArray.indexOf x l with
  | Some i => JsArray.setAt i y l
  | None => l
  end = map (fun t => if String.eqb t x then y else t) l.
Proof.
  induction l as [|z r IH]; intros Hnd; [reflexivity|].
  inversion Hnd as [|? ? Hnotin Hnd']; subst. simpl.
  destruct (String.eqb z x) eqn:E.
  - apply String.eqb_eq in E. subst z. simpl. f_equal.
    clear IH Hnd Hnd'. induction r as [|w r IH]; [reflexivity|]. simpl.
    destruct (String.eqb w x) eqn:Ew.
    + apply String.eqb_eq in Ew. subst w. exfalso. apply Hnotin. now left.
    + f_equal. apply IH. intros H. apply Hnotin. now right.
  - specialize (IH Hnd').
    destruct (JsArray.indexOf x r) as [i|]; simpl; now rewrite <- IH.
Qed.

Lemma NoDup_map_replace (x y : string) (l : list string) :
  NoDup l -> ~ In y l ->
  NoDup (map (fun t => if String.eqb t x then y else t) l).
Proof.
  induction l as [|z r IH]; intros Hnd Hy; [constructor|].
  inversion Hnd as [|? ? Hnotin Hnd']; subst. simpl.
  assert (Hyr : ~ In y r) by (intros H; apply Hy; now right).
  constructor; [|now apply IH].
  rewrite in_map_iff. intros (w & Hw & Hin).
  destruct (String.eqb z x) eqn:Ez, (String.eqb w x) eqn:Ew.
  - apply String.eqb_eq in Ez, Ew. subst. contradiction.
  - subst w. contradiction.
  - subst z. apply Hy. now left.
  - subst w. contradiction.
Qed.

Lemma renameTarget_normalized node newName :
  normalizePath (renameTarget node newName) = renameTarget node newName.
Proof. apply normalizePath_fixed, joinPath_normalized. Qed.

(** The state [renameNode] leaves for a file. *)
Lemma renameNode_file fuel now p newName s node :
  TabInv s -> getNode p s = Some node -> type node = File ->
  isValidFileName newName = true ->
  JsMap.has (renameTarget node newName) (fileMap s) = false ->
  let np := normalizePath p in
  let newPath := renameTarget node newName in
  let replace := fun t => if String.eqb t np then newPath else t in
  exists s',
    renameNode fuel now p newName s = Some (Ok newPath s')
    /\ JsMap.get newPath (fileMap s')
       = Some (setLastModified (setName (setPath node newPath) newName) now)
    /\ JsMap.get np (fileMap s') = None
    /\ (forall k, k <> np -> k <> newPath ->
                  JsMap.get k (fileMap s') = JsMap.get k (fileMap s))
    /\ openTabs s' = map replace (openTabs s)
    /\ activeTab s' = option_map replace (activeTab s)
    /\ events s' = (events s ++ [nodeRenamed np newPath])%list
    /\ TabInv s'.
Proof.
  intros Hinv Hget Hty Hvalid Hfree np newPath replace.
  destruct Hinv as ((Hnd & Hpath) & (Htnd & Htabs) & Hactive).
  unfold getNode in Hget. fold np in Hget.
  assert (Hne : np <> newPath).
  { intros E. apply has_false_get in Hfree. fold newPath in Hfree.
    congruence. }
  assert (Hnotin : ~ In newPath (openTabs s)).
  { intros Hin. destruct (Htabs _ Hin) as (_ & n & Hn & _).
    apply has_false_get in Hfree. fold newPath in Hfree. congruence. }
  set (node' := setLastModified (setName (setPath node newPath) newName) now).
  set (m' := JsMap.set newPath node' (JsMap.delete np (fileMap s))).
  set (tabs' := match JsArray.indexOf np (openTabs s) with
                | Some i => JsArray.setAt i newPath (openTabs s)
                | None => openTabs s
                end).
  assert (Htabs' : tabs' = map replace (openTabs s))
    by (apply setAt_indexOf; exact Htnd).
  exists {| fileMap := m'; openTabs := tabs';
            activeTab := option_map replace (activeTab s);
            events := (events s ++ [nodeRenamed np newPath])%list |}.
  assert (Hm_new : JsMap.get newPath m' = Some node')
    by apply get_set_same.
  assert (Hm_old : JsMap.get np m' = None).
  { subst m'. rewrite get_set_other by congruence. apply get_delete_same. }
  assert (Hm_other : forall k, k <> np -> k <> newPath ->
                               JsMap.get k m' = JsMap.get k (fileMap s)).
  { intros k H1 H2. subst m'. rewrite get_set_other by congruence.
    now rewrite get_delete_other by congruence. }
  split.
  { unfold renameNode. fold np. rewrite Hget, Hvalid. cbn [negb].
    rewrite Hfree, Hty. fold newPath. fold node'. fold m'.
    cbn [openTabs activeTab withFileMap withOpenTabs]. f_equal. f_equal.
    subst tabs'. unfold replace.
    destruct (JsArray.indexOf np (openTabs s));
      destruct (activeTab s) as [a|] eqn:Ea;
      cbn [activeTab openTabs fileMap events emit withActiveTab withOpenTabs
           withFileMap option_map];
      rewrite ?Ea; try destruct (String.eqb a np);
      unfold emit, withActiveTab, withOpenTabs, withFileMap;
      cbn [activeTab openTabs fileMap events option_map];
      rewrite ?Ea; reflexivity. }
  cbn [fileMap openTabs activeTab events].
  split; [exact Hm_new|]. split; [exact Hm_old|]. split; [exact Hm_other|].
  split; [exact Htabs'|]. split; [reflexivity|]. split; [reflexivity|].
  unfold TabInv, MapInv, TabsInv, ActiveInv.
  cbn [fileMap openTabs activeTab].
  split; [split|split; [split|]].
  - subst m'. apply keys_set_NoDup, keys_delete_NoDup, Hnd.
  - intros k n Hk. destruct (string_dec k newPath) as [->|Hk1].
    + rewrite Hm_new in Hk. injection Hk as <-. reflexivity.
    + destruct (string_dec k np) as [->|Hk2]; [congruence|].
      rewrite Hm_other in Hk by assumption. now apply Hpath.
  - rewrite Htabs'. now apply NoDup_map_replace.
  - intros t Hin. rewrite Htabs' in Hin. apply in_map_iff in Hin.
    destruct Hin as (t0 & Ht0 & Hin0). unfold replace in Ht0.
    destruct (Htabs _ Hin0) as (Hnorm0 & n0 & Hn0 & Hopen0).
    destruct (String.eqb t0 np) eqn:E0.
    + apply String.eqb_eq in E0. subst t0 t. split.
      * apply renameTarget_normalized.
      * exists node'. split; [exact Hm_new|].
        assert (n0 = node) by congruence. subst n0. exact Hopen0.
    + subst t0. apply String.eqb_neq in E0. split; [exact Hnorm0|].
      exists n0. split; [|exact Hopen0].
      rewrite Hm_other; [exact Hn0|exact E0|]. intros ->. contradiction.
  - intros k n Hk Hact. destruct (string_dec k newPath) as [->|Hk1].
    + rewrite Hm_new in Hk. injection Hk as <-.
      destruct (Hactive np node Hget Hact) as [Ha Hin].
      rewrite Ha. cbn [option_map]. unfold replace at 1.
      rewrite String.eqb_refl. split; [reflexivity|].
      rewrite Htabs'. apply in_map_iff. exists np. split; [|exact Hin].
      unfold replace. now rewrite String.eqb_refl.
    + destruct (string_dec k np) as [->|Hk2]; [congruence|].
      rewrite Hm_other in Hk by assumption.
      destruct (Hactive k n Hk Hact) as [Ha Hin].
      rewrite Ha. cbn [option_map]. unfold replace at 1.
      apply String.eqb_neq in Hk2. rewrite Hk2. split; [reflexivity|].
      rewrite Htabs'. apply in_map_iff. exists k. split; [|exact Hin].
      unfold replace. now rewrite Hk2.
Qed.

End Rename.

(** X12.  Renaming a file moves its record and its tab.  For a file, a
    valid new name and a free target path, [renameNode] returns the target
    path; the record is under it with the new path, the new name and the
    time of the call, and with its content, history and flags as they
    were; no record is left under the old path and every other record is
    untouched; in the open tabs and in the active tab the old path is
    replaced by the new one, so that the tabs stay consistent with the
    records. *)
Theorem X12_rename_moves_the_record_and_the_tab :
  forall fuel now p newName s node,
    TabInv s ->
    EnhancedFileSystemManager.getNode p s = Some node ->
    EnhancedFileSystemManager.type node = EnhancedFileSystemManager.File ->
    EnhancedFileSystemManager.isValidFileName newName = true ->
    JsMap.has (EnhancedFileSystemManager.renameTarget node newName)
              (EnhancedFileSystemManager.fileMap s) = false ->
    let np := EnhancedFileSystemManager.normalizePath p in
    let newPath := EnhancedFileSystemManager.renameTarget node newName in
    let replace := fun t => if String.eqb t np then newPath else t in
    exists s',
      EnhancedFileSystemManager.renameNode fuel now p newName s
      = Some (EnhancedFileSystemManager.Ok newPath s')
      /\ JsMap.get newPath (EnhancedFileSystemManager.fileMap s')
         = Some (EnhancedFileSystemManager.setLastModified
                   (EnhancedFileSystemManager.setName
                      (EnhancedFileSystemManager.setPath node newPath)
                      newName) now)
      /\ JsMap.get np (EnhancedFileSystemManager.fileMap s') = None
      /\ (forall k, k <> np -> k <> newPath ->
                    JsMap.get k (EnhancedFileSystemManager.fileMap s')
                    = JsMap.get k (EnhancedFileSystemManager.fileMap s))
      /\ EnhancedFileSystemManager.openTabs s'
         = map replace (EnhancedFileSystemManager.openTabs s)
      /\ EnhancedFileSystemManager.activeTab s'
         = option_map replace (EnhancedFileSystemManager.activeTab s)
      /\ EnhancedFileSystemManager.events s'
         = (EnhancedFileSystemManager.events s
            ++ [EnhancedFileSystemManager.nodeRenamed np newPath])%list
      /\ TabInv s'.
Proof. exact renameNode_file. Qed.

(** The open file [/a.txt] becomes [/b.txt]. *)
Lemma X12_rename_witness :
  let s :=
    EnhancedFileSystemManager.runTabCalls
      [EnhancedFileSystemManager.CallOpen 1 "a.txt";
       EnhancedFileSystemManager.CallOpen 2 "c.txt"]
      (EnhancedFileSystemManager.initial 0) in
  exists s',
    EnhancedFileSystemManager.renameNode 0 3 "a.txt" "b.txt" s
    = Some (EnhancedFileSystemManager.Ok "/b.txt" s')
    /\ EnhancedFileSystemManager.openTabs s' = ["/b.txt"; "/c.txt"]
    /\ TabInv s'.
Proof.
  intros s.
  edestruct (X12_rename_moves_the_record_and_the_tab 0 3 "a.txt" "b.txt" s)
    as (s' & Hr & _ & _ & _ & Ht & _ & _ & Hinv);
    [apply runTabCalls_TabInv, initial_TabInv|vm_compute; reflexivity
    |reflexivity|reflexivity|reflexivity|].
  exists s'. split; [exact Hr|]. split; [exact Ht|exact Hinv].
Defined.

(* ================================================================== *)
(** * The flat manager: tabs, cache and notifications *)
(* ================================================================== *)

Section FlatInvariant.
Import FileSystemManager.

Lemma has_set_keeps {V : Type} (m : JsMap.t V) (k k' : string) (v : V) :
  JsMap.has k' m = true -> JsMap.has k' (JsMap.set k v m) = true.
Proof. intros H. rewrite has_set, H. apply orb_true_r. Qed.

Lemma FlatInv_notify s : FlatInv s -> FlatInv (notify s).
Proof.
  unfold FlatInv. now rewrite notify_openTabs, notify_activeTab, notify_files.
Qed.

Lemma FlatInv_files s m :
  (forall k, JsMap.has k (files s) = true -> JsMap.has k m = true) ->
  FlatInv s -> FlatInv (withFiles s m).
Proof.
  intros Hm (Hnd & Htabs & Hact). unfold FlatInv.
  cbn [files openTabs activeTab withFiles].
  split; [exact Hnd|]. split.
  - intros t Hin. destruct (Htabs t Hin). auto.
  - intros a Ha. auto.
Qed.

Lemma FlatInv_set s k f :
  FlatInv s -> FlatInv (withFiles s (JsMap.set k f (files s))).
Proof.
  apply FlatInv_files. intros k' H. now apply has_set_keeps.
Qed.

Lemma openFile_FlatInv now raw c fileType metaData s :
  FlatInv s -> FlatInv (openFile now raw c fileType metaData s).
Proof.
  intros Hinv. unfold openFile. apply FlatInv_notify.
  destruct (JsMap.get (normalizeFilename raw) (files s)) as [f|] eqn:G;
    [now apply FlatInv_set|].
  match goal with
  | |- FlatInv (if ?b then _ else _) => destruct b eqn:E
  end; [|now apply FlatInv_set].
  apply andb_true_iff in E. destruct E as [Hspecial Hinc].
  apply negb_true_iff in Hspecial, Hinc.
  match goal with
  | |- FlatInv (withOpenTabs ?x _) =>
      assert (Hx : FlatInv x) by now apply FlatInv_set
  end.
  destruct Hx as (Hnd & Htabs & Hact). unfold FlatInv.
  cbn [files openTabs activeTab withFiles withOpenTabs] in *.
  split; [|split; [|exact Hact]].
  - apply NoDup_app; [exact Hnd|constructor; [intros []|constructor]|].
    intros t Hin [<-|[]]. apply includes_In in Hin. congruence.
  - intros t Hin. apply in_app_or in Hin. destruct Hin as [Hin|[<-|[]]];
      [now apply Htabs|].
    split; [now rewrite has_set, String.eqb_refl|exact Hspecial].
Qed.

Lemma closeFile_FlatInv raw s : FlatInv s -> FlatInv (snd (closeFile raw s)).
Proof.
  intros Hinv. unfold closeFile.
  destruct (JsArray.indexOf (normalizeFilename raw) (openTabs s))
    as [index|] eqn:E; [|exact Hinv].
  cbn [snd]. apply FlatInv_notify.
  destruct Hinv as (Hnd & Htabs & Hact).
  set (tabs := JsArray.removeAt index (openTabs s)).
  assert (Hsub : forall t, In t tabs -> In t (openTabs s))
    by (intros t; apply removeAt_In).
  assert (H1 : FlatInv (withOpenTabs s tabs)).
  { unfold FlatInv. cbn [files openTabs activeTab withOpenTabs].
    split; [now apply removeAt_NoDup|]. split; [|exact Hact].
    intros t Hin. apply Htabs, Hsub, Hin. }
  cbn [activeTab withOpenTabs].
  destruct (match activeTab s with
            | Some a => String.eqb a (normalizeFilename raw)
            | None => false
            end); [|exact H1].
  destruct H1 as (Hnd1 & Htabs1 & _).
  destruct (0 <? length tabs); unfold FlatInv;
    cbn [files openTabs activeTab withOpenTabs withActiveTab] in *.
  - split; [exact Hnd1|]. split; [exact Htabs1|].
    intros a Ha. apply nth_error_In in Ha. now apply Htabs1.
  - split; [exact Hnd1|]. split; [exact Htabs1|]. discriminate.
Qed.

Lemma runCall_FlatInv c s : FlatInv s -> FlatInv (runCall c s).
Proof.
  intros Hinv. destruct c; cbn [runCall].
  - now apply openFile_FlatInv.
  - now apply closeFile_FlatInv.
  - unfold setActiveTab.
    destruct (JsMap.get (normalizeFilename rawFilename) (files s)) as [f|] eqn:G;
      [|exact Hinv].
    apply FlatInv_notify. destruct Hinv as (Hnd & Htabs & Hact).
    unfold FlatInv. cbn [files openTabs activeTab withActiveTab].
    split; [exact Hnd|]. split; [exact Htabs|].
    intros a Ha. injection Ha as <-. apply has_get. eauto.
  - unfold updateFileContent.
    destruct (JsMap.get (normalizeFilename rawFilename) (files s));
      [|exact Hinv].
    now apply FlatInv_notify, FlatInv_set.
  - unfold saveFile.
    destruct (JsMap.get (normalizeFilename rawFilename) (files s));
      [|exact Hinv].
    cbn [snd]. now apply FlatInv_notify, FlatInv_set.
  - unfold revertFile.
    destruct (JsMap.get (normalizeFilename rawFilename) (files s)) as [f|];
      [|exact Hinv].
    destruct (isEditable f) as [[|]|]; try exact Hinv.
    cbn [snd].
    match goal with
    | |- FlatInv (forceNotify ?x) =>
        assert (Hx : FlatInv x) by now apply FlatInv_set
    end.
    exact Hx.
  - exact Hinv.
  - now apply FlatInv_notify.
  - exact Hinv.
  - unfold clearCache. apply FlatInv_notify. unfold FlatInv.
    cbn [files openTabs activeTab withFiles withOpenTabs withActiveTab].
    split; [constructor|]. split; [intros t []|discriminate].
Qed.

Lemma runCalls_FlatInv cs : forall s, FlatInv s -> FlatInv (runCalls cs s).
Proof.
  induction cs as [|c r IH]; intros s Hinv; [exact Hinv|].
  unfold runCalls. cbn [fold_left]. apply IH. now apply runCall_FlatInv.
Qed.

Lemma initial_FlatInv : FlatInv initial.
Proof.
  unfold FlatInv. cbn. split; [constructor|].
  split; [intros t []|discriminate].
Qed.

Lemma getOpenTabs_length s :
  (forall t, In t (openTabs s) -> JsMap.has t (files s) = true) ->
  length (getOpenTabs s) = length (openTabs s).
Proof.
  unfold getOpenTabs. induction (openTabs s) as [|t r IH]; intros H;
    [reflexivity|].
  cbn [map]. assert (Ht : JsMap.has t (files s) = true) by (apply H; now left).
  apply has_get in Ht. destruct Ht as [f Hf]. rewrite Hf.
  cbn [JsArray.compact length]. f_equal. apply IH.
  intros t' Hin. apply H. now right.
Qed.

End FlatInvariant.

(** X13.  The tabs of the flat manager, after any sequence of calls of its
    interface on a new manager: the open tabs are distinct, each is the
    name of a cached file, none is a special file ([*.jsonsearch],
    [Web.html]), and the active tab is the name of a cached file.  So
    [getOpenTabs] drops no tab, and [getActiveFile] gives a file whenever
    the active tab is a name other than the empty one. *)
Theorem X13_flat_tabs_invariant :
  forall calls,
    let s := FileSystemManager.runCalls calls FileSystemManager.initial in
    FlatInv s
    /\ length (FileSystemManager.getOpenTabs s)
       = length (FileSystemManager.openTabs s)
    /\ (forall a,
           FileSystemManager.activeTab s = Some a -> a <> "" ->
           exists f, FileSystemManager.getActiveFile s = Some f).
Proof.
  intros calls s.
  assert (Hinv : FlatInv s) by apply runCalls_FlatInv, initial_FlatInv.
  split; [exact Hinv|]. destruct Hinv as (Hnd & Htabs & Hact). split.
  - apply getOpenTabs_length. intros t Hin. now apply Htabs.
  - intros a Ha Hne. unfold FileSystemManager.getActiveFile. rewrite Ha.
    apply String.eqb_neq in Hne. rewrite Hne.
    apply has_get. now apply Hact.
Qed.

Section SilentMode.
Import FileSystemManager.

Lemma flatData_notify s : flatData (notify s) = flatData s.
Proof.
  unfold flatData. now rewrite notify_files, notify_openTabs, notify_activeTab.
Qed.

Lemma notify_silent s :
  silentMode s = true -> notifications (notify s) = notifications s.
Proof. intros H. unfold notify. now rewrite H. Qed.

Lemma runCall_flatData_silent c b s :
  flatData (runCall c (setSilentMode b s)) = flatData (runCall c s).
Proof.
  destruct c; cbn [runCall].
  - unfold openFile. rewrite !flatData_notify.
    cbn [files openTabs setSilentMode].
    destruct (JsMap.get (normalizeFilename rawFilename) (files s));
      [reflexivity|].
    cbn [files openTabs withFiles setSilentMode].
    repeat match goal with
           | |- context [if negb ?a && negb ?b then _ else _] =>
               destruct (negb a && negb b)
           end; reflexivity.
  - unfold closeFile. cbn [openTabs setSilentMode].
    destruct (JsArray.indexOf (normalizeFilename rawFilename) (openTabs s));
      [|reflexivity].
    cbn [snd]. rewrite !flatData_notify.
    cbn [activeTab withOpenTabs setSilentMode].
    destruct (match activeTab s with
              | Some a => String.eqb a (normalizeFilename rawFilename)
              | None => false
              end); [|reflexivity].
    repeat match goal with
           | |- context [if 0 <? ?n then _ else _] => destruct (0 <? n)
           end; reflexivity.
  - unfold setActiveTab. cbn [files setSilentMode].
    destruct (JsMap.get (normalizeFilename rawFilename) (files s));
      [|reflexivity].
    now rewrite !flatData_notify.
  - unfold updateFileContent. cbn [files setSilentMode].
    destruct (JsMap.get (normalizeFilename rawFilename) (files s));
      [|reflexivity].
    now rewrite !flatData_notify.
  - unfold saveFile. cbn [files setSilentMode].
    destruct (JsMap.get (normalizeFilename rawFilename) (files s));
      [|reflexivity].
    cbn [snd]. now rewrite !flatData_notify.
  - unfold revertFile. cbn [files setSilentMode].
    destruct (JsMap.get (normalizeFilename rawFilename) (files s)) as [f|];
      [|reflexivity].
    destruct (isEditable f) as [[|]|]; reflexivity.
  - reflexivity.
  - now rewrite !flatData_notify.
  - reflexivity.
  - unfold clearCache. now rewrite !flatData_notify.
Qed.

Lemma runCall_silent c s :
  silentMode s = true ->
  (forall raw, c <> CallRevertFile raw) -> c <> CallForceNotify ->
  notifications (runCall c s) = notifications s.
Proof.
  intros Hs Hrev Hforce. destruct c; cbn [runCall].
  - unfold openFile. rewrite notify_silent.
    + destruct (JsMap.get (normalizeFilename rawFilename) (files s));
        [reflexivity|].
      match goal with
      | |- context [if negb ?a && negb ?b then _ else _] =>
          destruct (negb a && negb b); reflexivity
      end.
    + destruct (JsMap.get (normalizeFilename rawFilename) (files s));
        [exact Hs|].
      match goal with
      | |- context [if negb ?a && negb ?b then _ else _] =>
          destruct (negb a && negb b); exact Hs
      end.
  - unfold closeFile.
    destruct (JsArray.indexOf (normalizeFilename rawFilename) (openTabs s));
      [|reflexivity].
    cbn [snd]. cbn [activeTab withOpenTabs].
    destruct (match activeTab s with
              | Some a => String.eqb a (normalizeFilename rawFilename)
              | None => false
              end);
      [match goal with
       | |- context [if 0 <? ?n then _ else _] => destruct (0 <? n)
       end|];
      (rewrite notify_silent; [reflexivity|exact Hs]).
  - unfold setActiveTab.
    destruct (JsMap.get (normalizeFilename rawFilename) (files s));
      [|reflexivity].
    now rewrite notify_silent.
  - unfold updateFileContent.
    destruct (JsMap.get (normalizeFilename rawFilename) (files s));
      [|reflexivity].
    now rewrite notify_silent.
  - unfold saveFile.
    destruct (JsMap.get (normalizeFilename rawFilename) (files s));
      [|reflexivity].
    cbn [snd]. now rewrite notify_silent.
  - now elim (Hrev rawFilename).
  - reflexivity.
  - now apply notify_silent.
  - now elim Hforce.
  - unfold clearCache. now rewrite notify_silent.
Qed.

End SilentMode.

(** X14.  Silent mode silences and does nothing else.  The silent flag
    has no influence on what a call does to the cached files, the open
    tabs and the active tab.  While the flag is set, no call reaches the
    listeners but [forceNotify] and [revertFile]: a successful
    [revertFile] notifies them whatever the flag. *)
Theorem X14_silent_mode_only_silences :
  (forall c b s,
      flatData (FileSystemManager.runCall c
                  (FileSystemManager.setSilentMode b s))
      = flatData (FileSystemManager.runCall c s))
  /\ (forall c s,
         FileSystemManager.silentMode s = true ->
         (forall raw, c <> FileSystemManager.CallRevertFile raw) ->
         c <> FileSystemManager.CallForceNotify ->
         FileSystemManager.notifications (FileSystemManager.runCall c s)
         = FileSystemManager.notifications s)
  /\ (forall raw s,
         fst (FileSystemManager.revertFile raw s) = true ->
         FileSystemManager.notifications
           (snd (FileSystemManager.revertFile raw s))
         = S (FileSystemManager.notifications s)).
Proof.
  split; [exact runCall_flatData_silent|].
  split; [exact runCall_silent|].
  intros raw s. unfold FileSystemManager.revertFile.
  destruct (JsMap.get (normalizeFilename raw) (FileSystemManager.files s))
    as [f|]; [|discriminate].
  destruct (FileSystemManager.isEditable f) as [[|]|]; try discriminate.
  reflexivity.
Qed.

(** An edit and a revert while the flag is set. *)
Lemma X14_silent_mode_witness :
  let s :=
    FileSystemManager.setSilentMode true
      (FileSystemManager.openFile 1 "a.txt" "saved" None None
         FileSystemManager.initial) in
  FileSystemManager.notifications
    (FileSystemManager.runCall
       (FileSystemManager.CallUpdateFileContent "a.txt" "typed") s)
  = FileSystemManager.notifications s
  /\ FileSystemManager.notifications
       (snd (FileSystemManager.revertFile "a.txt" s))
     = S (FileSystemManager.notifications s).
Proof.
  intros s. split.
  - apply (proj1 (proj2 X14_silent_mode_only_silences)
             (FileSystemManager.CallUpdateFileContent "a.txt" "typed") s);
      [reflexivity|discriminate|discriminate].
  - apply (proj2 (proj2 X14_silent_mode_only_silences) "a.txt" s).
    reflexivity.
Defined.

Section FileTypes.
Import FileSystemManager.

Lemma lowerChar_dot (c : ascii) :
  Ascii.eqb (JsString.lowerChar c) "."%char = Ascii.eqb c "."%char.
Proof. destruct c as [[] [] [] [] [] [] [] []]; reflexivity. Qed.

Lemma lowerChar_idem (c : ascii) :
  JsString.lowerChar (JsString.lowerChar c) = JsString.lowerChar c.
Proof. destruct c as [[] [] [] [] [] [] [] []]; reflexivity. Qed.

Lemma toLowerCase_idem (s : string) :
  JsString.toLowerCase (JsString.toLowerCase s) = JsString.toLowerCase s.
Proof.
  induction s as [|c r IH]; [reflexivity|]. simpl.
  now rewrite lowerChar_idem, IH.
Qed.

Lemma lastIndexOf_toLowerCase (s : string) :
  JsString.lastIndexOf "."%char (JsString.toLowerCase s)
  = JsString.lastIndexOf "."%char s.
Proof.
  induction s as [|c r IH]; [reflexivity|].
  cbn [JsString.toLowerCase JsString.lastIndexOf].
  now rewrite IH, lowerChar_dot.
Qed.

Lemma substringFrom_toLowerCase (n : nat) (s : string) :
  JsString.substringFrom n (JsString.toLowerCase s)
  = JsString.toLowerCase (JsString.substringFrom n s).
Proof.
  revert s. induction n as [|n IH]; intros s; [now destruct s|].
  destruct s as [|c r]; [reflexivity|]. apply IH.
Qed.

Lemma lastDotSegment_toLowerCase (name : string) :
  lastDotSegment (JsString.toLowerCase name)
  = JsString.toLowerCase (lastDotSegment name).
Proof.
  unfold lastDotSegment. rewrite lastIndexOf_toLowerCase.
  destruct (JsString.lastIndexOf "."%char name); [|reflexivity].
  apply substringFrom_toLowerCase.
Qed.

Lemma lastDotSegment_app (base ext : string) :
  JsString.lastIndexOf "."%char ext = None ->
  lastDotSegment (base ++ "." ++ ext) = ext.
Proof.
  intros H. unfold lastDotSegment.
  change ("." ++ ext) with (String "."%char ext).
  rewrite (lastIndexOf_app_sep "."%char base ext H).
  apply substringFrom_app_sep.
Qed.

End FileTypes.

(** X15.  [detectFileType] reads the text after the last dot of the name
    and nothing else, without regard to case.  The type of a name is the
    type of its lower-cased form.  A name without a dot is read as if it
    were its own extension: it gets the type of any name that ends with a
    dot and this name (a file called [md] is a markdown file). *)
Theorem X15_detectFileType_reads_the_extension :
  (forall name,
      FileSystemManager.detectFileType (JsString.toLowerCase name)
      = FileSystemManager.detectFileType name)
  /\ (forall base name,
         JsString.lastIndexOf "."%char name = None ->
         FileSystemManager.detectFileType (base ++ "." ++ name)
         = FileSystemManager.detectFileType name).
Proof.
  split.
  - intros name. unfold FileSystemManager.detectFileType.
    now rewrite lastDotSegment_toLowerCase, toLowerCase_idem.
  - intros base name H. unfold FileSystemManager.detectFileType.
    rewrite (lastDotSegment_app base name H).
    unfold FileSystemManager.lastDotSegment. now rewrite H.
Qed.

(** The names [notes.MD] and [md]. *)
Lemma X15_detectFileType_witness :
  FileSystemManager.detectFileType ("notes" ++ "." ++ "MD")
  = FileSystemManager.detectFileType "MD"
  /\ FileSystemManager.detectFileType "MD" = FileSystemManager.Markdown.
Proof.
  split.
  - apply (proj2 X15_detectFileType_reads_the_extension "notes" "MD").
    reflexivity.
  - reflexivity.
Defined.

(* ================================================================== *)
(** * Normal form and parts of a path *)
(* ================================================================== *)

Section PathParts.
Import PathUtils.
Import FileSystemManager.

Lemma split_not_nil (c : ascii) (s : string) : JsString.split c s <> [].
Proof.
  destruct s as [|d r]; simpl; [discriminate|].
  destruct (Ascii.eqb d c); [discriminate|].
  destruct (JsString.split c r); discriminate.
Qed.

Lemma parts_slash (r : string) : pathParts (String slash r) = pathParts r.
Proof. reflexivity. Qed.

(** The parts of a string that starts with another code unit. *)
Lemma parts_other (d : ascii) (r : string) :
  Ascii.eqb d slash = false ->
  exists h t,
    JsString.split slash r = h :: t
    /\ pathParts (String d r)
       = String d h :: filter (fun p => negb (String.eqb p "")) t.
Proof.
  intros Hd. unfold pathParts. simpl. rewrite Hd.
  destruct (JsString.split slash r) as [|h t] eqn:E;
    [now apply split_not_nil in E|].
  exists h, t. split; reflexivity.
Qed.

Lemma stripTrailingSlashes_cons (d : ascii) (r : string) :
  Ascii.eqb d slash = false ->
  stripTrailingSlashes (String d r) = String d (stripTrailingSlashes r).
Proof.
  intros Hd. simpl. rewrite Hd. now destruct (stripTrailingSlashes r).
Qed.

Lemma stripTrailingSlashes_empty (r : string) :
  stripTrailingSlashes r = "" -> pathParts r = [].
Proof.
  induction r as [|d r IH]; [reflexivity|]. simpl.
  destruct (stripTrailingSlashes r) eqn:E; [|discriminate].
  destruct (Ascii.eqb d slash) eqn:Ed; [|discriminate].
  intros _. apply Ascii.eqb_eq in Ed. subst d. rewrite parts_slash. now apply IH.
Qed.

Lemma parts_empty (r : string) :
  pathParts r = [] -> stripTrailingSlashes r = "".
Proof.
  induction r as [|d r IH]; [reflexivity|].
  destruct (Ascii.eqb d slash) eqn:Ed.
  - apply Ascii.eqb_eq in Ed. subst d. rewrite parts_slash. intros H.
    simpl. now rewrite (IH H).
  - destruct (parts_other d r Ed) as (h & t & _ & ->). discriminate.
Qed.

Lemma stripTrailingSlashes_head (r : string) :
  stripTrailingSlashes r <> "" ->
  JsString.startsWith (stripTrailingSlashes r) "/" = JsString.startsWith r "/".
Proof.
  destruct r as [|d r]; [reflexivity|]. cbn [stripTrailingSlashes].
  destruct (stripTrailingSlashes r); [|reflexivity].
  destruct (Ascii.eqb d slash) eqn:Ed; [now intros []|reflexivity].
Qed.

Lemma concat_cons (x : string) (xs : list string) :
  String.concat "/" (x :: xs)
  = match xs with
    | [] => x
    | _ :: _ => x ++ "/" ++ String.concat "/" xs
    end.
Proof. reflexivity. Qed.

Lemma append_empty_r (x : string) : x ++ "" = x.
Proof. induction x as [|c x IH]; [reflexivity|]. simpl. now rewrite IH. Qed.

(** The two replacements after the first: what they leave of a string,
    in terms of its parts. *)
Lemma collapse_strip_parts (s : string) :
  collapseSlashes (stripTrailingSlashes s)
  = match pathParts s with
    | [] => ""
    | _ :: _ =>
        (if JsString.startsWith s "/" then "/" else "")
        ++ String.concat "/" (pathParts s)
    end.
Proof.
  induction s as [|d r IH]; [reflexivity|].
  destruct (Ascii.eqb d slash) eqn:Ed.
  - apply Ascii.eqb_eq in Ed. subst d. rewrite parts_slash.
    destruct (pathParts r) as [|x xs] eqn:Ep.
    + cbn [stripTrailingSlashes]. now rewrite (parts_empty r Ep).
    + assert (Hne : stripTrailingSlashes r <> "").
      { intros H. apply stripTrailingSlashes_empty in H. congruence. }
      pose proof (stripTrailingSlashes_head r Hne) as Hhead.
      cbn [stripTrailingSlashes].
      destruct (stripTrailingSlashes r) as [|e y] eqn:Es; [now elim Hne|].
      change (collapseSlashes (String slash (String e y)))
        with (if JsString.startsWith (String e y) "/"
              then collapseSlashes (String e y)
              else String slash (collapseSlashes (String e y))).
      rewrite Hhead, IH.
      destruct (JsString.startsWith r "/"); reflexivity.
  - rewrite (stripTrailingSlashes_cons d r Ed). cbn [collapseSlashes].
    rewrite Ed. cbn [andb]. rewrite IH.
    destruct (parts_other d r Ed) as (h & t & Hsplit & ->).
    set (T := filter (fun p => negb (String.eqb p "")) t).
    assert (Hr : pathParts r = if String.eqb h "" then T else h :: T).
    { unfold pathParts. rewrite Hsplit. cbn [filter].
      now destruct (String.eqb h ""). }
    replace (JsString.startsWith (String d r) "/") with false
      by (simpl; now rewrite Ed).
    cbn [append]. rewrite concat_cons, Hr.
    destruct r as [|e r'].
    + simpl in Hsplit. injection Hsplit as <- <-. reflexivity.
    + simpl in Hsplit. cbn [JsString.startsWith]. rewrite andb_true_r.
      destruct (Ascii.eqb e slash) eqn:Ee.
      * injection Hsplit as <- Ht. cbn [String.eqb].
        destruct T as [|x xs]; reflexivity.
      * destruct (JsString.split slash r') as [|h' t'];
          injection Hsplit as <- <-; cbn [String.eqb];
          rewrite concat_cons; destruct T; reflexivity.
Qed.

Lemma stripLeadingSlashes_parts (s : string) :
  pathParts (stripLeadingSlashes s) = pathParts s
  /\ JsString.startsWith (stripLeadingSlashes s) "/" = false.
Proof.
  induction s as [|d r IH]; [split; reflexivity|]. simpl.
  destruct (Ascii.eqb d slash) eqn:Ed.
  - apply Ascii.eqb_eq in Ed. subst d. now rewrite parts_slash.
  - split; [reflexivity|]. simpl. now rewrite Ed.
Qed.

Lemma normalizePath_parts (p : string) :
  normalizePath p = String.concat "/" (pathParts p).
Proof.
  unfold normalizePath. destruct (String.eqb p "") eqn:E.
  - apply String.eqb_eq in E. now subst.
  - rewrite collapse_strip_parts.
    destruct (stripLeadingSlashes_parts p) as [-> ->].
    now destruct (pathParts p).
Qed.

(** A piece of a split holds no separator. *)
Lemma split_pieces (c : ascii) (s : string) :
  Forall (fun x => JsString.lastIndexOf c x = None) (JsString.split c s).
Proof.
  induction s as [|d r IH]; simpl; [repeat constructor|].
  destruct (Ascii.eqb d c) eqn:Ed; [now constructor|].
  destruct (JsString.split c r) as [|h t].
  - constructor; [|constructor]. simpl. now rewrite Ed.
  - inversion IH as [|? ? Hh Ht]; subst. constructor; [|exact Ht].
    simpl. now rewrite Hh, Ed.
Qed.

Lemma split_app_sep (c : ascii) (x y : string) :
  JsString.lastIndexOf c x = None ->
  JsString.split c (x ++ String c y) = x :: JsString.split c y.
Proof.
  induction x as [|d x IH]; simpl.
  - intros _. now rewrite Ascii.eqb_refl.
  - destruct (JsString.lastIndexOf c x); [discriminate|].
    destruct (Ascii.eqb d c); [discriminate|]. intros _.
    now rewrite IH.
Qed.

Lemma split_no_sep (c : ascii) (x : string) :
  JsString.lastIndexOf c x = None -> JsString.split c x = [x].
Proof.
  induction x as [|d x IH]; simpl; [reflexivity|].
  destruct (JsString.lastIndexOf c x); [discriminate|].
  destruct (Ascii.eqb d c); [discriminate|]. intros _. now rewrite IH.
Qed.

Lemma parts_concat (l : list string) :
  Forall (fun x => x <> "" /\ JsString.lastIndexOf slash x = None) l ->
  pathParts (String.concat "/" l) = l.
Proof.
  induction 1 as [|x xs [Hne Hsep] Hxs IH]; [reflexivity|].
  rewrite concat_cons. destruct xs as [|y ys].
  - unfold pathParts. rewrite (split_no_sep _ _ Hsep).
    cbn [filter]. apply String.eqb_neq in Hne. now rewrite Hne.
  - change ("/" ++ String.concat "/" (y :: ys))
      with (String slash (String.concat "/" (y :: ys))).
    unfold pathParts in *.
    rewrite (split_app_sep _ _ _ Hsep). cbn [filter].
    apply String.eqb_neq in Hne. rewrite Hne. cbn [negb]. now rewrite IH.
Qed.

Lemma parts_wf (s : string) :
  Forall (fun x => x <> "" /\ JsString.lastIndexOf slash x = None) (pathParts s).
Proof.
  unfold pathParts. apply Forall_forall. intros x Hin.
  apply filter_In in Hin. destruct Hin as [Hin Hne]. split.
  - intros ->. discriminate.
  - pose proof (split_pieces slash s) as H. rewrite Forall_forall in H.
    now apply H.
Qed.

End PathParts.

(** X16.  The normal form of [PathUtils.normalizePath] is the path's
    non-empty parts joined by single slashes: no slash at either end and
    no empty part inside.  Two paths are the same path for [isSamePath]
    exactly when they have the same non-empty parts, the parts that the
    file tree of the explorer is built from. *)
Theorem X16_normal_form_is_the_joined_parts :
  (forall p,
      PathUtils.normalizePath p
      = String.concat "/" (FileSystemManager.pathParts p))
  /\ (forall p q,
         PathUtils.isSamePath p q = true
         <-> FileSystemManager.pathParts p = FileSystemManager.pathParts q).
Proof.
  split; [exact normalizePath_parts|].
  intros p q. unfold PathUtils.isSamePath. rewrite String.eqb_eq.
  rewrite !normalizePath_parts. split.
  - intros H. rewrite <- (parts_concat _ (parts_wf p)), H.
    apply parts_concat, parts_wf.
  - now intros ->.
Qed.

(* ================================================================== *)
(** * The file tree of the explorer *)
(* ================================================================== *)

Section TreeFacts.
Import FileStructure.
Import FileSystemManager.

Lemma allNodes_node P n ty cs sz :
  allNodes P (mkNode n ty (Some cs) sz)
  = P (mkNode n ty (Some cs) sz) && forallb (allNodes P) cs.
Proof. reflexivity. Qed.

Lemma allNodes_here P t : allNodes P t = true -> P t = true.
Proof.
  destruct t as [n ty [cs|] sz]; cbn [allNodes];
    rewrite andb_true_iff; tauto.
Qed.

Lemma insertParts_name parts t :
  name (insertParts parts t) = name t /\ type (insertParts parts t) = type t.
Proof.
  destruct parts as [|part rest]; [auto|]. cbn [insertParts].
  destruct (isSpecialFile part); [auto|].
  destruct t as [n ty [cs|] sz]; cbn [children]; [|auto].
  destruct (findChild part cs); auto.
Qed.

Lemma addParts_name isDirectory parts t :
  name (addParts isDirectory parts t) = name t
  /\ type (addParts isDirectory parts t) = type t.
Proof.
  destruct parts as [|part rest]; [auto|]. cbn [addParts].
  destruct (isSpecialFile part); [auto|].
  destruct t as [n ty [cs|] sz]; cbn [children];
    match goal with
    | |- context [findChild ?p ?l] => destruct (findChild p l)
    end; auto.
Qed.

Lemma forallb_updateChild (Q : FileStructureNode -> bool) part f cs :
  (forall c, Q c = true -> Q (f c) = true) ->
  forallb Q cs = true -> forallb Q (updateChild part f cs) = true.
Proof.
  intros Hf. induction cs as [|c r IH]; [auto|]. cbn [forallb updateChild].
  rewrite andb_true_iff. intros [Hc Hr].
  destruct (String.eqb (name c) part); cbn [forallb];
    rewrite andb_true_iff; auto.
Qed.

Lemma map_name_updateChild part f cs :
  (forall c, name (f c) = name c) ->
  map name (updateChild part f cs) = map name cs.
Proof.
  intros Hf. induction cs as [|c r IH]; [reflexivity|]. cbn [updateChild].
  destruct (String.eqb (name c) part); cbn [map]; [now rewrite Hf|].
  now rewrite IH.
Qed.

Lemma findChild_None part cs :
  findChild part cs = None ->
  existsb (String.eqb part) (map name cs) = false.
Proof.
  unfold findChild. induction cs as [|c r IH]; [reflexivity|].
  cbn [find map existsb]. rewrite (String.eqb_sym part).
  destruct (String.eqb (name c) part); [discriminate|]. exact IH.
Qed.

Lemma findChild_Some part cs c :
  findChild part cs = Some c -> In c cs /\ name c = part.
Proof.
  unfold findChild. intros H. apply find_some in H.
  destruct H as [Hin Hn]. now apply String.eqb_eq in Hn.
Qed.

Lemma distinct_NoDup (l : list string) : distinct l = true <-> NoDup l.
Proof.
  induction l as [|x r IH]; cbn [distinct].
  - split; [constructor|reflexivity].
  - rewrite andb_true_iff, negb_true_iff, IH. split.
    + intros [Hx Hr]. constructor; [|exact Hr]. intros Hin.
      assert (E : existsb (String.eqb x) r = true).
      { apply existsb_exists. exists x. split; [exact Hin|apply String.eqb_refl]. }
      congruence.
    + intros H. inversion H as [|? ? Hnotin Hnd]; subst. split; [|exact Hnd].
      destruct (existsb (String.eqb x) r) eqn:E; [|reflexivity].
      apply existsb_exists in E. destruct E as (y & Hin & Hy).
      apply String.eqb_eq in Hy. subst y. contradiction.
Qed.

Lemma distinct_push (l : list string) (x : string) :
  distinct l = true -> existsb (String.eqb x) l = false ->
  distinct (l ++ [x]) = true.
Proof.
  rewrite !distinct_NoDup. intros Hnd Hx.
  apply NoDup_app; [exact Hnd|constructor; [intros []|constructor]|].
  intros y Hin [<-|[]].
  assert (E : existsb (String.eqb x) l = true).
  { apply existsb_exists. exists x. split; [exact Hin|apply String.eqb_refl]. }
  congruence.
Qed.

(* ---------------- sorting ---------------- *)

Lemma insertSorted_Permutation {A : Type} (cmp : A -> A -> Z) x l :
  Permutation (JsArray.insertSorted cmp x l) (x :: l).
Proof.
  induction l as [|y r IH]; cbn [JsArray.insertSorted]; [reflexivity|].
  destruct (cmp x y <=? 0)%Z; [reflexivity|].
  rewrite IH. apply perm_swap.
Qed.

Lemma sortBy_Permutation {A : Type} (cmp : A -> A -> Z) l :
  Permutation (JsArray.sortBy cmp l) l.
Proof.
  unfold JsArray.sortBy. induction l as [|x r IH]; cbn [fold_right];
    [reflexivity|].
  rewrite insertSorted_Permutation. now constructor.
Qed.

Lemma forallb_Permutation {A : Type} (Q : A -> bool) l l' :
  Permutation l l' -> forallb Q l = forallb Q l'.
Proof.
  induction 1 as [|x l l' _ IH|x y l|l l' l'' _ IH1 _ IH2]; cbn [forallb].
  - reflexivity.
  - now rewrite IH.
  - now rewrite !andb_assoc, (andb_comm (Q y)).
  - congruence.
Qed.

Lemma existsb_Permutation {A : Type} (Q : A -> bool) l l' :
  Permutation l l' -> existsb Q l = existsb Q l'.
Proof.
  induction 1 as [|x l l' _ IH|x y l|l l' l'' _ IH1 _ IH2]; cbn [existsb].
  - reflexivity.
  - now rewrite IH.
  - now rewrite !orb_assoc, (orb_comm (Q y)).
  - congruence.
Qed.

End TreeFacts.

Section TreeInvariant.
Import FileStructure.
Import FileSystemManager.

(** A test of a node that reads its name, its type, whether it has a
    children array, and the names of its children: a test that inserting
    a path and sorting keep. *)
Variable P : FileStructureNode -> bool.
Hypothesis P_file :
  forall part, isSpecialFile part = false -> P (mkNode part File None None) = true.
Hypothesis P_directory :
  forall part, isSpecialFile part = false ->
               P (mkNode part Directory (Some []) None) = true.
Hypothesis P_names :
  forall n ty cs cs' sz,
    P (mkNode n ty (Some cs) sz) = true ->
    Permutation (map name cs') (map name cs) ->
    P (mkNode n ty (Some cs') sz) = true.
Hypothesis P_push :
  forall n ty cs sz c,
    P (mkNode n ty (Some cs) sz) = true ->
    existsb (String.eqb (name c)) (map name cs) = false ->
    isSpecialFile (name c) = false ->
    P (mkNode n ty (Some (cs ++ [c])%list) sz) = true.

Lemma insertParts_allNodes parts : forall t,
  allNodes P t = true -> allNodes P (insertParts parts t) = true.
Proof.
  induction parts as [|part rest IH]; intros t Ht; [exact Ht|].
  cbn [insertParts]. destruct (isSpecialFile part) eqn:Hsp; [exact Ht|].
  destruct t as [n ty [cs|] sz]; cbn [children]; [|exact Ht].
  rewrite allNodes_node in Ht. apply andb_true_iff in Ht.
  destruct Ht as [Hp Hcs].
  destruct (findChild part cs) as [c|] eqn:Hfind; cbn [setChildren];
    rewrite allNodes_node; apply andb_true_iff; split.
  - apply (P_names n ty cs); [exact Hp|].
    rewrite map_name_updateChild; [reflexivity|].
    intros c'. apply insertParts_name.
  - apply forallb_updateChild; [|exact Hcs]. intros c'. apply IH.
  - assert (Hname : name (match rest with
                          | [] => mkNode part File None None
                          | _ :: _ =>
                              insertParts rest
                                (mkNode part Directory (Some []) None)
                          end) = part).
    { destruct rest; [reflexivity|].
      now rewrite (proj1 (insertParts_name _ _)). }
    apply P_push; [exact Hp| |]; rewrite Hname;
      [now apply findChild_None|exact Hsp].
  - rewrite forallb_app, Hcs. cbn [forallb andb]. rewrite andb_true_r.
    destruct rest as [|part' rest'].
    + cbn [allNodes]. rewrite andb_true_r. now apply P_file.
    + apply IH. cbn [allNodes forallb]. rewrite andb_true_r.
      now apply P_directory.
Qed.

Lemma insertAll_allNodes paths : forall t,
  allNodes P t = true ->
  allNodes P (fold_left (fun root path => insertParts (pathParts path) root)
                        paths t) = true.
Proof.
  induction paths as [|p r IH]; intros t Ht; [exact Ht|].
  cbn [fold_left]. apply IH. now apply insertParts_allNodes.
Qed.

Variable localeCompare : string -> string -> Z.

Lemma sortChildren_name t :
  name (sortChildren localeCompare t) = name t
  /\ type (sortChildren localeCompare t) = type t.
Proof. destruct t as [n ty [cs|] sz]; auto. Qed.

Lemma sortChildren_names cs :
  Permutation
    (map name (JsArray.sortBy (compareNodes localeCompare)
                              (map (sortChildren localeCompare) cs)))
    (map name cs).
Proof.
  rewrite (Permutation_map name (sortBy_Permutation _ _)).
  rewrite map_map.
  rewrite (map_ext _ name); [reflexivity|].
  intros c. apply sortChildren_name.
Qed.

Lemma sortChildren_allNodes t :
  allNodes P t = true -> allNodes P (sortChildren localeCompare t) = true.
Proof.
  induction t as [n ty children sz IH] using FileStructureNode_induction.
  destruct children as [cs|]; [|auto].
  cbn [sortChildren]. rewrite !allNodes_node, !andb_true_iff.
  intros [Hp Hcs]. split.
  - apply (P_names n ty cs); [exact Hp|]. apply sortChildren_names.
  - rewrite (forallb_Permutation _ _ _ (sortBy_Permutation _ _)).
    specialize (IH cs eq_refl). clear Hp.
    induction IH as [|c r Hc _ IHr]; [reflexivity|].
    cbn [forallb map] in *. apply andb_true_iff in Hcs.
    destruct Hcs as [Hc' Hr]. rewrite (Hc Hc'). now apply IHr.
Qed.

End TreeInvariant.

Section TreeShape.
Import FileStructure.
Import FileSystemManager.

Lemma typed_invariant :
  (forall part, isSpecialFile part = false ->
                typed (mkNode part File None None) = true)
  /\ (forall part, isSpecialFile part = false ->
                   typed (mkNode part Directory (Some []) None) = true)
  /\ (forall n ty cs cs' sz,
         typed (mkNode n ty (Some cs) sz) = true ->
         Permutation (map name cs') (map name cs) ->
         typed (mkNode n ty (Some cs') sz) = true)
  /\ (forall n ty cs sz c,
         typed (mkNode n ty (Some cs) sz) = true ->
         existsb (String.eqb (name c)) (map name cs) = false ->
         isSpecialFile (name c) = false ->
         typed (mkNode n ty (Some (cs ++ [c])%list) sz) = true).
Proof. repeat split; auto. Qed.

Lemma notSpecial_invariant :
  (forall part, isSpecialFile part = false ->
                notSpecial (mkNode part File None None) = true)
  /\ (forall part, isSpecialFile part = false ->
                   notSpecial (mkNode part Directory (Some []) None) = true)
  /\ (forall n ty cs cs' sz,
         notSpecial (mkNode n ty (Some cs) sz) = true ->
         Permutation (map name cs') (map name cs) ->
         notSpecial (mkNode n ty (Some cs') sz) = true)
  /\ (forall n ty cs sz c,
         notSpecial (mkNode n ty (Some cs) sz) = true ->
         existsb (String.eqb (name c)) (map name cs) = false ->
         isSpecialFile (name c) = false ->
         notSpecial (mkNode n ty (Some (cs ++ [c])%list) sz) = true).
Proof.
  unfold notSpecial. cbn [name]. repeat split; auto.
  - intros part H. now rewrite H.
  - intros part H. now rewrite H.
Qed.

Lemma distinctNames_invariant :
  (forall part, isSpecialFile part = false ->
                distinctNames (mkNode part File None None) = true)
  /\ (forall part, isSpecialFile part = false ->
                   distinctNames (mkNode part Directory (Some []) None) = true)
  /\ (forall n ty cs cs' sz,
         distinctNames (mkNode n ty (Some cs) sz) = true ->
         Permutation (map name cs') (map name cs) ->
         distinctNames (mkNode n ty (Some cs') sz) = true)
  /\ (forall n ty cs sz c,
         distinctNames (mkNode n ty (Some cs) sz) = true ->
         existsb (String.eqb (name c)) (map name cs) = false ->
         isSpecialFile (name c) = false ->
         distinctNames (mkNode n ty (Some (cs ++ [c])%list) sz) = true).
Proof.
  unfold distinctNames, childrenOf. cbn [children].
  split; [reflexivity|]. split; [reflexivity|]. split.
  - intros n ty cs cs' sz H Hperm. rewrite distinct_NoDup in *.
    apply (Permutation_NoDup (Permutation_sym Hperm) H).
  - intros n ty cs sz c H Hc _. rewrite map_app. cbn [map].
    now apply distinct_push.
Qed.

(** The tree of [mergeExternalFileStructure] before it is sorted, and
    after. *)
Lemma merge_allNodes (P : FileStructureNode -> bool) localeCompare paths s :
  (forall part, isSpecialFile part = false ->
                P (mkNode part File None None) = true)
  /\ (forall part, isSpecialFile part = false ->
                   P (mkNode part Directory (Some []) None) = true)
  /\ (forall n ty cs cs' sz,
         P (mkNode n ty (Some cs) sz) = true ->
         Permutation (map name cs') (map name cs) ->
         P (mkNode n ty (Some cs') sz) = true)
  /\ (forall n ty cs sz c,
         P (mkNode n ty (Some cs) sz) = true ->
         existsb (String.eqb (name c)) (map name cs) = false ->
         isSpecialFile (name c) = false ->
         P (mkNode n ty (Some (cs ++ [c])%list) sz) = true) ->
  P emptyRoot = true ->
  allNodes P (fst (mergeExternalFileStructure localeCompare paths s)) = true.
Proof.
  intros (H1 & H2 & H3 & H4) Hroot. unfold mergeExternalFileStructure.
  cbn [fst]. apply (sortChildren_allNodes P H3).
  apply (insertAll_allNodes P H1 H2 H3 H4).
  cbn [allNodes emptyRoot forallb]. fold emptyRoot. rewrite Hroot. reflexivity.
Qed.

End TreeShape.

(** X17.  The tree that [mergeExternalFileStructure] builds from a list
    of paths, whatever the list and the collation: its root is the
    directory [/]; every directory in it has a children array and every
    file has none; no two children of a node have the same name (a path
    listed twice, or a directory met again, makes no second node); and no
    node carries the name of a special file ([*.jsonsearch], [Web.html]).
    The call notifies the listeners and changes nothing else. *)
Theorem X17_merged_tree_is_well_formed :
  forall localeCompare paths s,
    let t :=
      fst (FileSystemManager.mergeExternalFileStructure
             localeCompare paths s) in
    FileStructure.name t = "/"
    /\ allNodes typed t = true
    /\ allNodes distinctNames t = true
    /\ allNodes notSpecial t = true
    /\ snd (FileSystemManager.mergeExternalFileStructure
              localeCompare paths s)
       = FileSystemManager.notify s.
Proof.
  intros localeCompare paths s t. split.
  - subst t. unfold FileSystemManager.mergeExternalFileStructure. cbn [fst].
    rewrite (proj1 (sortChildren_name _ _)).
    generalize FileSystemManager.emptyRoot
      (eq_refl : FileStructure.name FileSystemManager.emptyRoot = "/").
    induction paths as [|p r IH]; intros t0 Ht0; [exact Ht0|].
    cbn [fold_left]. apply IH.
    now rewrite (proj1 (insertParts_name _ _)).
  - split; [apply merge_allNodes; [exact typed_invariant|reflexivity]|].
    split; [apply merge_allNodes; [exact distinctNames_invariant|reflexivity]|].
    split; [apply merge_allNodes; [exact notSpecial_invariant|reflexivity]|].
    reflexivity.
Qed.

Section TreeOrder.
Import FileStructure.
Import FileSystemManager.
Variable localeCompare : string -> string -> Z.

Lemma compareNodes_file_directory a b :
  isFileNode a = true -> isFileNode b = false ->
  compareNodes localeCompare a b = 1%Z
  /\ compareNodes localeCompare b a = (-1)%Z.
Proof.
  unfold isFileNode, compareNodes.
  destruct (type a), (type b); try discriminate. auto.
Qed.

Lemma forallb_insertSorted (Q : FileStructureNode -> bool) cmp x l :
  forallb Q (JsArray.insertSorted cmp x l) = Q x && forallb Q l.
Proof.
  apply (forallb_Permutation Q _ (x :: l)), insertSorted_Permutation.
Qed.

Lemma insertSorted_directoriesBeforeFiles x l :
  directoriesBeforeFiles l = true ->
  directoriesBeforeFiles
    (JsArray.insertSorted (compareNodes localeCompare) x l) = true.
Proof.
  induction l as [|y r IH]; intros Hl.
  - cbn. now destruct (isFileNode x).
  - cbn [JsArray.insertSorted]. cbn [directoriesBeforeFiles] in Hl.
    apply andb_true_iff in Hl. destruct Hl as [Hy Hr].
    destruct (compareNodes localeCompare x y <=? 0)%Z eqn:E.
    + cbn [directoriesBeforeFiles]. rewrite Hy, Hr, !andb_true_r.
      destruct (isFileNode x) eqn:Hx; [|reflexivity].
      cbn [forallb]. destruct (isFileNode y) eqn:Hfy; [exact Hy|].
      destruct (compareNodes_file_directory x y Hx Hfy) as [H1 _].
      rewrite H1 in E. discriminate.
    + cbn [directoriesBeforeFiles]. rewrite (IH Hr), andb_true_r.
      destruct (isFileNode y) eqn:Hfy; [|reflexivity].
      rewrite forallb_insertSorted, Hy, andb_true_r.
      destruct (isFileNode x) eqn:Hx; [reflexivity|].
      destruct (compareNodes_file_directory y x Hfy Hx) as [_ H1].
      rewrite H1 in E. discriminate.
Qed.

Lemma sortBy_directoriesBeforeFiles l :
  directoriesBeforeFiles (JsArray.sortBy (compareNodes localeCompare) l) = true.
Proof.
  unfold JsArray.sortBy. induction l as [|x r IH]; [reflexivity|].
  cbn [fold_right]. now apply insertSorted_directoriesBeforeFiles.
Qed.

Hypothesis localeCompare_antisymmetric :
  forall a b, (0 < localeCompare a b)%Z -> (localeCompare b a <= 0)%Z.

Lemma compareNodes_antisymmetric a b :
  (0 < compareNodes localeCompare a b)%Z ->
  (compareNodes localeCompare b a <= 0)%Z.
Proof.
  unfold compareNodes. destruct (type a), (type b); try lia;
    apply localeCompare_antisymmetric.
Qed.

Lemma insertSorted_inOrder x l :
  inOrder (compareNodes localeCompare) l = true ->
  inOrder (compareNodes localeCompare)
          (JsArray.insertSorted (compareNodes localeCompare) x l) = true.
Proof.
  induction l as [|y r IH]; intros Hl; [reflexivity|].
  cbn [JsArray.insertSorted].
  destruct (compareNodes localeCompare x y <=? 0)%Z eqn:E.
  - change (inOrder (compareNodes localeCompare) (x :: y :: r))
      with ((compareNodes localeCompare x y <=? 0)%Z
            && inOrder (compareNodes localeCompare) (y :: r)).
    now rewrite E, Hl.
  - assert (Hyx : (compareNodes localeCompare y x <=? 0)%Z = true).
    { apply Z.leb_le, compareNodes_antisymmetric. apply Z.leb_gt in E. lia. }
    assert (Hr : inOrder (compareNodes localeCompare) r = true).
    { cbn [inOrder] in Hl. apply andb_true_iff in Hl. tauto. }
    specialize (IH Hr).
    destruct r as [|z r'].
    + cbn [JsArray.insertSorted inOrder]. now rewrite Hyx.
    + cbn [JsArray.insertSorted] in *.
      destruct (compareNodes localeCompare x z <=? 0)%Z eqn:Ez.
      * cbn [inOrder] in *. now rewrite Hyx, IH.
      * cbn [inOrder] in Hl. apply andb_true_iff in Hl.
        destruct Hl as [Hyz _].
        change (inOrder (compareNodes localeCompare)
                  (y :: z :: JsArray.insertSorted
                                (compareNodes localeCompare) x r'))
          with ((compareNodes localeCompare y z <=? 0)%Z
                && inOrder (compareNodes localeCompare)
                     (z :: JsArray.insertSorted
                             (compareNodes localeCompare) x r')).
        now rewrite Hyz, IH.
Qed.

Lemma sortBy_inOrder l :
  inOrder (compareNodes localeCompare)
          (JsArray.sortBy (compareNodes localeCompare) l) = true.
Proof.
  unfold JsArray.sortBy. induction l as [|x r IH]; [reflexivity|].
  cbn [fold_right]. now apply insertSorted_inOrder.
Qed.

End TreeOrder.

Section TreeOrder2.
Import FileStructure.
Import FileSystemManager.

(** A test of the array of children that sorting establishes at every
    node. *)
Lemma sortChildren_establishes localeCompare
      (Q : list FileStructureNode -> bool) :
  Q [] = true ->
  (forall l, Q (JsArray.sortBy (compareNodes localeCompare) l) = true) ->
  forall t,
    allNodes (fun n => Q (childrenOf n)) (sortChildren localeCompare t) = true.
Proof.
  intros Hnil Hsort.
  induction t as [n ty children sz IH] using FileStructureNode_induction.
  destruct children as [cs|]; [|now cbn; rewrite Hnil].
  cbn [sortChildren]. rewrite allNodes_node. apply andb_true_iff. split.
  - unfold childrenOf. cbn [FileStructure.children]. apply Hsort.
  - rewrite (forallb_Permutation _ _ _ (sortBy_Permutation _ _)).
    specialize (IH cs eq_refl).
    induction IH as [|c r Hc _ IHr]; [reflexivity|].
    cbn [forallb map]. now rewrite Hc, IHr.
Qed.

(** The order in which the source sorts: the array first, then inside
    each child. *)
Lemma sortChildren_order localeCompare cs :
  JsArray.sortBy (compareNodes localeCompare)
                 (map (sortChildren localeCompare) cs)
  = map (sortChildren localeCompare)
        (JsArray.sortBy (compareNodes localeCompare) cs).
Proof.
  assert (Hcmp : forall a b,
             compareNodes localeCompare (sortChildren localeCompare a)
                          (sortChildren localeCompare b)
             = compareNodes localeCompare a b).
  { intros a b. unfold compareNodes.
    now rewrite !(proj1 (sortChildren_name _ _)),
                !(proj2 (sortChildren_name _ _)). }
  unfold JsArray.sortBy. induction cs as [|c r IH]; [reflexivity|].
  cbn [map fold_right]. rewrite IH.
  generalize (fold_right (JsArray.insertSorted (compareNodes localeCompare))
                         [] r).
  intros l. induction l as [|y l IHl]; [reflexivity|].
  cbn [map JsArray.insertSorted]. rewrite Hcmp.
  destruct (compareNodes localeCompare c y <=? 0)%Z; [reflexivity|].
  cbn [map]. now rewrite IHl.
Qed.

End TreeOrder2.

(** X18.  The tree of the explorer is sorted at every level.  After
    [mergeExternalFileStructure] and after [addFileToVirtualStructure],
    whatever the collation, no file comes before a directory among the
    children of any node.  If the collation never puts two names each
    after the other, every child is moreover in order with the next one for
    the comparator of the source: directories before files, and names in
    collation order within each kind. *)
Theorem X18_tree_is_sorted_at_every_level :
  (forall localeCompare paths s,
      allNodes directoriesFirst
        (fst (FileSystemManager.mergeExternalFileStructure
                localeCompare paths s)) = true)
  /\ (forall localeCompare path isDirectory tree s,
         allNodes directoriesFirst
           (fst (FileSystemManager.addFileToVirtualStructure
                   localeCompare path isDirectory tree s)) = true)
  /\ (forall localeCompare paths s,
         (forall a b, (0 < localeCompare a b)%Z ->
                      (localeCompare b a <= 0)%Z) ->
         allNodes
           (fun n =>
              inOrder (FileSystemManager.compareNodes localeCompare)
                      (childrenOf n))
           (fst (FileSystemManager.mergeExternalFileStructure
                   localeCompare paths s)) = true).
Proof.
  split; [|split].
  - intros localeCompare paths s.
    apply (sortChildren_establishes localeCompare directoriesBeforeFiles);
      [reflexivity|apply sortBy_directoriesBeforeFiles].
  - intros localeCompare path isDirectory tree s.
    apply (sortChildren_establishes localeCompare directoriesBeforeFiles);
      [reflexivity|apply sortBy_directoriesBeforeFiles].
  - intros localeCompare paths s Hanti.
    apply (sortChildren_establishes localeCompare
             (inOrder (FileSystemManager.compareNodes localeCompare)));
      [reflexivity|]. intros l. now apply sortBy_inOrder.
Qed.

Section CodeUnits.

Lemma codeUnitCompare_antisymmetric a b :
  (0 < codeUnitCompare a b)%Z -> (codeUnitCompare b a <= 0)%Z.
Proof.
  unfold codeUnitCompare. rewrite (String.compare_antisym a b).
  destruct (String.compare b a); cbn; lia.
Qed.

End CodeUnits.

(** The listing of a small workspace, with the comparison by code units
    for collation. *)
Lemma X18_tree_is_sorted_witness :
  let t :=
    fst (FileSystemManager.mergeExternalFileStructure codeUnitCompare
           ["b.txt"; "src/z.py"; "a.txt"; "src/lib/x.py"; "src/a.py"; "docs/"]
           FileSystemManager.initial) in
  allNodes
    (fun n =>
       inOrder (FileSystemManager.compareNodes codeUnitCompare) (childrenOf n))
    t = true
  /\ map FileStructure.name (childrenOf t) = ["src"; "a.txt"; "b.txt"; "docs"].
Proof.
  intros t. split.
  - exact (proj2 (proj2 X18_tree_is_sorted_at_every_level) codeUnitCompare
             ["b.txt"; "src/z.py"; "a.txt"; "src/lib/x.py"; "src/a.py"; "docs/"]
             FileSystemManager.initial codeUnitCompare_antisymmetric).
  - vm_compute. reflexivity.
Defined.

Section TreeCoverage.
Import FileStructure.
Import FileSystemManager.

Lemma updateChild_In part f cs c :
  findChild part cs = Some c -> In (f c) (updateChild part f cs).
Proof.
  unfold findChild. induction cs as [|c0 r IH]; [discriminate|].
  cbn [find updateChild]. destruct (String.eqb (name c0) part).
  - intros H. injection H as <-. now left.
  - intros H. right. now apply IH.
Qed.

Lemma In_updateChild part f cs c :
  In c cs -> In c (updateChild part f cs) \/ In (f c) (updateChild part f cs).
Proof.
  induction cs as [|c0 r IH]; [intros []|]. cbn [updateChild].
  intros [<-|Hin].
  - destruct (String.eqb (name c0) part); [right|left]; now left.
  - destruct (String.eqb (name c0) part).
    + left. now right.
    + destruct (IH Hin) as [H|H]; [left|right]; now right.
Qed.

Lemma covers_cons part rest t cs :
  children t = Some cs ->
  (covers (part :: rest) t = true
   <-> exists c, In c cs /\ name c = part /\ covers rest c = true).
Proof.
  intros Hcs. cbn [covers]. rewrite Hcs, existsb_exists. split.
  - intros (c & Hin & H). apply andb_true_iff in H. destruct H as [Hn Hc].
    apply String.eqb_eq in Hn. eauto.
  - intros (c & Hin & Hn & Hc). exists c. split; [exact Hin|].
    apply andb_true_iff. split; [now apply String.eqb_eq|exact Hc].
Qed.

(** The path inserted is in the tree. *)
Lemma insertParts_covers parts : forall t,
  forallb (fun part => negb (isSpecialFile part)) parts = true ->
  covers parts (insertParts parts t) = true.
Proof.
  induction parts as [|part rest IH]; intros t Hparts; [reflexivity|].
  cbn [forallb] in Hparts. apply andb_true_iff in Hparts.
  destruct Hparts as [Hsp Hrest]. apply negb_true_iff in Hsp.
  cbn [insertParts]. rewrite Hsp.
  destruct t as [n ty [cs|] sz]; cbn [children]; [|reflexivity].
  destruct (findChild part cs) as [c|] eqn:Hfind; cbn [setChildren];
    (eapply covers_cons; [reflexivity|]).
  - exists (insertParts rest c). split; [now apply updateChild_In|].
    split; [|now apply IH].
    rewrite (proj1 (insertParts_name _ _)).
    now apply (findChild_Some part cs).
  - eexists. split; [apply in_or_app; right; now left|].
    destruct rest as [|part' rest']; [split; reflexivity|].
    split; [now rewrite (proj1 (insertParts_name _ _))|now apply IH].
Qed.

(** A path that is in the tree stays in it when another is inserted. *)
Lemma insertParts_keeps_covered parts : forall q t,
  covers parts t = true -> covers parts (insertParts q t) = true.
Proof.
  induction parts as [|part rest IH]; intros q t Hc; [reflexivity|].
  destruct q as [|qp qr]; [exact Hc|]. cbn [insertParts].
  destruct (isSpecialFile qp); [exact Hc|].
  destruct t as [n ty [cs|] sz]; cbn [children]; [|exact Hc].
  eapply covers_cons in Hc; [|reflexivity].
  destruct Hc as (c & Hin & Hn & Hc).
  destruct (findChild qp cs) eqn:Hfind; cbn [setChildren];
    (eapply covers_cons; [reflexivity|]).
  - destruct (In_updateChild qp (insertParts qr) cs c Hin) as [H|H].
    + exists c. auto.
    + exists (insertParts qr c). split; [exact H|].
      split; [now rewrite (proj1 (insertParts_name _ _))|now apply IH].
  - exists c. split; [apply in_or_app; now left|auto].
Qed.

Lemma sortChildren_keeps_covered localeCompare parts : forall t,
  covers parts t = true -> covers parts (sortChildren localeCompare t) = true.
Proof.
  induction parts as [|part rest IH]; intros t Hc; [reflexivity|].
  destruct t as [n ty [cs|] sz]; [|exact Hc].
  eapply covers_cons in Hc; [|reflexivity].
  destruct Hc as (c & Hin & Hn & Hc). cbn [sortChildren].
  (eapply covers_cons; [reflexivity|]).
  exists (sortChildren localeCompare c). split.
  - apply (Permutation_in _ (Permutation_sym (sortBy_Permutation _ _))).
    now apply in_map.
  - split; [now rewrite (proj1 (sortChildren_name _ _))|now apply IH].
Qed.

Lemma addParts_covers isDirectory parts : forall t,
  forallb (fun part => negb (isSpecialFile part)) parts = true ->
  covers parts (addParts isDirectory parts t) = true.
Proof.
  induction parts as [|part rest IH]; intros t Hparts; [reflexivity|].
  cbn [forallb] in Hparts. apply andb_true_iff in Hparts.
  destruct Hparts as [Hsp Hrest]. apply negb_true_iff in Hsp.
  cbn [addParts]. rewrite Hsp.
  set (cs := match children t with Some cs => cs | None => [] end).
  destruct (findChild part cs) as [c|] eqn:Hfind;
    (destruct t as [n ty ch sz]; cbn [setChildren];
     (eapply covers_cons; [reflexivity|])).
  - exists (addParts isDirectory rest c). split; [now apply updateChild_In|].
    split; [|now apply IH].
    rewrite (proj1 (addParts_name _ _ _)).
    now apply (findChild_Some part cs).
  - eexists. split; [apply in_or_app; right; now left|].
    destruct rest as [|part' rest'].
    + destruct isDirectory; split; reflexivity.
    + split; [now rewrite (proj1 (addParts_name _ _ _))|now apply IH].
Qed.

End TreeCoverage.

(** X19.  Every path of the list is in the merged tree, and a path added
    is in the tree it is added to, as far as the tree records paths: for a
    path none of whose parts is the name of a special file, following the
    names of its parts from the root leads from node to node down to its
    last part, or to a file, below which nothing is recorded (the first
    node made for a name is kept, and a path that runs through a file adds
    nothing). *)
Theorem X19_listed_paths_are_in_the_tree :
  (forall localeCompare paths s p,
      In p paths ->
      forallb (fun part => negb (FileSystemManager.isSpecialFile part))
              (FileSystemManager.pathParts p) = true ->
      covers (FileSystemManager.pathParts p)
             (fst (FileSystemManager.mergeExternalFileStructure
                     localeCompare paths s)) = true)
  /\ (forall localeCompare path isDirectory tree s,
         forallb (fun part => negb (FileSystemManager.isSpecialFile part))
                 (FileSystemManager.pathParts path) = true ->
         covers (FileSystemManager.pathParts path)
                (fst (FileSystemManager.addFileToVirtualStructure
                        localeCompare path isDirectory tree s)) = true).
Proof.
  split.
  - intros localeCompare paths s p Hin Hparts.
    unfold FileSystemManager.mergeExternalFileStructure. cbn [fst].
    apply sortChildren_keeps_covered.
    apply in_split in Hin. destruct Hin as (before & after & ->).
    rewrite fold_left_app. cbn [fold_left].
    match goal with
    | |- covers _ (fold_left _ after (FileSystemManager.insertParts _ ?t0))
         = true =>
        pose proof (insertParts_covers (FileSystemManager.pathParts p) t0
                      Hparts) as H0;
        generalize dependent (FileSystemManager.insertParts
                                (FileSystemManager.pathParts p) t0)
    end.
    induction after as [|q r IH]; intros t1 H1; [exact H1|].
    cbn [fold_left]. apply IH. now apply insertParts_keeps_covered.
  - intros localeCompare path isDirectory tree s Hparts.
    unfold FileSystemManager.addFileToVirtualStructure. cbn [fst].
    apply sortChildren_keeps_covered. now apply addParts_covers.
Qed.

(** A listing with a special file, and a directory added afterwards. *)
Lemma X19_listed_paths_witness :
  let paths := ["src/main.py"; "Web.html"; "src/lib/util.py"] in
  let t :=
    fst (FileSystemManager.mergeExternalFileStructure codeUnitCompare paths
           FileSystemManager.initial) in
  covers (FileSystemManager.pathParts "src/lib/util.py") t = true
  /\ covers (FileSystemManager.pathParts "/out/plots/")
            (fst (FileSystemManager.addFileToVirtualStructure codeUnitCompare
                    "/out/plots/" true t FileSystemManager.initial)) = true.
Proof.
  intros paths t. split.
  - apply (proj1 X19_listed_paths_are_in_the_tree codeUnitCompare paths
             FileSystemManager.initial "src/lib/util.py").
    + right. right. now left.
    + vm_compute. reflexivity.
  - apply (proj2 X19_listed_paths_are_in_the_tree codeUnitCompare
             "/out/plots/" true t FileSystemManager.initial).
    vm_compute. reflexivity.
Defined.

Section TreeInvariantAdd.
Import FileStructure.
Import FileSystemManager.

Variable P : FileStructureNode -> bool.
Hypothesis P_file :
  forall part, isSpecialFile part = false -> P (mkNode part File None None) = true.
Hypothesis P_directory :
  forall part, isSpecialFile part = false ->
               P (mkNode part Directory (Some []) None) = true.
Hypothesis P_names :
  forall n ty cs cs' sz,
    P (mkNode n ty (Some cs) sz) = true ->
    Permutation (map name cs') (map name cs) ->
    P (mkNode n ty (Some cs') sz) = true.
Hypothesis P_push :
  forall n ty cs sz c,
    P (mkNode n ty (Some cs) sz) = true ->
    existsb (String.eqb (name c)) (map name cs) = false ->
    isSpecialFile (name c) = false ->
    P (mkNode n ty (Some (cs ++ [c])%list) sz) = true.
Hypothesis P_first :
  forall n ty sz c,
    P (mkNode n ty None sz) = true ->
    isSpecialFile (name c) = false ->
    P (mkNode n ty (Some [c]) sz) = true.

Lemma addParts_allNodes isDirectory parts : forall t,
  allNodes P t = true -> allNodes P (addParts isDirectory parts t) = true.
Proof.
  induction parts as [|part rest IH]; intros t Ht; [exact Ht|].
  cbn [addParts]. destruct (isSpecialFile part) eqn:Hsp; [exact Ht|].
  assert (Hnew :
            let childNode :=
              match rest with
              | [] =>
                  if isDirectory then mkNode part Directory (Some []) None
                  else mkNode part File None None
              | _ :: _ =>
                  addParts isDirectory rest
                           (mkNode part Directory (Some []) None)
              end in
            name childNode = part /\ allNodes P childNode = true).
  { cbn zeta. destruct rest as [|part' rest'].
    - destruct isDirectory; (split; [reflexivity|]); cbn [allNodes forallb];
        rewrite andb_true_r; auto.
    - split; [now rewrite (proj1 (addParts_name _ _ _))|].
      apply IH. cbn [allNodes forallb]. rewrite andb_true_r. auto. }
  cbn zeta in Hnew. destruct Hnew as [Hname Hchild].
  destruct t as [n ty [cs|] sz]; cbn [children].
  - rewrite allNodes_node in Ht. apply andb_true_iff in Ht.
    destruct Ht as [Hp Hcs].
    destruct (findChild part cs) as [c|] eqn:Hfind; cbn [setChildren];
      rewrite allNodes_node; apply andb_true_iff; split.
    + apply (P_names n ty cs); [exact Hp|].
      rewrite map_name_updateChild; [reflexivity|].
      intros c'. apply addParts_name.
    + apply forallb_updateChild; [|exact Hcs]. intros c'. apply IH.
    + apply P_push; [exact Hp| |]; rewrite Hname;
        [now apply findChild_None|exact Hsp].
    + rewrite forallb_app, Hcs. cbn [forallb andb]. now rewrite Hchild.
  - cbn [findChild find setChildren app]. rewrite allNodes_node.
    apply andb_true_iff. split.
    + apply P_first; [now apply allNodes_here in Ht|now rewrite Hname].
    + cbn [forallb]. now rewrite Hchild.
Qed.

End TreeInvariantAdd.

(** X20.  Adding a path to the tree of the explorer keeps it free of
    duplicate names and of special files: if no two children of a node
    have the same name and no node carries the name of a special file,
    this is still so after [addFileToVirtualStructure], for a file and for
    a directory; the root keeps its name, and the call notifies the
    listeners and changes nothing else. *)
Theorem X20_adding_keeps_the_tree_well_formed :
  forall localeCompare path isDirectory tree s,
    allNodes distinctNames tree = true ->
    allNodes notSpecial tree = true ->
    let r :=
      FileSystemManager.addFileToVirtualStructure
        localeCompare path isDirectory tree s in
    allNodes distinctNames (fst r) = true
    /\ allNodes notSpecial (fst r) = true
    /\ FileStructure.name (fst r) = FileStructure.name tree
    /\ snd r = FileSystemManager.notify s.
Proof.
  intros localeCompare path isDirectory tree s Hd Hs r. subst r.
  unfold FileSystemManager.addFileToVirtualStructure. cbn [fst snd].
  destruct distinctNames_invariant as (D1 & D2 & D3 & D4).
  destruct notSpecial_invariant as (S1 & S2 & S3 & S4).
  split; [|split; [|split]].
  - apply (sortChildren_allNodes distinctNames D3).
    apply (addParts_allNodes distinctNames D1 D2 D3 D4); [|exact Hd].
    reflexivity.
  - apply (sortChildren_allNodes notSpecial S3).
    apply (addParts_allNodes notSpecial S1 S2 S3 S4); [|exact Hs].
    unfold notSpecial. cbn [FileStructure.name]. auto.
  - now rewrite (proj1 (sortChildren_name _ _)),
                (proj1 (addParts_name _ _ _)).
  - reflexivity.
Qed.

(** A file added below a file of a merged tree. *)
Lemma X20_adding_witness :
  let t :=
    fst (FileSystemManager.mergeExternalFileStructure codeUnitCompare
           ["notes"; "src/main.py"] FileSystemManager.initial) in
  let r :=
    FileSystemManager.addFileToVirtualStructure
      codeUnitCompare "notes/today.md" false t FileSystemManager.initial in
  allNodes distinctNames (fst r) = true
  /\ allNodes notSpecial (fst r) = true
  /\ allNodes typed (fst r) = false.
Proof.
  intros t r.
  destruct (X20_adding_keeps_the_tree_well_formed codeUnitCompare
              "notes/today.md" false t FileSystemManager.initial)
    as (Hd & Hs & _ & _); [vm_compute; reflexivity|vm_compute; reflexivity|].
  split; [exact Hd|]. split; [exact Hs|]. vm_compute. reflexivity.
Defined.

(* ================================================================== *)
(** * The content map, applied again *)
(* ================================================================== *)

Section ContentMapAgain.
Import EnhancedFileSystemManager.

Lemma updateContentEntry_settles now filePath c acc :
  settled filePath c (fst (updateContentEntry now filePath c acc)) = true.
Proof.
  destruct acc as [s flag]. unfold updateContentEntry, settled.
  destruct (JsMap.get (normalizePath filePath) (fileMap s)) as [node|] eqn:G;
    cbn [fst]; [|now rewrite G].
  destruct (type node) eqn:Hty; cbn [NodeType_eqb fst];
    [|now rewrite G, Hty].
  unfold contentOf. destruct (differs (content node) c) eqn:Hd.
  - cbn [fst fileMap withFileMap]. rewrite get_set_same.
    destruct (saveToHistory_frame node (orEmpty (content node)))
      as (h & i & ->).
    assert (Hc : forall n, content (if negb (isNew n) && negb (isLocked n)
                                    then setIsDirty n false else n)
                           = content n /\
                           type (if negb (isNew n) && negb (isLocked n)
                                 then setIsDirty n false else n) = type n).
    { intros n. now destruct (negb (isNew n) && negb (isLocked n)). }
    rewrite (proj1 (Hc _)), (proj2 (Hc _)). cbn. rewrite Hty.
    now rewrite String.eqb_refl.
  - cbn [fst]. now rewrite G, Hty, Hd.
Qed.

Lemma updateContentEntry_settled now filePath c s flag :
  settled filePath c s = true ->
  updateContentEntry now filePath c (s, flag) = (s, flag).
Proof.
  unfold settled, updateContentEntry.
  destruct (JsMap.get (normalizePath filePath) (fileMap s)) as [node|];
    [|reflexivity].
  destruct (type node); cbn [NodeType_eqb]; [|reflexivity].
  unfold contentOf. now destruct (differs (content node) c).
Qed.

Lemma settled_other now filePath c filePath' c' acc :
  normalizePath filePath' <> normalizePath filePath ->
  settled filePath c (fst (updateContentEntry now filePath' c' acc))
  = settled filePath c (fst acc).
Proof.
  intros Hne. unfold settled.
  now rewrite (updateContentEntry_other now filePath' c' acc _ Hne).
Qed.

(** After one pass over a map of distinct paths, every entry is
    settled. *)
Lemma pass_settles now entries : forall acc,
  distinctPaths entries = true ->
  forall e, In e entries ->
    settled (fst e) (snd e)
      (fst (fold_left
              (fun acc entry =>
                 updateContentEntry now (fst entry) (snd entry) acc)
              entries acc)) = true.
Proof.
  induction entries as [|e0 r IH]; intros acc Hd e Hin; [destruct Hin|].
  unfold distinctPaths in Hd. cbn [map distinct] in Hd.
  apply andb_true_iff in Hd. destruct Hd as [Hfresh Hd].
  cbn [fold_left]. destruct Hin as [<-|Hin]; [|now apply IH].
  assert (Hothers : othersOnly (normalizePath (fst e0)) r = true).
  { unfold othersOnly. apply forallb_forall. intros e' Hin'.
    apply negb_true_iff. apply negb_true_iff in Hfresh.
    destruct (String.eqb (normalizePath (fst e')) (normalizePath (fst e0)))
      eqn:E; [|reflexivity].
    apply String.eqb_eq in E.
    assert (Hex : existsb (String.eqb (normalizePath (fst e0)))
                    (map (fun entry => normalizePath (fst entry)) r) = true).
    { apply existsb_exists. exists (normalizePath (fst e')). split.
      - apply in_map_iff. eauto.
      - rewrite E. apply String.eqb_refl. }
    congruence. }
  unfold settled.
  rewrite (updateContentEntries_other now r _ _ Hothers).
  apply updateContentEntry_settles.
Qed.

(** A pass over settled entries does nothing. *)
Lemma pass_settled now entries : forall s flag,
  (forall e, In e entries -> settled (fst e) (snd e) s = true) ->
  fold_left (fun acc entry =>
               updateContentEntry now (fst entry) (snd entry) acc)
            entries (s, flag) = (s, flag).
Proof.
  induction entries as [|e0 r IH]; intros s flag H; [reflexivity|].
  cbn [fold_left]. rewrite updateContentEntry_settled by (apply H; now left).
  apply IH. intros e Hin. apply H. now right.
Qed.

Lemma settled_emit filePath c e s :
  settled filePath c (emit e s) = settled filePath c s.
Proof. reflexivity. Qed.

End ContentMapAgain.

(** X21.  A content map that tells nothing new changes nothing.  If every
    entry of the map is for a path without a file record or holds the
    content the file record has, [updateFileContentMap] returns the state
    it was given: no snapshot is pushed, no time stamp moves and no event
    is emitted.  So applying a content map a second time is without
    effect, provided no two of its entries are for the same normalised
    path. *)
Theorem X21_content_map_applied_again :
  (forall now contentMap s,
      (forall e, In e contentMap -> settled (fst e) (snd e) s = true) ->
      EnhancedFileSystemManager.updateFileContentMap now contentMap s = s)
  /\ (forall now now' contentMap s,
         distinctPaths contentMap = true ->
         EnhancedFileSystemManager.updateFileContentMap now' contentMap
           (EnhancedFileSystemManager.updateFileContentMap now contentMap s)
         = EnhancedFileSystemManager.updateFileContentMap now contentMap s).
Proof.
  assert (H1 : forall now contentMap s,
             (forall e, In e contentMap -> settled (fst e) (snd e) s = true) ->
             EnhancedFileSystemManager.updateFileContentMap now contentMap s
             = s).
  { intros now contentMap s H.
    unfold EnhancedFileSystemManager.updateFileContentMap.
    now rewrite (pass_settled now contentMap s false H). }
  split; [exact H1|].
  intros now now' contentMap s Hd. apply H1. intros e Hin.
  pose proof (pass_settles now contentMap (s, false) Hd e Hin) as Hs.
  unfold EnhancedFileSystemManager.updateFileContentMap.
  destruct (fold_left _ contentMap (s, false)) as [s1 hasChanges].
  cbn [fst] in Hs. destruct hasChanges; [|exact Hs].
  now rewrite settled_emit.
Qed.

(** Two files and the map of their remote contents. *)
Lemma X21_content_map_witness :
  let s :=
    EnhancedFileSystemManager.openFile 2 "b.txt"
      (EnhancedFileSystemManager.openFile 1 "a.txt"
         (EnhancedFileSystemManager.initial 0)) in
  let contentMap := [("a.txt", "alpha"); ("/b.txt", "beta"); ("c.txt", "-")] in
  EnhancedFileSystemManager.updateFileContentMap 4 contentMap
    (EnhancedFileSystemManager.updateFileContentMap 3 contentMap s)
  = EnhancedFileSystemManager.updateFileContentMap 3 contentMap s.
Proof.
  intros s contentMap.
  apply (proj2 X21_content_map_applied_again 3%N 4%N contentMap s).
  reflexivity.
Defined.

(* ================================================================== *)
(** * Deleting a node *)
(* ================================================================== *)

Section DeleteFacts.
Import EnhancedFileSystemManager.

Lemma activateOpenTab_openTabs t s :
  openTabs (activateOpenTab t s) = openTabs s.
Proof.
  unfold activateOpenTab.
  set (s1 := match activeTab s with
             | Some a => if String.eqb a "" then s
                         else modify a (fun prevNode => setIsActive prevNode false) s
             | None => s
             end).
  assert (H1 : openTabs s1 = openTabs s).
  { subst s1. destruct (activeTab s) as [a|]; [|reflexivity].
    destruct (String.eqb a ""); [reflexivity|apply modify_openTabs]. }
  destruct (JsMap.get t (fileMap s1)); [|exact H1].
  cbn [openTabs emit withActiveTab]. now rewrite modify_openTabs.
Qed.

Lemma indexOf_None (x : string) (l : list string) :
  JsArray.indexOf x l = None -> ~ In x l.
Proof.
  induction l as [|y r IH]; [intros _ []|]. simpl.
  destruct (String.eqb y x) eqn:E; [discriminate|].
  destruct (JsArray.indexOf x r); [discriminate|].
  intros _ [->|H]; [now rewrite String.eqb_refl in E|now apply IH].
Qed.

(** The tabs after [closeFile]. *)
Lemma closeFile_openTabs now p s :
  tabsWf s = true ->
  openTabs (closeFile now p s)
  = match JsArray.indexOf (normalizePath p) (openTabs s) with
    | Some i => JsArray.removeAt i (openTabs s)
    | None => openTabs s
    end.
Proof.
  intros Hwf.
  destruct (JsArray.indexOf (normalizePath p) (openTabs s)) as [tabIndex|] eqn:E.
  - rewrite (closeFile_unfold now p s tabIndex E). cbn zeta.
    set (np := normalizePath p) in *.
    set (s2 := afterSplice np tabIndex s).
    assert (Htabs2 : openTabs s2 = JsArray.removeAt tabIndex (openTabs s)).
    { subst s2. unfold afterSplice. cbn [openTabs withOpenTabs].
      now rewrite modify_openTabs. }
    cbn [openTabs emit]. rewrite <- Htabs2.
    destruct (match activeTab s2 with
              | Some a => String.eqb a np
              | None => false
              end); [|reflexivity].
    destruct (0 <? length (openTabs s2)); [|reflexivity].
    destruct (nth_error (openTabs s2)
                (Nat.min tabIndex (length (openTabs s2) - 1)))
      as [tab|] eqn:En; [|reflexivity].
    assert (Hin : In tab (openTabs s2)) by (eapply nth_error_In; eauto).
    assert (Hnp : normalizePath tab = tab).
    { rewrite Htabs2 in Hin. apply removeAt_In in Hin.
      now apply (proj1 (tabsWf_spec s) Hwf). }
    unfold activateTab. rewrite Hnp.
    apply includes_In in Hin. rewrite Hin. cbn [negb].
    apply activateOpenTab_openTabs.
  - unfold closeFile. now rewrite E.
Qed.

Lemma withoutTabFlags_fields n n' :
  withoutTabFlags n' = withoutTabFlags n ->
  path n' = path n /\ parent n' = parent n /\ type n' = type n.
Proof.
  intros H. split; [|split].
  - exact (f_equal path H).
  - exact (f_equal parent H).
  - exact (f_equal type H).
Qed.

Lemma keptUpToFlags_refl s : keptUpToFlags s s.
Proof. intros k n H. eauto. Qed.

Lemma keptUpToFlags_trans s1 s2 s3 :
  keptUpToFlags s1 s2 -> keptUpToFlags s2 s3 -> keptUpToFlags s1 s3.
Proof.
  intros H12 H23 k n3 G3. destruct (H23 k n3 G3) as (n2 & G2 & E2).
  destruct (H12 k n2 G2) as (n1 & G1 & E1). exists n1. split; congruence.
Qed.

Lemma keptUpToFlags_has s s' k :
  keptUpToFlags s s' ->
  JsMap.has k (fileMap s') = true -> JsMap.has k (fileMap s) = true.
Proof.
  intros H Hk. apply has_get in Hk. destruct Hk as [n' Hn'].
  destruct (H k n' Hn') as (n & Hn & _). apply has_get. eauto.
Qed.

Lemma noOrphans_trans s1 s2 s3 :
  keptUpToFlags s2 s3 ->
  noOrphans s1 s2 -> noOrphans s2 s3 -> noOrphans s1 s3.
Proof.
  intros K23 H12 H23 k n3 q G3 Hp Hq.
  destruct (K23 k n3 G3) as (n2 & G2 & E2).
  apply withoutTabFlags_fields in E2. destruct E2 as (_ & Ep & _).
  apply (H23 k n3 q G3 Hp). apply (H12 k n2 q G2); congruence.
Qed.

Lemma StoreWf_kept s s' : keptUpToFlags s s' -> StoreWf s -> StoreWf s'.
Proof.
  intros K Hwf k n' G'. destruct (K k n' G') as (n & G & E).
  apply withoutTabFlags_fields in E. destruct E as (_ & Ep & _).
  destruct (Hwf k n G) as [Hstart Hpar]. split; [exact Hstart|].
  intros q Hq. rewrite Ep in Hq. destruct (Hpar q Hq) as [Hlen Hdir].
  split; [exact Hlen|]. intros m' Gm'.
  destruct (K q m' Gm') as (m & Gm & Em).
  apply withoutTabFlags_fields in Em. destruct Em as (_ & _ & Et).
  rewrite Et. now apply Hdir.
Qed.

(** What [closeFile] does to the records. *)
Lemma closeFile_kept now p s :
  tabsWf s = true ->
  keptUpToFlags s (closeFile now p s)
  /\ (forall k, JsMap.has k (fileMap (closeFile now p s))
                = JsMap.has k (fileMap s)).
Proof.
  intros Hwf. split.
  - intros k n' G'.
    pose proof (closeFile_withoutTabFlags now p s k Hwf) as H.
    rewrite G' in H. destruct (JsMap.get k (fileMap s)) as [n|];
      [|discriminate].
    exists n. split; [reflexivity|]. cbn [option_map] in H. congruence.
  - intros k. unfold JsMap.has.
    pose proof (closeFile_withoutTabFlags now p s k Hwf) as H.
    destruct (JsMap.get k (fileMap (closeFile now p s))),
      (JsMap.get k (fileMap s)); try discriminate; reflexivity.
Qed.

(** The record of a path that is no tab is dropped. *)
Lemma delete_TabInv np s :
  TabInv s -> ~ In np (openTabs s) ->
  TabInv (withFileMap s (JsMap.delete np (fileMap s))).
Proof.
  intros ((Hnd & Hpath) & (Htnd & Htabs) & Hactive) Hnin.
  assert (Hget : forall k n,
             JsMap.get k (JsMap.delete np (fileMap s)) = Some n ->
             k <> np /\ JsMap.get k (fileMap s) = Some n).
  { intros k n G. destruct (string_dec np k) as [<-|Hne].
    - now rewrite get_delete_same in G.
    - rewrite get_delete_other in G by exact Hne. auto. }
  unfold TabInv, MapInv, TabsInv, ActiveInv.
  cbn [fileMap openTabs activeTab withFileMap].
  split; [split|split; [split|]].
  - now apply keys_delete_NoDup.
  - intros k n G. apply Hget in G. now apply Hpath.
  - exact Htnd.
  - intros t Hin. destruct (Htabs t Hin) as (Hn & n & G & Ho).
    split; [exact Hn|]. exists n. split; [|exact Ho].
    rewrite get_delete_other; [exact G|]. intros ->. contradiction.
  - intros k n G Ha. apply Hget in G. destruct G as [_ G].
    now apply (Hactive k n).
Qed.

Lemma tabInv_sound s : tabInv s = true -> TabInv s.
Proof.
  unfold tabInv. rewrite !andb_true_iff.
  intros ((((Hk & Hp) & Ht) & Hto) & Ha).
  rewrite distinct_NoDup in Hk, Ht. rewrite forallb_forall in Hp, Hto, Ha.
  split; [split|split; [split|]].
  - exact Hk.
  - intros k n G. apply get_In in G. specialize (Hp _ G).
    now apply String.eqb_eq in Hp.
  - exact Ht.
  - intros t Hin. specialize (Hto _ Hin). apply andb_true_iff in Hto.
    destruct Hto as [Hn Ho]. apply String.eqb_eq in Hn. split; [exact Hn|].
    destruct (JsMap.get t (fileMap s)) as [n|]; [|discriminate]. eauto.
  - intros k n G Hact. apply get_In in G. specialize (Ha _ G).
    cbn [fst snd] in Ha. rewrite Hact in Ha. cbn [negb orb] in Ha.
    apply andb_true_iff in Ha. destruct Ha as [Ha Hin].
    destruct (activeTab s) as [a|]; [|discriminate].
    apply String.eqb_eq in Ha. subst a. split; [reflexivity|].
    now apply includes_In.
Qed.

Lemma storeWf_sound s : storeWf s = true -> StoreWf s.
Proof.
  unfold storeWf. rewrite forallb_forall. intros H k n G.
  apply get_In in G. specialize (H _ G). cbn [fst snd] in H.
  apply andb_true_iff in H. destruct H as [Hs Hp]. split; [exact Hs|].
  intros q Hq. rewrite Hq in Hp. apply andb_true_iff in Hp.
  destruct Hp as [Hlen Hdir]. split; [now apply Nat.ltb_lt|].
  intros m Gm. rewrite Gm in Hdir. now destruct (type m).
Qed.

End DeleteFacts.

Section DeleteNode.
Import EnhancedFileSystemManager.

(** The last step of [deleteNode]: the record of the path is dropped,
    once nothing below it is left. *)
Lemma deleteNode_finish np s s1 s2 :
  TabInv s2 -> ~ In np (openTabs s1) ->
  keptUpToFlags s s1 -> noOrphans s s1 ->
  (forall t, In t (openTabs s1) -> In t (openTabs s)) ->
  keptUpToFlags s1 s2 -> noOrphans s1 s2 ->
  (forall t, In t (openTabs s2) -> In t (openTabs s1)) ->
  (forall k n, JsMap.get k (fileMap s2) = Some n -> parent n <> Some np) ->
  let s3 :=
    emit (nodeDeleted np) (withFileMap s2 (JsMap.delete np (fileMap s2))) in
  JsMap.get np (fileMap s3) = None
  /\ keptUpToFlags s s3 /\ noOrphans s s3
  /\ (forall t, In t (openTabs s3) -> In t (openTabs s))
  /\ TabInv s3.
Proof.
  intros T2 Hnin K1 O1 Tsub1 K2 O2 Tsub2 Hnochild s3.
  assert (Hget : forall k n,
             JsMap.get k (fileMap s3) = Some n ->
             k <> np /\ JsMap.get k (fileMap s2) = Some n).
  { intros k n G. subst s3. cbn [fileMap emit withFileMap] in G.
    destruct (string_dec np k) as [<-|Hne].
    - now rewrite get_delete_same in G.
    - rewrite get_delete_other in G by exact Hne. auto. }
  assert (K3 : keptUpToFlags s2 s3).
  { intros k n G. apply Hget in G. destruct G as [_ G]. eauto. }
  assert (O3 : noOrphans s2 s3).
  { intros k n q G Hp Hq. destruct (Hget k n G) as [_ G2].
    subst s3. cbn [fileMap emit withFileMap]. unfold JsMap.has.
    rewrite get_delete_other; [exact Hq|].
    intros ->. now apply (Hnochild k n G2). }
  split; [subst s3; cbn [fileMap emit withFileMap]; apply get_delete_same|].
  split; [exact (keptUpToFlags_trans _ _ _ K1 (keptUpToFlags_trans _ _ _ K2 K3))|].
  split.
  { apply (noOrphans_trans s s1 s3 (keptUpToFlags_trans _ _ _ K2 K3) O1).
    exact (noOrphans_trans s1 s2 s3 K3 O2 O3). }
  split; [intros t Hin; apply Tsub1, Tsub2, Hin|].
  subst s3. apply emit_TabInv, delete_TabInv; [exact T2|].
  intros Hin. apply Hnin, Tsub2, Hin.
Qed.

(** With fuel for the depth of the records below the path, [deleteNode]
    returns normally. *)
Lemma deleteNode_enough fuel : forall now p s,
  TabInv s -> StoreWf s -> normalizePath p <> "/" -> 0 < fuel ->
  (forall k, JsMap.has k (fileMap s) = true ->
             String.length k < fuel + String.length (normalizePath p)) ->
  exists s',
    deleteNode fuel now p s = Some (Ok tt s')
    /\ JsMap.get (normalizePath p) (fileMap s') = None
    /\ keptUpToFlags s s' /\ noOrphans s s'
    /\ (forall t, In t (openTabs s') -> In t (openTabs s))
    /\ TabInv s'.
Proof.
  induction fuel as [|fuel IH]; intros now p s Tinv Swf Hroot Hfuel Hbound;
    [lia|].
  cbn [deleteNode]. set (np := normalizePath p) in *.
  apply String.eqb_neq in Hroot. rewrite Hroot.
  destruct (JsMap.get np (fileMap s)) as [node|] eqn:G.
  2:{ exists s. split; [reflexivity|]. split; [exact G|].
      split; [apply keptUpToFlags_refl|].
      split; [intros k n q _ _ H; exact H|]. auto. }
  set (s1 := if isOpen node then closeFile now np s else s).
  assert (Hnpnp : normalizePath np = np) by apply normalizePath_idem.
  assert (H1 : keptUpToFlags s s1
               /\ (forall k, JsMap.has k (fileMap s1) = JsMap.has k (fileMap s))
               /\ TabInv s1
               /\ (forall t, In t (openTabs s1) -> In t (openTabs s))
               /\ ~ In np (openTabs s1)).
  { subst s1. destruct (isOpen node) eqn:Ho.
    - pose proof (TabInv_tabsWf s Tinv) as Hwf.
      destruct (closeFile_kept now np s Hwf) as [K Hhas].
      split; [exact K|]. split; [exact Hhas|].
      split; [now apply closeFile_TabInv|].
      rewrite (closeFile_openTabs now np s Hwf), Hnpnp.
      destruct (JsArray.indexOf np (openTabs s)) as [i|] eqn:Ei.
      + split; [intros t; apply removeAt_In|].
        destruct (indexOf_Some _ _ _ Ei) as [Hnth _].
        destruct Tinv as (_ & (Htnd & _) & _).
        rewrite (removeAt_NoDup_In np np (openTabs s) i Htnd Hnth). tauto.
      + split; [auto|]. now apply indexOf_None.
    - split; [apply keptUpToFlags_refl|]. split; [reflexivity|].
      split; [exact Tinv|]. split; [auto|].
      intros Hin. destruct Tinv as (_ & (_ & Htabs) & _).
      destruct (Htabs np Hin) as (_ & n & Gn & Hopen). congruence. }
  destruct H1 as (K1 & Hhas1 & T1 & Tsub1 & Hnin1).
  assert (O1 : noOrphans s s1).
  { intros k n q _ _ Hq. now rewrite Hhas1. }
  assert (Swf1 : StoreWf s1) by exact (StoreWf_kept s s1 K1 Swf).
  clearbody s1.
  assert (Hloop : forall (cs : list FileSystemNode) (st : State),
             (forall c, In c cs ->
                        JsString.startsWith (path c) "/" = true
                        /\ String.length np < String.length (path c)
                        /\ JsMap.has (path c) (fileMap s1) = true) ->
             TabInv st -> StoreWf st -> keptUpToFlags s1 st ->
             exists st',
               (fix each (cs : list FileSystemNode) (st : State)
                  : option (Outcome unit) :=
                  match cs with
                  | [] => Some (Ok tt st)
                  | child :: rest =>
                      match deleteNode fuel now (pathOf child) st with
                      | Some (Ok _ st') => each rest st'
                      | other => other
                      end
                  end) cs st = Some (Ok tt st')
               /\ keptUpToFlags st st' /\ noOrphans st st'
               /\ (forall t, In t (openTabs st') -> In t (openTabs st))
               /\ TabInv st'
               /\ forall c, In c cs -> JsMap.get (path c) (fileMap st') = None).
  { induction cs as [|c r IHr]; intros st Hcs Tst Sst Kst.
    - exists st. split; [reflexivity|]. split; [apply keptUpToFlags_refl|].
      split; [intros k n q _ _ H; exact H|]. split; [auto|].
      split; [exact Tst|]. intros c [].
    - destruct (Hcs c (or_introl eq_refl)) as (Hstart & Hlen & Hhas).
      assert (Hnc : normalizePath (path c) = path c)
        by now apply normalizePath_fixed.
      assert (Hbc : String.length (path c)
                    < S fuel + String.length np).
      { apply Hbound. now rewrite <- Hhas1. }
      destruct (IH now (path c) st Tst Sst) as
          (st1 & Hdel & Hgone & Kc & Oc & Tsubc & Tc).
      + rewrite Hnc. intros E. rewrite E in Hlen.
        destruct np; [discriminate|]. simpl in Hlen. lia.
      + lia.
      + intros k Hk. rewrite Hnc.
        apply (keptUpToFlags_has _ _ _ Kst) in Hk.
        rewrite Hhas1 in Hk. apply Hbound in Hk. lia.
      + rewrite Hnc in Hgone.
        destruct (IHr st1) as (st2 & Heach & K2 & O2 & Tsub2 & T2 & Hgone2).
        * intros c' Hin. apply Hcs. now right.
        * exact Tc.
        * exact (StoreWf_kept _ _ Kc Sst).
        * exact (keptUpToFlags_trans _ _ _ Kst Kc).
        * exists st2. unfold pathOf. rewrite Hdel.
          split; [exact Heach|].
          split; [exact (keptUpToFlags_trans _ _ _ Kc K2)|].
          split; [exact (noOrphans_trans _ _ _ K2 Oc O2)|].
          split; [intros t Hin; apply Tsubc, Tsub2, Hin|].
          split; [exact T2|].
          intros c' [<-|Hin]; [|now apply Hgone2].
          destruct (JsMap.get (path c) (fileMap st2)) as [n2|] eqn:G2;
            [|reflexivity].
          destruct (K2 _ _ G2) as (n1 & G1 & _). congruence. }
  assert (Hfinish : forall s2,
             TabInv s2 -> keptUpToFlags s1 s2 -> noOrphans s1 s2 ->
             (forall t, In t (openTabs s2) -> In t (openTabs s1)) ->
             (forall k n, JsMap.get k (fileMap s2) = Some n ->
                          parent n <> Some np) ->
             exists s',
               Some (Ok tt (emit (nodeDeleted np)
                              (withFileMap s2 (JsMap.delete np (fileMap s2)))))
               = Some (Ok tt s')
               /\ JsMap.get np (fileMap s') = None
               /\ keptUpToFlags s s' /\ noOrphans s s'
               /\ (forall t, In t (openTabs s') -> In t (openTabs s))
               /\ TabInv s').
  { intros s2 T2 K2 O2 Tsub2 Hnochild. eexists. split; [reflexivity|].
    exact (deleteNode_finish np s s1 s2 T2 Hnin1 K1 O1 Tsub1 K2 O2 Tsub2
             Hnochild). }
  destruct (type node) eqn:Hty.
  - apply Hfinish; [exact T1|apply keptUpToFlags_refl| |auto|].
    + intros k n q _ _ H. exact H.
    + intros k n Gk Hp. destruct (K1 k n Gk) as (n0 & G0 & E0).
      apply withoutTabFlags_fields in E0. destruct E0 as (_ & Ep & _).
      destruct (Swf k n0 G0) as [_ Hpar]. rewrite Ep in Hp.
      destruct (Hpar np Hp) as [_ Hdir].
      specialize (Hdir node G). congruence.
  - destruct (Hloop (filter (isChildOf np) (JsMap.values (fileMap s1))) s1)
      as (s2 & Heach & K2 & O2 & Tsub2 & T2 & Hgone).
    + intros c Hin. apply filter_In in Hin. destruct Hin as [Hin Hchild].
      unfold JsMap.values in Hin. apply in_map_iff in Hin.
      destruct Hin as ([k c'] & Hc & Hin). cbn [snd] in Hc. subst c'.
      destruct T1 as ((Hnd1 & Hpath1) & _).
      apply In_get in Hin; [|exact Hnd1].
      rewrite (Hpath1 k c Hin). destruct (Swf1 k c Hin) as [Hstart Hpar].
      split; [exact Hstart|]. split.
      * unfold isChildOf in Hchild.
        destruct (parent c) as [q|] eqn:Hq; [|discriminate].
        apply String.eqb_eq in Hchild. subst q. now apply (Hpar np).
      * apply has_get. eauto.
    + exact T1.
    + exact Swf1.
    + apply keptUpToFlags_refl.
    + rewrite Heach. apply Hfinish; [exact T2|exact K2|exact O2|exact Tsub2|].
      intros k n Gk Hp. destruct (K2 k n Gk) as (n1 & G1 & E1).
      apply withoutTabFlags_fields in E1. destruct E1 as (_ & Ep & _).
      assert (Hin : In n1 (filter (isChildOf np) (JsMap.values (fileMap s1)))).
      { apply filter_In. split.
        - unfold JsMap.values. apply in_map_iff. exists (k, n1).
          split; [reflexivity|now apply get_In].
        - unfold isChildOf. rewrite <- Ep, Hp. apply String.eqb_refl. }
      specialize (Hgone n1 Hin).
      destruct T1 as ((_ & Hpath1) & _). rewrite (Hpath1 k n1 G1) in Hgone.
      congruence.
Qed.

End DeleteNode.

Section DeleteTests.

Lemma keys_bounded_test {V : Type} (m : JsMap.t V) (bound : nat) :
  forallb (fun k => String.length k <? bound) (JsMap.keys m) = true ->
  forall k, JsMap.has k m = true -> String.length k < bound.
Proof.
  rewrite forallb_forall. intros H k Hk. apply Nat.ltb_lt, H.
  apply has_get in Hk. destruct Hk as [v Hv]. now apply get_keys in Hv.
Qed.

End DeleteTests.

(** X22.  [deleteNode] removes the node and what is below it, and leaves
    the rest consistent.  On a store whose records form a tree and whose
    tabs are consistent with the records, and for a path other than the
    root, the call returns normally as soon as the bound of the recursion
    exceeds the depth of the records below the path.  After it the path has
    no record; every record left is a record there was, unchanged but for
    the flags [isOpen] and [isActive]; no record left has lost the record of
    its parent path, so that everything below the deleted node is gone with
    it; no tab is added and every tab left has its record; the tabs and the
    records are consistent and the records form a tree as before. *)
Theorem X22_deleteNode_removes_the_node_and_what_is_below :
  forall fuel now p s,
    TabInv s -> StoreWf s ->
    EnhancedFileSystemManager.normalizePath p <> "/" ->
    0 < fuel ->
    (forall k,
        JsMap.has k (EnhancedFileSystemManager.fileMap s) = true ->
        String.length k
        < fuel + String.length (EnhancedFileSystemManager.normalizePath p)) ->
    exists s',
      EnhancedFileSystemManager.deleteNode fuel now p s
      = Some (EnhancedFileSystemManager.Ok tt s')
      /\ JsMap.get (EnhancedFileSystemManager.normalizePath p)
                   (EnhancedFileSystemManager.fileMap s') = None
      /\ keptUpToFlags s s'
      /\ noOrphans s s'
      /\ (forall t,
             In t (EnhancedFileSystemManager.openTabs s') ->
             In t (EnhancedFileSystemManager.openTabs s))
      /\ TabInv s'
      /\ StoreWf s'.
Proof.
  intros fuel now p s Tinv Swf Hroot Hfuel Hbound.
  destruct (deleteNode_enough fuel now p s Tinv Swf Hroot Hfuel Hbound)
    as (s' & Hdel & Hgone & K & O & Tsub & T').
  exists s'. repeat (split; [assumption|]).
  exact (StoreWf_kept s s' K Swf).
Qed.

(** The directory [/d] with an open file and a sub-directory. *)
Lemma X22_deleteNode_witness :
  let s :=
    EnhancedFileSystemManager.ensureDirectory 3 "/d/sub" None
      (EnhancedFileSystemManager.openFile 2 "/d/a.txt"
         (match EnhancedFileSystemManager.createFile 1 "/d" "a.txt" "x"
                  (EnhancedFileSystemManager.initial 0) with
          | EnhancedFileSystemManager.Ok _ st => st
          | EnhancedFileSystemManager.Throw _ st => st
          end)) in
  EnhancedFileSystemManager.openTabs s = ["/d/a.txt"]
  /\ exists s',
      EnhancedFileSystemManager.deleteNode 10 4 "/d" s
      = Some (EnhancedFileSystemManager.Ok tt s')
      /\ JsMap.get "/d" (EnhancedFileSystemManager.fileMap s') = None
      /\ (forall t,
             In t (EnhancedFileSystemManager.openTabs s') ->
             In t (EnhancedFileSystemManager.openTabs s))
      /\ TabInv s'.
Proof.
  intros s. split; [vm_compute; reflexivity|].
  destruct (X22_deleteNode_removes_the_node_and_what_is_below 10 4 "/d" s)
    as (s' & Hdel & Hgone & _ & _ & Tsub & T' & _).
  - apply tabInv_sound. vm_compute. reflexivity.
  - apply storeWf_sound. vm_compute. reflexivity.
  - discriminate.
  - lia.
  - apply keys_bounded_test. vm_compute. reflexivity.
  - exists s'. split; [exact Hdel|]. split; [exact Hgone|].
    split; [exact Tsub|exact T'].
Defined.
